(** * Shrutam backend: the daily quote pipeline

    A shallow embedding of [services/aiService.ts] (content generator,
    uniqueness checker, category balancer, response parser, fallback table)
    and of [services/quoteService.ts] (date-gated reads and the daily
    publication coordinator), followed by the properties of the written
    specification that can be stated over it.

    Conventions of the embedding.
    - Text is a [string] of bytes: the UTF-8 encoding of the JavaScript
      string (a surrogate that has no partner, which UTF-8 cannot write,
      takes the three bytes its number would take).  White space and case
      mapping are those of the Unicode character database; Devanagari
      text is caseless, so [toLowerCase] leaves its bytes alone.  Where
      JavaScript counts in UTF-16 code units ([includes]), so does the
      embedding.
    - The hosted store and the completion endpoint are external.  Their
      behaviour is an explicit environment carried in the [World]: for every
      request the program issues, the environment fixes which writes of
      concurrent publishers land first and whether the request succeeds,
      returns an error object, or throws.
    - [async] functions become computations of the monad [M]: a state
      transformer over [World] whose result is a value or a thrown error. *)

From Stdlib Require Import ZArith Ascii String List Lia Bool.
From stdpp Require Import base option list gmap strings.

Local Open Scope string_scope.
Local Open Scope list_scope.
Local Open Scope nat_scope.

(** ** JavaScript runtime primitives *)

Module Js.

Definition code (c : ascii) : nat := nat_of_ascii c.

(** The string of the given bytes. *)
Definition bytes (l : list nat) : string :=
  fold_right (fun n s => String (ascii_of_nat n) s) EmptyString l.

(** *** White space

    The white space of [String.prototype.trim], of [parseInt] and of the
    regular expression class [\s] is the same set: the code points of
    WhiteSpace and LineTerminator.  In UTF-8 they take
    - one byte: U+0009 to U+000D and U+0020;
    - two bytes: U+00A0 (C2 A0);
    - three bytes: U+1680 (E1 9A 80), U+2000 to U+200A (E2 80 80 to
      E2 80 8A), U+2028 and U+2029 (E2 80 A8, E2 80 A9), U+202F
      (E2 80 AF), U+205F (E2 81 9F), U+3000 (E3 80 80) and U+FEFF
      (EF BB BF). *)
Definition space1 (a : ascii) : bool :=
  let n := code a in (((9 <=? n) && (n <=? 13)) || (n =? 32))%nat.

Definition space2 (a b : ascii) : bool :=
  ((code a =? 194) && (code b =? 160))%nat.

Definition space3 (a b c : ascii) : bool :=
  let x := code a in
  let y := code b in
  let z := code c in
  (((x =? 225) && (y =? 154) && (z =? 128))
   || ((x =? 226) && (y =? 128)
       && (((128 <=? z) && (z <=? 138)) || (z =? 168) || (z =? 169) || (z =? 175)))
   || ((x =? 226) && (y =? 129) && (z =? 159))
   || ((x =? 227) && (y =? 128) && (z =? 128))
   || ((x =? 239) && (y =? 187) && (z =? 191)))%nat.

(** A byte that a white space character can hold: a byte of a character
    of several bytes, or white space by itself. *)
Definition spaceByte (a : ascii) : bool := space1 a || (128 <=? code a)%nat.

(** [s] is one white space character. *)
Definition isSpace (s : string) : bool :=
  match s with
  | String a EmptyString => space1 a
  | String a (String b EmptyString) => space2 a b
  | String a (String b (String c EmptyString)) => space3 a b c
  | _ => false
  end.

(** The number of bytes of the white space character at the head of
    [s]; 0 when [s] does not start with white space. *)
Definition spaceLength (s : string) : nat :=
  match s with
  | String a r =>
      if space1 a then 1
      else
        match r with
        | String b r2 =>
            if space2 a b then 2
            else
              match r2 with
              | String c _ => if space3 a b c then 3 else 0
              | EmptyString => 0
              end
        | EmptyString => 0
        end
  | EmptyString => 0
  end.

Definition isNewline (c : ascii) : bool := (code c =? 10)%nat.

Definition isDigit (c : ascii) : bool :=
  let n := code c in ((48 <=? n) && (n <=? 57))%nat.

Fixpoint trimStart (s : string) : string :=
  match s with
  | EmptyString => EmptyString
  | String a r =>
      if space1 a then trimStart r
      else
        match r with
        | String b r2 =>
            if space2 a b then trimStart r2
            else
              match r2 with
              | String c r3 => if space3 a b c then trimStart r3 else s
              | EmptyString => s
              end
        | EmptyString => s
        end
  end.

(** [trimEnd] drops a character when it is white space and nothing
    survives to its right. *)
Fixpoint trimEnd (s : string) : string :=
  match s with
  | EmptyString => EmptyString
  | String c r =>
      let r' := trimEnd r in
      if isSpace (String c r') then EmptyString else String c r'
  end.

Definition trim (s : string) : string := trimEnd (trimStart s).

(** *** Case mapping

    [String.prototype.toLowerCase] is the locale-insensitive lowercase
    mapping of the Unicode character database (here version 14.0): the
    simple mappings of UnicodeData.txt, the unconditional mapping of
    SpecialCasing.txt (U+0130) and its one context rule (final sigma).
    The text is read as code points; a byte that is not part of a
    well-formed sequence stands for itself (as a number past U+10FFFF). *)

(** Simple lowercase mappings (UnicodeData.txt): every [step]-th code point
    from [first] to [last] maps to itself plus [delta]. *)
Definition lowerRows : list (N * N * N * Z) :=
  [(0x41, 0x5A, 1, 32%Z); (0xC0, 0xD6, 1, 32%Z); (0xD8, 0xDE, 1, 32%Z);
   (0x100, 0x12E, 2, 1%Z); (0x132, 0x136, 2, 1%Z); (0x139, 0x147, 2, 1%Z);
   (0x14A, 0x176, 2, 1%Z); (0x178, 0x178, 1, (-121)%Z); (0x179, 0x17D, 2, 1%Z);
   (0x181, 0x181, 1, 210%Z); (0x182, 0x184, 2, 1%Z); (0x186, 0x186, 1, 206%Z);
   (0x187, 0x187, 1, 1%Z); (0x189, 0x18A, 1, 205%Z); (0x18B, 0x18B, 1, 1%Z);
   (0x18E, 0x18E, 1, 79%Z); (0x18F, 0x18F, 1, 202%Z); (0x190, 0x190, 1, 203%Z);
   (0x191, 0x191, 1, 1%Z); (0x193, 0x193, 1, 205%Z); (0x194, 0x194, 1, 207%Z);
   (0x196, 0x196, 1, 211%Z); (0x197, 0x197, 1, 209%Z); (0x198, 0x198, 1, 1%Z);
   (0x19C, 0x19C, 1, 211%Z); (0x19D, 0x19D, 1, 213%Z); (0x19F, 0x19F, 1, 214%Z);
   (0x1A0, 0x1A4, 2, 1%Z); (0x1A6, 0x1A6, 1, 218%Z); (0x1A7, 0x1A7, 1, 1%Z);
   (0x1A9, 0x1A9, 1, 218%Z); (0x1AC, 0x1AC, 1, 1%Z); (0x1AE, 0x1AE, 1, 218%Z);
   (0x1AF, 0x1AF, 1, 1%Z); (0x1B1, 0x1B2, 1, 217%Z); (0x1B3, 0x1B5, 2, 1%Z);
   (0x1B7, 0x1B7, 1, 219%Z); (0x1B8, 0x1B8, 1, 1%Z); (0x1BC, 0x1BC, 1, 1%Z);
   (0x1C4, 0x1C4, 1, 2%Z); (0x1C5, 0x1C5, 1, 1%Z); (0x1C7, 0x1C7, 1, 2%Z);
   (0x1C8, 0x1C8, 1, 1%Z); (0x1CA, 0x1CA, 1, 2%Z); (0x1CB, 0x1DB, 2, 1%Z);
   (0x1DE, 0x1EE, 2, 1%Z); (0x1F1, 0x1F1, 1, 2%Z); (0x1F2, 0x1F4, 2, 1%Z);
   (0x1F6, 0x1F6, 1, (-97)%Z); (0x1F7, 0x1F7, 1, (-56)%Z); (0x1F8, 0x21E, 2, 1%Z);
   (0x220, 0x220, 1, (-130)%Z); (0x222, 0x232, 2, 1%Z); (0x23A, 0x23A, 1, 10795%Z);
   (0x23B, 0x23B, 1, 1%Z); (0x23D, 0x23D, 1, (-163)%Z); (0x23E, 0x23E, 1, 10792%Z);
   (0x241, 0x241, 1, 1%Z); (0x243, 0x243, 1, (-195)%Z); (0x244, 0x244, 1, 69%Z);
   (0x245, 0x245, 1, 71%Z); (0x246, 0x24E, 2, 1%Z); (0x370, 0x372, 2, 1%Z);
   (0x376, 0x376, 1, 1%Z); (0x37F, 0x37F, 1, 116%Z); (0x386, 0x386, 1, 38%Z);
   (0x388, 0x38A, 1, 37%Z); (0x38C, 0x38C, 1, 64%Z); (0x38E, 0x38F, 1, 63%Z);
   (0x391, 0x3A1, 1, 32%Z); (0x3A3, 0x3AB, 1, 32%Z); (0x3CF, 0x3CF, 1, 8%Z);
   (0x3D8, 0x3EE, 2, 1%Z); (0x3F4, 0x3F4, 1, (-60)%Z); (0x3F7, 0x3F7, 1, 1%Z);
   (0x3F9, 0x3F9, 1, (-7)%Z); (0x3FA, 0x3FA, 1, 1%Z); (0x3FD, 0x3FF, 1, (-130)%Z);
   (0x400, 0x40F, 1, 80%Z); (0x410, 0x42F, 1, 32%Z); (0x460, 0x480, 2, 1%Z);
   (0x48A, 0x4BE, 2, 1%Z); (0x4C0, 0x4C0, 1, 15%Z); (0x4C1, 0x4CD, 2, 1%Z);
   (0x4D0, 0x52E, 2, 1%Z); (0x531, 0x556, 1, 48%Z); (0x10A0, 0x10C5, 1, 7264%Z);
   (0x10C7, 0x10C7, 1, 7264%Z); (0x10CD, 0x10CD, 1, 7264%Z); (0x13A0, 0x13EF, 1, 38864%Z);
   (0x13F0, 0x13F5, 1, 8%Z); (0x1C90, 0x1CBA, 1, (-3008)%Z); (0x1CBD, 0x1CBF, 1, (-3008)%Z);
   (0x1E00, 0x1E94, 2, 1%Z); (0x1E9E, 0x1E9E, 1, (-7615)%Z); (0x1EA0, 0x1EFE, 2, 1%Z);
   (0x1F08, 0x1F0F, 1, (-8)%Z); (0x1F18, 0x1F1D, 1, (-8)%Z); (0x1F28, 0x1F2F, 1, (-8)%Z);
   (0x1F38, 0x1F3F, 1, (-8)%Z); (0x1F48, 0x1F4D, 1, (-8)%Z); (0x1F59, 0x1F5F, 2, (-8)%Z);
   (0x1F68, 0x1F6F, 1, (-8)%Z); (0x1F88, 0x1F8F, 1, (-8)%Z); (0x1F98, 0x1F9F, 1, (-8)%Z);
   (0x1FA8, 0x1FAF, 1, (-8)%Z); (0x1FB8, 0x1FB9, 1, (-8)%Z); (0x1FBA, 0x1FBB, 1, (-74)%Z);
   (0x1FBC, 0x1FBC, 1, (-9)%Z); (0x1FC8, 0x1FCB, 1, (-86)%Z); (0x1FCC, 0x1FCC, 1, (-9)%Z);
   (0x1FD8, 0x1FD9, 1, (-8)%Z); (0x1FDA, 0x1FDB, 1, (-100)%Z); (0x1FE8, 0x1FE9, 1, (-8)%Z);
   (0x1FEA, 0x1FEB, 1, (-112)%Z); (0x1FEC, 0x1FEC, 1, (-7)%Z); (0x1FF8, 0x1FF9, 1, (-128)%Z);
   (0x1FFA, 0x1FFB, 1, (-126)%Z); (0x1FFC, 0x1FFC, 1, (-9)%Z); (0x2126, 0x2126, 1, (-7517)%Z);
   (0x212A, 0x212A, 1, (-8383)%Z); (0x212B, 0x212B, 1, (-8262)%Z); (0x2132, 0x2132, 1, 28%Z);
   (0x2160, 0x216F, 1, 16%Z); (0x2183, 0x2183, 1, 1%Z); (0x24B6, 0x24CF, 1, 26%Z);
   (0x2C00, 0x2C2F, 1, 48%Z); (0x2C60, 0x2C60, 1, 1%Z); (0x2C62, 0x2C62, 1, (-10743)%Z);
   (0x2C63, 0x2C63, 1, (-3814)%Z); (0x2C64, 0x2C64, 1, (-10727)%Z); (0x2C67, 0x2C6B, 2, 1%Z);
   (0x2C6D, 0x2C6D, 1, (-10780)%Z); (0x2C6E, 0x2C6E, 1, (-10749)%Z); (0x2C6F, 0x2C6F, 1, (-10783)%Z);
   (0x2C70, 0x2C70, 1, (-10782)%Z); (0x2C72, 0x2C72, 1, 1%Z); (0x2C75, 0x2C75, 1, 1%Z);
   (0x2C7E, 0x2C7F, 1, (-10815)%Z); (0x2C80, 0x2CE2, 2, 1%Z); (0x2CEB, 0x2CED, 2, 1%Z);
   (0x2CF2, 0x2CF2, 1, 1%Z); (0xA640, 0xA66C, 2, 1%Z); (0xA680, 0xA69A, 2, 1%Z);
   (0xA722, 0xA72E, 2, 1%Z); (0xA732, 0xA76E, 2, 1%Z); (0xA779, 0xA77B, 2, 1%Z);
   (0xA77D, 0xA77D, 1, (-35332)%Z); (0xA77E, 0xA786, 2, 1%Z); (0xA78B, 0xA78B, 1, 1%Z);
   (0xA78D, 0xA78D, 1, (-42280)%Z); (0xA790, 0xA792, 2, 1%Z); (0xA796, 0xA7A8, 2, 1%Z);
   (0xA7AA, 0xA7AA, 1, (-42308)%Z); (0xA7AB, 0xA7AB, 1, (-42319)%Z); (0xA7AC, 0xA7AC, 1, (-42315)%Z);
   (0xA7AD, 0xA7AD, 1, (-42305)%Z); (0xA7AE, 0xA7AE, 1, (-42308)%Z); (0xA7B0, 0xA7B0, 1, (-42258)%Z);
   (0xA7B1, 0xA7B1, 1, (-42282)%Z); (0xA7B2, 0xA7B2, 1, (-42261)%Z); (0xA7B3, 0xA7B3, 1, 928%Z);
   (0xA7B4, 0xA7C2, 2, 1%Z); (0xA7C4, 0xA7C4, 1, (-48)%Z); (0xA7C5, 0xA7C5, 1, (-42307)%Z);
   (0xA7C6, 0xA7C6, 1, (-35384)%Z); (0xA7C7, 0xA7C9, 2, 1%Z); (0xA7D0, 0xA7D0, 1, 1%Z);
   (0xA7D6, 0xA7D8, 2, 1%Z); (0xA7F5, 0xA7F5, 1, 1%Z); (0xFF21, 0xFF3A, 1, 32%Z);
   (0x10400, 0x10427, 1, 40%Z); (0x104B0, 0x104D3, 1, 40%Z); (0x10570, 0x10594, 2, 39%Z);
   (0x10571, 0x1057A, 1, 39%Z); (0x1057D, 0x1058A, 1, 39%Z); (0x1058D, 0x10592, 1, 39%Z);
   (0x10595, 0x10595, 1, 39%Z); (0x10C80, 0x10CB2, 1, 64%Z); (0x118A0, 0x118BF, 1, 32%Z);
   (0x16E40, 0x16E5F, 1, 32%Z); (0x1E900, 0x1E921, 1, 34%Z)]%N.

(** Code points that are cased (Lowercase, Uppercase or titlecase letters)
    and not case-ignorable. *)
Definition casedRanges : list (N * N) :=
  [(0x41, 0x5A); (0x61, 0x7A); (0xAA, 0xAA); (0xB5, 0xB5); (0xBA, 0xBA);
   (0xC0, 0xD6); (0xD8, 0xF6); (0xF8, 0x1BA); (0x1BC, 0x1BF); (0x1C4, 0x293);
   (0x295, 0x2AF); (0x370, 0x373); (0x376, 0x377); (0x37B, 0x37D); (0x37F, 0x37F);
   (0x386, 0x386); (0x388, 0x38A); (0x38C, 0x38C); (0x38E, 0x3A1); (0x3A3, 0x3F5);
   (0x3F7, 0x481); (0x48A, 0x52F); (0x531, 0x556); (0x560, 0x588); (0x10A0, 0x10C5);
   (0x10C7, 0x10C7); (0x10CD, 0x10CD); (0x10D0, 0x10FA); (0x10FD, 0x10FF); (0x13A0, 0x13F5);
   (0x13F8, 0x13FD); (0x1C80, 0x1C88); (0x1C90, 0x1CBA); (0x1CBD, 0x1CBF); (0x1D00, 0x1D2B);
   (0x1D6B, 0x1D77); (0x1D79, 0x1D9A); (0x1E00, 0x1F15); (0x1F18, 0x1F1D); (0x1F20, 0x1F45);
   (0x1F48, 0x1F4D); (0x1F50, 0x1F57); (0x1F59, 0x1F59); (0x1F5B, 0x1F5B); (0x1F5D, 0x1F5D);
   (0x1F5F, 0x1F7D); (0x1F80, 0x1FB4); (0x1FB6, 0x1FBC); (0x1FBE, 0x1FBE); (0x1FC2, 0x1FC4);
   (0x1FC6, 0x1FCC); (0x1FD0, 0x1FD3); (0x1FD6, 0x1FDB); (0x1FE0, 0x1FEC); (0x1FF2, 0x1FF4);
   (0x1FF6, 0x1FFC); (0x2102, 0x2102); (0x2107, 0x2107); (0x210A, 0x2113); (0x2115, 0x2115);
   (0x2119, 0x211D); (0x2124, 0x2124); (0x2126, 0x2126); (0x2128, 0x2128); (0x212A, 0x212D);
   (0x212F, 0x2134); (0x2139, 0x2139); (0x213C, 0x213F); (0x2145, 0x2149); (0x214E, 0x214E);
   (0x2160, 0x217F); (0x2183, 0x2184); (0x24B6, 0x24E9); (0x2C00, 0x2C7B); (0x2C7E, 0x2CE4);
   (0x2CEB, 0x2CEE); (0x2CF2, 0x2CF3); (0x2D00, 0x2D25); (0x2D27, 0x2D27); (0x2D2D, 0x2D2D);
   (0xA640, 0xA66D); (0xA680, 0xA69B); (0xA722, 0xA76F); (0xA771, 0xA787); (0xA78B, 0xA78E);
   (0xA790, 0xA7CA); (0xA7D0, 0xA7D1); (0xA7D3, 0xA7D3); (0xA7D5, 0xA7D9); (0xA7F5, 0xA7F6);
   (0xA7FA, 0xA7FA); (0xAB30, 0xAB5A); (0xAB60, 0xAB68); (0xAB70, 0xABBF); (0xFB00, 0xFB06);
   (0xFB13, 0xFB17); (0xFF21, 0xFF3A); (0xFF41, 0xFF5A); (0x10400, 0x1044F); (0x104B0, 0x104D3);
   (0x104D8, 0x104FB); (0x10570, 0x1057A); (0x1057C, 0x1058A); (0x1058C, 0x10592); (0x10594, 0x10595);
   (0x10597, 0x105A1); (0x105A3, 0x105B1); (0x105B3, 0x105B9); (0x105BB, 0x105BC); (0x10C80, 0x10CB2);
   (0x10CC0, 0x10CF2); (0x118A0, 0x118DF); (0x16E40, 0x16E7F); (0x1D400, 0x1D454); (0x1D456, 0x1D49C);
   (0x1D49E, 0x1D49F); (0x1D4A2, 0x1D4A2); (0x1D4A5, 0x1D4A6); (0x1D4A9, 0x1D4AC); (0x1D4AE, 0x1D4B9);
   (0x1D4BB, 0x1D4BB); (0x1D4BD, 0x1D4C3); (0x1D4C5, 0x1D505); (0x1D507, 0x1D50A); (0x1D50D, 0x1D514);
   (0x1D516, 0x1D51C); (0x1D51E, 0x1D539); (0x1D53B, 0x1D53E); (0x1D540, 0x1D544); (0x1D546, 0x1D546);
   (0x1D54A, 0x1D550); (0x1D552, 0x1D6A5); (0x1D6A8, 0x1D6C0); (0x1D6C2, 0x1D6DA); (0x1D6DC, 0x1D6FA);
   (0x1D6FC, 0x1D714); (0x1D716, 0x1D734); (0x1D736, 0x1D74E); (0x1D750, 0x1D76E); (0x1D770, 0x1D788);
   (0x1D78A, 0x1D7A8); (0x1D7AA, 0x1D7C2); (0x1D7C4, 0x1D7CB); (0x1DF00, 0x1DF09); (0x1DF0B, 0x1DF1E);
   (0x1E900, 0x1E943); (0x1F130, 0x1F149); (0x1F150, 0x1F169); (0x1F170, 0x1F189)]%N.

(** Case-ignorable code points (DerivedCoreProperties.txt). *)
Definition caseIgnorableRanges : list (N * N) :=
  [(0x27, 0x27); (0x2E, 0x2E); (0x3A, 0x3A); (0x5E, 0x5E); (0x60, 0x60);
   (0xA8, 0xA8); (0xAD, 0xAD); (0xAF, 0xAF); (0xB4, 0xB4); (0xB7, 0xB8);
   (0x2B0, 0x36F); (0x374, 0x375); (0x37A, 0x37A); (0x384, 0x385); (0x387, 0x387);
   (0x483, 0x489); (0x559, 0x559); (0x55F, 0x55F); (0x591, 0x5BD); (0x5BF, 0x5BF);
   (0x5C1, 0x5C2); (0x5C4, 0x5C5); (0x5C7, 0x5C7); (0x5F4, 0x5F4); (0x600, 0x605);
   (0x610, 0x61A); (0x61C, 0x61C); (0x640, 0x640); (0x64B, 0x65F); (0x670, 0x670);
   (0x6D6, 0x6DD); (0x6DF, 0x6E8); (0x6EA, 0x6ED); (0x70F, 0x70F); (0x711, 0x711);
   (0x730, 0x74A); (0x7A6, 0x7B0); (0x7EB, 0x7F5); (0x7FA, 0x7FA); (0x7FD, 0x7FD);
   (0x816, 0x82D); (0x859, 0x85B); (0x888, 0x888); (0x890, 0x891); (0x898, 0x89F);
   (0x8C9, 0x902); (0x93A, 0x93A); (0x93C, 0x93C); (0x941, 0x948); (0x94D, 0x94D);
   (0x951, 0x957); (0x962, 0x963); (0x971, 0x971); (0x981, 0x981); (0x9BC, 0x9BC);
   (0x9C1, 0x9C4); (0x9CD, 0x9CD); (0x9E2, 0x9E3); (0x9FE, 0x9FE); (0xA01, 0xA02);
   (0xA3C, 0xA3C); (0xA41, 0xA42); (0xA47, 0xA48); (0xA4B, 0xA4D); (0xA51, 0xA51);
   (0xA70, 0xA71); (0xA75, 0xA75); (0xA81, 0xA82); (0xABC, 0xABC); (0xAC1, 0xAC5);
   (0xAC7, 0xAC8); (0xACD, 0xACD); (0xAE2, 0xAE3); (0xAFA, 0xAFF); (0xB01, 0xB01);
   (0xB3C, 0xB3C); (0xB3F, 0xB3F); (0xB41, 0xB44); (0xB4D, 0xB4D); (0xB55, 0xB56);
   (0xB62, 0xB63); (0xB82, 0xB82); (0xBC0, 0xBC0); (0xBCD, 0xBCD); (0xC00, 0xC00);
   (0xC04, 0xC04); (0xC3C, 0xC3C); (0xC3E, 0xC40); (0xC46, 0xC48); (0xC4A, 0xC4D);
   (0xC55, 0xC56); (0xC62, 0xC63); (0xC81, 0xC81); (0xCBC, 0xCBC); (0xCBF, 0xCBF);
   (0xCC6, 0xCC6); (0xCCC, 0xCCD); (0xCE2, 0xCE3); (0xD00, 0xD01); (0xD3B, 0xD3C);
   (0xD41, 0xD44); (0xD4D, 0xD4D); (0xD62, 0xD63); (0xD81, 0xD81); (0xDCA, 0xDCA);
   (0xDD2, 0xDD4); (0xDD6, 0xDD6); (0xE31, 0xE31); (0xE34, 0xE3A); (0xE46, 0xE4E);
   (0xEB1, 0xEB1); (0xEB4, 0xEBC); (0xEC6, 0xEC6); (0xEC8, 0xECD); (0xF18, 0xF19);
   (0xF35, 0xF35); (0xF37, 0xF37); (0xF39, 0xF39); (0xF71, 0xF7E); (0xF80, 0xF84);
   (0xF86, 0xF87); (0xF8D, 0xF97); (0xF99, 0xFBC); (0xFC6, 0xFC6); (0x102D, 0x1030);
   (0x1032, 0x1037); (0x1039, 0x103A); (0x103D, 0x103E); (0x1058, 0x1059); (0x105E, 0x1060);
   (0x1071, 0x1074); (0x1082, 0x1082); (0x1085, 0x1086); (0x108D, 0x108D); (0x109D, 0x109D);
   (0x10FC, 0x10FC); (0x135D, 0x135F); (0x1712, 0x1714); (0x1732, 0x1733); (0x1752, 0x1753);
   (0x1772, 0x1773); (0x17B4, 0x17B5); (0x17B7, 0x17BD); (0x17C6, 0x17C6); (0x17C9, 0x17D3);
   (0x17D7, 0x17D7); (0x17DD, 0x17DD); (0x180B, 0x180F); (0x1843, 0x1843); (0x1885, 0x1886);
   (0x18A9, 0x18A9); (0x1920, 0x1922); (0x1927, 0x1928); (0x1932, 0x1932); (0x1939, 0x193B);
   (0x1A17, 0x1A18); (0x1A1B, 0x1A1B); (0x1A56, 0x1A56); (0x1A58, 0x1A5E); (0x1A60, 0x1A60);
   (0x1A62, 0x1A62); (0x1A65, 0x1A6C); (0x1A73, 0x1A7C); (0x1A7F, 0x1A7F); (0x1AA7, 0x1AA7);
   (0x1AB0, 0x1ACE); (0x1B00, 0x1B03); (0x1B34, 0x1B34); (0x1B36, 0x1B3A); (0x1B3C, 0x1B3C);
   (0x1B42, 0x1B42); (0x1B6B, 0x1B73); (0x1B80, 0x1B81); (0x1BA2, 0x1BA5); (0x1BA8, 0x1BA9);
   (0x1BAB, 0x1BAD); (0x1BE6, 0x1BE6); (0x1BE8, 0x1BE9); (0x1BED, 0x1BED); (0x1BEF, 0x1BF1);
   (0x1C2C, 0x1C33); (0x1C36, 0x1C37); (0x1C78, 0x1C7D); (0x1CD0, 0x1CD2); (0x1CD4, 0x1CE0);
   (0x1CE2, 0x1CE8); (0x1CED, 0x1CED); (0x1CF4, 0x1CF4); (0x1CF8, 0x1CF9); (0x1D2C, 0x1D6A);
   (0x1D78, 0x1D78); (0x1D9B, 0x1DFF); (0x1FBD, 0x1FBD); (0x1FBF, 0x1FC1); (0x1FCD, 0x1FCF);
   (0x1FDD, 0x1FDF); (0x1FED, 0x1FEF); (0x1FFD, 0x1FFE); (0x200B, 0x200F); (0x2018, 0x2019);
   (0x2024, 0x2024); (0x2027, 0x2027); (0x202A, 0x202E); (0x2060, 0x2064); (0x2066, 0x206F);
   (0x2071, 0x2071); (0x207F, 0x207F); (0x2090, 0x209C); (0x20D0, 0x20F0); (0x2C7C, 0x2C7D);
   (0x2CEF, 0x2CF1); (0x2D6F, 0x2D6F); (0x2D7F, 0x2D7F); (0x2DE0, 0x2DFF); (0x2E2F, 0x2E2F);
   (0x3005, 0x3005); (0x302A, 0x302D); (0x3031, 0x3035); (0x303B, 0x303B); (0x3099, 0x309E);
   (0x30FC, 0x30FE); (0xA015, 0xA015); (0xA4F8, 0xA4FD); (0xA60C, 0xA60C); (0xA66F, 0xA672);
   (0xA674, 0xA67D); (0xA67F, 0xA67F); (0xA69C, 0xA69F); (0xA6F0, 0xA6F1); (0xA700, 0xA721);
   (0xA770, 0xA770); (0xA788, 0xA78A); (0xA7F2, 0xA7F4); (0xA7F8, 0xA7F9); (0xA802, 0xA802);
   (0xA806, 0xA806); (0xA80B, 0xA80B); (0xA825, 0xA826); (0xA82C, 0xA82C); (0xA8C4, 0xA8C5);
   (0xA8E0, 0xA8F1); (0xA8FF, 0xA8FF); (0xA926, 0xA92D); (0xA947, 0xA951); (0xA980, 0xA982);
   (0xA9B3, 0xA9B3); (0xA9B6, 0xA9B9); (0xA9BC, 0xA9BD); (0xA9CF, 0xA9CF); (0xA9E5, 0xA9E6);
   (0xAA29, 0xAA2E); (0xAA31, 0xAA32); (0xAA35, 0xAA36); (0xAA43, 0xAA43); (0xAA4C, 0xAA4C);
   (0xAA70, 0xAA70); (0xAA7C, 0xAA7C); (0xAAB0, 0xAAB0); (0xAAB2, 0xAAB4); (0xAAB7, 0xAAB8);
   (0xAABE, 0xAABF); (0xAAC1, 0xAAC1); (0xAADD, 0xAADD); (0xAAEC, 0xAAED); (0xAAF3, 0xAAF4);
   (0xAAF6, 0xAAF6); (0xAB5B, 0xAB5F); (0xAB69, 0xAB6B); (0xABE5, 0xABE5); (0xABE8, 0xABE8);
   (0xABED, 0xABED); (0xFB1E, 0xFB1E); (0xFBB2, 0xFBC2); (0xFE00, 0xFE0F); (0xFE13, 0xFE13);
   (0xFE20, 0xFE2F); (0xFE52, 0xFE52); (0xFE55, 0xFE55); (0xFEFF, 0xFEFF); (0xFF07, 0xFF07);
   (0xFF0E, 0xFF0E); (0xFF1A, 0xFF1A); (0xFF3E, 0xFF3E); (0xFF40, 0xFF40); (0xFF70, 0xFF70);
   (0xFF9E, 0xFF9F); (0xFFE3, 0xFFE3); (0xFFF9, 0xFFFB); (0x101FD, 0x101FD); (0x102E0, 0x102E0);
   (0x10376, 0x1037A); (0x10780, 0x10785); (0x10787, 0x107B0); (0x107B2, 0x107BA); (0x10A01, 0x10A03);
   (0x10A05, 0x10A06); (0x10A0C, 0x10A0F); (0x10A38, 0x10A3A); (0x10A3F, 0x10A3F); (0x10AE5, 0x10AE6);
   (0x10D24, 0x10D27); (0x10EAB, 0x10EAC); (0x10F46, 0x10F50); (0x10F82, 0x10F85); (0x11001, 0x11001);
   (0x11038, 0x11046); (0x11070, 0x11070); (0x11073, 0x11074); (0x1107F, 0x11081); (0x110B3, 0x110B6);
   (0x110B9, 0x110BA); (0x110BD, 0x110BD); (0x110C2, 0x110C2); (0x110CD, 0x110CD); (0x11100, 0x11102);
   (0x11127, 0x1112B); (0x1112D, 0x11134); (0x11173, 0x11173); (0x11180, 0x11181); (0x111B6, 0x111BE);
   (0x111C9, 0x111CC); (0x111CF, 0x111CF); (0x1122F, 0x11231); (0x11234, 0x11234); (0x11236, 0x11237);
   (0x1123E, 0x1123E); (0x112DF, 0x112DF); (0x112E3, 0x112EA); (0x11300, 0x11301); (0x1133B, 0x1133C);
   (0x11340, 0x11340); (0x11366, 0x1136C); (0x11370, 0x11374); (0x11438, 0x1143F); (0x11442, 0x11444);
   (0x11446, 0x11446); (0x1145E, 0x1145E); (0x114B3, 0x114B8); (0x114BA, 0x114BA); (0x114BF, 0x114C0);
   (0x114C2, 0x114C3); (0x115B2, 0x115B5); (0x115BC, 0x115BD); (0x115BF, 0x115C0); (0x115DC, 0x115DD);
   (0x11633, 0x1163A); (0x1163D, 0x1163D); (0x1163F, 0x11640); (0x116AB, 0x116AB); (0x116AD, 0x116AD);
   (0x116B0, 0x116B5); (0x116B7, 0x116B7); (0x1171D, 0x1171F); (0x11722, 0x11725); (0x11727, 0x1172B);
   (0x1182F, 0x11837); (0x11839, 0x1183A); (0x1193B, 0x1193C); (0x1193E, 0x1193E); (0x11943, 0x11943);
   (0x119D4, 0x119D7); (0x119DA, 0x119DB); (0x119E0, 0x119E0); (0x11A01, 0x11A0A); (0x11A33, 0x11A38);
   (0x11A3B, 0x11A3E); (0x11A47, 0x11A47); (0x11A51, 0x11A56); (0x11A59, 0x11A5B); (0x11A8A, 0x11A96);
   (0x11A98, 0x11A99); (0x11C30, 0x11C36); (0x11C38, 0x11C3D); (0x11C3F, 0x11C3F); (0x11C92, 0x11CA7);
   (0x11CAA, 0x11CB0); (0x11CB2, 0x11CB3); (0x11CB5, 0x11CB6); (0x11D31, 0x11D36); (0x11D3A, 0x11D3A);
   (0x11D3C, 0x11D3D); (0x11D3F, 0x11D45); (0x11D47, 0x11D47); (0x11D90, 0x11D91); (0x11D95, 0x11D95);
   (0x11D97, 0x11D97); (0x11EF3, 0x11EF4); (0x13430, 0x13438); (0x16AF0, 0x16AF4); (0x16B30, 0x16B36);
   (0x16B40, 0x16B43); (0x16F4F, 0x16F4F); (0x16F8F, 0x16F9F); (0x16FE0, 0x16FE1); (0x16FE3, 0x16FE4);
   (0x1AFF0, 0x1AFF3); (0x1AFF5, 0x1AFFB); (0x1AFFD, 0x1AFFE); (0x1BC9D, 0x1BC9E); (0x1BCA0, 0x1BCA3);
   (0x1CF00, 0x1CF2D); (0x1CF30, 0x1CF46); (0x1D167, 0x1D169); (0x1D173, 0x1D182); (0x1D185, 0x1D18B);
   (0x1D1AA, 0x1D1AD); (0x1D242, 0x1D244); (0x1DA00, 0x1DA36); (0x1DA3B, 0x1DA6C); (0x1DA75, 0x1DA75);
   (0x1DA84, 0x1DA84); (0x1DA9B, 0x1DA9F); (0x1DAA1, 0x1DAAF); (0x1E000, 0x1E006); (0x1E008, 0x1E018);
   (0x1E01B, 0x1E021); (0x1E023, 0x1E024); (0x1E026, 0x1E02A); (0x1E130, 0x1E13D); (0x1E2AE, 0x1E2AE);
   (0x1E2EC, 0x1E2EF); (0x1E8D0, 0x1E8D6); (0x1E944, 0x1E94B); (0x1F3FB, 0x1F3FF); (0xE0001, 0xE0001);
   (0xE0020, 0xE007F); (0xE0100, 0xE01EF)]%N.

Definition cont (a : ascii) : bool :=
  let n := code a in ((128 <=? n) && (n <? 192))%nat.

Definition byte (a : ascii) : N := N.of_nat (code a).

Definition stray (a : ascii) : N := (0x110000 + byte a)%N.

Fixpoint decode (s : string) : list N :=
  match s with
  | EmptyString => []
  | String a r =>
      if (byte a <? 0x80)%N then byte a :: decode r
      else
        match r with
        | String b r2 =>
            if cont b then
              let v2 := ((byte a - 0xC0) * 64 + (byte b - 0x80))%N in
              if ((0xC2 <=? byte a) && (byte a <? 0xE0))%N then v2 :: decode r2
              else
                match r2 with
                | String c r3 =>
                    if cont c then
                      let v3 := (((byte a - 0xE0) * 64 + (byte b - 0x80)) * 64
                                 + (byte c - 0x80))%N in
                      if ((0xE0 <=? byte a) && (byte a <? 0xF0) && (0x800 <=? v3))%N
                      then v3 :: decode r3
                      else
                        match r3 with
                        | String d r4 =>
                            let v4 := ((((byte a - 0xF0) * 64 + (byte b - 0x80)) * 64
                                        + (byte c - 0x80)) * 64 + (byte d - 0x80))%N in
                            if cont d && (0xF0 <=? byte a)%N
                               && (0x10000 <=? v4)%N && (v4 <? 0x110000)%N
                            then v4 :: decode r4
                            else stray a :: decode r
                        | EmptyString => stray a :: decode r
                        end
                    else stray a :: decode r
                | EmptyString => stray a :: decode r
                end
            else stray a :: decode r
        | EmptyString => stray a :: decode r
        end
  end.

Definition ofN (n : N) : ascii := ascii_of_N n.

Definition encode (c : N) : string :=
  if (c <? 0x80)%N then String (ofN c) EmptyString
  else if (c <? 0x800)%N then
    String (ofN (0xC0 + c / 64)) (String (ofN (0x80 + c mod 64)) EmptyString)
  else if (c <? 0x10000)%N then
    String (ofN (0xE0 + c / 4096))
      (String (ofN (0x80 + (c / 64) mod 64))
         (String (ofN (0x80 + c mod 64)) EmptyString))
  else if (c <? 0x110000)%N then
    String (ofN (0xF0 + c / 262144))
      (String (ofN (0x80 + (c / 4096) mod 64))
         (String (ofN (0x80 + (c / 64) mod 64))
            (String (ofN (0x80 + c mod 64)) EmptyString)))
  else String (ofN (c - 0x110000)) EmptyString.

(** Membership in a list of ranges given in increasing order. *)
Fixpoint inRanges (c : N) (l : list (N * N)) : bool :=
  match l with
  | [] => false
  | (first, last) :: r =>
      if (c <? first)%N then false
      else if (c <=? last)%N then true
      else inRanges c r
  end.

Definition caseIgnorable (c : N) : bool := inRanges c caseIgnorableRanges.

Definition cased (c : N) : bool := inRanges c casedRanges.

(** The row of [c] in a list of rows given in increasing order of their
    first code point. *)
Fixpoint lowerRow (c : N) (rows : list (N * N * N * Z)) : option Z :=
  match rows with
  | [] => None
  | (first, last, step, delta) :: r =>
      if (c <? first)%N then None
      else if ((c <=? last) && ((c - first) mod step =? 0))%N then Some delta
      else lowerRow c r
  end.

(** The lowercase of a code point, out of context. *)
Definition lowerOf (c : N) : list N :=
  if (c =? 0x130)%N then [0x69; 0x307]%N
  else
    match lowerRow c lowerRows with
    | Some delta => [Z.to_N (Z.of_N c + delta)]
    | None => [c]
    end.

(** A cased letter follows, case-ignorable characters skipped. *)
Fixpoint casedFollows (l : list N) : bool :=
  match l with
  | [] => false
  | c :: r => if caseIgnorable c then casedFollows r else cased c
  end.

(** [before]: a cased letter precedes, case-ignorable characters
    skipped.  Capital sigma becomes the final form when a cased letter
    precedes and none follows. *)
Fixpoint lowerFrom (before : bool) (l : list N) : list N :=
  match l with
  | [] => []
  | c :: r =>
      (if (c =? 0x3A3)%N
       then (if before && negb (casedFollows r) then [0x3C2]%N else [0x3C3]%N)
       else lowerOf c)
      ++ lowerFrom (if caseIgnorable c then before else cased c) r
  end.

Definition toLowerCase (s : string) : string :=
  fold_right (fun c t => (encode c ++ t)%string) EmptyString
    (lowerFrom false (decode s)).

Fixpoint startsWith (s p : string) {struct p} : bool :=
  match p, s with
  | EmptyString, _ => true
  | String _ _, EmptyString => false
  | String a p', String b s' => if Ascii.eqb a b then startsWith s' p' else false
  end.

(** The bytes of [t] occur in [s] as a contiguous run. *)
Fixpoint bytesInclude (s t : string) : bool :=
  startsWith s t ||
  match s with
  | EmptyString => false
  | String _ r => bytesInclude r t
  end.

(** The UTF-16 code units of a character, and of a text. *)
Definition unitsOf (c : N) : list N :=
  if ((0x10000 <=? c) && (c <? 0x110000))%N
  then [0xD800 + (c - 0x10000) / 1024; 0xDC00 + (c - 0x10000) mod 1024]%N
  else [c].

Definition units (s : string) : list N := flat_map unitsOf (decode s).

Fixpoint startsWithUnits (l p : list N) {struct p} : bool :=
  match p, l with
  | [], _ => true
  | _ :: _, [] => false
  | a :: p', b :: l' => (a =? b)%N && startsWithUnits l' p'
  end.

Fixpoint includesUnits (l p : list N) : bool :=
  startsWithUnits l p ||
  match l with
  | [] => false
  | _ :: r => includesUnits r p
  end.

(** [s.includes(t)]: the code units of [t] occur in [s] as a contiguous
    run (half of a surrogate pair of [s] can be the end of it). *)
Definition includes (s t : string) : bool := includesUnits (units s) (units t).

Fixpoint drop (n : nat) (s : string) : string :=
  match n, s with
  | S n', String _ r => drop n' r
  | _, _ => s
  end.

(** The text that follows the first occurrence of [p] in [s]. *)
Fixpoint afterFirst (p s : string) : option string :=
  if startsWith s p then Some (drop (String.length p) s)
  else match s with
       | EmptyString => None
       | String _ r => afterFirst p r
       end.

(** Relational comparison of two strings, lexicographic on code units.
    The program compares a text with a date, which is ASCII text: the
    order of the bytes is then the order of the code units. *)
Definition gt (a b : string) : bool :=
  match String.compare a b with Gt => true | _ => false end.

(** A value is falsy when it is [undefined] or the empty string. *)
Definition truthy (s : string) : bool :=
  match s with EmptyString => false | _ => true end.

End Js.

(** ** The two regular expressions of the response parser *)

Module Regex.

(** The suffix of [s] that starts at the first occurrence of [c]. *)
Fixpoint fromFirst (c : ascii) (s : string) : option string :=
  match s with
  | EmptyString => None
  | String a r => if Ascii.eqb a c then Some s else fromFirst c r
  end.

(** The prefix of [s] that ends at the last occurrence of [c]. *)
Fixpoint throughLast (c : ascii) (s : string) : option string :=
  match s with
  | EmptyString => None
  | String a r =>
      match throughLast c r with
      | Some p => Some (String a p)
      | None => if Ascii.eqb a c then Some (String a EmptyString) else None
      end
  end.

(** [s.match(/\{[\s\S]*\}/)]: the leftmost opening brace, then as much
    as possible (the star is greedy and the class matches every
    character), up to a closing brace: the text from the first [{] to
    the last [}] behind it. *)
Definition matchBraces (s : string) : option string :=
  match fromFirst "{" s with
  | Some t => throughLast "}" t
  | None => None
  end.

(** The longest run of white space characters at the head of [s], one
    entry per character, and what follows it. *)
Fixpoint spanSpace (s : string) : list string * string :=
  match s with
  | EmptyString => ([], EmptyString)
  | String a r =>
      if Js.space1 a
      then let '(w, rest) := spanSpace r in (String a EmptyString :: w, rest)
      else
        match r with
        | String b r2 =>
            if Js.space2 a b
            then let '(w, rest) := spanSpace r2 in
                 (String a (String b EmptyString) :: w, rest)
            else
              match r2 with
              | String c r3 =>
                  if Js.space3 a b c
                  then let '(w, rest) := spanSpace r3 in
                       (String a (String b (String c EmptyString)) :: w, rest)
                  else ([], s)
              | EmptyString => ([], s)
              end
        | EmptyString => ([], s)
        end
  end.

Fixpoint untilNewline (s : string) : string :=
  match s with
  | EmptyString => EmptyString
  | String c r => if Js.isNewline c then EmptyString else String c (untilNewline r)
  end.

(** The last character of a run of white space that is not a line feed. *)
Fixpoint lastNonNewline (w : list string) : option string :=
  match w with
  | [] => None
  | c :: r =>
      match lastNonNewline r with
      | Some d => Some d
      | None => if String.eqb c (String "010" EmptyString) then None else Some c
      end
  end.

(** Group 1 of [s.match(/<label>\s*([^\n]+)/)].  Behind the first
    occurrence of the label, [\s*] takes the longest run of white space.
    When text follows, the group is that text up to the end of its line.
    When nothing follows, the matcher backtracks into the run and the
    group is its last character that is not a line feed; a run of line
    feeds only (or an empty one) gives no match. *)
Definition capture (label s : string) : option string :=
  match Js.afterFirst label s with
  | None => None
  | Some t =>
      let '(w, rest) := spanSpace t in
      match rest with
      | EmptyString =>
          match lastNonNewline w with
          | Some c => Some c
          | None => None
          end
      | _ => Some (untilNewline rest)
      end
  end.

End Regex.

(** ** [JSON.parse] *)

Module Json.

#[warnings="-register-all"]
Inductive value : Type :=
| Null
| Bool (b : bool)
| Num (lexeme : string)
| Str (s : string)
| Arr (items : list value)
| Obj (members : list (string * value)).

Definition isWs (c : ascii) : bool :=
  let n := Js.code c in ((n =? 32) || (n =? 9) || (n =? 10) || (n =? 13))%nat.

Fixpoint skipWs (s : string) : string :=
  match s with
  | EmptyString => EmptyString
  | String c r => if isWs c then skipWs r else s
  end.

Definition hexVal (c : ascii) : option nat :=
  let n := Js.code c in
  if ((48 <=? n) && (n <=? 57))%nat then Some (n - 48)
  else if ((97 <=? n) && (n <=? 102))%nat then Some (n - 87)
  else if ((65 <=? n) && (n <=? 70))%nat then Some (n - 55)
  else None.

(** The text of a string literal is made of UTF-16 code units.  A unit
    written as an escape takes the bytes of its number, and an escaped
    high surrogate in front of a low surrogate makes one code point with
    it, of four bytes. *)
Definition isHighSurrogate (n : N) : bool := ((0xD800 <=? n) && (n <? 0xDC00))%N.

(** The low surrogate at the head of [t], with what follows it. *)
Definition lowSurrogate (t : string) : option (N * string) :=
  match t with
  | String e (String f (String g r)) =>
      if ((Js.byte e =? 0xED) && (0xB0 <=? Js.byte f) && (Js.byte f <=? 0xBF))%N && Js.cont g
      then Some ((0xD000 + (Js.byte f - 0x80) * 64 + (Js.byte g - 0x80))%N, r)
      else None
  | _ => None
  end.

(** The high surrogate at the head of [t], with what follows it. *)
Definition highSurrogate (t : string) : option (N * string) :=
  match t with
  | String e (String f (String g r)) =>
      if ((Js.byte e =? 0xED) && (0xA0 <=? Js.byte f) && (Js.byte f <=? 0xAF))%N && Js.cont g
      then Some ((0xD000 + (Js.byte f - 0x80) * 64 + (Js.byte g - 0x80))%N, r)
      else None
  | _ => None
  end.

(** [t] starts with a high surrogate and a low surrogate, written one
    after the other. *)
Definition pairAhead (t : string) : bool :=
  match highSurrogate t with
  | Some (_, r) => match lowSurrogate r with Some _ => true | None => false end
  | None => false
  end.

Definition pairOf (high low : N) : N :=
  (0x10000 + (high - 0xD800) * 1024 + (low - 0xDC00))%N.

(** [t], whose head is a character of the literal as it is written: a
    high surrogate in front of a low surrogate makes one character with
    it. *)
Definition joined (t : string) : string :=
  match highSurrogate t with
  | Some (high, r) =>
      match lowSurrogate r with
      | Some (low, r') => (Js.encode (pairOf high low) ++ r')%string
      | None => t
      end
  | None => t
  end.

(** [t] with code unit [n] in front. *)
Definition withUnit (n : N) (t : string) : string :=
  if isHighSurrogate n then
    match lowSurrogate t with
    | Some (low, r) => (Js.encode (pairOf n low) ++ r)%string
    | None => (Js.encode n ++ t)%string
    end
  else (Js.encode n ++ t)%string.

Definition escape (e : ascii) : option ascii :=
  let n := Js.code e in
  if (n =? 34)%nat then Some e          (* quote *)
  else if (n =? 92)%nat then Some e     (* backslash *)
  else if (n =? 47)%nat then Some e     (* slash *)
  else if (n =? 98)%nat then Some (ascii_of_nat 8)    (* b *)
  else if (n =? 102)%nat then Some (ascii_of_nat 12)  (* f *)
  else if (n =? 110)%nat then Some (ascii_of_nat 10)  (* n *)
  else if (n =? 114)%nat then Some (ascii_of_nat 13)  (* r *)
  else if (n =? 116)%nat then Some (ascii_of_nat 9)   (* t *)
  else None.

(** The characters of a string literal behind its opening quote: the
    decoded text and what follows the closing quote. *)
Fixpoint parseChars (s : string) : option (string * string) :=
  match s with
  | EmptyString => None
  | String c r =>
      if (Js.code c =? 34)%nat then Some (EmptyString, r)
      else if (Js.code c =? 92)%nat then
        match r with
        | EmptyString => None
        | String e r1 =>
            if (Js.code e =? 117)%nat then
              match r1 with
              | String h1 (String h2 (String h3 (String h4 r2))) =>
                  match hexVal h1, hexVal h2, hexVal h3, hexVal h4 with
                  | Some a, Some b, Some c', Some d =>
                      match parseChars r2 with
                      | Some (t, rest) =>
                          Some (withUnit (((N.of_nat a * 16 + N.of_nat b) * 16 + N.of_nat c') * 16
                                          + N.of_nat d)%N t, rest)
                      | None => None
                      end
                  | _, _, _, _ => None
                  end
              | _ => None
              end
            else
              match escape e with
              | Some d =>
                  match parseChars r1 with
                  | Some (t, rest) => Some (String d t, rest)
                  | None => None
                  end
              | None => None
              end
        end
      else if (Js.code c <? 32)%nat then None
      else
        match parseChars r with
        | Some (t, rest) => Some (joined (String c t), rest)
        | None => None
        end
  end.

Fixpoint spanDigits (s : string) : string * string :=
  match s with
  | EmptyString => (EmptyString, EmptyString)
  | String c r =>
      if Js.isDigit c
      then let '(d, rest) := spanDigits r in (String c d, rest)
      else (EmptyString, s)
  end.

Definition isChar (n : nat) (c : ascii) : bool := (Js.code c =? n)%nat.

(** A number: an optional minus sign; an integer part that is a single
    zero or starts with a digit from 1 to 9; an optional fraction (a dot
    and at least one digit); an optional exponent (e or E, an optional
    sign, at least one digit). *)
Definition parseNumber (s : string) : option (string * string) :=
  let '(sign, s1) :=
    match s with
    | String c r => if isChar 45 c then (String c EmptyString, r) else (EmptyString, s)
    | EmptyString => (EmptyString, s)
    end in
  let '(int, s2) := spanDigits s1 in
  let intOk :=
    match int with
    | EmptyString => false
    | String c EmptyString => true
    | String c _ => negb (isChar 48 c)
    end in
  if negb intOk then None else
  let fracPart :=
    match s2 with
    | String c r =>
        if isChar 46 c then
          let '(d, rest) := spanDigits r in
          match d with
          | EmptyString => None
          | _ => Some (String c d, rest)
          end
        else Some (EmptyString, s2)
    | EmptyString => Some (EmptyString, s2)
    end in
  match fracPart with
  | None => None
  | Some (frac, s3) =>
      let expPart :=
        match s3 with
        | String c r =>
            if isChar 101 c || isChar 69 c then
              let '(sg, r1) :=
                match r with
                | String g r' =>
                    if isChar 43 g || isChar 45 g
                    then (String g EmptyString, r') else (EmptyString, r)
                | EmptyString => (EmptyString, r)
                end in
              let '(d, rest) := spanDigits r1 in
              match d with
              | EmptyString => None
              | _ => Some (String c (sg ++ d)%string, rest)
              end
            else Some (EmptyString, s3)
        | EmptyString => Some (EmptyString, s3)
        end in
      match expPart with
      | None => None
      | Some (ex, s4) => Some ((sign ++ int ++ frac ++ ex)%string, s4)
      end
  end.

Definition literal (word : string) (v : value) (s : string) : option (value * string) :=
  if Js.startsWith s word then Some (v, Js.drop (String.length word) s) else None.

Fixpoint parseValue (fuel : nat) (s : string) : option (value * string) :=
  match fuel with
  | O => None
  | S f =>
      match skipWs s with
      | EmptyString => None
      | String c r =>
          if isChar 123 c then                       (* { *)
            match skipWs r with
            | String c1 r1 =>
                if isChar 125 c1 then Some (Obj [], r1)
                else
                  match parseMembers f (String c1 r1) with
                  | Some (ms, rest) => Some (Obj ms, rest)
                  | None => None
                  end
            | EmptyString => None
            end
          else if isChar 91 c then                   (* [ *)
            match skipWs r with
            | String c1 r1 =>
                if isChar 93 c1 then Some (Arr [], r1)
                else
                  match parseElements f (String c1 r1) with
                  | Some (vs, rest) => Some (Arr vs, rest)
                  | None => None
                  end
            | EmptyString => None
            end
          else if isChar 34 c then                   (* string literal *)
            match parseChars r with
            | Some (t, rest) => Some (Str t, rest)
            | None => None
            end
          else if isChar 116 c then literal "true" (Bool true) (String c r)
          else if isChar 102 c then literal "false" (Bool false) (String c r)
          else if isChar 110 c then literal "null" Null (String c r)
          else
            match parseNumber (String c r) with
            | Some (lex, rest) => Some (Num lex, rest)
            | None => None
            end
      end
  end
with parseMembers (fuel : nat) (s : string) : option (list (string * value) * string) :=
  match fuel with
  | O => None
  | S f =>
      match skipWs s with
      | String q r =>
          if isChar 34 q then
            match parseChars r with
            | Some (k, r1) =>
                match skipWs r1 with
                | String colon r2 =>
                    if isChar 58 colon then
                      match parseValue f r2 with
                      | Some (v, r3) =>
                          match skipWs r3 with
                          | String d r4 =>
                              if isChar 44 d then
                                match parseMembers f r4 with
                                | Some (ms, r5) => Some ((k, v) :: ms, r5)
                                | None => None
                                end
                              else if isChar 125 d then Some ([(k, v)], r4)
                              else None
                          | EmptyString => None
                          end
                      | None => None
                      end
                    else None
                | EmptyString => None
                end
            | None => None
            end
          else None
      | EmptyString => None
      end
  end
with parseElements (fuel : nat) (s : string) : option (list value * string) :=
  match fuel with
  | O => None
  | S f =>
      match parseValue f s with
      | Some (v, r1) =>
          match skipWs r1 with
          | String d r2 =>
              if isChar 44 d then
                match parseElements f r2 with
                | Some (vs, r3) => Some (v :: vs, r3)
                | None => None
                end
              else if isChar 93 d then Some ([v], r2)
              else None
          | EmptyString => None
          end
      | None => None
      end
  end.

(** [JSON.parse(text)]: one value, white space around it, nothing else;
    [None] stands for the [SyntaxError] it throws.  A chain of nested
    calls reads at least one character every second call, so the fuel is
    never the reason of a failure. *)
Definition parse (text : string) : option value :=
  match parseValue (2 * String.length text + 2) text with
  | Some (v, rest) =>
      match skipWs rest with
      | EmptyString => Some v
      | _ => None
      end
  | None => None
  end.

(** [o[k]] on a parsed object: a repeated key keeps its last value. *)
Fixpoint lookup (k : string) (ms : list (string * value)) : option value :=
  match ms with
  | [] => None
  | (k', v) :: rest =>
      match lookup k rest with
      | Some w => Some w
      | None => if String.eqb k' k then Some v else None
      end
  end.

Fixpoint allZeroDigits (s : string) : bool :=
  match s with
  | EmptyString => true
  | String c r =>
      if isChar 101 c || isChar 69 c then true
      else if Js.isDigit c then isChar 48 c && allZeroDigits r
      else allZeroDigits r
  end.

(** Truthiness of a parsed value; a number is falsy when its mantissa
    is zero. *)
Definition truthy (v : value) : bool :=
  match v with
  | Null => false
  | Bool b => b
  | Num lex => negb (allZeroDigits lex)
  | Str s => Js.truthy s
  | Arr _ | Obj _ => true
  end.

End Json.

(** ** Calendar dates and instants

    An instant is a number of milliseconds since the epoch, as
    [Date.prototype.getTime] gives it.  Day numbers follow the
    [DayFromYear] and month-table definitions of the language standard. *)

Module Cal.

Local Open Scope Z_scope.

Record CivilDate := { year : Z; month : Z; day : Z }.

Definition msPerDay : Z := 86400000.

Definition inLeapYear (y : Z) : bool :=
  ((y mod 4 =? 0) && negb (y mod 100 =? 0)) || (y mod 400 =? 0).

Definition dayFromYear (y : Z) : Z :=
  365 * (y - 1970) + (y - 1969) / 4 - (y - 1901) / 100 + (y - 1601) / 400.

(** Days of the year before the first of month [m] in a common year. *)
Definition monthStart (m : Z) : Z :=
  if m =? 1 then 0 else if m =? 2 then 31 else if m =? 3 then 59
  else if m =? 4 then 90 else if m =? 5 then 120 else if m =? 6 then 151
  else if m =? 7 then 181 else if m =? 8 then 212 else if m =? 9 then 243
  else if m =? 10 then 273 else if m =? 11 then 304 else 334.

Definition daysInMonth (y m : Z) : Z :=
  if m =? 2 then (if inLeapYear y then 29 else 28)
  else if (m =? 4) || (m =? 6) || (m =? 9) || (m =? 11) then 30
  else 31.

(** Day number of a civil date, counted from 1970-01-01. *)
Definition dayNumber (d : CivilDate) : Z :=
  dayFromYear (year d) + monthStart (month d)
  + (if inLeapYear (year d) && (2 <? month d) then 1 else 0)
  + (day d - 1).

(** A date the store's DATE column can hold and the formatter prints
    with a four-digit year. *)
Definition validDate (d : CivilDate) : Prop :=
  0 <= year d <= 9999 /\ 1 <= month d <= 12
  /\ 1 <= day d <= daysInMonth (year d) (month d).

(** Calendar order. *)
Definition before (a b : CivilDate) : Prop :=
  year a < year b
  \/ (year a = year b /\ month a < month b)
  \/ (year a = year b /\ month a = month b /\ day a < day b).

Definition digit (n : Z) : ascii := ascii_of_nat (48 + Z.to_nat n).

Definition pad2 (n : Z) : string :=
  String (digit (n / 10)) (String (digit (n mod 10)) EmptyString).

Definition pad4 (n : Z) : string :=
  String (digit (n / 1000))
    (String (digit ((n / 100) mod 10))
       (String (digit ((n / 10) mod 10))
          (String (digit (n mod 10)) EmptyString))).

(** [toISOString().split('T')[0]] of an instant on civil date [d]. *)
Definition isoDate (d : CivilDate) : string :=
  (pad4 (year d) ++ "-" ++ pad2 (month d) ++ "-" ++ pad2 (day d))%string.

Definition digitVal (c : ascii) : option Z :=
  if Js.isDigit c then Some (Z.of_nat (Js.code c) - 48) else None.

(** [new Date(s).getTime()] for the date-only form YYYY-MM-DD, which the
    runtime reads as midnight UTC; [None] is the invalid date (NaN).
    The runtime accepts a month from 1 to 12 and a day from 1 to 31. *)
Definition parseDate (s : string) : option Z :=
  match s with
  | String y1 (String y2 (String y3 (String y4 (String h1
      (String m1 (String m2 (String h2 (String d1 (String d2 EmptyString))))))))) =>
      match digitVal y1, digitVal y2, digitVal y3, digitVal y4,
            digitVal m1, digitVal m2, digitVal d1, digitVal d2 with
      | Some a, Some b, Some c, Some d, Some e, Some f, Some g, Some h =>
          let y := ((a * 10 + b) * 10 + c) * 10 + d in
          let m := e * 10 + f in
          let dd := g * 10 + h in
          if Ascii.eqb h1 "-" && Ascii.eqb h2 "-"
             && (1 <=? m) && (m <=? 12) && (1 <=? dd) && (dd <=? 31)
          then Some (dayNumber {| year := y; month := m; day := dd |} * msPerDay)
          else None
      | _, _, _, _, _, _, _, _ => None
      end
  | _ => None
  end.

(** The instant of [setHours(0, 0, 0, 0)]: the start of the local day
    that contains [now], for a server whose local time is UTC plus
    [offset] milliseconds. *)
Definition localMidnight (offset now : Z) : Z :=
  ((now + offset) / msPerDay) * msPerDay - offset.

Fixpoint splitOn (c : ascii) (s : string) : list string :=
  match s with
  | EmptyString => [EmptyString]
  | String a r =>
      if Ascii.eqb a c then EmptyString :: splitOn c r
      else match splitOn c r with
           | p :: ps => String a p :: ps
           | [] => [String a EmptyString]
           end
  end.

Fixpoint readDigits (acc : Z) (s : string) : option Z :=
  match s with
  | EmptyString => Some acc
  | String c r =>
      match digitVal c with
      | Some v => readDigits (acc * 10 + v) r
      | None => None
      end
  end.

(** [Number(part)] for the parts of a date string: decimal digits give
    their value, the empty string gives 0, anything else is NaN. *)
Definition toNumber (s : string) : option Z := readDigits 0 s.

End Cal.

(** ** Data model *)

Definition dq : string := String "034"%char EmptyString.

(** An error value: a thrown [Error] or the error object of a store
    response.  Both carry an optional [code] and [message]. *)
Record JsError := { err_code : option string; err_message : option string }.

Definition mkError (msg : string) : JsError :=
  {| err_code := None; err_message := Some msg |}.

(** [types/index.ts]: the record the generator produces. *)
Record AIGeneratedQuote := {
  shlok : string;
  meaning_hindi : string;
  meaning_english : string;
  source : string;
  category : option string
}.

(** A row of table [quotes]; [id] is assigned by the store. *)
Record Quote := {
  id : nat;
  quote_shlok : string;
  quote_meaning_hindi : string;
  quote_meaning_english : string;
  quote_source : string;
  quote_category : option string;
  created_at : Z
}.

(** A row of table [daily_logs]: the publication of [quote_id] on [date]. *)
Record DailyLog := {
  log_id : nat;
  quote_id : nat;
  date : string;
  log_created_at : Z
}.

Record Store := {
  quotes : list Quote;
  daily_logs : list DailyLog;
  next_id : nat
}.

(** ** The store's operations (supabase-setup.sql) *)

Definition findQuote (st : Store) (qid : nat) : option Quote :=
  find (fun q => Nat.eqb (id q) qid) (quotes st).

(** The constraint of column [category]:
    [CHECK (category IN ('karma', 'peace', ...))]; a null passes it. *)
Definition categoryCheck (c : option string) : bool :=
  match c with
  | None => true
  | Some c =>
      existsb (String.eqb c)
        ["karma"; "peace"; "wisdom"; "devotion"; "yoga"; "truth"; "dharma"; "meditation"]
  end.

Definition checkViolation : JsError :=
  {| err_code := Some "23514";
     err_message :=
       Some ("new row for relation " ++ dq ++ "quotes" ++ dq
             ++ " violates check constraint " ++ dq ++ "quotes_category_check" ++ dq)%string |}.

Definition notText : JsError :=
  {| err_code := Some "22P05";
     err_message := Some "unsupported Unicode escape sequence" |}.

Definition notJson : JsError :=
  {| err_code := Some "22P02";
     err_message := Some "invalid input syntax for type json" |}.

(** A value of type TEXT holds no NUL character and no surrogate without
    its partner: the error of the first character of [l] that is one. *)
Fixpoint notTextAt (l : list N) : option JsError :=
  match l with
  | [] => None
  | c :: r =>
      if (c =? 0)%N then Some notText
      else if ((0xD800 <=? c) && (c <=? 0xDFFF))%N then Some notJson
      else notTextAt r
  end.

Definition textError (a : AIGeneratedQuote) : option JsError :=
  notTextAt (Js.decode (shlok a) ++ Js.decode (meaning_hindi a)
             ++ Js.decode (meaning_english a) ++ Js.decode (source a)
             ++ match category a with Some c => Js.decode c | None => [] end).

(** The error of an insert into [quotes] that the table refuses. *)
Definition rejection (a : AIGeneratedQuote) : option JsError :=
  match textError a with
  | Some e => Some e
  | None => if categoryCheck (category a) then None else Some checkViolation
  end.

(** [insert(row).select().single()]: the row is stored under a new
    identifier when its values are text and its category passes the
    constraint; otherwise nothing is stored and the answer is the error. *)
Definition db_insertQuote (a : AIGeneratedQuote) (ts : Z) (st : Store)
  : (JsError + Quote) * Store :=
  match rejection a with
  | Some e => (inl e, st)
  | None =>
      let row := {| id := next_id st;
                    quote_shlok := shlok a;
                    quote_meaning_hindi := meaning_hindi a;
                    quote_meaning_english := meaning_english a;
                    quote_source := source a;
                    quote_category := category a;
                    created_at := ts |} in
      (inr row, {| quotes := quotes st ++ [row];
                   daily_logs := daily_logs st;
                   next_id := S (next_id st) |})
  end.

Definition fkViolation : JsError :=
  {| err_code := Some "23503";
     err_message := Some "insert or update on table daily_logs violates foreign key constraint" |}.

Definition hasDate (d : string) (l : DailyLog) : bool := String.eqb (date l) d.

(** [upsert(row, { onConflict: 'date' })]: the row of that date is
    rewritten when there is one, a new row is added otherwise; [quote_id]
    must reference a quote. *)
Definition db_upsertLog (qid : nat) (d : string) (ts : Z) (st : Store)
  : option JsError * Store :=
  match findQuote st qid with
  | None => (Some fkViolation, st)
  | Some _ =>
      if existsb (hasDate d) (daily_logs st) then
        (None,
         {| quotes := quotes st;
            daily_logs :=
              map (fun l => if hasDate d l
                            then {| log_id := log_id l; quote_id := qid;
                                    date := d; log_created_at := ts |}
                            else l) (daily_logs st);
            next_id := next_id st |})
      else
        (None,
         {| quotes := quotes st;
            daily_logs := daily_logs st ++
              [{| log_id := next_id st; quote_id := qid;
                  date := d; log_created_at := ts |}];
            next_id := S (next_id st) |})
  end.

(** [delete().eq('id', qid)] as the application's role.  Row level
    security is enabled on [quotes] and its policies are one FOR SELECT
    and one FOR INSERT (supabase-setup.sql); the client holds the anon
    key.  A command without a policy sees no row: the request is answered
    without an error and removes nothing. *)
Definition db_deleteQuote (qid : nat) (st : Store) : Store := st.

Fixpoint insertBy {A : Type} (le : A -> A -> bool) (x : A) (l : list A) : list A :=
  match l with
  | [] => [x]
  | y :: r => if le x y then x :: l else y :: insertBy le x r
  end.

Definition sortBy {A : Type} (le : A -> A -> bool) (l : list A) : list A :=
  fold_right (insertBy le) [] l.

(** [order('date', { ascending: false })] *)
Definition byDateDesc (a b : DailyLog) : bool := negb (Js.gt (date b) (date a)).

(** [order('created_at', { ascending: false })] *)
Definition byCreatedDesc (a b : DailyLog) : bool := (log_created_at b <=? log_created_at a)%Z.

(** The embedded resource [quotes (...)] of a log row; [None] is null. *)
Definition joined (st : Store) (l : DailyLog) : option Quote := findQuote st (quote_id l).

Definition db_logsByDate (d : string) (st : Store) : list (option Quote) :=
  map (joined st) (firstn 1 (sortBy byCreatedDesc (List.filter (hasDate d) (daily_logs st)))).

Definition db_recent (limit : nat) (st : Store) : list (option Quote) :=
  map (joined st) (firstn limit (sortBy byDateDesc (daily_logs st))).

Definition pgrstNotSingle : JsError :=
  {| err_code := Some "PGRST116";
     err_message := Some "JSON object requested, multiple (or no) rows returned" |}.

(** [eq('quote_id', qid).single()]: exactly one row or an error. *)
Definition db_logByQuoteId (qid : nat) (st : Store) : JsError + (string * option Quote) :=
  match List.filter (fun l => Nat.eqb (quote_id l) qid) (daily_logs st) with
  | [l] => inr (date l, joined st l)
  | _ => inl pgrstNotSingle
  end.

(** ** The environment and the monad of asynchronous functions *)

Inductive Fault := NoFault | ReturnsError (e : JsError) | Throws (e : JsError).

(** A write of a concurrent publisher (the scheduler tick racing an
    on-demand generation); it goes through the same store operations. *)
Inductive Write :=
| WInsertQuote (a : AIGeneratedQuote) (ts : Z)
| WUpsertLog (qid : nat) (d : string) (ts : Z)
| WDeleteQuote (qid : nat).

(** What happens around one store request of the program: the racing
    writes that land before it, and its own outcome. *)
Record StoreStep := { races : list Write; fault : Fault }.

Definition quiet : StoreStep := {| races := []; fault := NoFault |}.

(** The answer of the completion endpoint to one request:
    [choices[0]?.message?.content], or a thrown error. *)
Inductive AiOutcome := Completion (content : option string) | AiFails (e : JsError).

(** A completion request; [temperature] is in tenths (9 stands for 0.9). *)
Record AiRequest := {
  system : string;
  user : string;
  max_tokens : nat;
  temperature : nat
}.

Inductive StoreRequest :=
| SelectLogsByDate (d : string)
| SelectRecent (limit : nat)
| SelectUsage
| SelectDatesUpTo (today : string) (limit : nat)
| SelectQuotesUpTo (today : string) (limit : nat)
| SelectLogByQuoteId (qid : nat)
| InsertQuote (a : AIGeneratedQuote) (ts : Z)
| UpsertLog (qid : nat) (d : string) (ts : Z)
| DeleteQuote (qid : nat).

(** The wall clock: the UTC civil date, the milliseconds elapsed in that
    UTC day, and the offset of the server's local time from UTC. *)
Record Clock := { utc_date : Cal.CivilDate; ms_of_day : Z; tz_offset : Z }.

Record World := {
  store : Store;
  store_env : list StoreStep;      (* the store's behaviour, request by request *)
  ai_env : list AiOutcome;         (* the endpoint's answers, call by call *)
  random_env : list nat;           (* the draws of Math.random *)
  api_key : bool;                  (* OPENAI_API_KEY is set *)
  clock : Clock;
  store_log : list StoreRequest;   (* store requests issued so far *)
  ai_log : list AiRequest          (* completion requests issued so far *)
}.

Inductive Res (A : Type) := Ok (a : A) | Throw (e : JsError).
Arguments Ok {A} a.
Arguments Throw {A} e.

Definition M (A : Type) : Type := World -> Res A * World.

Definition ret {A : Type} (a : A) : M A := fun w => (Ok a, w).

Definition throw {A : Type} (e : JsError) : M A := fun w => (Throw e, w).

Definition bind {A B : Type} (m : M A) (k : A -> M B) : M B :=
  fun w => match m w with
           | (Ok a, w') => k a w'
           | (Throw e, w') => (Throw e, w')
           end.

(** [try { m } catch (e) { h e }] *)
Definition try_catch {A : Type} (m : M A) (h : JsError -> M A) : M A :=
  fun w => match m w with
           | (Ok a, w') => (Ok a, w')
           | (Throw e, w') => h e w'
           end.

Definition lift {A : Type} (r : Res A) : M A := fun w => (r, w).

Notation "x <- m ;; k" := (bind m (fun x => k))
  (at level 100, m at next level, right associativity).

Definition applyWrite (x : Write) (st : Store) : Store :=
  match x with
  | WInsertQuote a ts => snd (db_insertQuote a ts st)
  | WUpsertLog qid d ts => snd (db_upsertLog qid d ts st)
  | WDeleteQuote qid => db_deleteQuote qid st
  end.

Definition applyWrites (xs : list Write) (st : Store) : Store :=
  fold_left (fun s x => applyWrite x s) xs st.

Definition nextStep (w : World) : StoreStep * list StoreStep :=
  match store_env w with
  | [] => (quiet, [])
  | s :: r => (s, r)
  end.

(** One request to the store.  [run] is the operation on a store that
    accepts it; its answer is the error object or the data. *)
Definition storeCall {A : Type} (req : StoreRequest)
    (run : Store -> (JsError + A) * Store) : M (JsError + A) :=
  fun w =>
    let '(step, env') := nextStep w in
    let st1 := applyWrites (races step) (store w) in
    let after (st : Store) : World :=
      {| store := st; store_env := env'; ai_env := ai_env w;
         random_env := random_env w; api_key := api_key w; clock := clock w;
         store_log := store_log w ++ [req]; ai_log := ai_log w |} in
    match fault step with
    | NoFault => let '(r, st2) := run st1 in (Ok r, after st2)
    | ReturnsError e => (Ok (inl e), after st1)
    | Throws e => (Throw e, after st1)
    end.

(** [openai.chat.completions.create(...)], then
    [completion.choices[0]?.message?.content]. *)
Definition createCompletion (req : AiRequest) : M (option string) :=
  fun w =>
    let '(o, env') :=
      match ai_env w with
      | [] => (Completion None, [])
      | o :: r => (o, r)
      end in
    let w' :=
      {| store := store w; store_env := store_env w; ai_env := env';
         random_env := random_env w; api_key := api_key w; clock := clock w;
         store_log := store_log w; ai_log := ai_log w ++ [req] |} in
    match o with
    | Completion c => (Ok c, w')
    | AiFails e => (Throw e, w')
    end.

(** [Math.floor(Math.random() * n)]: the environment's draw, reduced to an
    index below [n]. *)
Definition randomIndex (n : nat) : M nat :=
  fun w =>
    let '(r, env') :=
      match random_env w with
      | [] => (0, [])
      | r :: rest => (r, rest)
      end in
    (Ok (r mod n),
     {| store := store w; store_env := store_env w; ai_env := ai_env w;
        random_env := env'; api_key := api_key w; clock := clock w;
        store_log := store_log w; ai_log := ai_log w |}).

Definition getOpenAIClient : M unit :=
  fun w => if api_key w then (Ok tt, w)
           else (Throw (mkError "OpenAI API key not configured"), w).

(** [new Date().toISOString().split('T')[0]] *)
Definition todayString : M string :=
  fun w => (Ok (Cal.isoDate (utc_date (clock w))), w).

(** ** services/aiService.ts *)

Definition QUOTE_CATEGORIES : list string :=
  ["karma"; "peace"; "wisdom"; "devotion"; "yoga"; "truth"; "dharma"; "meditation"].

Definition getRandomCategory : M string :=
  i <- randomIndex (length QUOTE_CATEGORIES) ;;
  ret (nth i QUOTE_CATEGORIES EmptyString).

(** [rows.map(log => log.quotes?.shlok).filter(Boolean)] *)
Fixpoint truthyShloks (rows : list (option Quote)) : list string :=
  match rows with
  | [] => []
  | Some q :: r =>
      if Js.truthy (quote_shlok q) then quote_shlok q :: truthyShloks r
      else truthyShloks r
  | None :: r => truthyShloks r
  end.

Definition getRecentlyUsedQuotes (limit : nat) : M (list string) :=
  try_catch
    (r <- storeCall (SelectRecent limit) (fun st => (inr (db_recent limit st), st)) ;;
     match r with
     | inl _ => ret []
     | inr recentQuotes => ret (truthyShloks recentQuotes)
     end)
    (fun _ => ret []).

Record UsageStats := {
  totalQuotes : nat;
  categoryDistribution : gmap string nat;
  sourceDistribution : gmap string nat
}.

Definition emptyStats : UsageStats :=
  {| totalQuotes := 0; categoryDistribution := ∅; sourceDistribution := ∅ |}.

(** [counts[k] || 0].  The keys are categories and sources of stored
    quotes; a key that names a property of every object (constructor,
    toString) is not modelled. *)
Definition countOf (counts : gmap string nat) (k : string) : nat :=
  default 0 (counts !! k).

(** [counts[k] = (counts[k] || 0) + 1] *)
Definition bump (k : string) (counts : gmap string nat) : gmap string nat :=
  <[k := countOf counts k + 1]> counts.

Definition tally (acc : gmap string nat * gmap string nat) (row : option Quote)
  : gmap string nat * gmap string nat :=
  match row with
  | None => acc
  | Some quote =>
      let categoryCount :=
        match quote_category quote with
        | Some c => if Js.truthy c then bump c (fst acc) else fst acc
        | None => fst acc
        end in
      let sourceCount :=
        if Js.truthy (quote_source quote) then bump (quote_source quote) (snd acc)
        else snd acc in
      (categoryCount, sourceCount)
  end.

Definition getQuoteUsageStats : M UsageStats :=
  try_catch
    (r <- storeCall SelectUsage (fun st => (inr (db_recent 100 st), st)) ;;
     match r with
     | inl _ => ret emptyStats
     | inr dailyLogs =>
         let '(categoryCount, sourceCount) := fold_left tally dailyLogs (∅, ∅) in
         ret {| totalQuotes := length dailyLogs;
                categoryDistribution := categoryCount;
                sourceDistribution := sourceCount |}
     end)
    (fun _ => ret emptyStats).

(** The loop of [getLeastUsedCategory]: the running pair is
    [(leastUsedCategory, minCount)]. *)
Definition leastStep (categoryCounts : gmap string nat)
    (acc : string * nat) (category : string) : string * nat :=
  let count := countOf categoryCounts category in
  if count <? snd acc then (category, count) else acc.

Definition leastUsed (categoryCounts : gmap string nat) : string :=
  let first := nth 0 QUOTE_CATEGORIES EmptyString in
  fst (fold_left (leastStep categoryCounts) QUOTE_CATEGORIES
         (first, countOf categoryCounts first)).

Definition getLeastUsedCategory : M string :=
  try_catch
    (stats <- getQuoteUsageStats ;;
     ret (leastUsed (categoryDistribution stats)))
    (fun _ => getRandomCategory).

Definition nl : string := String "010"%char EmptyString.

Definition uniquenessNoteText (recentQuotes : list string) : string :=
  ("
IMPORTANT: Avoid generating shloks similar to these recently used ones:
" ++ String.concat nl (map (fun shlok => "- " ++ shlok) recentQuotes) ++ "

Generate a completely different and unique shlok.
")%string.

Definition promptText (category uniquenessNote : string) : string :=
  ("
Generate one completely unique Shlok from Indian scriptures for category: " ++ category ++ "

" ++ uniquenessNote ++ "

CRITICAL REQUIREMENTS:
1. The shlok MUST be in proper Sanskrit (Devanagari script)
2. The shlok MUST be completely unique - choose lesser-known verses
3. Hindi meaning must be clear and concise (Devanagari script)
4. English meaning must be clear and concise
5. Must relate to category: " ++ category ++ "
6. Focus on lesser-known verses from various scriptures
7. RESPOND ONLY WITH VALID JSON - no explanations, no extra text

Required JSON format:
{
  " ++ dq ++ "shlok" ++ dq ++ ": " ++ dq ++ "Sanskrit shlok in Devanagari script" ++ dq ++ ",
  " ++ dq ++ "meaning_hindi" ++ dq ++ ": " ++ dq ++ "Hindi meaning in Devanagari script" ++ dq ++ ",
  " ++ dq ++ "meaning_english" ++ dq ++ ": " ++ dq ++ "Clear English meaning" ++ dq ++ ",
  " ++ dq ++ "source" ++ dq ++ ": " ++ dq ++ "Scripture name" ++ dq ++ ",
  " ++ dq ++ "category" ++ dq ++ ": " ++ dq ++ category ++ dq ++ "
}

Generate the JSON response now:
")%string.

Definition retryPromptText (category : string) : string :=
  ("Generate a completely unique shlok about " ++ category ++ " from Indian scriptures. Use lesser-known verses from various scriptures.

RESPOND ONLY WITH VALID JSON:
{
  " ++ dq ++ "shlok" ++ dq ++ ": " ++ dq ++ "Sanskrit shlok in Devanagari script" ++ dq ++ ",
  " ++ dq ++ "meaning_hindi" ++ dq ++ ": " ++ dq ++ "Hindi meaning in Devanagari script" ++ dq ++ ", 
  " ++ dq ++ "meaning_english" ++ dq ++ ": " ++ dq ++ "Clear English meaning" ++ dq ++ ",
  " ++ dq ++ "source" ++ dq ++ ": " ++ dq ++ "Scripture name" ++ dq ++ ",
  " ++ dq ++ "category" ++ dq ++ ": " ++ dq ++ category ++ dq ++ "
}")%string.

Definition systemInstruction : string :=
  "You are a knowledgeable expert in Indian scriptures and Sanskrit literature. Generate authentic, meaningful, and completely unique quotes from ancient texts. The database has a unique constraint on shloks - never generate duplicate shloks. Always respond with valid JSON only, no explanations or extra text.".

Definition retrySystemInstruction : string :=
  "You are a Sanskrit scholar. Generate a completely unique shlok from Indian scriptures. Focus on lesser-known verses and ensure complete uniqueness. Respond ONLY with valid JSON.".

Definition getQuoteGenerationPrompt : M string :=
  category <- getLeastUsedCategory ;;
  recentQuotes <- getRecentlyUsedQuotes 15 ;;
  let uniquenessNote :=
    match recentQuotes with
    | [] => EmptyString
    | _ => uniquenessNoteText recentQuotes
    end in
  ret (promptText category uniquenessNote).

(** The test of [checkQuoteUniqueness] on one recent quote. *)
Definition similar (shlok quote : string) : bool :=
  String.eqb (Js.trim (Js.toLowerCase quote)) (Js.trim (Js.toLowerCase shlok))
  || Js.includes (Js.toLowerCase quote) (Js.toLowerCase shlok)
  || Js.includes (Js.toLowerCase shlok) (Js.toLowerCase quote).

Definition checkQuoteUniqueness (shlok : string) : M bool :=
  try_catch
    (recentQuotes <- getRecentlyUsedQuotes 30 ;;
     ret (negb (existsb (similar shlok) recentQuotes)))
    (fun _ => ret true).

Definition typeError : JsError := mkError "TypeError".

(** [parsedResponse[k]]: reading a property of [null] throws; a value
    that is not an object has none of the five properties. *)
Definition property (parsedResponse : Json.value) (k : string) : Res (option Json.value) :=
  match parsedResponse with
  | Json.Null => Throw typeError
  | Json.Obj members => Ok (Json.lookup k members)
  | _ => Ok None
  end.

Definition truthyProperty (v : option Json.value) : bool :=
  match v with
  | Some x => Json.truthy x
  | None => false
  end.

(** [v.trim()]: only a string has the method. *)
Definition trimOf (v : option Json.value) : Res string :=
  match v with
  | Some (Json.Str s) => Ok (Js.trim s)
  | _ => Throw typeError
  end.

(** [v?.trim()] *)
Definition optionalTrimOf (v : option Json.value) : Res (option string) :=
  match v with
  | None | Some Json.Null => Ok None
  | Some (Json.Str s) => Ok (Some (Js.trim s))
  | Some _ => Throw typeError
  end.

Definition bindRes {A B : Type} (r : Res A) (k : A -> Res B) : Res B :=
  match r with
  | Ok a => k a
  | Throw e => Throw e
  end.

Notation "x <~ r ;; k" := (bindRes r (fun x => k))
  (at level 100, r at next level, right associativity).

(** [match ? match[1]?.trim() || '' : ''] for the pattern of [label]. *)
Definition labelled (response label : string) : string :=
  match Regex.capture label response with
  | Some g => Js.trim g
  | None => EmptyString
  end.

(** Fallback parser for text format responses. *)
Definition parseTextFormatResponse (response : string) : Res AIGeneratedQuote :=
  let shlok := labelled response "Shlok:" in
  let meaning_hindi := labelled response "Meaning Hindi:" in
  let meaning_english := labelled response "Meaning English:" in
  let source :=
    if Js.truthy (labelled response "Source:")
    then labelled response "Source:" else "Unknown Scripture" in
  let category :=
    match Regex.capture "Category:" response with
    | Some g => Some (Js.trim g)
    | None => None
    end in
  if negb (Js.truthy shlok) || negb (Js.truthy meaning_hindi)
     || negb (Js.truthy meaning_english) || negb (Js.truthy source)
  then Throw (mkError "Invalid text format response")
  else Ok {| shlok := shlok; meaning_hindi := meaning_hindi;
             meaning_english := meaning_english; source := source;
             category := category |}.

(** The text handed to [JSON.parse]: the trimmed response, narrowed to
    the span of the brace pattern when it matches. *)
Definition jsonBlock (response : string) : string :=
  let jsonString := Js.trim response in
  match Regex.matchBraces jsonString with
  | Some m => m
  | None => jsonString
  end.

(** The [try] block of [parseAIResponse]. *)
Definition parseJsonFormat (response : string) : Res AIGeneratedQuote :=
  match Json.parse (jsonBlock response) with
  | None => Throw (mkError "SyntaxError")
  | Some parsedResponse =>
      s <~ property parsedResponse "shlok" ;;
      h <~ property parsedResponse "meaning_hindi" ;;
      e <~ property parsedResponse "meaning_english" ;;
      src <~ property parsedResponse "source" ;;
      if negb (truthyProperty s) || negb (truthyProperty h)
         || negb (truthyProperty e) || negb (truthyProperty src)
      then Throw (mkError "Invalid AI response format - missing required fields")
      else
        shlok <~ trimOf s ;;
        meaning_hindi <~ trimOf h ;;
        meaning_english <~ trimOf e ;;
        source <~ trimOf src ;;
        c <~ property parsedResponse "category" ;;
        category <~ optionalTrimOf c ;;
        Ok {| shlok := shlok; meaning_hindi := meaning_hindi;
              meaning_english := meaning_english; source := source;
              category := category |}
  end.

Definition parseAIResponse (response : string) : Res AIGeneratedQuote :=
  match parseJsonFormat response with
  | Ok q => Ok q
  | Throw _ =>
      match parseTextFormatResponse response with
      | Ok q => Ok q
      | Throw _ => Throw (mkError "Failed to parse AI response as JSON or text format")
      end
  end.

(** The static table of [getFallbackQuote], in its declared order. *)
Definition fallbackQuotes : list AIGeneratedQuote := [
  {| shlok := "कर्मण्येवाधिकारस्ते मा फलेषु कदाचन";
     meaning_hindi := "तुम्हारा अधिकार केवल कर्म करने में है, फल में नहीं।";
     meaning_english := "You have the right to perform your actions, but never to the fruits of those actions.";
     source := "Bhagavad Gita";
     category := Some "karma" |};
  {| shlok := "कर्म ज्यायो ह्यकर्मणः";
     meaning_hindi := "कर्म न करने से कर्म करना बेहतर है।";
     meaning_english := "Action is superior to inaction.";
     source := "Bhagavad Gita";
     category := Some "karma" |};
  {| shlok := "यत्कर्म कृत्वा पुनर्न तत्करोति सः";
     meaning_hindi := "जो कर्म करके फिर नहीं करता वही सच्चा कर्मी है।";
     meaning_english := "He who performs action without attachment to results is the true doer.";
     source := "Bhagavad Gita";
     category := Some "karma" |};
  {| shlok := "योग: कर्मसु कौशलम्";
     meaning_hindi := "योग कर्मों में कुशलता है।";
     meaning_english := "Yoga is skill in action and excellence in work.";
     source := "Bhagavad Gita";
     category := Some "yoga" |};
  {| shlok := "योग: चित्तवृत्तिनिरोधः";
     meaning_hindi := "योग चित्त की वृत्तियों का निरोध है।";
     meaning_english := "Yoga is the restraint of the modifications of the mind.";
     source := "Yoga Sutras";
     category := Some "yoga" |};
  {| shlok := "समत्वं योग उच्यते";
     meaning_hindi := "समता को योग कहते हैं।";
     meaning_english := "Equanimity is called yoga.";
     source := "Bhagavad Gita";
     category := Some "yoga" |};
  {| shlok := "सत्यमेव जयते";
     meaning_hindi := "सत्य की ही जीत होती है।";
     meaning_english := "Truth alone triumphs and prevails.";
     source := "Mundaka Upanishad";
     category := Some "truth" |};
  {| shlok := "सत्यं वद धर्मं चर";
     meaning_hindi := "सत्य बोलो और धर्म का पालन करो।";
     meaning_english := "Speak the truth and follow dharma.";
     source := "Taittiriya Upanishad";
     category := Some "truth" |};
  {| shlok := "सत्यं ज्ञानमनन्तं ब्रह्म";
     meaning_hindi := "सत्य, ज्ञान और अनंत ही ब्रह्म है।";
     meaning_english := "Truth, knowledge, and infinity is Brahman.";
     source := "Taittiriya Upanishad";
     category := Some "truth" |};
  {| shlok := "वसुधैव कुटुम्बकम्";
     meaning_hindi := "पूरी पृथ्वी ही एक परिवार है।";
     meaning_english := "The whole world is one family.";
     source := "Mahopanishad";
     category := Some "peace" |};
  {| shlok := "शान्ति: शान्ति: शान्ति:";
     meaning_hindi := "शांति, शांति, शांति।";
     meaning_english := "Peace, peace, peace.";
     source := "Upanishads";
     category := Some "peace" |};
  {| shlok := "सर्वे भवन्तु सुखिनः";
     meaning_hindi := "सभी सुखी हों।";
     meaning_english := "May all be happy.";
     source := "Ancient Prayer";
     category := Some "peace" |};
  {| shlok := "अहिंसा परमो धर्मः";
     meaning_hindi := "अहिंसा सबसे बड़ा धर्म है।";
     meaning_english := "Non-violence is the highest virtue and dharma.";
     source := "Mahabharata";
     category := Some "dharma" |};
  {| shlok := "धर्मो रक्षति रक्षितः";
     meaning_hindi := "धर्म की रक्षा करने वाले की रक्षा धर्म करता है।";
     meaning_english := "Dharma protects those who protect dharma.";
     source := "Mahabharata";
     category := Some "dharma" |};
  {| shlok := "धर्म एव हतो हन्ति धर्मो रक्षति रक्षितः";
     meaning_hindi := "धर्म का नाश करने वाले का नाश धर्म करता है, धर्म की रक्षा करने वाले की रक्षा धर्म करता है।";
     meaning_english := "Dharma destroys those who destroy dharma, dharma protects those who protect dharma.";
     source := "Mahabharata";
     category := Some "dharma" |};
  {| shlok := "ज्ञानं वैराग्यं च सा विद्या";
     meaning_hindi := "ज्ञान और वैराग्य ही वास्तविक विद्या है।";
     meaning_english := "Knowledge and detachment together constitute true wisdom.";
     source := "Bhagavad Gita";
     category := Some "wisdom" |};
  {| shlok := "विद्या ददाति विनयं";
     meaning_hindi := "विद्या विनय देती है।";
     meaning_english := "Knowledge gives humility.";
     source := "Ancient Wisdom";
     category := Some "wisdom" |};
  {| shlok := "ज्ञानेन तु तदज्ञानं येषां नाशितमात्मनः";
     meaning_hindi := "जिनके अज्ञान का नाश आत्मा के द्वारा ज्ञान से हो गया है।";
     meaning_english := "Those whose ignorance has been destroyed by knowledge of the self.";
     source := "Bhagavad Gita";
     category := Some "wisdom" |};
  {| shlok := "भक्ति योगेन तोषयामि";
     meaning_hindi := "भक्ति योग से मैं प्रसन्न होता हूं।";
     meaning_english := "I am pleased by the yoga of devotion.";
     source := "Bhagavad Gita";
     category := Some "devotion" |};
  {| shlok := "मामेव ये प्रपद्यन्ते मायामेतां तरन्ति ते";
     meaning_hindi := "जो मुझे ही शरण लेते हैं, वे इस माया को पार कर जाते हैं।";
     meaning_english := "Those who take refuge in me alone cross over this illusion.";
     source := "Bhagavad Gita";
     category := Some "devotion" |};
  {| shlok := "सर्वधर्मान्परित्यज्य मामेकं शरणं व्रज";
     meaning_hindi := "सभी धर्मों को त्याग कर मुझे ही एक शरण में आ जाओ।";
     meaning_english := "Abandoning all dharmas, take refuge in me alone.";
     source := "Bhagavad Gita";
     category := Some "devotion" |};
  {| shlok := "ध्यानात् कर्म फल त्यागः";
     meaning_hindi := "ध्यान से कर्म फल का त्याग होता है।";
     meaning_english := "Through meditation, one renounces the fruits of action.";
     source := "Yoga Sutras";
     category := Some "meditation" |};
  {| shlok := "ध्यायतो विषयान्पुंसः सङ्गस्तेषूपजायते";
     meaning_hindi := "विषयों का ध्यान करने से उनमें आसक्ति हो जाती है।";
     meaning_english := "By meditating on sense objects, attachment to them arises.";
     source := "Bhagavad Gita";
     category := Some "meditation" |};
  {| shlok := "ध्यानेनात्मनि पश्यन्ति केचिदात्मानमात्मना";
     meaning_hindi := "कुछ लोग ध्यान से आत्मा को आत्मा से देखते हैं।";
     meaning_english := "Some see the self by the self through meditation.";
     source := "Bhagavad Gita";
     category := Some "meditation" |}
].

(** The filter of [getFallbackQuote]: a table entry is dropped when a
    recent quote contains it or is contained in it. *)
Definition recentlyUsed (recentQuotes : list string) (quote : AIGeneratedQuote) : bool :=
  existsb (fun recent =>
             Js.includes (Js.toLowerCase recent) (Js.toLowerCase (shlok quote))
             || Js.includes (Js.toLowerCase (shlok quote)) (Js.toLowerCase recent))
          recentQuotes.

Definition hasCategory (c : string) (quote : AIGeneratedQuote) : bool :=
  match category quote with
  | Some c' => String.eqb c' c
  | None => false
  end.

Definition isEmpty {A : Type} (l : list A) : bool :=
  match l with [] => true | _ => false end.

(** The lists [getFallbackQuote] chooses from. *)
Definition finalQuotes (c : string) (recentQuotes : list string) : list AIGeneratedQuote :=
  let availableQuotes :=
    List.filter (fun quote => negb (recentlyUsed recentQuotes quote)) fallbackQuotes in
  let categoryQuotes := List.filter (hasCategory c) availableQuotes in
  let quotesToUse := if isEmpty categoryQuotes then availableQuotes else categoryQuotes in
  if isEmpty quotesToUse then fallbackQuotes else quotesToUse.

Definition noQuote : AIGeneratedQuote :=
  {| shlok := EmptyString; meaning_hindi := EmptyString;
     meaning_english := EmptyString; source := EmptyString; category := None |}.

Definition withCategory (q : AIGeneratedQuote) (c : string) : AIGeneratedQuote :=
  {| shlok := shlok q; meaning_hindi := meaning_hindi q;
     meaning_english := meaning_english q; source := source q;
     category := Some c |}.

(** Fallback quote when AI fails. *)
Definition getFallbackQuote : M AIGeneratedQuote :=
  category <- getLeastUsedCategory ;;
  recentQuotes <- getRecentlyUsedQuotes 20 ;;
  let final := finalQuotes category recentQuotes in
  i <- randomIndex (length final) ;;
  let selectedQuote := nth i final noQuote in
  ret (withCategory selectedQuote category).

Definition noResponse : JsError := mkError "No response from AI service".

(** [!response] *)
Definition responseText (response : option string) : Res string :=
  match response with
  | Some s => if Js.truthy s then Ok s else Throw noResponse
  | None => Throw noResponse
  end.

(** Retry AI generation with different parameters. *)
Definition generateQuoteWithAIRetry : M AIGeneratedQuote :=
  try_catch
    (_ <- getOpenAIClient ;;
     category <- getLeastUsedCategory ;;
     completion <- createCompletion
       {| system := retrySystemInstruction;
          user := retryPromptText category;
          max_tokens := 500;
          temperature := 10 |} ;;
     response <- lift (responseText completion) ;;
     parsedQuote <- lift (parseAIResponse response) ;;
     isUnique <- checkQuoteUniqueness (shlok parsedQuote) ;;
     if negb isUnique then getFallbackQuote else ret parsedQuote)
    (fun _ => getFallbackQuote).

(** Generate quote using AI. *)
Definition generateQuoteWithAI : M AIGeneratedQuote :=
  try_catch
    (_ <- getOpenAIClient ;;
     prompt <- getQuoteGenerationPrompt ;;
     completion <- createCompletion
       {| system := systemInstruction;
          user := prompt;
          max_tokens := 500;
          temperature := 9 |} ;;
     response <- lift (responseText completion) ;;
     parsedQuote <- lift (parseAIResponse response) ;;
     isUnique <- checkQuoteUniqueness (shlok parsedQuote) ;;
     if negb isUnique then generateQuoteWithAIRetry else ret parsedQuote)
    (fun _ => getFallbackQuote).

(** ** services/quoteService.ts

    The handlers that only log and rethrow ([catch (error) { throw error }])
    are left out: they do not change what a function returns or throws. *)

Definition db_upTo (today : string) (limit : nat) (st : Store) : list DailyLog :=
  firstn limit
    (sortBy byDateDesc
       (List.filter (fun l => negb (Js.gt (date l) today)) (daily_logs st))).

(** Get the quote of a date from the store. *)
Definition getQuoteByDate (d : string) : M (option Quote) :=
  today <- todayString ;;
  if Js.gt d today then ret None
  else
    r <- storeCall (SelectLogsByDate d) (fun st => (inr (db_logsByDate d st), st)) ;;
    match r with
    | inl _ => ret None
    | inr [] => ret None
    | inr (dailyLog :: _) => ret dailyLog
    end.

Definition getTodayQuote : M (option Quote) :=
  today <- todayString ;;
  getQuoteByDate today.

Definition getQuoteForDate (d : string) : M (option Quote) :=
  today <- todayString ;;
  if Js.gt d today then ret None else getQuoteByDate d.

Definition getAvailableDates (limit : nat) : M (list string) :=
  today <- todayString ;;
  r <- storeCall (SelectDatesUpTo today limit)
         (fun st => (inr (map date (db_upTo today limit st)), st)) ;;
  match r with
  | inl error => throw error
  | inr dates => ret dates
  end.

(** Each element is [{ ...log.quotes, date: log.date }]. *)
Definition getRecentQuotes (limit : nat) : M (list (option Quote * string)) :=
  today <- todayString ;;
  r <- storeCall (SelectQuotesUpTo today limit)
         (fun st => (inr (map (fun l => (joined st l, date l)) (db_upTo today limit st)), st)) ;;
  match r with
  | inl error => throw error
  | inr rows => ret rows
  end.

(** [Date.now()] *)
Definition nowMs (c : Clock) : Z :=
  (Cal.dayNumber (utc_date c) * Cal.msPerDay + ms_of_day c)%Z.

(** Get quote by ID (only if it's from a past date). *)
Definition getQuoteById (qid : nat) : M (option Quote) :=
  r <- storeCall (SelectLogByQuoteId qid) (fun st => (db_logByQuoteId qid st, st)) ;;
  match r with
  | inl _ => ret None
  | inr (d, quote) =>
      fun w =>
        let today := Cal.localMidnight (tz_offset (clock w)) (nowMs (clock w)) in
        match Cal.parseDate d with
        | Some quoteDate =>
            if (today <=? quoteDate)%Z then (Ok None, w) else (Ok quote, w)
        | None => (Ok quote, w)     (* NaN >= today is false *)
        end
  end.

Definition invalidDate : JsError := mkError "Invalid date format. Expected YYYY-MM-DD".

(** [new Date(year, monthIndex, day, hours, 0, 0, 0).getTime()] on a
    server at UTC plus [offset]; a year from 0 to 99 means 1900 plus it. *)
Definition localTime (offset year monthIndex day hours : Z) : Z :=
  (let y := if (0 <=? year) && (year <=? 99) then 1900 + year else year in
   Cal.dayNumber {| Cal.year := y + monthIndex / 12;
                    Cal.month := monthIndex mod 12 + 1;
                    Cal.day := day |} * Cal.msPerDay
   + hours * 3600000 - offset)%Z.

(** Get 6:00 AM IST timestamp for a given date. *)
Definition get6AMISTTimestamp (offset : Z) (dateString : string) : Res Z :=
  match map Cal.toNumber (Cal.splitOn "-" dateString) with
  | Some year :: Some month :: Some day :: _ =>
      if ((year =? 0) || (month =? 0) || (day =? 0))%Z then Throw invalidDate
      else
        let istDate := localTime offset year (month - 1) day 6 in
        Ok (istDate - 19800000)%Z
  | _ => Throw invalidDate
  end.

Definition sixAM (dateString : string) : M Z :=
  fun w => (get6AMISTTimestamp (tz_offset (clock w)) dateString, w).

(** Log a quote for today's date. *)
Definition logQuoteForToday (quoteId : nat) (timestamp : option Z) : M unit :=
  today <- todayString ;;
  logTimestamp <- match timestamp with
                  | Some t => ret t
                  | None => sixAM today
                  end ;;
  r <- storeCall (UpsertLog quoteId today logTimestamp)
         (fun st => let '(e, st') := db_upsertLog quoteId today logTimestamp st in
                    (match e with Some err => inl err | None => inr tt end, st')) ;;
  match r with
  | inl error => throw error
  | inr _ => ret tt
  end.

Definition hasCode (c : string) (e : JsError) : bool :=
  match err_code e with
  | Some c' => String.eqb c' c
  | None => false
  end.

(** [e.message?.includes(t)] *)
Definition messageIncludes (t : string) (e : JsError) : bool :=
  match err_message e with
  | Some m => Js.includes m t
  | None => false
  end.

(** The text of [e.message] inside a template literal. *)
Definition messageText (e : JsError) : string :=
  match err_message e with
  | Some m => m
  | None => "undefined"
  end.

(** [insertError.code === '23505' && insertError.message?.includes('unique_shlok')] *)
Definition isDuplicateShlok (e : JsError) : bool :=
  hasCode "23505" e && messageIncludes "unique_shlok" e.

(** [logError.message?.includes('duplicate') || logError.code === '23505'] *)
Definition isConflict (e : JsError) : bool :=
  messageIncludes "duplicate" e || hasCode "23505" e.

Definition insertQuote (a : AIGeneratedQuote) (ts : Z) : M (JsError + Quote) :=
  storeCall (InsertQuote a ts) (db_insertQuote a ts).

(** [await supabase.from('quotes').delete().eq('id', qid)]; the response,
    error or not, is dropped. *)
Definition deleteQuote (qid : nat) : M unit :=
  _ <- storeCall (DeleteQuote qid) (fun st => (inr tt, db_deleteQuote qid st)) ;;
  ret tt.

(** The block that follows each of the two inserts of
    [generateAndStoreQuote]: log the stored quote for today and return it;
    on a conflict fetch today's quote and, when there is one, delete the
    stored quote and return the existing one. *)
Definition logOrResolve (stored : Quote) (sixAMIST : Z) : M Quote :=
  try_catch
    (_ <- logQuoteForToday (id stored) (Some sixAMIST) ;;
     ret stored)
    (fun logError =>
       if isConflict logError then
         existingQuote <- getTodayQuote ;;
         match existingQuote with
         | Some existing =>
             _ <- deleteQuote (id stored) ;;
             ret existing
         | None => throw logError
         end
       else throw logError).

(** Generate and store a new quote for today.  The answer of the store
    to an insert carries an error or the stored row, and today's date is
    never empty: the two guards on a missing row and a missing date are
    not reached. *)
Definition generateAndStoreQuote : M Quote :=
  today <- todayString ;;
  todayQuote <- getTodayQuote ;;
  match todayQuote with
  | Some existing => ret existing
  | None =>
      aiQuote <- generateQuoteWithAI ;;
      sixAMIST <- sixAM today ;;
      r <- insertQuote aiQuote sixAMIST ;;
      match r with
      | inl insertError =>
          if isDuplicateShlok insertError then
            newAiQuote <- generateQuoteWithAI ;;
            r' <- insertQuote newAiQuote sixAMIST ;;
            match r' with
            | inl retryError =>
                throw (mkError ("Failed to insert quote after retry: "
                                ++ messageText retryError)%string)
            | inr retryQuote => logOrResolve retryQuote sixAMIST
            end
          else throw (mkError ("Failed to insert quote: " ++ messageText insertError)%string)
      | inr newQuote => logOrResolve newQuote sixAMIST
      end
  end.

(** Check if we need to generate a quote for today. *)
Definition shouldGenerateQuoteForToday : M bool :=
  try_catch
    (todayQuote <- getTodayQuote ;;
     ret (match todayQuote with Some _ => false | None => true end))
    (fun _ => ret true).

(** ** Vocabulary of the specification *)

(** [t] occurs in [s]. *)
Definition Substring (t s : string) : Prop :=
  exists pre post : string, s = (pre ++ t ++ post)%string.

(** [t] occurs in [s] as JavaScript counts: as a run of UTF-16 code
    units. *)
Definition Occurs (t s : string) : Prop :=
  exists pre post : list N, Js.units s = pre ++ Js.units t ++ post.

(** Text of ASCII characters only, and its lowercase, letter by letter. *)
Fixpoint isAscii (s : string) : bool :=
  match s with
  | EmptyString => true
  | String c r => (Js.code c <? 128)%nat && isAscii r
  end.




(** The three ways, in the words of the specification, in which a
    candidate repeats an entry of the recent sample. *)
Definition nearDuplicate (candidate entry : string) : Prop :=
  Occurs (Js.toLowerCase candidate) (Js.toLowerCase entry)
  \/ Occurs (Js.toLowerCase entry) (Js.toLowerCase candidate)
  \/ Js.trim (Js.toLowerCase entry) = Js.trim (Js.toLowerCase candidate).

(** The request the program is about to issue is answered by the store
    (no error object, nothing thrown). *)
Definition answered (w : World) : Prop := fault (fst (nextStep w)) = NoFault.

(** The store after the racing writes of the next step have landed. *)
Definition storeAtNextRequest (w : World) : Store :=
  applyWrites (races (fst (nextStep w))) (store w).

(** The world after one read request: the racing writes of the step have
    landed, the step is consumed, the request is logged. *)
Definition afterRead (req : StoreRequest) (w : World) : World :=
  {| store := storeAtNextRequest w;
     store_env := snd (nextStep w);
     ai_env := ai_env w;
     random_env := random_env w;
     api_key := api_key w;
     clock := clock w;
     store_log := store_log w ++ [req];
     ai_log := ai_log w |}.

(** The world after one request that changes an accepting store by
    [change]: a request that fails changes nothing. *)
Definition afterWrite (req : StoreRequest) (change : Store -> Store) (w : World) : World :=
  {| store := match fault (fst (nextStep w)) with
              | NoFault => change (storeAtNextRequest w)
              | _ => storeAtNextRequest w
              end;
     store_env := snd (nextStep w);
     ai_env := ai_env w;
     random_env := random_env w;
     api_key := api_key w;
     clock := clock w;
     store_log := store_log w ++ [req];
     ai_log := ai_log w |}.

(** The answer of a read request whose data is [data]. *)
Definition readAnswer {A : Type} (data : A) (w : World) : Res (JsError + A) :=
  match fault (fst (nextStep w)) with
  | NoFault => Ok (inr data)
  | ReturnsError e => Ok (inl e)
  | Throws e => Throw e
  end.

(** The number of fetched publications whose quote carries category [c]. *)
Definition occurrences (c : string) (rows : list (option Quote)) : nat :=
  length (List.filter
            (fun row => match row with
                        | Some q => match quote_category q with
                                    | Some c' => String.eqb c' c
                                    | None => false
                                    end
                        | None => false
                        end) rows).

(** [c] is the entry of [cs] with the least count, the first such entry
    in the order of [cs]. *)
Definition firstMinimal (count : string -> nat) (cs : list string) (c : string) : Prop :=
  exists i : nat,
    nth_error cs i = Some c
    /\ (forall c', In c' cs -> count c <= count c')
    /\ (forall j c', j < i -> nth_error cs j = Some c' -> count c < count c').

(** Today's date as the program reads it off the clock. *)
Definition todayOf (w : World) : string := Cal.isoDate (utc_date (clock w)).

(** The four mandatory fields are non-empty. *)
Definition wellFormed (q : AIGeneratedQuote) : Prop :=
  shlok q <> EmptyString /\ meaning_hindi q <> EmptyString
  /\ meaning_english q <> EmptyString /\ source q <> EmptyString.

Definition wellFormedb (q : AIGeneratedQuote) : bool :=
  Js.truthy (shlok q) && Js.truthy (meaning_hindi q)
  && Js.truthy (meaning_english q) && Js.truthy (source q).

(** The world after one draw of [Math.random]. *)
Definition afterDraw (w : World) : World :=
  {| store := store w; store_env := store_env w; ai_env := ai_env w;
     random_env := tl (random_env w); api_key := api_key w; clock := clock w;
     store_log := store_log w; ai_log := ai_log w |}.

(** The two requests the generator can send. *)
Definition firstRequest (prompt : string) : AiRequest :=
  {| system := systemInstruction; user := prompt;
     max_tokens := 500; temperature := 9 |}.

Definition retryRequest (category : string) : AiRequest :=
  {| system := retrySystemInstruction; user := retryPromptText category;
     max_tokens := 500; temperature := 10 |}.

(** The candidate of the first attempt of [generateQuoteWithAI] and the
    verdict of the uniqueness check on it: the body of its [try] block up
    to the test of [isUnique]. *)
Definition firstCandidate : M (AIGeneratedQuote * bool) :=
  _ <- getOpenAIClient ;;
  prompt <- getQuoteGenerationPrompt ;;
  completion <- createCompletion (firstRequest prompt) ;;
  response <- lift (responseText completion) ;;
  parsedQuote <- lift (parseAIResponse response) ;;
  isUnique <- checkQuoteUniqueness (shlok parsedQuote) ;;
  ret (parsedQuote, isUnique).

(** The same for [generateQuoteWithAIRetry]. *)
Definition retryCandidate : M (AIGeneratedQuote * bool) :=
  _ <- getOpenAIClient ;;
  category <- getLeastUsedCategory ;;
  completion <- createCompletion (retryRequest category) ;;
  response <- lift (responseText completion) ;;
  parsedQuote <- lift (parseAIResponse response) ;;
  isUnique <- checkQuoteUniqueness (shlok parsedQuote) ;;
  ret (parsedQuote, isUnique).

(** The completion capability is unavailable: the key is missing, or
    every answer still to come is an error or carries no text. *)
Definition capabilityDown (w : World) : Prop :=
  api_key w = false
  \/ Forall (fun o => match o with
                      | AiFails _ | Completion None => True
                      | Completion (Some s) => s = EmptyString
                      end) (ai_env w).

(** Integrity of the store, as supabase-setup.sql declares it: one log
    per date (UNIQUE(date)), every log references a stored quote
    (REFERENCES quotes(id)), identifiers are handed out in increasing
    order. *)
Definition wfStore (st : Store) : Prop :=
  List.NoDup (map date (daily_logs st))
  /\ (forall l, In l (daily_logs st) -> exists q, findQuote st (quote_id l) = Some q)
  /\ (forall q, In q (quotes st) -> id q < next_id st).

(** Date [d] is published with quote [q]. *)
Definition published (st : Store) (d : string) (q : Quote) : Prop :=
  exists l, In l (daily_logs st) /\ date l = d /\ findQuote st (quote_id l) = Some q.

(** The number of publications of date [d]. *)
Definition publicationsOn (st : Store) (d : string) : nat :=
  length (List.filter (hasDate d) (daily_logs st)).

Definition isRead (r : StoreRequest) : bool :=
  match r with
  | InsertQuote _ _ | UpsertLog _ _ _ | DeleteQuote _ => false
  | _ => true
  end.

(** No concurrent publisher writes during the requests still to come. *)
Definition noRaces (w : World) : Prop :=
  Forall (fun s => races s = []) (store_env w).

(** What a computation changes when it sends the completion requests
    [sent] and only reads the store. *)
Record effects (sent : list AiRequest) (w w' : World) : Prop := {
  eff_clock : clock w' = clock w;
  eff_key : api_key w' = api_key w;
  eff_ai_log : ai_log w' = ai_log w ++ sent;
  eff_store_log :
    exists reqs, store_log w' = store_log w ++ reqs /\ forallb isRead reqs = true;
  eff_wf : wfStore (store w) -> wfStore (store w');
  eff_quiet : noRaces w -> noRaces w' /\ store w' = store w
}.

(** Nothing is left for [trim] to remove. *)
Definition trimmed (s : string) : Prop := Js.trim s = s.

Definition trimmedQuote (q : AIGeneratedQuote) : Prop :=
  trimmed (shlok q) /\ trimmed (meaning_hindi q) /\ trimmed (meaning_english q)
  /\ trimmed (source q)
  /\ match category q with Some c => trimmed c | None => True end.

(** Character [c] occurs in [s]. *)
Fixpoint occurs (c : ascii) (s : string) : Prop :=
  match s with
  | EmptyString => False
  | String a r => a = c \/ occurs c r
  end.

(** The clock shows a valid date and a time within the day. *)
Definition validClock (c : Clock) : Prop :=
  Cal.validDate (utc_date c) /\ (0 <= ms_of_day c < Cal.msPerDay)%Z.

(** An insert that stores nothing: the store answers with an error
    object or the request throws. *)
Definition insertFailed (r : Res (JsError + Quote)) : Prop :=
  match r with
  | Ok (inr _) => False
  | _ => True
  end.

(** ** Scenarios *)

Definition day (y m d : Z) : Cal.CivilDate :=
  {| Cal.year := y; Cal.month := m; Cal.day := d |}.

(** 2025-06-01, one hour after midnight UTC, on a server in UTC. *)
Definition june1 : Clock :=
  {| utc_date := day 2025 6 1; ms_of_day := 3600000; tz_offset := 0 |}.

Definition quoteRow (i : nat) (text : string) (c : option string) : Quote :=
  {| id := i; quote_shlok := text; quote_meaning_hindi := "h";
     quote_meaning_english := "e"; quote_source := "s";
     quote_category := c; created_at := 0 |}.

Definition logRow (i qid : nat) (d : string) : DailyLog :=
  {| log_id := i; quote_id := qid; date := d; log_created_at := 0 |}.

Definition world (st : Store) (env : list StoreStep) (ai : list AiOutcome)
    (key : bool) : World :=
  {| store := st; store_env := env; ai_env := ai; random_env := [];
     api_key := key; clock := june1; store_log := []; ai_log := [] |}.

Definition entryText (i : nat) : string := shlok (nth i fallbackQuotes noQuote).

(** The three karma verses of the table were published on the last three
    days, filed under another category. *)
Definition karmaUsedUp : World :=
  world
    {| quotes := [quoteRow 1 (entryText 0) (Some "peace");
                  quoteRow 2 (entryText 1) (Some "peace");
                  quoteRow 3 (entryText 2) (Some "peace")];
       daily_logs := [logRow 4 1 "2025-05-29"; logRow 5 2 "2025-05-30";
                      logRow 6 3 "2025-05-31"];
       next_id := 7 |}
    [] [] false.

(** The text of a structured answer with the four mandatory fields. *)
Definition jsonField (k v : string) : string :=
  (dq ++ k ++ dq ++ ": " ++ dq ++ v ++ dq)%string.

Definition jsonQuote (s h e src : string) : string :=
  ("{" ++ jsonField "shlok" s ++ ", " ++ jsonField "meaning_hindi" h ++ ", "
   ++ jsonField "meaning_english" e ++ ", " ++ jsonField "source" src ++ "}")%string.

Definition emptyStore : Store := {| quotes := []; daily_logs := []; next_id := 1 |}.

(** Nothing published yet; the endpoint answers with a structured record
    whose Hindi meaning is a single space. *)
Definition blankMeaning : World :=
  world emptyStore [] [Completion (Some (jsonQuote "x" " " "b" "c"))] true.

(** The text abc was published yesterday; the endpoint proposes abcd,
    twice. *)
Definition abcPublished : World :=
  world
    {| quotes := [quoteRow 1 "abc" (Some "karma")];
       daily_logs := [logRow 2 1 "2025-05-31"];
       next_id := 3 |}
    []
    [Completion (Some (jsonQuote "abcd" "h" "e" "s"));
     Completion (Some (jsonQuote "abcd" "h" "e" "s"))]
    true.


(** The no-break space, U+00A0. *)
Definition nbsp : string := String "194" (String "160" EmptyString).

(** The legacy plain-text answer of the specification. *)
Definition legacyAnswer : string :=
  ("Shlok: X" ++ nl ++ "Meaning Hindi: Y" ++ nl ++ "Meaning English: Z" ++ nl
   ++ "Source: S")%string.

(** The same answer without its source line. *)
Definition legacyNoSource : string :=
  ("Shlok: X" ++ nl ++ "Meaning Hindi: Y" ++ nl ++ "Meaning English: Z")%string.

(** A well-formed structured block followed by prose that has braces. *)
Definition blockThenProse : string :=
  (jsonQuote "A" "B" "C" "D" ++ " (category: {any})")%string.

(** The store rejects a primary text it already holds. *)
Definition shlokClash : JsError :=
  {| err_code := Some "23505";
     err_message := Some "duplicate key value violates unique constraint unique_shlok" |}.

Definition rejects (e : JsError) : StoreStep := {| races := []; fault := ReturnsError e |}.

(** No key, nothing published; both inserts of the coordinator are
    rejected for a repeated primary text. *)
Definition shlokClashTwice : World :=
  world emptyStore
    [quiet; quiet; quiet; rejects shlokClash; quiet; quiet; rejects shlokClash]
    [] false.

(** The store reports a second row for an existing date. *)
Definition dateClash : JsError :=
  {| err_code := Some "23505";
     err_message := Some "duplicate key value violates unique constraint daily_logs_date_key" |}.



(** Today is published with quote 1, but the first read of this call is
    answered with an error; later the link is answered with a conflict and
    the clean-up delete with an error. *)
Definition readFailsThenDeleteFails : World :=
  world
    {| quotes := [quoteRow 1 "abc" (Some "karma")];
       daily_logs := [logRow 2 1 "2025-06-01"];
       next_id := 3 |}
    [rejects (mkError "fetch failed"); quiet; quiet; quiet;
     rejects dateClash; quiet; rejects (mkError "fetch failed")]
    [] false.

(** The first insert is rejected for a repeated primary text, the rest
    of the call goes through. *)
Definition shlokClashOnce : World :=
  world emptyStore [quiet; quiet; quiet; rejects shlokClash] [] false.

(** Today is published with quote 1, but the first read of this call is
    answered with an error. *)
Definition readFailsOnce : World :=
  world
    {| quotes := [quoteRow 1 "abc" (Some "karma")];
       daily_logs := [logRow 2 1 "2025-06-01"];
       next_id := 3 |}
    [rejects (mkError "fetch failed")]
    [] false.

(** Today is published with quote 1 and the store answers. *)
Definition alreadyPublished : World :=
  world
    {| quotes := [quoteRow 1 "abc" (Some "karma")];
       daily_logs := [logRow 2 1 "2025-06-01"];
       next_id := 3 |}
    [] [] false.

(** Nothing published, no key, every request answered. *)
Definition freshDay : World := world emptyStore [] [] false.


(** ** services/scheduler.ts

    The cron job and the start-up check run the same body; what they
    print is left out. *)

(** Generate quote for today if it doesn't exist. *)
Definition generateDailyQuote : M unit :=
  try_catch
    (shouldGenerate <- shouldGenerateQuoteForToday ;;
     if shouldGenerate : bool then
       _ <- generateAndStoreQuote ;;
       ret tt
     else ret tt)
    (fun _ => ret tt).

(** Check and generate quote for today on startup. *)
Definition checkAndGenerateTodayQuote : M unit :=
  try_catch
    (shouldGenerate <- shouldGenerateQuoteForToday ;;
     if shouldGenerate : bool then
       _ <- generateAndStoreQuote ;;
       ret tt
     else ret tt)
    (fun _ => ret tt).

(** Manual quote generation function (for admin use): the error is
    logged and thrown again. *)
Definition generateQuoteManually : M unit :=
  try_catch
    (_ <- generateAndStoreQuote ;;
     ret tt)
    (fun error => throw error).

(** ** Reasoning about computations *)

(** From a world that satisfies [P], computation [m] ends in a world
    that satisfies [Q] of its result when it returns and [E] of the
    error when it throws. *)
Definition triple {A : Type} (P : World -> Prop) (m : M A)
    (Q : A -> World -> Prop) (E : JsError -> World -> Prop) : Prop :=
  forall w, P w ->
    match m w with
    | (Ok a, w') => Q a w'
    | (Throw e, w') => E e w'
    end.

(** [m] keeps invariant [I], whether it returns or throws. *)
Definition keeps {A : Type} (I : World -> Prop) (m : M A) : Prop :=
  triple I m (fun _ => I) (fun _ => I).

(** The store answers every request still to come and nobody else
    writes. *)
Definition calm (w : World) : Prop := store_env w = [].

(** A calm world whose store is [st] and whose clock shows [c]. *)
Definition calmAt (st : Store) (c : Clock) (w : World) : Prop :=
  calm w /\ store w = st /\ clock w = c.

(** The recent sample of [checkQuoteUniqueness] read from store [st]. *)
Definition recentSample (st : Store) : list string :=
  truthyShloks (db_recent 30 st).

(** [q] is an entry of the fallback table under some category label. *)
Definition fromFallbackTable (q : AIGeneratedQuote) : Prop :=
  exists entry c, In entry fallbackQuotes /\ q = withCategory entry c.

(** What a calm world knows after a candidate went through the
    uniqueness check: a verdict of unique means that no entry of the
    recent sample repeats the candidate. *)
Definition passedCheck (st : Store) (c : Clock)
    (r : AIGeneratedQuote * bool) (w' : World) : Prop :=
  calmAt st c w'
  /\ (snd r = true ->
      forall entry, In entry (recentSample st) -> ~ nearDuplicate (shlok (fst r)) entry).

(** Store [st] differs from [st0] only in what concerns date [today]:
    it is intact, every quote of [st0] is still there under its
    identifier, and the publications of every other date are the same. *)
Definition untouched (st0 : Store) (today : string) (st : Store) : Prop :=
  wfStore st
  /\ next_id st0 <= next_id st
  /\ (forall q, In q (quotes st0) -> In q (quotes st))
  /\ (forall k, k < next_id st0 -> findQuote st k = findQuote st0 k)
  /\ (forall l, date l <> today -> (In l (daily_logs st) <-> In l (daily_logs st0))).

(** The invariant of a call that publishes for [today] from store [st0]
    while nobody else writes. *)
Definition frameInv (st0 : Store) (today : string) (w : World) : Prop :=
  noRaces w /\ todayOf w = today /\ untouched st0 today (store w).

(** [l] is sorted by [le]: every element stands before the elements it
    is followed by. *)
Fixpoint sortedBy {A : Type} (le : A -> A -> bool) (l : list A) : Prop :=
  match l with
  | [] => True
  | a :: r => Forall (fun b => le a b = true) r /\ sortedBy le r
  end.

(** A list of dates from the newest to the oldest: no date is greater
    than one that stands before it. *)
Definition newestFirst (dates : list string) : Prop :=
  sortedBy (fun a b => negb (Js.gt b a)) dates.

(** ** middleware/errorHandler.ts

    An error as the handler looks at it.  [statusCode] is absent on a
    plain [Error]; the stack trace, which only the development mode
    prints, is left out. *)
Record AppError := {
  name : string;
  message : string;
  statusCode : option Z;
  isOperational : bool;
  code : option string
}.

(** Create custom error: a new [Error] with a status code. *)
Definition createError (statusCode : Z) (message : string) : AppError :=
  {| name := "Error"; message := message; statusCode := Some statusCode;
     isOperational := true; code := None |}.

(** What a list endpoint or a single-record endpoint puts in [data]. *)
Inductive Payload :=
| QuotePayload (quote : Quote)
| DatesPayload (dates : list string) (count : nat)
| QuotesPayload (quotes : list (option Quote * string)) (count : nat).

(** The JSON body of a response: [{ success: true, data, message }] or
    [{ success: false, error: { message, statusCode, details } }], where
    [details] is present in development mode only. *)
Inductive Body :=
| SuccessBody (data : Payload) (message : string)
| ErrorBody (message : string) (statusCode : Z) (details : option string).

Record HttpResponse := { status : Z; body : Body }.

Definition hasErrorCode (c : string) (error : AppError) : bool :=
  match code error with
  | Some c' => String.eqb c' c
  | None => false
  end.

(** Error handling middleware; [development] is
    [process.env.NODE_ENV === 'development']. *)
Definition errorHandler (development : bool) (error : AppError) : HttpResponse :=
  let '(statusCode1, message1) :=
    match statusCode error with
    | Some s => if (s =? 0)%Z then (500%Z, "Internal Server Error") else (s, message error)
    | None => (500%Z, "Internal Server Error")
    end in
  let '(statusCode2, message2) :=
    if String.eqb (name error) "ValidationError" then (400%Z, "Validation Error")
    else if String.eqb (name error) "CastError" then (400%Z, "Invalid ID format")
    else if hasErrorCode "23505" error then (409%Z, "Resource already exists")
    else if hasErrorCode "23503" error then (400%Z, "Invalid reference")
    else (statusCode1, message1) in
  {| status := statusCode2;
     body := ErrorBody message2 statusCode2
               (if development then Some (message error) else None) |}.

(** ** controllers/quoteController.ts

    A handler ends by sending a JSON body ([res.json], status 200) or by
    handing an error to the next middleware ([next(error)]), which is
    [errorHandler] (app.ts). *)
Inductive Reply :=
| Json (data : Payload) (message : string)
| Next (error : AppError).

Definition respond (development : bool) (reply : Reply) : HttpResponse :=
  match reply with
  | Json data message => {| status := 200; body := SuccessBody data message |}
  | Next error => errorHandler development error
  end.

(** The test of [/^\d{4}-\d{2}-\d{2}$/]. *)
Definition isDateFormat (s : string) : bool :=
  match s with
  | String y1 (String y2 (String y3 (String y4 (String h1
      (String m1 (String m2 (String h2 (String d1 (String d2 EmptyString))))))))) =>
      Js.isDigit y1 && Js.isDigit y2 && Js.isDigit y3 && Js.isDigit y4
      && Ascii.eqb h1 "-" && Js.isDigit m1 && Js.isDigit m2
      && Ascii.eqb h2 "-" && Js.isDigit d1 && Js.isDigit d2
  | _ => false
  end.

(** The value of character [c] as a digit of base [radix]. *)
Definition digitOf (radix : Z) (c : ascii) : option Z :=
  match Json.hexVal c with
  | Some v => if (Z.of_nat v <? radix)%Z then Some (Z.of_nat v) else None
  | None => None
  end.

(** The longest run of digits at the head of [s]; [acc] is the value
    read so far, [None] before the first digit. *)
Fixpoint readRadix (radix : Z) (acc : option Z) (s : string) : option Z :=
  match s with
  | EmptyString => acc
  | String c r =>
      match digitOf radix c with
      | Some v => readRadix radix (Some (default 0 acc * radix + v)%Z) r
      | None => acc
      end
  end.

(** [parseInt(value)] of a query parameter that is absent or a string:
    leading white space, an optional sign, an optional 0x prefix, then
    the longest run of digits; [None] is NaN.  The handlers only compare
    the result with their bounds, for which the exact integer and the
    floating-point number agree. *)
Definition parseInt (value : option string) : option Z :=
  match value with
  | None => None
  | Some s =>
      let s1 := Js.trimStart s in
      let '(negative, s2) :=
        match s1 with
        | String c r =>
            if Ascii.eqb c "-" then (true, r)
            else if Ascii.eqb c "+" then (false, r)
            else (false, s1)
        | EmptyString => (false, s1)
        end in
      let '(radix, s3) :=
        if Js.startsWith s2 "0x" || Js.startsWith s2 "0X"
        then (16%Z, Js.drop 2 s2) else (10%Z, s2) in
      match readRadix radix None s3 with
      | Some n => Some (if negative : bool then (- n)%Z else n)
      | None => None
      end
  end.

(** [parseInt(value) || fallback]: NaN and zero are falsy. *)
Definition orDefault (n : option Z) (fallback : Z) : Z :=
  match n with
  | Some v => if (v =? 0)%Z then fallback else v
  | None => fallback
  end.

Module quoteController.

(** Get today's quote (only if it exists). *)
Definition getTodayQuote : M Reply :=
  try_catch
    (todayQuote <- getTodayQuote ;;
     match todayQuote with
     | None =>
         ret (Next (createError 404
                      "No quote available for today yet. Check back after 6:00 AM IST."))
     | Some quote => ret (Json (QuotePayload quote) "Today's quote retrieved successfully")
     end)
    (fun _ => ret (Next (createError 500 "Failed to get today's quote"))).

(** Get quote for a specific date. *)
Definition getQuoteForDate (date : string) : M Reply :=
  try_catch
    (if negb (Js.truthy date) || negb (isDateFormat date) then
       ret (Next (createError 400 "Invalid date format. Use YYYY-MM-DD"))
     else
       quote <- getQuoteForDate date ;;
       match quote with
       | None =>
           ret (Next (createError 404
                        "No quote found for this date or date is in the future"))
       | Some q =>
           ret (Json (QuotePayload q)
                  ("Quote for " ++ date ++ " retrieved successfully")%string)
       end)
    (fun _ => ret (Next (createError 500 "Failed to get quote for date"))).

(** Get available dates; [limit] is [req.query.limit]. *)
Definition getAvailableDates (limit : option string) : M Reply :=
  try_catch
    (let limit := orDefault (parseInt limit) 30 in
     if ((limit <? 1) || (100 <? limit))%Z then
       ret (Next (createError 400 "Limit must be between 1 and 100"))
     else
       dates <- getAvailableDates (Z.to_nat limit) ;;
       ret (Json (DatesPayload dates (length dates))
              "Available dates retrieved successfully"))
    (fun _ => ret (Next (createError 500 "Failed to get available dates"))).

(** Get recent quotes; [limit] is [req.query.limit]. *)
Definition getRecentQuotes (limit : option string) : M Reply :=
  try_catch
    (let limit := orDefault (parseInt limit) 10 in
     if ((limit <? 1) || (50 <? limit))%Z then
       ret (Next (createError 400 "Limit must be between 1 and 50"))
     else
       quotes <- getRecentQuotes (Z.to_nat limit) ;;
       ret (Json (QuotesPayload quotes (length quotes))
              "Recent quotes retrieved successfully"))
    (fun _ => ret (Next (createError 500 "Failed to get recent quotes"))).

(** Get quote by ID; [id] has passed [validateQuoteId]. *)
Definition getQuoteById (id : nat) : M Reply :=
  try_catch
    (quote <- getQuoteById id ;;
     match quote with
     | None => ret (Next (createError 404 "Quote not found or not accessible"))
     | Some q => ret (Json (QuotePayload q) "Quote retrieved successfully")
     end)
    (fun _ => ret (Next (createError 500 "Failed to get quote"))).

End quoteController.

(** The response of a route: the reply of its handler, sent. *)
Definition route (development : bool) (handler : M Reply) : M HttpResponse :=
  reply <- handler ;;
  ret (respond development reply).

(** A response as the quote routes send it: a success body goes with
    status 200; an error body repeats the status, which is 400, 404 or
    500, and carries [details] in development mode only, where it is
    the message itself. *)
Definition plainResponse (development : bool) (r : HttpResponse) : Prop :=
  match body r with
  | SuccessBody _ _ => status r = 200%Z
  | ErrorBody m s d =>
      s = status r /\ In s [400; 404; 500]%Z
      /\ d = (if development then Some m else None)
  end.

(** ** The answer the prompt asks for *)

(** Text that a JSON string literal carries as it is: no quote, no
    backslash, no control character (and no surrogate pair written as
    two surrogates, which is no text of the runtime). *)
Fixpoint plain (s : string) : bool :=
  match s with
  | EmptyString => true
  | String c r =>
      (32 <=? Js.code c) && negb (Js.code c =? 34) && negb (Js.code c =? 92)
      && negb (Json.pairAhead s) && plain r
  end.

(** The layout under [Required JSON format] in the prompt of
    [getQuoteGenerationPrompt], filled with field values. *)
Definition requestedFormat (s h e src c : string) : string :=
  ("{" ++ nl
   ++ "  " ++ jsonField "shlok" s ++ "," ++ nl
   ++ "  " ++ jsonField "meaning_hindi" h ++ "," ++ nl
   ++ "  " ++ jsonField "meaning_english" e ++ "," ++ nl
   ++ "  " ++ jsonField "source" src ++ "," ++ nl
   ++ "  " ++ jsonField "category" c ++ nl
   ++ "}")%string.

(** ** What a call of the coordinator achieves *)

(** The call of [generateAndStoreQuote] in [w] returns a record; today
    is then published with it, exactly once, and a record that was
    published today before the call is the one returned, with the store
    left as it was. *)
Definition publishes (w : World) : Prop :=
  exists q w',
    generateAndStoreQuote w = (Ok q, w')
    /\ calm w' /\ wfStore (store w')
    /\ published (store w') (todayOf w) q
    /\ publicationsOn (store w') (todayOf w) = 1
    /\ (forall q0, published (store w) (todayOf w) q0 -> q = q0 /\ store w' = store w).

(** The call generates candidate [a], which table [quotes] refuses, and
    throws the error of the insert; the store is as it was, with nothing
    published today. *)
Definition refused (w : World) (a : AIGeneratedQuote) : Prop :=
  exists w2 e w',
    generateQuoteWithAI (afterRead (SelectLogsByDate (todayOf w)) w) = (Ok a, w2)
    /\ rejection a = Some e
    /\ generateAndStoreQuote w
       = (Throw (mkError ("Failed to insert quote: " ++ messageText e)%string), w')
    /\ store w' = store w
    /\ publicationsOn (store w) (todayOf w) = 0.

(** A completion whose category is not one of the eight. *)
Definition bhaktiAnswer : string :=
  ("{" ++ jsonField "shlok" "x" ++ ", " ++ jsonField "meaning_hindi" "a" ++ ", "
   ++ jsonField "meaning_english" "b" ++ ", " ++ jsonField "source" "c" ++ ", "
   ++ jsonField "category" "Bhakti" ++ "}")%string.

(** Nothing published yet, every request answered; the endpoint proposes
    a record of category Bhakti. *)
Definition bhaktiDay : World :=
  world emptyStore [] [Completion (Some bhaktiAnswer)] true.

(** ** services/aiService.ts, the revision before the uniqueness checks

    The service as it was before the store was consulted: the category
    is drawn at random, the answer is read by labels only, and both the
    parser and the generator fall back to a table of eight entries.
    [getOpenAIClient], [QUOTE_CATEGORIES] and [getRandomCategory] are the
    same in both revisions. *)

Module Earlier.

Definition promptText (randomCategory : string) : string :=
  ("
Generate one Shlok from any Indian scripture (Bhagavad Gita, Ramayana, Mahabharata, Upanishads, etc.) 
that relates to the category: " ++ randomCategory ++ "

Requirements:
1. The Shlok should be in Sanskrit (Devanagari script)
2. Provide meaning in Hindi (Devanagari script)
3. Provide meaning in English (simple, clear translation)
4. Include the source scripture name
5. The quote MUST relate to the category: " ++ randomCategory ++ "

Example format:
Shlok: कर्मण्येवाधिकारस्ते मा फलेषु कदाचन
Meaning Hindi: तुम्हारा अधिकार केवल कर्म करने में है, फल में नहीं।
Meaning English: You have the right to perform your actions, but never to the fruits of those actions.
Source: Bhagavad Gita
Category: " ++ randomCategory ++ "

Please generate a new, meaningful quote related to " ++ randomCategory ++ " following this exact format.
")%string.

(** AI prompt for generating quotes with random category. *)
Definition getQuoteGenerationPrompt : M string :=
  randomCategory <- getRandomCategory ;;
  ret (promptText randomCategory).

Definition systemInstruction : string :=
  "You are a knowledgeable expert in Indian scriptures and Sanskrit literature. Generate authentic and meaningful quotes from ancient texts.".

(** The static table of [getFallbackQuote], in its declared order. *)
Definition fallbackQuotes : list AIGeneratedQuote := [
  {| shlok := "कर्मण्येवाधिकारस्ते मा फलेषु कदाचन";
     meaning_hindi := "तुम्हारा अधिकार केवल कर्म करने में है, फल में नहीं।";
     meaning_english := "You have the right to perform your actions, but never to the fruits of those actions.";
     source := "Bhagavad Gita";
     category := Some "karma" |};
  {| shlok := "योग: कर्मसु कौशलम्";
     meaning_hindi := "योग कर्मों में कुशलता है।";
     meaning_english := "Yoga is skill in action and excellence in work.";
     source := "Bhagavad Gita";
     category := Some "yoga" |};
  {| shlok := "सत्यमेव जयते";
     meaning_hindi := "सत्य की ही जीत होती है।";
     meaning_english := "Truth alone triumphs and prevails.";
     source := "Mundaka Upanishad";
     category := Some "truth" |};
  {| shlok := "वसुधैव कुटुम्बकम्";
     meaning_hindi := "पूरी पृथ्वी ही एक परिवार है।";
     meaning_english := "The whole world is one family.";
     source := "Mahopanishad";
     category := Some "peace" |};
  {| shlok := "अहिंसा परमो धर्मः";
     meaning_hindi := "अहिंसा सबसे बड़ा धर्म है।";
     meaning_english := "Non-violence is the highest virtue and dharma.";
     source := "Mahabharata";
     category := Some "dharma" |};
  {| shlok := "ज्ञानं वैराग्यं च सा विद्या";
     meaning_hindi := "ज्ञान और वैराग्य ही वास्तविक विद्या है।";
     meaning_english := "Knowledge and detachment together constitute true wisdom.";
     source := "Bhagavad Gita";
     category := Some "wisdom" |};
  {| shlok := "भक्ति योगेन तोषयामि";
     meaning_hindi := "भक्ति योग से मैं प्रसन्न होता हूं।";
     meaning_english := "I am pleased by the yoga of devotion.";
     source := "Bhagavad Gita";
     category := Some "devotion" |};
  {| shlok := "ध्यानात् कर्म फल त्यागः";
     meaning_hindi := "ध्यान से कर्म फल का त्याग होता है।";
     meaning_english := "Through meditation, one renounces the fruits of action.";
     source := "Yoga Sutras";
     category := Some "meditation" |}
].

(** Fallback quote when AI fails. *)
Definition getFallbackQuote : M AIGeneratedQuote :=
  randomCategory <- getRandomCategory ;;
  let categoryQuotes := List.filter (hasCategory randomCategory) fallbackQuotes in
  let quotesToUse := if isEmpty categoryQuotes then fallbackQuotes else categoryQuotes in
  randomIndex <- randomIndex (length quotesToUse) ;;
  let selectedQuote := nth randomIndex quotesToUse noQuote in
  ret (withCategory selectedQuote randomCategory).

(** Parse AI response to extract quote components. *)
Definition parseAIResponse (response : string) : M AIGeneratedQuote :=
  try_catch
    (let shlok := labelled response "Shlok:" in
     let meaning_hindi := labelled response "Meaning Hindi:" in
     let meaning_english := labelled response "Meaning English:" in
     let source :=
       if Js.truthy (labelled response "Source:")
       then labelled response "Source:" else "Unknown Scripture" in
     let category :=
       match Regex.capture "Category:" response with
       | Some g => Some (Js.trim g)
       | None => None
       end in
     if negb (Js.truthy shlok) || negb (Js.truthy meaning_hindi)
        || negb (Js.truthy meaning_english) || negb (Js.truthy source)
     then throw (mkError "Invalid AI response format")
     else ret {| shlok := shlok; meaning_hindi := meaning_hindi;
                 meaning_english := meaning_english; source := source;
                 category := category |})
    (fun _ => getFallbackQuote).

(** The request of [generateQuoteWithAI]; the temperature is 0.7. *)
Definition request (prompt : string) : AiRequest :=
  {| system := systemInstruction; user := prompt;
     max_tokens := 500; temperature := 7 |}.

(** Generate quote using AI. *)
Definition generateQuoteWithAI : M AIGeneratedQuote :=
  try_catch
    (_ <- getOpenAIClient ;;
     prompt <- getQuoteGenerationPrompt ;;
     completion <- createCompletion (request prompt) ;;
     response <- lift (responseText completion) ;;
     parsedQuote <- parseAIResponse response ;;
     ret parsedQuote)
    (fun _ => getFallbackQuote).

End Earlier.

(** What a call of the earlier generator leaves behind: it does not turn
    to the store, and it sends at most one request. *)
Definition earlierTrace (w w' : World) : Prop :=
  store w' = store w /\ store_env w' = store_env w /\ store_log w' = store_log w
  /\ (ai_log w' = ai_log w
      \/ exists c, In c QUOTE_CATEGORIES
           /\ ai_log w' = ai_log w ++ [Earlier.request (Earlier.promptText c)]).

(** ** The label format *)

Definition labels : list string :=
  ["Shlok:"; "Meaning Hindi:"; "Meaning English:"; "Source:"; "Category:"].

(** A value that fits on a line of the label format: it has no line
    feed, it is not blank, and none of the five labels occurs in it. *)
Definition lineValue (v : string) : bool :=
  String.eqb (Regex.untilNewline v) v
  && Js.truthy (Js.trim v)
  && forallb (fun label => negb (Js.bytesInclude v label)) labels.

(** The layout under [Example format] in the prompt of the earlier
    revision, filled with field values. *)
Definition exampleFormat (s h e src c : string) : string :=
  ("Shlok: " ++ s ++ nl
   ++ "Meaning Hindi: " ++ h ++ nl
   ++ "Meaning English: " ++ e ++ nl
   ++ "Source: " ++ src ++ nl
   ++ "Category: " ++ c)%string.

(** The first occurrence of [label] in [response] is followed by [v] up
    to the end of its line. *)
Definition labelLine (response label v : string) : Prop :=
  exists before rest : string,
    response = (before ++ label ++ v ++ rest)%string
    /\ (forall p q : string,
          response = (p ++ label ++ q)%string ->
          String.length before <= String.length p)
    /\ ~ occurs "010" v
    /\ (rest = EmptyString \/ exists t : string, rest = (nl ++ t)%string).

(** The legacy layout of the specification, without a category line,
    filled with field values. *)
Definition legacyFormat (x y z s : string) : string :=
  ("Shlok: " ++ x ++ nl
   ++ "Meaning Hindi: " ++ y ++ nl
   ++ "Meaning English: " ++ z ++ nl
   ++ "Source: " ++ s)%string.

(** The record of the trimmed values. *)
Definition trimmedRecord (s h e src c : string) : AIGeneratedQuote :=
  {| shlok := Js.trim s; meaning_hindi := Js.trim h;
     meaning_english := Js.trim e; source := Js.trim src;
     category := Some (Js.trim c) |}.
(** * Properties *)

(** ** Strings *)

Section JsFacts.

Lemma append_cons (a : ascii) (x y : string) :
  (String a x ++ y)%string = String a (x ++ y)%string.
Proof. reflexivity. Qed.

Lemma append_nil (y : string) : (EmptyString ++ y)%string = y.
Proof. reflexivity. Qed.

Lemma append_assoc (x y z : string) : ((x ++ y) ++ z)%string = (x ++ (y ++ z))%string.
Proof.
  induction x as [|a x IH]; [reflexivity|].
  rewrite !append_cons, IH. reflexivity.
Qed.

Lemma append_nil_r (x : string) : (x ++ EmptyString)%string = x.
Proof. induction x as [|a x IH]; [reflexivity|]. rewrite append_cons, IH. reflexivity. Qed.

Lemma startsWith_app (p s : string) : Js.startsWith (p ++ s) p = true.
Proof.
  induction p as [|a p IH]; simpl; [reflexivity|].
  rewrite Ascii.eqb_refl. exact IH.
Qed.

Lemma startsWith_inv (s p : string) :
  Js.startsWith s p = true -> exists post, s = (p ++ post)%string.
Proof.
  revert s. induction p as [|a p IH]; intros s H.
  - exists s. reflexivity.
  - destruct s as [|b s]; simpl in H; [discriminate|].
    destruct (Ascii.eqb a b) eqn:E; [|discriminate].
    apply Ascii.eqb_eq in E. subst b.
    destruct (IH s H) as [post ->]. exists post. reflexivity.
Qed.

Lemma bytesInclude_unfold (s t : string) :
  Js.bytesInclude s t =
  Js.startsWith s t
  || match s with
     | EmptyString => false
     | String _ r => Js.bytesInclude r t
     end.
Proof. destruct s; reflexivity. Qed.

Lemma bytesInclude_Substring (s t : string) :
  Js.bytesInclude s t = true <-> Substring t s.
Proof.
  split.
  - induction s as [|c s IH]; rewrite bytesInclude_unfold; intros H.
    + apply orb_true_iff in H as [H|H]; [|discriminate].
      destruct (startsWith_inv _ _ H) as [post E].
      exists EmptyString, post. exact E.
    + apply orb_true_iff in H as [H|H].
      * destruct (startsWith_inv _ _ H) as [post E].
        exists EmptyString, post. exact E.
      * destruct (IH H) as (pre & post & ->).
        exists (String c pre), post. reflexivity.
  - intros (pre & post & ->).
    induction pre as [|c pre IH].
    + rewrite bytesInclude_unfold.
      change (EmptyString ++ t ++ post)%string with (t ++ post)%string.
      rewrite startsWith_app. reflexivity.
    + change ((String c pre ++ t ++ post)%string)
        with (String c (pre ++ t ++ post)%string).
      rewrite bytesInclude_unfold, IH. apply orb_true_r.
Qed.

Lemma startsWithUnits_app (p l : list N) : Js.startsWithUnits (p ++ l) p = true.
Proof.
  induction p as [|a p IH]; [reflexivity|].
  cbn [app Js.startsWithUnits]. rewrite N.eqb_refl. exact IH.
Qed.

Lemma startsWithUnits_inv (l p : list N) :
  Js.startsWithUnits l p = true -> exists post, l = p ++ post.
Proof.
  revert l. induction p as [|a p IH]; intros l H.
  - exists l. reflexivity.
  - destruct l as [|b l]; cbn [Js.startsWithUnits] in H; [discriminate|].
    apply andb_true_iff in H as [E H]. apply N.eqb_eq in E. subst b.
    destruct (IH l H) as [post ->]. exists post. reflexivity.
Qed.

Lemma includesUnits_unfold (l p : list N) :
  Js.includesUnits l p =
  Js.startsWithUnits l p
  || match l with
     | [] => false
     | _ :: r => Js.includesUnits r p
     end.
Proof. destruct l; reflexivity. Qed.

Lemma includesUnits_infix (l p : list N) :
  Js.includesUnits l p = true <-> exists pre post, l = pre ++ p ++ post.
Proof.
  split.
  - induction l as [|c l IH]; rewrite includesUnits_unfold; intros H;
      apply orb_true_iff in H as [H|H]; try discriminate.
    + destruct (startsWithUnits_inv _ _ H) as [post E]. exists [], post. exact E.
    + destruct (startsWithUnits_inv _ _ H) as [post E]. exists [], post. exact E.
    + destruct (IH H) as (pre & post & ->). exists (c :: pre), post. reflexivity.
  - intros (pre & post & ->). induction pre as [|c pre IH].
    + rewrite includesUnits_unfold. cbn [app]. rewrite startsWithUnits_app. reflexivity.
    + cbn [app]. rewrite includesUnits_unfold, IH. apply orb_true_r.
Qed.

(** [String.includes] is occurrence as a run of code units. *)
Lemma includes_Occurs (s t : string) :
  Js.includes s t = true <-> Occurs t s.
Proof. apply includesUnits_infix. Qed.

Lemma occurs_app (c : ascii) (u v : string) :
  occurs c v -> occurs c (u ++ v)%string.
Proof.
  intros H. induction u as [|a u IH]; [exact H|].
  change (String a u ++ v)%string with (String a (u ++ v)%string).
  right. exact IH.
Qed.

End JsFacts.

(** ** The monad and the store requests *)

Lemma storeCall_read {A : Type} (req : StoreRequest) (data : Store -> A) (w : World) :
  storeCall req (fun st => (inr (data st), st)) w
  = (readAnswer (data (storeAtNextRequest w)) w, afterRead req w).
Proof.
  unfold storeCall, readAnswer, afterRead, storeAtNextRequest.
  destruct (nextStep w) as [step env'] eqn:E. cbn [fst snd].
  destruct (fault step); reflexivity.
Qed.

(** ** Recent history *)

Lemma getRecentlyUsedQuotes_run (limit : nat) (w : World) :
  getRecentlyUsedQuotes limit w
  = (Ok (match fault (fst (nextStep w)) with
         | NoFault => truthyShloks (db_recent limit (storeAtNextRequest w))
         | _ => []
         end),
     afterRead (SelectRecent limit) w).
Proof.
  unfold getRecentlyUsedQuotes, try_catch, bind.
  rewrite storeCall_read. unfold readAnswer.
  destruct (fault (fst (nextStep w))); reflexivity.
Qed.

Lemma existsb_similar (shlok : string) (sample : list string) :
  existsb (similar shlok) sample = true
  <-> exists entry, In entry sample /\ nearDuplicate shlok entry.
Proof.
  rewrite existsb_exists. split; intros (entry & Hin & H); exists entry; split; try exact Hin.
  - unfold similar in H. unfold nearDuplicate.
    apply orb_true_iff in H as [H|H]; [apply orb_true_iff in H as [H|H]|].
    + right; right. apply String.eqb_eq. exact H.
    + left. apply includes_Occurs. exact H.
    + right; left. apply includes_Occurs. exact H.
  - unfold similar. destruct H as [H|[H|H]].
    + apply includes_Occurs in H. rewrite H. rewrite orb_true_r. reflexivity.
    + apply includes_Occurs in H. rewrite H. apply orb_true_r.
    + apply String.eqb_eq in H. rewrite H. reflexivity.
Qed.




Lemma isAscii_app (x y : string) :
  isAscii (x ++ y) = isAscii x && isAscii y.
Proof.
  induction x as [|a x IH]; [reflexivity|].
  rewrite append_cons. cbn [isAscii]. rewrite IH. apply andb_assoc.
Qed.










(** The scenario of the specification: abc is in the recent history,
    the candidate abcd is not unique. *)
Lemma checkQuoteUniqueness_abcd :
  fst (checkQuoteUniqueness "abcd" abcPublished) = Ok false.
Proof. vm_compute. reflexivity. Qed.

(** ** Category balancer *)

Lemma countOf_bump (k c : string) (m : gmap string nat) :
  countOf (bump k m) c = countOf m c + (if String.eqb k c then 1 else 0).
Proof.
  unfold bump, countOf.
  destruct (String.eqb k c) eqn:E.
  - apply String.eqb_eq in E. subst c. rewrite lookup_insert_eq. reflexivity.
  - apply String.eqb_neq in E. rewrite lookup_insert_ne by exact E. simpl. lia.
Qed.

Lemma tally_counts (c : string) (rows : list (option Quote)) :
  c <> EmptyString ->
  forall acc,
    countOf (fst (fold_left tally rows acc)) c
    = countOf (fst acc) c + occurrences c rows.
Proof.
  intros Hc. induction rows as [|row rows IH]; intros acc.
  - unfold occurrences. simpl. lia.
  - cbn [fold_left]. rewrite IH. unfold occurrences. cbn [List.filter].
    destruct row as [q|]; cbn [tally fst]; [|lia].
    destruct (quote_category q) as [c'|]; [|lia].
    destruct (Js.truthy c') eqn:T.
    + rewrite countOf_bump. destruct (String.eqb c' c); simpl; lia.
    + destruct c'; [|discriminate T].
      destruct (String.eqb EmptyString c) eqn:E; [|lia].
      apply String.eqb_eq in E. congruence.
Qed.

Lemma getQuoteUsageStats_run (w : World) :
  getQuoteUsageStats w
  = (Ok (match fault (fst (nextStep w)) with
         | NoFault =>
             let rows := db_recent 100 (storeAtNextRequest w) in
             {| totalQuotes := length rows;
                categoryDistribution := fst (fold_left tally rows (∅, ∅));
                sourceDistribution := snd (fold_left tally rows (∅, ∅)) |}
         | _ => emptyStats
         end),
     afterRead SelectUsage w).
Proof.
  unfold getQuoteUsageStats, try_catch, bind.
  rewrite storeCall_read. unfold readAnswer.
  destruct (fault (fst (nextStep w))); try reflexivity.
  cbv zeta. destruct (fold_left tally _ _). reflexivity.
Qed.

Lemma getLeastUsedCategory_run (w : World) :
  getLeastUsedCategory w
  = (Ok (leastUsed
           (match fault (fst (nextStep w)) with
            | NoFault => fst (fold_left tally (db_recent 100 (storeAtNextRequest w)) (∅, ∅))
            | _ => ∅
            end)),
     afterRead SelectUsage w).
Proof.
  unfold getLeastUsedCategory, try_catch, bind.
  rewrite getQuoteUsageStats_run. unfold ret.
  destruct (fault (fst (nextStep w))); reflexivity.
Qed.

Section Least.

Variable counts : gmap string nat.

Let count (c : string) : nat := countOf counts c.

Lemma leastStep_keeps (done todo : list string) (best : string) :
  firstMinimal count done best ->
  let r := fold_left (leastStep counts) todo (best, count best) in
  firstMinimal count (done ++ todo) (fst r) /\ snd r = count (fst r).
Proof.
  revert done best. induction todo as [|c todo IH]; intros done best H.
  - simpl. rewrite app_nil_r. split; [exact H|reflexivity].
  - cbn [fold_left].
    assert (Hs : leastStep counts (best, count best) c
                 = if count c <? count best then (c, count c) else (best, count best))
      by reflexivity.
    rewrite Hs. clear Hs.
    replace (done ++ c :: todo) with ((done ++ [c]) ++ todo)
      by (rewrite <- app_assoc; reflexivity).
    destruct H as (i & Hi & Hmin & Hfirst).
    assert (Hlt : i < length done) by (apply nth_error_Some; congruence).
    destruct (count c <? count best) eqn:E.
    + apply Nat.ltb_lt in E. apply IH.
      exists (length done). split; [|split].
      * rewrite nth_error_app2 by lia. rewrite Nat.sub_diag. reflexivity.
      * intros c' Hin. apply in_app_or in Hin as [Hin|[<-|[]]]; [|lia].
        specialize (Hmin c' Hin). lia.
      * intros j c' Hj Hnth. rewrite nth_error_app1 in Hnth by lia.
        apply nth_error_In in Hnth. specialize (Hmin c' Hnth). lia.
    + apply Nat.ltb_ge in E. apply IH.
      exists i. split; [|split].
      * rewrite nth_error_app1 by lia. exact Hi.
      * intros c' Hin. apply in_app_or in Hin as [Hin|[<-|[]]]; [|lia].
        apply Hmin. exact Hin.
      * intros j c' Hj Hnth. rewrite nth_error_app1 in Hnth by lia.
        eapply Hfirst; eassumption.
Qed.

Lemma leastUsed_firstMinimal :
  firstMinimal count QUOTE_CATEGORIES (leastUsed counts).
Proof.
  unfold leastUsed, QUOTE_CATEGORIES.
  change (fold_left (leastStep counts)
            ("karma" :: ["peace"; "wisdom"; "devotion"; "yoga"; "truth"; "dharma"; "meditation"])
            (nth 0 ("karma" :: ["peace"; "wisdom"; "devotion"; "yoga"; "truth"; "dharma"; "meditation"]) EmptyString,
             countOf counts (nth 0 ("karma" :: ["peace"; "wisdom"; "devotion"; "yoga"; "truth"; "dharma"; "meditation"]) EmptyString)))
    with (fold_left (leastStep counts)
            ["peace"; "wisdom"; "devotion"; "yoga"; "truth"; "dharma"; "meditation"]
            (leastStep counts ("karma", count "karma") "karma")).
  assert (Hs : leastStep counts ("karma", count "karma") "karma" = ("karma", count "karma")).
  { unfold leastStep. cbn [snd]. fold (count "karma"). rewrite Nat.ltb_irrefl. reflexivity. }
  rewrite Hs.
  apply (leastStep_keeps ["karma"]).
  exists 0. split; [reflexivity|]. split.
  - intros c' [<-|[]]. lia.
  - intros j c' Hj. lia.
Qed.

End Least.

Lemma leastUsed_empty : leastUsed ∅ = "karma".
Proof. vm_compute. reflexivity. Qed.

(** C7.  [getLeastUsedCategory] reads the 100 most recent publications
    and never throws.  When the read is answered, its result is the
    category of the fixed list with the least number of occurrences among
    them, the first such category in the declared order.  When the read
    fails, the result is the first category of the list, whatever the
    random draws are: no draw is consumed. *)
Theorem getLeastUsedCategory_semantics (w : World) :
  exists c : string,
    getLeastUsedCategory w = (Ok c, afterRead SelectUsage w)
    /\ random_env (afterRead SelectUsage w) = random_env w
    /\ match fault (fst (nextStep w)) with
       | NoFault =>
           firstMinimal
             (fun k => occurrences k (db_recent 100 (storeAtNextRequest w)))
             QUOTE_CATEGORIES c
       | _ => c = "karma"
       end.
Proof.
  eexists. split; [apply getLeastUsedCategory_run|]. split; [reflexivity|].
  destruct (fault (fst (nextStep w))); try apply leastUsed_empty.
  pose proof (leastUsed_firstMinimal
                (fst (fold_left tally (db_recent 100 (storeAtNextRequest w)) (∅, ∅)))) as H.
  destruct H as (i & Hi & Hmin & Hfirst).
  assert (Hcat : forall k, In k QUOTE_CATEGORIES ->
            countOf (fst (fold_left tally (db_recent 100 (storeAtNextRequest w)) (∅, ∅))) k
            = occurrences k (db_recent 100 (storeAtNextRequest w))).
  { intros k Hk. rewrite tally_counts.
    - unfold countOf. cbn [fst]. rewrite lookup_empty. reflexivity.
    - intros ->. unfold QUOTE_CATEGORIES in Hk. simpl in Hk.
      repeat (destruct Hk as [Hk|Hk]; [discriminate Hk|]). exact Hk. }
  assert (Hin : In (leastUsed (fst (fold_left tally (db_recent 100 (storeAtNextRequest w)) (∅, ∅))))
                   QUOTE_CATEGORIES) by (eapply nth_error_In; exact Hi).
  exists i. split; [exact Hi|]. split.
  - intros c' Hc'. rewrite <- !Hcat by assumption. apply Hmin. exact Hc'.
  - intros j c' Hj Hnth. rewrite <- !Hcat by (try assumption; eapply nth_error_In; exact Hnth).
    eapply Hfirst; eassumption.
Qed.

(** ** Fallback table *)

Lemma fallbackQuotes_wellFormed (q : AIGeneratedQuote) :
  In q fallbackQuotes -> wellFormed q.
Proof.
  assert (H : forallb wellFormedb fallbackQuotes = true) by (vm_compute; reflexivity).
  rewrite forallb_forall in H. intros Hin. specialize (H q Hin).
  unfold wellFormedb in H. unfold wellFormed.
  repeat (apply andb_true_iff in H as [H ?]).
  repeat split; intros E; rewrite E in *; discriminate.
Qed.

Lemma finalQuotes_incl (c : string) (recent : list string) (q : AIGeneratedQuote) :
  In q (finalQuotes c recent) -> In q fallbackQuotes.
Proof.
  unfold finalQuotes.
  set (available := List.filter _ fallbackQuotes).
  assert (Ha : forall x, In x available -> In x fallbackQuotes).
  { intros x Hx. apply filter_In in Hx. tauto. }
  destruct (isEmpty (List.filter (hasCategory c) available)) eqn:E1.
  - destruct (isEmpty available) eqn:E2; [tauto|]. apply Ha.
  - destruct (isEmpty (List.filter (hasCategory c) available)) eqn:E2; [discriminate|].
    intros Hx. apply filter_In in Hx. apply Ha. tauto.
Qed.

Lemma finalQuotes_nonempty (c : string) (recent : list string) :
  0 < length (finalQuotes c recent).
Proof.
  unfold finalQuotes.
  set (available := List.filter _ fallbackQuotes).
  set (byCat := List.filter (hasCategory c) available).
  destruct byCat eqn:E1; cbn [isEmpty].
  - destruct available eqn:E2; cbn [isEmpty]; [vm_compute; lia | simpl; lia].
  - simpl. lia.
Qed.

Lemma randomIndex_run (n : nat) (w : World) :
  randomIndex n w = (Ok (hd 0 (random_env w) mod n), afterDraw w).
Proof.
  unfold randomIndex, afterDraw. destruct (random_env w); reflexivity.
Qed.

Lemma getFallbackQuote_run (w : World) :
  let w1 := afterRead SelectUsage w in
  let w2 := afterRead (SelectRecent 20) w1 in
  exists (c : string) (recent : list string) (i : nat),
    getLeastUsedCategory w = (Ok c, w1)
    /\ getRecentlyUsedQuotes 20 w1 = (Ok recent, w2)
    /\ i = hd 0 (random_env w2) mod length (finalQuotes c recent)
    /\ getFallbackQuote w
       = (Ok (withCategory (nth i (finalQuotes c recent) noQuote) c), afterDraw w2).
Proof.
  intros w1 w2. eexists. eexists. eexists.
  split; [apply getLeastUsedCategory_run|].
  split; [apply getRecentlyUsedQuotes_run|].
  split; [reflexivity|].
  unfold getFallbackQuote, bind.
  rewrite getLeastUsedCategory_run, getRecentlyUsedQuotes_run, randomIndex_run.
  reflexivity.
Qed.

Lemma getFallbackQuote_entry (w : World) :
  exists (c : string) (entry : AIGeneratedQuote),
    getLeastUsedCategory w = (Ok c, afterRead SelectUsage w)
    /\ In entry fallbackQuotes
    /\ getFallbackQuote w
       = (Ok (withCategory entry c),
          afterDraw (afterRead (SelectRecent 20) (afterRead SelectUsage w))).
Proof.
  destruct (getFallbackQuote_run w) as (c & recent & i & H1 & H2 & Hi & H3).
  exists c, (nth i (finalQuotes c recent) noQuote).
  split; [exact H1|]. split; [|exact H3].
  apply (finalQuotes_incl c recent). apply nth_In. rewrite Hi.
  apply Nat.mod_upper_bound. pose proof (finalQuotes_nonempty c recent). lia.
Qed.

(** C10.  The record [getFallbackQuote] returns is an entry of the
    static table whose category has been replaced by the category the
    balancer chose at the start of the call.  The entry's own category
    can differ: with the three karma verses recently published (and karma
    still the least used label) the first yoga verse is returned, labelled
    karma. *)
Theorem getFallbackQuote_category_overwritten :
  (forall w : World,
     exists (c : string) (entry q : AIGeneratedQuote) (w' : World),
       getLeastUsedCategory w = (Ok c, afterRead SelectUsage w)
       /\ getFallbackQuote w = (Ok q, w')
       /\ In entry fallbackQuotes
       /\ shlok q = shlok entry /\ meaning_hindi q = meaning_hindi entry
       /\ meaning_english q = meaning_english entry /\ source q = source entry
       /\ category q = Some c)
  /\ (exists (entry q : AIGeneratedQuote) (w' : World),
        getFallbackQuote karmaUsedUp = (Ok q, w')
        /\ In entry fallbackQuotes
        /\ shlok q = shlok entry
        /\ category entry = Some "yoga"
        /\ category q = Some "karma").
Proof.
  split.
  - intros w. destruct (getFallbackQuote_entry w) as (c & entry & H1 & Hin & H2).
    exists c, entry, (withCategory entry c). eexists.
    split; [exact H1|]. split; [exact H2|]. split; [exact Hin|].
    repeat split; reflexivity.
  - exists (nth 3 fallbackQuotes noQuote). eexists. eexists.
    split; [vm_compute; reflexivity|].
    split; [vm_compute; tauto|].
    repeat split.
Qed.

(** ** Generator *)

Lemma getFallbackQuote_ok (w : World) :
  exists q w', getFallbackQuote w = (Ok q, w').
Proof.
  destruct (getFallbackQuote_entry w) as (c & entry & _ & _ & H). eauto.
Qed.

Ltac run_step :=
  match goal with
  | |- context [negb ?b] => is_var b; destruct b; cbn [negb]
  | |- context [match getFallbackQuote ?w with pair _ _ => _ end] =>
      let H := fresh in
      destruct (getFallbackQuote_ok w) as (? & ? & H); rewrite H
  | |- context [match ?m ?w with pair _ _ => _ end] =>
      match type of (m w) with
      | (Res _ * World)%type => destruct (m w) as [[?|?] ?]
      end
  end.

Lemma generateQuoteWithAIRetry_cases (w : World) :
  generateQuoteWithAIRetry w
  = match retryCandidate w with
    | (Ok (q, true), w1) => (Ok q, w1)
    | (Ok (q, false), w1) => getFallbackQuote w1
    | (Throw _, w1) => getFallbackQuote w1
    end.
Proof.
  unfold generateQuoteWithAIRetry, retryCandidate, try_catch, bind, ret, retryRequest.
  repeat (run_step; try reflexivity).
Qed.

Lemma generateQuoteWithAIRetry_ok (w : World) :
  exists q w', generateQuoteWithAIRetry w = (Ok q, w').
Proof.
  rewrite generateQuoteWithAIRetry_cases.
  destruct (retryCandidate w) as [[[q [|]]|e] w1]; eauto using getFallbackQuote_ok.
Qed.

Lemma generateQuoteWithAI_cases (w : World) :
  generateQuoteWithAI w
  = match firstCandidate w with
    | (Ok (q, true), w1) => (Ok q, w1)
    | (Ok (q, false), w1) => generateQuoteWithAIRetry w1
    | (Throw _, w1) => getFallbackQuote w1
    end.
Proof.
  unfold generateQuoteWithAI, firstCandidate, try_catch, bind, ret, firstRequest.
  repeat (first
    [ match goal with
      | |- context [match generateQuoteWithAIRetry ?w with pair _ _ => _ end] =>
          let H := fresh in
          destruct (generateQuoteWithAIRetry_ok w) as (? & ? & H); rewrite H
      end
    | run_step ]; try reflexivity).
Qed.

Lemma generateQuoteWithAI_ok (w : World) :
  exists q w', generateQuoteWithAI w = (Ok q, w').
Proof.
  rewrite generateQuoteWithAI_cases.
  destruct (firstCandidate w) as [[[q [|]]|e] w1];
    eauto using getFallbackQuote_ok, generateQuoteWithAIRetry_ok.
Qed.

(** ** Integrity of the store *)

Lemma findQuote_id (st : Store) (k : nat) (q : Quote) :
  findQuote st k = Some q -> id q = k /\ In q (quotes st).
Proof.
  unfold findQuote. intros H. apply find_some in H as [Hin He].
  apply Nat.eqb_eq in He. auto.
Qed.

Lemma find_app_some {A : Type} (p : A -> bool) (l l' : list A) (x : A) :
  find p l = Some x -> find p (l ++ l') = Some x.
Proof.
  induction l as [|a l IH]; simpl; [discriminate|].
  destruct (p a); auto.
Qed.

Lemma find_filter_keep {A : Type} (p f : A -> bool) (l : list A) :
  (forall x, p x = true -> f x = true) ->
  find p (List.filter f l) = find p l.
Proof.
  intros H. induction l as [|a l IH]; simpl; [reflexivity|].
  destruct (f a) eqn:Ef; simpl.
  - rewrite IH. reflexivity.
  - destruct (p a) eqn:Ep; [|exact IH].
    rewrite (H a Ep) in Ef. discriminate.
Qed.

Lemma NoDup_map_filter {A B : Type} (g : A -> B) (f : A -> bool) (l : list A) :
  List.NoDup (map g l) -> List.NoDup (map g (List.filter f l)).
Proof.
  induction l as [|a l IH]; simpl; intros H; [constructor|].
  inversion H as [|? ? Hn Hd]; subst.
  destruct (f a); simpl; [|auto].
  constructor; [|auto].
  intros Hin. apply Hn. apply in_map_iff in Hin as (x & Hx & Hin).
  apply filter_In in Hin as [Hin _]. apply in_map_iff. eauto.
Qed.

Lemma wf_insertQuote (a : AIGeneratedQuote) (ts : Z) (st : Store) :
  wfStore st -> wfStore (snd (db_insertQuote a ts st)).
Proof.
  intros Hwf. pose proof Hwf as (Hd & Hfk & Hid). unfold db_insertQuote.
  destruct (rejection a); [exact Hwf|]. unfold wfStore. cbn.
  split; [exact Hd|]. split.
  - intros l Hl. destruct (Hfk l Hl) as [q Hq]. exists q.
    unfold findQuote in *. cbn. apply find_app_some. exact Hq.
  - intros q Hq. apply in_app_or in Hq as [Hq|[<-|[]]]; cbn.
    + specialize (Hid q Hq). lia.
    + lia.
Qed.

Lemma map_date_upsert (qid : nat) (d : string) (ts : Z) (logs : list DailyLog) :
  map date
    (map (fun l => if hasDate d l
                   then {| log_id := log_id l; quote_id := qid;
                           date := d; log_created_at := ts |}
                   else l) logs)
  = map date logs.
Proof.
  induction logs as [|l logs IH]; simpl; [reflexivity|].
  rewrite IH. f_equal. unfold hasDate. destruct (String.eqb (date l) d) eqn:E; [|reflexivity].
  apply String.eqb_eq in E. cbn. congruence.
Qed.

Lemma wf_upsertLog (qid : nat) (d : string) (ts : Z) (st : Store) :
  wfStore st -> wfStore (snd (db_upsertLog qid d ts st)).
Proof.
  intros Hwf. pose proof Hwf as (Hd & Hfk & Hid). unfold db_upsertLog.
  destruct (findQuote st qid) as [q0|] eqn:Eq; [|exact Hwf].
  destruct (existsb (hasDate d) (daily_logs st)) eqn:Ex; unfold wfStore; cbn.
  - split; [rewrite map_date_upsert; exact Hd|]. split; [|exact Hid].
    intros l Hl. apply in_map_iff in Hl as (l0 & <- & Hl0).
    unfold findQuote in *. cbn.
    destruct (hasDate d l0); cbn; [eauto|]. apply Hfk. exact Hl0.
  - split; [|split].
    + rewrite map_app. cbn. apply List.NoDup_app; [exact Hd| |].
      * constructor; [intros []|constructor].
      * intros x Hx [<-|[]].
        apply in_map_iff in Hx as (l & Hl1 & Hl2).
        assert (existsb (hasDate d) (daily_logs st) = true).
        { apply existsb_exists. exists l. split; [exact Hl2|].
          unfold hasDate. apply String.eqb_eq. exact Hl1. }
        congruence.
    + intros l Hl. unfold findQuote in *. cbn.
      apply in_app_or in Hl as [Hl|[<-|[]]]; cbn; eauto.
    + intros q Hq. specialize (Hid q Hq). lia.
Qed.

Lemma wf_deleteQuote (qid : nat) (st : Store) :
  wfStore st -> wfStore (db_deleteQuote qid st).
Proof.
  intros H. exact H.
Qed.

Lemma wf_applyWrites (xs : list Write) (st : Store) :
  wfStore st -> wfStore (applyWrites xs st).
Proof.
  unfold applyWrites. revert st. induction xs as [|x xs IH]; intros st H; [exact H|].
  cbn [fold_left]. apply IH. destruct x; cbn [applyWrite].
  - apply wf_insertQuote. exact H.
  - apply wf_upsertLog. exact H.
  - apply wf_deleteQuote. exact H.
Qed.

(** ** The footprint of the computations *)

Lemma effects_refl (w : World) : effects [] w w.
Proof.
  constructor; try reflexivity.
  - rewrite app_nil_r. reflexivity.
  - exists []. rewrite app_nil_r. split; reflexivity.
  - auto.
  - auto.
Qed.

Lemma effects_trans (s1 s2 : list AiRequest) (w w1 w2 : World) :
  effects s1 w w1 -> effects s2 w1 w2 -> effects (s1 ++ s2) w w2.
Proof.
  intros [c1 k1 a1 (r1 & l1 & f1) wf1 q1] [c2 k2 a2 (r2 & l2 & f2) wf2 q2].
  constructor.
  - congruence.
  - congruence.
  - rewrite a2, a1, app_assoc. reflexivity.
  - exists (r1 ++ r2). split.
    + rewrite l2, l1, app_assoc. reflexivity.
    + rewrite forallb_app, f1, f2. reflexivity.
  - auto.
  - intros H. destruct (q1 H) as [H1 E1]. destruct (q2 H1) as [H2 E2].
    split; [exact H2|congruence].
Qed.

Lemma noRaces_next (w : World) :
  noRaces w ->
  races (fst (nextStep w)) = [] /\ Forall (fun s => races s = []) (snd (nextStep w)).
Proof.
  unfold noRaces, nextStep. intros H. destruct (store_env w) as [|s r]; cbn.
  - split; [reflexivity|constructor].
  - inversion H; subst. auto.
Qed.

Lemma effects_afterRead (req : StoreRequest) (w : World) :
  isRead req = true -> effects [] w (afterRead req w).
Proof.
  intros Hr. constructor; cbn; try reflexivity.
  - rewrite app_nil_r. reflexivity.
  - exists [req]. split; [reflexivity|]. cbn. rewrite Hr. reflexivity.
  - apply wf_applyWrites.
  - intros H. destruct (noRaces_next w H) as [H1 H2]. split; [exact H2|].
    unfold storeAtNextRequest. rewrite H1. reflexivity.
Qed.

Lemma effects_afterDraw (w : World) : effects [] w (afterDraw w).
Proof.
  constructor; cbn; try reflexivity; auto.
  - rewrite app_nil_r. reflexivity.
  - exists []. rewrite app_nil_r. split; reflexivity.
Qed.

Lemma effects_createCompletion (req : AiRequest) (w : World) :
  effects [req] w (snd (createCompletion req w)).
Proof.
  unfold createCompletion. destruct (ai_env w) as [|o r]; [|destruct o];
    (constructor; cbn; try reflexivity; auto;
     exists []; rewrite app_nil_r; split; reflexivity).
Qed.

Lemma getFallbackQuote_effects (w : World) :
  effects [] w (snd (getFallbackQuote w)).
Proof.
  destruct (getFallbackQuote_entry w) as (c & entry & _ & _ & ->). cbn [snd].
  change (@nil AiRequest) with (@nil AiRequest ++ []).
  eapply effects_trans; [|apply effects_afterDraw].
  change (@nil AiRequest) with (@nil AiRequest ++ []).
  eapply effects_trans; apply effects_afterRead; reflexivity.
Qed.

Lemma checkQuoteUniqueness_run (shlok : string) (w : World) :
  checkQuoteUniqueness shlok w
  = (Ok (negb (existsb (similar shlok)
                 (match fault (fst (nextStep w)) with
                  | NoFault => truthyShloks (db_recent 30 (storeAtNextRequest w))
                  | _ => []
                  end))),
     afterRead (SelectRecent 30) w).
Proof.
  unfold checkQuoteUniqueness, try_catch, bind.
  rewrite getRecentlyUsedQuotes_run. reflexivity.
Qed.

Lemma getQuoteGenerationPrompt_run (w : World) :
  exists prompt : string,
    getQuoteGenerationPrompt w
    = (Ok prompt, afterRead (SelectRecent 15) (afterRead SelectUsage w)).
Proof.
  unfold getQuoteGenerationPrompt, bind.
  rewrite getLeastUsedCategory_run, getRecentlyUsedQuotes_run.
  eexists. reflexivity.
Qed.

Lemma effects_two_reads (r1 r2 : StoreRequest) (w : World) :
  isRead r1 = true -> isRead r2 = true ->
  effects [] w (afterRead r2 (afterRead r1 w)).
Proof.
  intros H1 H2. change (@nil AiRequest) with (@nil AiRequest ++ []).
  eapply effects_trans; apply effects_afterRead; assumption.
Qed.

(** The first attempt either stops at the missing key, before any
    request, or sends exactly the first request. *)
Lemma firstCandidate_effects (w : World) :
  (api_key w = false /\ exists e, firstCandidate w = (Throw e, w))
  \/ (api_key w = true
      /\ exists prompt, effects [firstRequest prompt] w (snd (firstCandidate w))).
Proof.
  unfold firstCandidate, bind, getOpenAIClient.
  destruct (api_key w) eqn:K; [right|left; split; eauto].
  split; [reflexivity|].
  destruct (getQuoteGenerationPrompt_run w) as [prompt ->].
  exists prompt.
  set (w1 := afterRead (SelectRecent 15) (afterRead SelectUsage w)).
  assert (E1 : effects [] w w1) by (apply effects_two_reads; reflexivity).
  pose proof (effects_createCompletion (firstRequest prompt) w1) as E2.
  destruct (createCompletion (firstRequest prompt) w1) as [[completion|e] w2]; cbn [snd] in *.
  - unfold lift.
    destruct (responseText completion) as [response|e];
      [|apply (effects_trans [] _ _ _ _ E1 E2)].
    destruct (parseAIResponse response) as [q|e];
      [|apply (effects_trans [] _ _ _ _ E1 E2)].
    rewrite checkQuoteUniqueness_run. cbn [snd ret].
    change [firstRequest prompt] with (([] ++ [firstRequest prompt]) ++ []).
    eapply effects_trans; [eapply effects_trans; eassumption|].
    apply effects_afterRead. reflexivity.
  - apply (effects_trans [] _ _ _ _ E1 E2).
Qed.

Lemma retryCandidate_effects (w : World) :
  (api_key w = false /\ exists e, retryCandidate w = (Throw e, w))
  \/ (api_key w = true
      /\ exists c, effects [retryRequest c] w (snd (retryCandidate w))).
Proof.
  unfold retryCandidate, bind, getOpenAIClient.
  destruct (api_key w) eqn:K; [right|left; split; eauto].
  split; [reflexivity|].
  rewrite getLeastUsedCategory_run.
  eexists.
  set (w1 := afterRead SelectUsage w).
  assert (E1 : effects [] w w1) by (apply effects_afterRead; reflexivity).
  match goal with |- context [createCompletion ?r w1] =>
    pose proof (effects_createCompletion r w1) as E2;
    destruct (createCompletion r w1) as [[completion|e] w2]
  end; cbn [snd] in *.
  - unfold lift.
    destruct (responseText completion) as [response|e];
      [|apply (effects_trans [] _ _ _ _ E1 E2)].
    destruct (parseAIResponse response) as [q|e];
      [|apply (effects_trans [] _ _ _ _ E1 E2)].
    rewrite checkQuoteUniqueness_run. cbn [snd ret].
    match goal with |- effects [?r] _ _ => change [r] with (([] ++ [r]) ++ []) end.
    eapply effects_trans; [eapply effects_trans; eassumption|].
    apply effects_afterRead. reflexivity.
  - apply (effects_trans [] _ _ _ _ E1 E2).
Qed.

Lemma generateQuoteWithAIRetry_effects (w : World) :
  exists sent : list AiRequest,
    effects sent w (snd (generateQuoteWithAIRetry w))
    /\ (if api_key w then exists c, sent = [retryRequest c] else sent = []).
Proof.
  rewrite generateQuoteWithAIRetry_cases.
  destruct (retryCandidate_effects w) as [[K [e E]]|[K [c E]]]; rewrite K.
  - exists []. split; [|reflexivity]. rewrite E. apply getFallbackQuote_effects.
  - exists [retryRequest c]. split; [|eauto].
    destruct (retryCandidate w) as [[[q [|]]|e] w1]; cbn [snd] in *; try exact E;
      (change [retryRequest c] with ([retryRequest c] ++ []);
       eapply effects_trans; [exact E|apply getFallbackQuote_effects]).
Qed.

Lemma generateQuoteWithAI_effects (w : World) :
  exists sent : list AiRequest,
    effects sent w (snd (generateQuoteWithAI w))
    /\ (sent = []
        \/ (exists prompt, sent = [firstRequest prompt])
        \/ (exists prompt c, sent = [firstRequest prompt; retryRequest c])).
Proof.
  rewrite generateQuoteWithAI_cases.
  destruct (firstCandidate_effects w) as [[K [e E]]|[K [prompt E]]].
  - exists []. split; [|auto]. rewrite E. apply getFallbackQuote_effects.
  - destruct (firstCandidate w) as [[[q [|]]|e] w1]; cbn [snd] in *.
    + exists [firstRequest prompt]. split; [exact E|eauto].
    + destruct (generateQuoteWithAIRetry_effects w1) as (sent & E' & Hs).
      rewrite (eff_key _ _ _ E), K in Hs. destruct Hs as [c ->].
      exists [firstRequest prompt; retryRequest c]. split; [|eauto].
      apply (effects_trans [firstRequest prompt] [retryRequest c] _ _ _ E E').
    + exists [firstRequest prompt]. split; [|eauto].
      change [firstRequest prompt] with ([firstRequest prompt] ++ []).
      eapply effects_trans; [exact E|apply getFallbackQuote_effects].
Qed.

(** C5.  One invocation of [generateQuoteWithAI] sends at most two
    completion requests.  When the first candidate is parsed and found
    not unique, exactly one more request is sent, with a higher
    temperature (1.0 against 0.9) and a different system instruction; when
    the candidate of that retry is not unique either, the result is the
    one of the fallback table and no third request is sent. *)
Theorem generateQuoteWithAI_retry_bound (w : World) :
  exists sent : list AiRequest,
    effects sent w (snd (generateQuoteWithAI w))
    /\ length sent <= 2
    /\ (forall q1 w1,
          firstCandidate w = (Ok (q1, false), w1) ->
          exists prompt c,
            sent = [firstRequest prompt; retryRequest c]
            /\ temperature (firstRequest prompt) < temperature (retryRequest c)
            /\ system (retryRequest c) <> system (firstRequest prompt)
            /\ generateQuoteWithAI w = generateQuoteWithAIRetry w1
            /\ (forall q2 w2,
                  retryCandidate w1 = (Ok (q2, false), w2) ->
                  generateQuoteWithAI w = getFallbackQuote w2)).
Proof.
  destruct (generateQuoteWithAI_effects w) as (sent & E & Hs).
  exists sent. split; [exact E|]. split.
  - destruct Hs as [->|[[p ->]|(p & c & ->)]]; cbn; lia.
  - intros q1 w1 H1.
    assert (G : generateQuoteWithAI w = generateQuoteWithAIRetry w1)
      by (rewrite generateQuoteWithAI_cases, H1; reflexivity).
    destruct (firstCandidate_effects w) as [[K [e E1]]|[K [prompt E1]]];
      [congruence|].
    rewrite H1 in E1. cbn [snd] in E1.
    destruct (generateQuoteWithAIRetry_effects w1) as (sent' & E' & Hs').
    rewrite (eff_key _ _ _ E1), K in Hs'. destruct Hs' as [c ->].
    exists prompt, c.
    assert (S : sent = [firstRequest prompt; retryRequest c]).
    { pose proof (effects_trans _ _ _ _ _ E1 E') as E2.
      rewrite <- G in E2.
      pose proof (eff_ai_log _ _ _ E) as L1. pose proof (eff_ai_log _ _ _ E2) as L2.
      rewrite L1 in L2. apply app_inv_head in L2. exact L2. }
    split; [exact S|]. split; [cbn; lia|]. split; [discriminate|]. split; [exact G|].
    intros q2 w2 H2. rewrite G, generateQuoteWithAIRetry_cases, H2. reflexivity.
Qed.

(** The scenario of the specification: abc is in the recent history and
    the endpoint proposes abcd; the check fails, one retry follows, and
    after a second abcd the fallback table answers. *)
Lemma generateQuoteWithAI_retry_bound_witness :
  exists sent q w',
    ai_log (snd (generateQuoteWithAI abcPublished)) = sent
    /\ length sent = 2
    /\ generateQuoteWithAI abcPublished = (Ok q, w')
    /\ In (shlok q) (map shlok fallbackQuotes).
Proof.
  destruct (generateQuoteWithAI_retry_bound abcPublished) as (sent & E & _ & H).
  destruct (H _ _ ltac:(vm_compute; reflexivity)) as (p & c & S & _ & _ & _ & F).
  specialize (F _ _ ltac:(vm_compute; reflexivity)).
  exists sent. eexists. eexists.
  split; [rewrite (eff_ai_log _ _ _ E); reflexivity|].
  split; [rewrite S; reflexivity|].
  split; [rewrite F; vm_compute; reflexivity|].
  vm_compute. tauto.
Defined.

Lemma firstCandidate_down (w : World) :
  capabilityDown w -> exists e w1, firstCandidate w = (Throw e, w1).
Proof.
  intros H. unfold firstCandidate, bind, getOpenAIClient.
  destruct (api_key w) eqn:K; [|eauto].
  destruct H as [H|H]; [congruence|].
  destruct (getQuoteGenerationPrompt_run w) as [prompt ->].
  unfold createCompletion. cbn [ai_env afterRead].
  destruct (ai_env w) as [|o r]; [cbn; eauto|].
  inversion H as [|? ? Ho _]; subst.
  destruct o as [[s|]|e]; cbn; eauto.
  subst s. cbn. eauto.
Qed.

Lemma wellFormed_withCategory (q : AIGeneratedQuote) (c : string) :
  wellFormed q -> wellFormed (withCategory q c).
Proof. intros H. exact H. Qed.

(** C4.  [generateQuoteWithAI] never throws, whatever the endpoint and
    the store do.  When the endpoint is unavailable (no key, or every
    answer an error or empty) the record comes from the fallback table and
    its four mandatory fields are non-empty.  A structured answer whose
    Hindi meaning is a single space passes the validation of the parser,
    which trims afterwards: the generator returns a record whose Hindi
    meaning is empty. *)
Theorem generateQuoteWithAI_fallback_completeness :
  (forall w : World, exists q w', generateQuoteWithAI w = (Ok q, w'))
  /\ (forall w : World,
        capabilityDown w ->
        exists q w', generateQuoteWithAI w = (Ok q, w') /\ wellFormed q)
  /\ (exists q w',
        generateQuoteWithAI blankMeaning = (Ok q, w')
        /\ shlok q = "x" /\ meaning_hindi q = EmptyString).
Proof.
  split; [exact generateQuoteWithAI_ok|]. split.
  - intros w H. destruct (firstCandidate_down w H) as (e & w1 & E).
    rewrite generateQuoteWithAI_cases, E.
    destruct (getFallbackQuote_entry w1) as (c & entry & _ & Hin & ->).
    eexists. eexists. split; [reflexivity|].
    apply wellFormed_withCategory, fallbackQuotes_wellFormed, Hin.
  - eexists. eexists. split; [vm_compute; reflexivity|]. split; reflexivity.
Qed.

(** The endpoint has no key: the record returned is well formed. *)
Lemma generateQuoteWithAI_fallback_completeness_witness :
  exists q w', generateQuoteWithAI karmaUsedUp = (Ok q, w') /\ wellFormed q.
Proof.
  apply (proj1 (proj2 generateQuoteWithAI_fallback_completeness) karmaUsedUp).
  left. reflexivity.
Defined.

(** ** Response parser *)

Section Trim.

Lemma trimStart_unfold (s : string) :
  Js.trimStart s
  = match Js.spaceLength s with
    | 0 => s
    | n => Js.trimStart (Js.drop n s)
    end.
Proof.
  destruct s as [|a [|b [|c r]]]; cbn [Js.trimStart Js.spaceLength]; try reflexivity;
    destruct (Js.space1 a); try reflexivity;
    try destruct (Js.space2 a b); try reflexivity;
    try destruct (Js.space3 a b c); reflexivity.
Qed.

Lemma spaceLength_le (s : string) : Js.spaceLength s <= String.length s.
Proof.
  destruct s as [|a [|b [|c r]]]; cbn [Js.spaceLength String.length]; try lia;
    destruct (Js.space1 a); try lia;
    try destruct (Js.space2 a b); try lia;
    try destruct (Js.space3 a b c); lia.
Qed.

Lemma length_drop (n : nat) (s : string) :
  n <= String.length s -> String.length (Js.drop n s) = String.length s - n.
Proof.
  revert s. induction n as [|n IH]; intros s H.
  - destruct s; cbn; lia.
  - destruct s as [|a s]; cbn in *; [lia|]. apply IH. lia.
Qed.

(** Induction on what [trimStart] leaves after a white space character. *)
Lemma trimStart_ind (P : string -> Prop) :
  (forall s, Js.spaceLength s = 0 -> P s) ->
  (forall s, Js.spaceLength s <> 0 -> P (Js.drop (Js.spaceLength s) s) -> P s) ->
  forall s, P s.
Proof.
  intros H0 HS s.
  assert (G : forall n s, String.length s <= n -> P s).
  { clear s. induction n as [|n IH]; intros s L.
    - apply H0. destruct s; [reflexivity|cbn in L; lia].
    - destruct (Nat.eq_dec (Js.spaceLength s) 0) as [E|E]; [apply H0, E|].
      apply HS; [exact E|]. apply IH.
      pose proof (spaceLength_le s). rewrite length_drop by assumption. lia. }
  apply (G (String.length s)). lia.
Qed.

Lemma trimStart_step (s : string) :
  Js.spaceLength s <> 0 -> Js.trimStart s = Js.trimStart (Js.drop (Js.spaceLength s) s).
Proof.
  intros N. rewrite trimStart_unfold at 1. destruct (Js.spaceLength s); [contradiction|reflexivity].
Qed.

Lemma trimStart_fixed (s : string) : Js.spaceLength s = 0 -> Js.trimStart s = s.
Proof. intros E. rewrite trimStart_unfold, E. reflexivity. Qed.

Lemma trimStart_headOk (s : string) : Js.spaceLength (Js.trimStart s) = 0.
Proof.
  induction s as [s E|s N IH] using trimStart_ind.
  - rewrite trimStart_fixed; assumption.
  - rewrite trimStart_step; assumption.
Qed.

Lemma trimEnd_prefix (s : string) : exists t, s = (Js.trimEnd s ++ t)%string.
Proof.
  induction s as [|c r [t IH]]; [exists EmptyString; reflexivity|].
  cbn [Js.trimEnd]. destruct (Js.isSpace (String c (Js.trimEnd r))).
  - exists (String c r). reflexivity.
  - exists t. change (String c r = String c (Js.trimEnd r ++ t)%string).
    f_equal. exact IH.
Qed.

Lemma spaceLength_app (p t : string) :
  Js.spaceLength p <> 0 -> Js.spaceLength (p ++ t) = Js.spaceLength p.
Proof.
  destruct p as [|a [|b [|c r]]]; intros N; rewrite ?append_cons, ?append_nil;
    unfold Js.spaceLength in *;
    try (exfalso; apply N; reflexivity);
    destruct (Js.space1 a); try reflexivity;
    try (exfalso; apply N; reflexivity);
    try destruct (Js.space2 a b); try reflexivity;
    try (exfalso; apply N; reflexivity);
    try destruct (Js.space3 a b c); try reflexivity;
    exfalso; apply N; reflexivity.
Qed.

Lemma isSpace_bytes (s : string) (x : ascii) :
  Js.isSpace s = true -> occurs x s -> Js.spaceByte x = true.
Proof.
  unfold Js.spaceByte.
  destruct s as [|a [|b [|c [|d r]]]]; cbn [Js.isSpace]; try discriminate; intros H.
  - intros [<-|[]]. rewrite H. reflexivity.
  - unfold Js.space2 in H. apply andb_true_iff in H as [Ha Hb].
    apply Nat.eqb_eq in Ha, Hb.
    intros [<-|[<-|[]]]; apply orb_true_iff; right; apply Nat.leb_le; lia.
  - assert (B : 128 <= Js.code a /\ 128 <= Js.code b /\ 128 <= Js.code c).
    { unfold Js.space3 in H.
      repeat match type of H with
             | (_ || _)%bool = true => apply orb_true_iff in H as [H|H]
             end;
        repeat match goal with
               | K : (_ && _)%bool = true |- _ => apply andb_true_iff in K as [K ?]
               | K : (_ || _)%bool = true |- _ => apply orb_true_iff in K as [K|K]
               | K : (_ =? _) = true |- _ => apply Nat.eqb_eq in K
               | K : (_ <=? _) = true |- _ => apply Nat.leb_le in K
               end; lia. }
    intros [<-|[<-|[<-|[]]]]; apply orb_true_iff; right; apply Nat.leb_le; lia.
Qed.

Lemma spaceLength_head (s : string) :
  Js.spaceLength s <> 0 ->
  exists h, s = (h ++ Js.drop (Js.spaceLength s) s)%string /\ Js.isSpace h = true.
Proof.
  unfold Js.spaceLength. intros N.
  destruct s as [|a r]; [contradiction N; reflexivity|].
  destruct (Js.space1 a) eqn:S1.
  { exists (String a EmptyString). split; [reflexivity|exact S1]. }
  destruct r as [|b r]; [contradiction N; reflexivity|].
  destruct (Js.space2 a b) eqn:S2.
  { exists (String a (String b EmptyString)). split; [reflexivity|exact S2]. }
  destruct r as [|c r]; [contradiction N; reflexivity|].
  destruct (Js.space3 a b c) eqn:S3; [|contradiction N; reflexivity].
  exists (String a (String b (String c EmptyString))). split; [reflexivity|exact S3].
Qed.

Lemma occurs_app_l (c : ascii) (u v : string) : occurs c u -> occurs c (u ++ v)%string.
Proof.
  induction u as [|a u IH]; [intros []|]. rewrite append_cons. cbn [occurs].
  intros [E|H]; [left; exact E|right; apply IH, H].
Qed.

Lemma occurs_app_inv (c : ascii) (u v : string) :
  occurs c (u ++ v)%string -> occurs c u \/ occurs c v.
Proof.
  induction u as [|a u IH]; [rewrite append_nil; auto|]. rewrite append_cons. cbn [occurs].
  intros [E|H]; [auto|]. destruct (IH H); auto.
Qed.

(** What [trimStart] removes is made of white space. *)
Lemma trimStart_suffix (s : string) :
  exists p, s = (p ++ Js.trimStart s)%string
            /\ forall x, occurs x p -> Js.spaceByte x = true.
Proof.
  induction s as [s E|s N (p & IH & Hp)] using trimStart_ind.
  - exists EmptyString. rewrite trimStart_fixed by exact E. split; [reflexivity|intros x []].
  - destruct (spaceLength_head s N) as (h & Eh & Hh).
    exists (h ++ p)%string. rewrite (trimStart_step s N). split.
    + rewrite append_assoc, <- IH. exact Eh.
    + intros x Hx. apply occurs_app_inv in Hx as [Hx|Hx];
        [exact (isSpace_bytes h x Hh Hx)|exact (Hp x Hx)].
Qed.

(** A character that is no white space byte stays where it is. *)
Lemma prefix_before (c : ascii) (pre r p t : string) :
  (pre ++ String c r)%string = (p ++ t)%string -> ~ occurs c p ->
  exists pre', pre = (p ++ pre')%string /\ t = (pre' ++ String c r)%string.
Proof.
  revert pre. induction p as [|a p IH]; intros pre E N.
  - exists pre. rewrite append_nil in E. auto.
  - destruct pre as [|b pre].
    + rewrite append_nil, append_cons in E. injection E as <- _.
      contradiction N. left. reflexivity.
    + rewrite !append_cons in E. injection E as <- E.
      destruct (IH pre E) as (pre' & -> & ->); [intros O; apply N; right; exact O|].
      exists pre'. auto.
Qed.

Lemma trimEnd_nonspace (x t : string) (c : ascii) :
  Js.spaceByte c = false ->
  Js.trimEnd (x ++ String c t) = (x ++ String c (Js.trimEnd t))%string.
Proof.
  intros Hc.
  assert (K : forall y u, Js.isSpace (y ++ String c u) = false).
  { intros y u. destruct (Js.isSpace (y ++ String c u)) eqn:E; [|reflexivity].
    rewrite (isSpace_bytes _ c E) in Hc; [discriminate|].
    apply occurs_app. left. reflexivity. }
  induction x as [|a x IH].
  - rewrite !append_nil. cbn [Js.trimEnd].
    pose proof (K EmptyString (Js.trimEnd t)) as K0. rewrite append_nil in K0.
    rewrite K0. reflexivity.
  - rewrite !append_cons. cbn [Js.trimEnd]. rewrite IH.
    pose proof (K (String a x) (Js.trimEnd t)) as K1. rewrite append_cons in K1.
    rewrite K1. reflexivity.
Qed.

Lemma trimEnd_occurs (c : ascii) (s : string) :
  ~ occurs c s -> ~ occurs c (Js.trimEnd s).
Proof.
  intros N O. apply N. destruct (trimEnd_prefix s) as [t E]. rewrite E.
  apply occurs_app_l, O.
Qed.

Lemma trimEnd_headOk (s : string) :
  Js.spaceLength s = 0 -> Js.spaceLength (Js.trimEnd s) = 0.
Proof.
  intros H. destruct (trimEnd_prefix s) as [t E].
  destruct (Nat.eq_dec (Js.spaceLength (Js.trimEnd s)) 0) as [Z|N]; [exact Z|].
  pose proof (spaceLength_app _ t N) as A. rewrite <- E in A. congruence.
Qed.

Lemma trimEnd_idempotent (s : string) : Js.trimEnd (Js.trimEnd s) = Js.trimEnd s.
Proof.
  induction s as [|c s IH]; [reflexivity|].
  cbn [Js.trimEnd]. destruct (Js.isSpace (String c (Js.trimEnd s))) eqn:S; [reflexivity|].
  cbn [Js.trimEnd]. rewrite IH, S. reflexivity.
Qed.

Lemma trim_idempotent (s : string) : trimmed (Js.trim s).
Proof.
  unfold trimmed, Js.trim.
  rewrite (trimStart_fixed (Js.trimEnd (Js.trimStart s))).
  - apply trimEnd_idempotent.
  - apply trimEnd_headOk, trimStart_headOk.
Qed.

End Trim.

Lemma labelled_trimmed (response label : string) : trimmed (labelled response label).
Proof.
  unfold labelled. destruct (Regex.capture label response).
  - apply trim_idempotent.
  - reflexivity.
Qed.

Lemma truthy_nonempty (s : string) : Js.truthy s = true <-> s <> EmptyString.
Proof. destruct s; simpl; split; congruence. Qed.

(** The label form: what is accepted and what is returned. *)
Lemma parseTextFormatResponse_ok (response : string) (q : AIGeneratedQuote) :
  parseTextFormatResponse response = Ok q <->
  labelled response "Shlok:" <> EmptyString
  /\ labelled response "Meaning Hindi:" <> EmptyString
  /\ labelled response "Meaning English:" <> EmptyString
  /\ q = {| shlok := labelled response "Shlok:";
            meaning_hindi := labelled response "Meaning Hindi:";
            meaning_english := labelled response "Meaning English:";
            source := if Js.truthy (labelled response "Source:")
                      then labelled response "Source:" else "Unknown Scripture";
            category := match Regex.capture "Category:" response with
                        | Some g => Some (Js.trim g)
                        | None => None
                        end |}.
Proof.
  unfold parseTextFormatResponse.
  rewrite <- !truthy_nonempty.
  destruct (Js.truthy (labelled response "Shlok:"));
    destruct (Js.truthy (labelled response "Meaning Hindi:"));
    destruct (Js.truthy (labelled response "Meaning English:"));
    cbn [negb orb];
    try (split; [discriminate | intros (? & ? & ? & ?); discriminate]).
  destruct (Js.truthy (labelled response "Source:")) eqn:S.
  - rewrite S. cbn. split; [intros [= <-]; auto|intros (_ & _ & _ & ->); reflexivity].
  - cbn. split; [intros [= <-]; auto|intros (_ & _ & _ & ->); reflexivity].
Qed.

(** The structured form: what is accepted and what is returned. *)
Lemma parseJsonFormat_ok (response : string) (q : AIGeneratedQuote) :
  parseJsonFormat response = Ok q ->
  exists members s h e src,
    Json.parse (jsonBlock response) = Some (Json.Obj members)
    /\ Json.lookup "shlok" members = Some (Json.Str s)
    /\ Json.lookup "meaning_hindi" members = Some (Json.Str h)
    /\ Json.lookup "meaning_english" members = Some (Json.Str e)
    /\ Json.lookup "source" members = Some (Json.Str src)
    /\ s <> EmptyString /\ h <> EmptyString /\ e <> EmptyString /\ src <> EmptyString
    /\ shlok q = Js.trim s /\ meaning_hindi q = Js.trim h
    /\ meaning_english q = Js.trim e /\ source q = Js.trim src
    /\ match category q with
       | Some c => exists raw, Json.lookup "category" members = Some (Json.Str raw)
                               /\ c = Js.trim raw
       | None => True
       end.
Proof.
  unfold parseJsonFormat.
  destruct (Json.parse (jsonBlock response)) as [v|]; [|discriminate].
  destruct v as [|b|lex|str|items|members]; cbn; try discriminate.
  intros H. exists members.
  destruct (Json.lookup "shlok" members) as [[| | |s| |]|]; cbn in H; try discriminate;
    try (destruct (Json.truthy _); cbn in H; discriminate);
    try (rewrite ?orb_true_r in H; cbn in H;
         repeat match type of H with
                | context [if ?b then _ else _] => destruct b; cbn in H
                end; discriminate).
  all: destruct (Json.lookup "meaning_hindi" members) as [[| | |h| |]|]; cbn in H;
    try (repeat match type of H with
                | context [if ?b then _ else _] => destruct b; cbn in H
                end; discriminate).
  all: destruct (Json.lookup "meaning_english" members) as [[| | |e| |]|]; cbn in H;
    try (repeat match type of H with
                | context [if ?b then _ else _] => destruct b; cbn in H
                end; discriminate).
  all: destruct (Json.lookup "source" members) as [[| | |src| |]|]; cbn in H;
    try (repeat match type of H with
                | context [if ?b then _ else _] => destruct b; cbn in H
                end; discriminate).
  exists s, h, e, src.
  destruct (Js.truthy s) eqn:Ts; cbn in H; [|discriminate].
  destruct (Js.truthy h) eqn:Th; cbn in H; [|discriminate].
  destruct (Js.truthy e) eqn:Te; cbn in H; [|discriminate].
  destruct (Js.truthy src) eqn:Tsrc; cbn in H; [|discriminate].
  apply truthy_nonempty in Ts, Th, Te, Tsrc.
  destruct (Json.lookup "category" members) as [[| | |raw| |]|] eqn:C; cbn in H;
    try discriminate; injection H as <-; cbn; repeat split; auto.
  exists raw. auto.
Qed.

Lemma fromFirst_spec (c : ascii) (s t : string) :
  Regex.fromFirst c s = Some t ->
  exists pre r, s = (pre ++ t)%string /\ t = String c r /\ ~ occurs c pre.
Proof.
  revert t. induction s as [|a s IH]; intros t H; simpl in H; [discriminate|].
  destruct (Ascii.eqb a c) eqn:E.
  - apply Ascii.eqb_eq in E. subst a. injection H as <-.
    exists EmptyString, s. repeat split. intros [].
  - destruct (IH t H) as (pre & r & -> & -> & Hn).
    exists (String a pre), r. repeat split.
    intros [->|Ho]; [rewrite Ascii.eqb_refl in E; discriminate|auto].
Qed.

Lemma throughLast_none (c : ascii) (s : string) :
  Regex.throughLast c s = None -> ~ occurs c s.
Proof.
  induction s as [|a s IH]; simpl; [tauto|].
  destruct (Regex.throughLast c s); [discriminate|].
  destruct (Ascii.eqb a c) eqn:E; [discriminate|].
  intros _ [->|Ho]; [rewrite Ascii.eqb_refl in E; discriminate|].
  apply IH; auto.
Qed.

Lemma throughLast_spec (c : ascii) (s p : string) :
  Regex.throughLast c s = Some p ->
  exists body post,
    p = (body ++ String c EmptyString)%string /\ s = (p ++ post)%string
    /\ ~ occurs c post.
Proof.
  revert p. induction s as [|a s IH]; intros p H; simpl in H; [discriminate|].
  destruct (Regex.throughLast c s) as [p'|] eqn:E.
  - injection H as <-. destruct (IH p' eq_refl) as (body & post & -> & -> & Hn).
    exists (String a body), post. repeat split. exact Hn.
  - destruct (Ascii.eqb a c) eqn:Ea; [|discriminate].
    apply Ascii.eqb_eq in Ea. subst a. injection H as <-.
    exists EmptyString, s. repeat split. apply throughLast_none. exact E.
Qed.

(** The brace pattern matches the text from the first opening brace to
    the last closing brace. *)
Lemma matchBraces_span (s m : string) :
  Regex.matchBraces s = Some m ->
  exists pre mid post,
    s = (pre ++ m ++ post)%string
    /\ m = ("{" ++ mid ++ "}")%string
    /\ ~ occurs "{" pre /\ ~ occurs "}" post.
Proof.
  unfold Regex.matchBraces. destruct (Regex.fromFirst "{" s) as [t|] eqn:F; [|discriminate].
  intros L. destruct (fromFirst_spec _ _ _ F) as (pre & r & -> & -> & Hpre).
  destruct (throughLast_spec _ _ _ L) as (body & post & -> & Hs & Hpost).
  destruct body as [|b body].
  - cbn in Hs. discriminate Hs.
  - cbn in Hs. injection Hs as <- Hr.
    exists pre, body, post. repeat split; auto.
    cbn. rewrite Hr. reflexivity.
Qed.

Lemma fromFirst_suffix (c : ascii) (pre x t : string) :
  Regex.fromFirst c (pre ++ String c x)%string = Some t ->
  exists u, t = (u ++ String c x)%string.
Proof.
  induction pre as [|a pre IH].
  - change (EmptyString ++ String c x)%string with (String c x).
    cbn [Regex.fromFirst]. rewrite Ascii.eqb_refl.
    intros [= <-]. exists EmptyString. reflexivity.
  - change (String a pre ++ String c x)%string with (String a (pre ++ String c x)%string).
    cbn [Regex.fromFirst]. destruct (Ascii.eqb a c).
    + intros [= <-]. exists (String a pre). reflexivity.
    + exact IH.
Qed.

Lemma fromFirst_some (c : ascii) (pre x : string) :
  Regex.fromFirst c (pre ++ String c x)%string <> None.
Proof.
  induction pre as [|a pre IH].
  - change (EmptyString ++ String c x)%string with (String c x).
    cbn [Regex.fromFirst]. rewrite Ascii.eqb_refl. discriminate.
  - change (String a pre ++ String c x)%string with (String a (pre ++ String c x)%string).
    cbn [Regex.fromFirst]. destruct (Ascii.eqb a c); [discriminate|exact IH].
Qed.

(** Without an opening brace that has a closing brace behind it, the
    brace pattern does not match. *)
Lemma matchBraces_none (s : string) :
  Regex.matchBraces s = None ->
  forall pre mid post, s <> (pre ++ "{" ++ mid ++ "}" ++ post)%string.
Proof.
  unfold Regex.matchBraces. intros H pre mid post ->.
  change (pre ++ "{" ++ mid ++ "}" ++ post)%string
    with (pre ++ String "{" (mid ++ "}" ++ post))%string in H.
  destruct (Regex.fromFirst "{" (pre ++ String "{" (mid ++ "}" ++ post))) as [t|] eqn:F.
  - destruct (fromFirst_suffix _ _ _ _ F) as [u ->].
    apply throughLast_none in H. apply H.
    apply occurs_app. right. apply occurs_app. left. reflexivity.
  - exact (fromFirst_some _ _ _ F).
Qed.

Lemma parseJsonFormat_accepts (response : string)
    (members : list (string * Json.value)) (s h e src : string) (c : option string) :
  Json.parse (jsonBlock response) = Some (Json.Obj members) ->
  Json.lookup "shlok" members = Some (Json.Str s) ->
  Json.lookup "meaning_hindi" members = Some (Json.Str h) ->
  Json.lookup "meaning_english" members = Some (Json.Str e) ->
  Json.lookup "source" members = Some (Json.Str src) ->
  s <> EmptyString -> h <> EmptyString -> e <> EmptyString -> src <> EmptyString ->
  optionalTrimOf (Json.lookup "category" members) = Ok c ->
  parseJsonFormat response
  = Ok {| shlok := Js.trim s; meaning_hindi := Js.trim h;
          meaning_english := Js.trim e; source := Js.trim src; category := c |}.
Proof.
  intros P L1 L2 L3 L4 N1 N2 N3 N4 C. unfold parseJsonFormat. rewrite P.
  cbn [property bindRes]. rewrite L1, L2, L3, L4. cbn [truthyProperty Json.truthy].
  apply truthy_nonempty in N1, N2, N3, N4. rewrite N1, N2, N3, N4.
  cbn [negb orb trimOf bindRes]. rewrite C. reflexivity.
Qed.


(** ** The label scan *)

Lemma afterFirst_unfold (p s : string) :
  Js.afterFirst p s
  = if Js.startsWith s p then Some (Js.drop (String.length p) s)
    else match s with
         | EmptyString => None
         | String _ r => Js.afterFirst p r
         end.
Proof. destruct s; reflexivity. Qed.

Lemma drop_app (p t : string) : Js.drop (String.length p) (p ++ t) = t.
Proof. induction p as [|a p IH]; [destruct t; reflexivity|exact IH]. Qed.

Lemma afterFirst_here (L t : string) : Js.afterFirst L (L ++ t) = Some t.
Proof. rewrite afterFirst_unfold, startsWith_app, drop_app. reflexivity. Qed.

Lemma isNewline_eqb (a : ascii) :
  Js.isNewline a = false -> Ascii.eqb a "010" = false.
Proof.
  intros N. destruct (Ascii.eqb_spec a "010") as [->|]; [discriminate N|reflexivity].
Qed.

(** A label does not reach over a line feed. *)
Lemma startsWith_before_newline (L x t : string) :
  Regex.untilNewline L = L ->
  Js.startsWith (x ++ String "010" t) L = true -> Js.startsWith x L = true.
Proof.
  revert x. induction L as [|a L IH]; intros x O H.
  - destruct x; reflexivity.
  - cbn [Regex.untilNewline] in O.
    destruct (Js.isNewline a) eqn:N; [discriminate|].
    injection O as O.
    destruct x as [|b x].
    + rewrite append_nil in H. cbn [Js.startsWith] in H.
      rewrite (isNewline_eqb _ N) in H. discriminate.
    + rewrite append_cons in H. cbn [Js.startsWith] in *.
      destruct (Ascii.eqb a b); [apply IH; assumption|discriminate].
Qed.

Lemma afterFirst_skip (L x t : string) :
  L <> EmptyString -> Regex.untilNewline L = L ->
  Js.bytesInclude x L = false ->
  Js.afterFirst L (x ++ nl ++ t) = Js.afterFirst L t.
Proof.
  intros NE O. change (nl ++ t)%string with (String "010" t).
  induction x as [|b x IH]; intros H.
  - rewrite append_nil, afterFirst_unfold.
    destruct L as [|a L]; [congruence|].
    cbn [Regex.untilNewline] in O.
    destruct (Js.isNewline a) eqn:N; [discriminate|].
    cbn [Js.startsWith]. rewrite (isNewline_eqb _ N). reflexivity.
  - rewrite bytesInclude_unfold in H. apply orb_false_iff in H as [H1 H2].
    rewrite append_cons, afterFirst_unfold.
    destruct (Js.startsWith (String b (x ++ String "010" t)) L) eqn:S.
    + rewrite <- append_cons in S.
      apply startsWith_before_newline in S; [congruence|exact O].
    + apply IH, H2.
Qed.

Lemma afterFirst_skip_line (L K v t : string) :
  L <> EmptyString -> Regex.untilNewline L = L ->
  Js.bytesInclude (K ++ v) L = false ->
  Js.afterFirst L (K ++ v ++ nl ++ t) = Js.afterFirst L t.
Proof.
  intros NE O H. rewrite <- append_assoc. apply afterFirst_skip; assumption.
Qed.

(** A label that occurs nowhere is not found. *)
Lemma afterFirst_absent (L x : string) :
  Js.bytesInclude x L = false -> Js.afterFirst L x = None.
Proof.
  induction x as [|b x IH]; intros H; rewrite bytesInclude_unfold in H;
    apply orb_false_iff in H as [H1 H2]; rewrite afterFirst_unfold, H1;
    [reflexivity|apply IH, H2].
Qed.

(** What the white space class leaves is what [trimStart] leaves. *)
Lemma spanSpace_rest (s : string) : snd (Regex.spanSpace s) = Js.trimStart s.
Proof.
  assert (G : forall n s, String.length s <= n -> snd (Regex.spanSpace s) = Js.trimStart s).
  { clear s. induction n as [|n IH]; intros s L.
    - destruct s; [reflexivity|cbn in L; lia].
    - destruct s as [|a r]; [reflexivity|]. cbn [String.length] in L.
      cbn [Regex.spanSpace Js.trimStart]. destruct (Js.space1 a).
      { rewrite <- (IH r) by lia. destruct (Regex.spanSpace r). reflexivity. }
      destruct r as [|b r2]; [reflexivity|]. cbn [String.length] in L.
      destruct (Js.space2 a b).
      { rewrite <- (IH r2) by lia. destruct (Regex.spanSpace r2). reflexivity. }
      destruct r2 as [|c r3]; [reflexivity|]. cbn [String.length] in L.
      destruct (Js.space3 a b c); [|reflexivity].
      rewrite <- (IH r3) by lia. destruct (Regex.spanSpace r3). reflexivity. }
  apply (G (String.length s)). lia.
Qed.

(** In a white space character of several bytes no byte is ASCII. *)
Lemma isSpace_multi (a b : ascii) (r : string) :
  Js.isSpace (String a (String b r)) = true -> 128 <= Js.code b.
Proof.
  destruct r as [|c [|d r]]; cbn [Js.isSpace]; try discriminate; intros H.
  - unfold Js.space2 in H. apply andb_true_iff in H as [_ H].
    apply Nat.eqb_eq in H. lia.
  - unfold Js.space3 in H.
    repeat match type of H with
           | (_ || _)%bool = true => apply orb_true_iff in H as [H|H]
           end;
      repeat match goal with
             | K : (_ && _)%bool = true |- _ => apply andb_true_iff in K as [K ?]
             | K : (_ || _)%bool = true |- _ => apply orb_true_iff in K as [K|K]
             | K : (_ =? _) = true |- _ => apply Nat.eqb_eq in K
             | K : (_ <=? _) = true |- _ => apply Nat.leb_le in K
             end; lia.
Qed.

Lemma isSpace_third (a b c : ascii) :
  Js.isSpace (String a (String b (String c EmptyString))) = true -> 128 <= Js.code c.
Proof.
  cbn [Js.isSpace]. intros H. unfold Js.space3 in H.
  repeat match type of H with
         | (_ || _)%bool = true => apply orb_true_iff in H as [H|H]
         end;
    repeat match goal with
           | K : (_ && _)%bool = true |- _ => apply andb_true_iff in K as [K ?]
           | K : (_ || _)%bool = true |- _ => apply orb_true_iff in K as [K|K]
           | K : (_ =? _) = true |- _ => apply Nat.eqb_eq in K
           | K : (_ <=? _) = true |- _ => apply Nat.leb_le in K
           end; lia.
Qed.

(** Text that does not start with white space does not start with it
    either when ASCII text follows. *)
Lemma spaceLength_app0 (u rest : string) :
  Js.spaceLength u = 0 -> u <> EmptyString ->
  (forall c t, rest = String c t -> Js.code c < 128) ->
  Js.spaceLength (u ++ rest) = 0.
Proof.
  intros E NE A.
  assert (S2 : forall a c, Js.code c < 128 -> Js.space2 a c = false).
  { intros a c Hc. destruct (Js.space2 a c) eqn:X; [|reflexivity].
    pose proof (isSpace_multi a c EmptyString X). lia. }
  assert (S3 : forall a c d, Js.code c < 128 -> Js.space3 a c d = false).
  { intros a c d Hc. destruct (Js.space3 a c d) eqn:X; [|reflexivity].
    pose proof (isSpace_multi a c (String d EmptyString) X). lia. }
  assert (S3' : forall a b c, Js.code c < 128 -> Js.space3 a b c = false).
  { intros a b c Hc. destruct (Js.space3 a b c) eqn:X; [|reflexivity].
    pose proof (isSpace_third a b c X). lia. }
  destruct u as [|a [|b [|c u]]]; [congruence| | |].
  - rewrite append_cons, append_nil. unfold Js.spaceLength in *.
    destruct (Js.space1 a); [discriminate|].
    destruct rest as [|c t]; [reflexivity|].
    rewrite (S2 a c (A c t eq_refl)).
    destruct t as [|d t]; [reflexivity|]. rewrite (S3 a c d (A c _ eq_refl)). reflexivity.
  - rewrite !append_cons, append_nil. unfold Js.spaceLength in *.
    destruct (Js.space1 a); [discriminate|].
    destruct (Js.space2 a b); [discriminate|].
    destruct rest as [|c t]; [reflexivity|].
    rewrite (S3' a b c (A c t eq_refl)). reflexivity.
  - rewrite !append_cons. exact E.
Qed.

Lemma drop_app_le (n : nat) (v rest : string) :
  n <= String.length v -> Js.drop n (v ++ rest) = (Js.drop n v ++ rest)%string.
Proof.
  revert v. induction n as [|n IH]; intros v H.
  - destruct v; [destruct rest|]; reflexivity.
  - destruct v as [|a v]; cbn in H; [lia|]. rewrite append_cons. cbn [Js.drop].
    apply IH. lia.
Qed.

Lemma trimStart_app (v rest : string) :
  Js.trimStart v <> EmptyString ->
  (forall c t, rest = String c t -> Js.code c < 128) ->
  Js.trimStart (v ++ rest) = (Js.trimStart v ++ rest)%string.
Proof.
  intros NE A. induction v as [v E|v N IH] using trimStart_ind.
  - rewrite (trimStart_fixed v E) in *.
    apply trimStart_fixed, spaceLength_app0; assumption.
  - rewrite (trimStart_step v N) in NE.
    rewrite (trimStart_step v N), (trimStart_step (v ++ rest));
      rewrite (spaceLength_app v rest N); [|exact N].
    rewrite drop_app_le by apply spaceLength_le. apply IH, NE.
Qed.

Lemma untilNewline_suffix (p u : string) :
  Regex.untilNewline (p ++ u) = (p ++ u)%string -> Regex.untilNewline u = u.
Proof.
  induction p as [|a p IH]; [rewrite append_nil; auto|].
  rewrite append_cons. cbn [Regex.untilNewline].
  destruct (Js.isNewline a); [discriminate|]. intros [= H]. apply IH, H.
Qed.

Lemma untilNewline_trimStart (v : string) :
  Regex.untilNewline v = v -> Regex.untilNewline (Js.trimStart v) = Js.trimStart v.
Proof.
  intros H. destruct (trimStart_suffix v) as (p & E & _). rewrite E in H.
  apply (untilNewline_suffix p), H.
Qed.

Lemma untilNewline_app (x rest : string) :
  Regex.untilNewline x = x ->
  rest = EmptyString \/ (exists t, rest = (nl ++ t)%string) ->
  Regex.untilNewline (x ++ rest) = x.
Proof.
  intros O R. induction x as [|a x IH].
  - rewrite append_nil. destruct R as [->|[t ->]]; reflexivity.
  - cbn [Regex.untilNewline] in O.
    destruct (Js.isNewline a) eqn:N; [discriminate|]. injection O as O.
    rewrite append_cons. cbn [Regex.untilNewline]. rewrite N, (IH O). reflexivity.
Qed.

Lemma line_end_ascii (rest : string) :
  rest = EmptyString \/ (exists t, rest = (nl ++ t)%string) ->
  forall c t, rest = String c t -> Js.code c < 128.
Proof.
  intros [->|[t' ->]] c t; [discriminate|]. intros [= <- _].
  change (Js.code "010") with 10. lia.
Qed.

(** The group of a label whose first occurrence is followed by a value
    on the same line. *)
Lemma capture_line (L response v rest : string) :
  Js.afterFirst L response = Some (v ++ rest)%string ->
  Js.trimStart v <> EmptyString ->
  Regex.untilNewline v = v ->
  rest = EmptyString \/ (exists t, rest = (nl ++ t)%string) ->
  Regex.capture L response = Some (Js.trimStart v).
Proof.
  intros A T O R. unfold Regex.capture. rewrite A.
  pose proof (spanSpace_rest (v ++ rest)) as S.
  rewrite (trimStart_app v rest T (line_end_ascii rest R)) in S.
  destruct (Regex.spanSpace (v ++ rest)) as [w r]. cbn [snd] in S. subst r.
  pose proof (untilNewline_app _ rest (untilNewline_trimStart v O) R) as U.
  destruct (Js.trimStart v) as [|c r]; [congruence|].
  rewrite append_cons in *. rewrite U. reflexivity.
Qed.

Lemma trim_trimStart (v : string) : Js.trim (Js.trimStart v) = Js.trim v.
Proof.
  unfold Js.trim. rewrite (trimStart_fixed (Js.trimStart v)); [reflexivity|].
  apply trimStart_headOk.
Qed.

Lemma lineValue_facts (v : string) :
  lineValue v = true ->
  Regex.untilNewline v = v
  /\ Js.trim v <> EmptyString
  /\ Js.trimStart v <> EmptyString
  /\ Forall (fun label => Js.bytesInclude v label = false) labels.
Proof.
  unfold lineValue. intros H.
  apply andb_true_iff in H as [H F]. apply andb_true_iff in H as [O T].
  apply String.eqb_eq in O. apply truthy_nonempty in T.
  split; [exact O|]. split; [exact T|]. split.
  - intros E. apply T. unfold Js.trim. rewrite E. reflexivity.
  - rewrite forallb_forall in F. apply List.Forall_forall.
    intros label Hin. apply negb_true_iff, F, Hin.
Qed.

(** The value captured behind a label of the label format, given what
    follows the label's first occurrence. *)
Lemma capture_field (L response value rest : string) :
  Js.afterFirst L response = Some (" " ++ value ++ rest)%string ->
  lineValue value = true ->
  rest = EmptyString \/ (exists t, rest = (nl ++ t)%string) ->
  Regex.capture L response = Some (Js.trimStart value)
  /\ labelled response L = Js.trim value.
Proof.
  intros A V R. destruct (lineValue_facts _ V) as (O & _ & T & _).
  assert (C : Regex.capture L response = Some (Js.trimStart value)).
  { apply (capture_line L response (String " " value) rest).
    - exact A.
    - exact T.
    - cbn [Regex.untilNewline]. change (Js.isNewline " ") with false.
      cbv iota. rewrite O. reflexivity.
    - exact R. }
  split; [exact C|]. unfold labelled. rewrite C. apply trim_trimStart.
Qed.

Lemma lineValue_labels (v : string) :
  lineValue v = true ->
  Js.bytesInclude v "Shlok:" = false
  /\ Js.bytesInclude v "Meaning Hindi:" = false
  /\ Js.bytesInclude v "Meaning English:" = false
  /\ Js.bytesInclude v "Source:" = false
  /\ Js.bytesInclude v "Category:" = false.
Proof.
  intros H. destruct (lineValue_facts _ H) as (_ & _ & _ & F).
  unfold labels in F.
  repeat match goal with
         | X : Forall _ (_ :: _) |- _ => apply Forall_cons_iff in X as [? X]
         end.
  auto.
Qed.

Ltac skip_lines :=
  repeat (rewrite afterFirst_skip_line;
          [ | discriminate | reflexivity | simpl; assumption ]).

Lemma fromFirst_absent (c : ascii) (s : string) :
  ~ occurs c s -> Regex.fromFirst c s = None.
Proof.
  induction s as [|a s IH]; [reflexivity|]. cbn [occurs Regex.fromFirst]. intros N.
  destruct (Ascii.eqb_spec a c); [tauto|]. apply IH. tauto.
Qed.

(** Text that starts with the letter S is no JSON. *)
Lemma parse_S (x : string) : Json.parse (String "S" x) = None.
Proof. reflexivity. Qed.

Lemma trimEnd_S (x : string) : exists y, Js.trimEnd (String "S" x) = String "S" y.
Proof.
  cbn [Js.trimEnd]. exists (Js.trimEnd x).
  destruct (Js.trimEnd x) as [|b [|c [|d r]]]; reflexivity.
Qed.

Lemma trimStart_occurs (c : ascii) (s : string) :
  ~ occurs c s -> ~ occurs c (Js.trimStart s).
Proof.
  intros N O. apply N. destruct (trimStart_suffix s) as (p & E & _). rewrite E.
  apply occurs_app, O.
Qed.

(** An answer that starts with the letter S and has no opening brace is
    no structured answer. *)
Lemma parseJsonFormat_S (x : string) :
  ~ occurs "{" (String "S" x) ->
  parseJsonFormat (String "S" x) = Throw (mkError "SyntaxError").
Proof.
  intros N. unfold parseJsonFormat, jsonBlock, Regex.matchBraces, Js.trim.
  rewrite fromFirst_absent by (apply trimEnd_occurs, trimStart_occurs, N).
  rewrite (trimStart_fixed (String "S" x))
    by (destruct x as [|b [|c r]]; reflexivity).
  destruct (trimEnd_S x) as [y ->]. rewrite parse_S. reflexivity.
Qed.

(** The first occurrence of a label is where the scan finds it. *)
Lemma afterFirst_first (L before t : string) :
  (forall p q : string,
     (before ++ L ++ t)%string = (p ++ L ++ q)%string ->
     String.length before <= String.length p) ->
  Js.afterFirst L (before ++ L ++ t) = Some t.
Proof.
  induction before as [|a b IH]; intros H.
  - rewrite append_nil. apply afterFirst_here.
  - rewrite append_cons, afterFirst_unfold.
    destruct (Js.startsWith (String a (b ++ L ++ t)) L) eqn:S.
    + destruct (startsWith_inv _ _ S) as [post E].
      specialize (H EmptyString post). rewrite append_cons, append_nil in H.
      specialize (H E). cbn in H. lia.
    + apply IH. intros p q E.
      specialize (H (String a p) q). rewrite !append_cons in H.
      rewrite E in H. specialize (H eq_refl). cbn in H. lia.
Qed.

Lemma untilNewline_free (v : string) :
  ~ occurs "010" v -> Regex.untilNewline v = v.
Proof.
  induction v as [|a v IH]; [reflexivity|]. cbn [occurs Regex.untilNewline].
  intros N. destruct (Js.isNewline a) eqn:E.
  - exfalso. apply N. left. unfold Js.isNewline in E.
    apply Nat.eqb_eq in E. rewrite <- (ascii_nat_embedding a).
    unfold Js.code in E. rewrite E. reflexivity.
  - rewrite IH by tauto. reflexivity.
Qed.

(** A label that occurs nowhere has no value. *)
Lemma labelled_absent (L response : string) :
  ~ Substring L response ->
  Regex.capture L response = None /\ labelled response L = EmptyString.
Proof.
  intros N.
  assert (A : Js.afterFirst L response = None).
  { apply afterFirst_absent. destruct (Js.bytesInclude response L) eqn:I; [|reflexivity].
    exfalso. apply N, bytesInclude_Substring, I. }
  unfold labelled, Regex.capture. rewrite A. split; reflexivity.
Qed.

(** The value of a label is the rest of the line behind its first
    occurrence, trimmed. *)
Lemma labelLine_value (response L v : string) :
  labelLine response L v -> Js.trim v <> EmptyString ->
  Regex.capture L response = Some (Js.trimStart v)
  /\ labelled response L = Js.trim v.
Proof.
  intros (before & rest & E & F & N & R) T.
  assert (C : Regex.capture L response = Some (Js.trimStart v)).
  { apply (capture_line L response v rest).
    - rewrite E. apply afterFirst_first. rewrite <- E. exact F.
    - intros Z. apply T. unfold Js.trim. rewrite Z. reflexivity.
    - apply untilNewline_free, N.
    - exact R. }
  split; [exact C|]. unfold labelled. rewrite C. apply trim_trimStart.
Qed.

Lemma legacyFormat_fields (x y z s : string) :
  lineValue x = true -> lineValue y = true -> lineValue z = true ->
  lineValue s = true ->
  labelled (legacyFormat x y z s) "Shlok:" = Js.trim x
  /\ labelled (legacyFormat x y z s) "Meaning Hindi:" = Js.trim y
  /\ labelled (legacyFormat x y z s) "Meaning English:" = Js.trim z
  /\ labelled (legacyFormat x y z s) "Source:" = Js.trim s
  /\ Regex.capture "Category:" (legacyFormat x y z s) = None.
Proof.
  intros Vx Vy Vz Vs.
  destruct (lineValue_labels _ Vx) as (S1 & S2 & S3 & S4 & S5).
  destruct (lineValue_labels _ Vy) as (H1 & H2 & H3 & H4 & H5).
  destruct (lineValue_labels _ Vz) as (E1 & E2 & E3 & E4 & E5).
  destruct (lineValue_labels _ Vs) as (R1 & R2 & R3 & R4 & R5).
  repeat split.
  - eapply capture_field; [|exact Vx|right; eexists; reflexivity].
    unfold legacyFormat. exact (afterFirst_here "Shlok:" _).
  - eapply capture_field; [|exact Vy|right; eexists; reflexivity].
    unfold legacyFormat. skip_lines. exact (afterFirst_here "Meaning Hindi:" _).
  - eapply capture_field; [|exact Vz|right; eexists; reflexivity].
    unfold legacyFormat. skip_lines. exact (afterFirst_here "Meaning English:" _).
  - eapply (capture_field "Source:" _ s EmptyString); [|exact Vs|left; reflexivity].
    unfold legacyFormat. skip_lines. rewrite append_nil_r.
    exact (afterFirst_here "Source:" _).
  - unfold Regex.capture, legacyFormat. skip_lines.
    rewrite afterFirst_absent; [reflexivity|]. simpl. assumption.
Qed.

(** The legacy layout, for every four values that fit on their lines. *)
Lemma legacyFormat_parsed (x y z s : string) :
  lineValue x = true -> lineValue y = true -> lineValue z = true ->
  lineValue s = true ->
  parseTextFormatResponse (legacyFormat x y z s)
  = Ok {| shlok := Js.trim x; meaning_hindi := Js.trim y;
          meaning_english := Js.trim z; source := Js.trim s; category := None |}.
Proof.
  intros Vx Vy Vz Vs.
  destruct (legacyFormat_fields x y z s Vx Vy Vz Vs) as (F1 & F2 & F3 & F4 & F5).
  destruct (lineValue_facts _ Vx) as (_ & Tx & _ & _).
  destruct (lineValue_facts _ Vy) as (_ & Ty & _ & _).
  destruct (lineValue_facts _ Vz) as (_ & Tz & _ & _).
  destruct (lineValue_facts _ Vs) as (_ & Ts & _ & _).
  apply parseTextFormatResponse_ok. rewrite F1, F2, F3, F4, F5.
  assert (Ts' : Js.truthy (Js.trim s) = true) by (apply truthy_nonempty; exact Ts).
  rewrite Ts'. repeat split; assumption.
Qed.

(** An escaped surrogate pair is one character of four bytes. *)
Lemma parse_surrogate_pair :
  Json.parse (dq ++ "\ud83d\ude00" ++ dq)
  = Some (Json.Str (String "240" (String "159" (String "152" (String "128" EmptyString))))).
Proof. vm_compute. reflexivity. Qed.

Lemma parseAIResponse_trimmed (response : string) (q : AIGeneratedQuote) :
  parseAIResponse response = Ok q -> trimmedQuote q.
Proof.
  unfold parseAIResponse.
  destruct (parseJsonFormat response) as [q'|e] eqn:J.
  - intros [= <-].
    destruct (parseJsonFormat_ok _ _ J)
      as (ms & s & h & e & src & _ & _ & _ & _ & _ & _ & _ & _ & _ & Hs & Hh & He & Hsrc & Hc).
    unfold trimmedQuote. rewrite Hs, Hh, He, Hsrc.
    repeat split; try apply trim_idempotent.
    destruct (category q') as [c|]; [|exact I].
    destruct Hc as (raw & _ & ->). apply trim_idempotent.
  - destruct (parseTextFormatResponse response) as [q'|e'] eqn:T; [|discriminate].
    intros [= <-]. apply parseTextFormatResponse_ok in T as (_ & _ & _ & ->).
    unfold trimmedQuote. cbn.
    repeat split; try apply labelled_trimmed.
    + destruct (Js.truthy (labelled response "Source:")); [apply labelled_trimmed|reflexivity].
    + destruct (Regex.capture "Category:" response); [apply trim_idempotent|exact I].
Qed.

(** C8, as the code has it.  The parser first tries the structured form
    on the trimmed response, narrowed to the text from its first opening
    brace to its last closing brace when there is such a span.  The
    record is accepted when that text is a JSON object whose four
    mandatory members are strings with something left after trimming (and
    whose category, if any, is null or a string); a record accepted from
    the structured form always comes from such an object with four
    non-empty strings, and its fields are their trimmed values.  When the
    structured attempt fails, the response is scanned for the labelled
    lines: the primary text and the two meanings must be found non-empty,
    or parsing fails; a missing or blank source becomes Unknown
    Scripture.  The value of a label is the rest of the line behind the
    label's first occurrence, trimmed, and a label that occurs nowhere
    has none; white space behind a label runs over line ends, so a
    label with a blank line takes the next line for its value.  Every
    field of a returned record is trimmed, of every white space
    character of Unicode.  The legacy layout of the
    specification parses to its four trimmed values with no category,
    for all values that fit on their lines; so the legacy answer parses
    to X, Y, Z and S. *)
Theorem parseAIResponse_semantics (response : string) :
  (forall m, Regex.matchBraces (Js.trim response) = Some m ->
     jsonBlock response = m
     /\ exists pre mid post,
          Js.trim response = (pre ++ m ++ post)%string
          /\ m = ("{" ++ mid ++ "}")%string
          /\ ~ occurs "{" pre /\ ~ occurs "}" post)
  /\ (Regex.matchBraces (Js.trim response) = None ->
      jsonBlock response = Js.trim response
      /\ forall pre mid post,
           Js.trim response <> (pre ++ "{" ++ mid ++ "}" ++ post)%string)
  /\ (forall members s h e src c,
        Json.parse (jsonBlock response) = Some (Json.Obj members) ->
        Json.lookup "shlok" members = Some (Json.Str s) ->
        Json.lookup "meaning_hindi" members = Some (Json.Str h) ->
        Json.lookup "meaning_english" members = Some (Json.Str e) ->
        Json.lookup "source" members = Some (Json.Str src) ->
        Js.trim s <> EmptyString -> Js.trim h <> EmptyString ->
        Js.trim e <> EmptyString -> Js.trim src <> EmptyString ->
        optionalTrimOf (Json.lookup "category" members) = Ok c ->
        parseAIResponse response
        = Ok {| shlok := Js.trim s; meaning_hindi := Js.trim h;
                meaning_english := Js.trim e; source := Js.trim src; category := c |})
  /\ (forall q, parseJsonFormat response = Ok q ->
        parseAIResponse response = Ok q
        /\ exists members s h e src,
             Json.parse (jsonBlock response) = Some (Json.Obj members)
             /\ Json.lookup "shlok" members = Some (Json.Str s)
             /\ Json.lookup "meaning_hindi" members = Some (Json.Str h)
             /\ Json.lookup "meaning_english" members = Some (Json.Str e)
             /\ Json.lookup "source" members = Some (Json.Str src)
             /\ s <> EmptyString /\ h <> EmptyString
             /\ e <> EmptyString /\ src <> EmptyString
             /\ shlok q = Js.trim s /\ meaning_hindi q = Js.trim h
             /\ meaning_english q = Js.trim e /\ source q = Js.trim src)
  /\ (forall err, parseJsonFormat response = Throw err ->
        parseAIResponse response
        = match parseTextFormatResponse response with
          | Ok q => Ok q
          | Throw _ => Throw (mkError "Failed to parse AI response as JSON or text format")
          end)
  /\ (forall q, parseTextFormatResponse response = Ok q <->
        labelled response "Shlok:" <> EmptyString
        /\ labelled response "Meaning Hindi:" <> EmptyString
        /\ labelled response "Meaning English:" <> EmptyString
        /\ q = {| shlok := labelled response "Shlok:";
                  meaning_hindi := labelled response "Meaning Hindi:";
                  meaning_english := labelled response "Meaning English:";
                  source := if Js.truthy (labelled response "Source:")
                            then labelled response "Source:" else "Unknown Scripture";
                  category := match Regex.capture "Category:" response with
                              | Some g => Some (Js.trim g)
                              | None => None
                              end |})
  /\ (forall q, parseAIResponse response = Ok q -> trimmedQuote q)
  /\ parseAIResponse legacyAnswer
     = Ok {| shlok := "X"; meaning_hindi := "Y"; meaning_english := "Z";
             source := "S"; category := None |}
  /\ (forall label, ~ Substring label response ->
        Regex.capture label response = None
        /\ labelled response label = EmptyString)
  /\ (forall label v, labelLine response label v -> Js.trim v <> EmptyString ->
        Regex.capture label response = Some (Js.trimStart v)
        /\ labelled response label = Js.trim v)
  /\ (forall x y z s,
        lineValue x = true -> lineValue y = true -> lineValue z = true ->
        lineValue s = true ->
        response = legacyFormat x y z s ->
        parseTextFormatResponse response
        = Ok {| shlok := Js.trim x; meaning_hindi := Js.trim y;
                meaning_english := Js.trim z; source := Js.trim s;
                category := None |}
        /\ (~ occurs "{" response ->
            parseAIResponse response
            = Ok {| shlok := Js.trim x; meaning_hindi := Js.trim y;
                    meaning_english := Js.trim z; source := Js.trim s;
                    category := None |}))
  /\ Js.trim nbsp = EmptyString
  /\ parseAIResponse (legacyFormat (nbsp ++ "X") "Y" "Z" ("S" ++ nbsp))
     = Ok {| shlok := "X"; meaning_hindi := "Y"; meaning_english := "Z";
             source := "S"; category := None |}
  /\ parseAIResponse (jsonQuote nbsp "B" "C" "D")
     = Ok {| shlok := EmptyString; meaning_hindi := "B"; meaning_english := "C";
             source := "D"; category := None |}
  /\ parseAIResponse ("Shlok:" ++ nbsp ++ nl ++ "Meaning Hindi: Y" ++ nl
                      ++ "Meaning English: Z")
     = Ok {| shlok := "Meaning Hindi: Y"; meaning_hindi := "Y";
             meaning_english := "Z"; source := "Unknown Scripture";
             category := None |}
  /\ parseAIResponse (jsonQuote "\ud83d\ude00" "B" "C" "D")
     = Ok {| shlok := "😀"; meaning_hindi := "B"; meaning_english := "C";
             source := "D"; category := None |}.
Proof.
  repeat match goal with |- _ /\ _ => split end.
  - intros m H. unfold jsonBlock. rewrite H. split; [reflexivity|].
    apply matchBraces_span. exact H.
  - intros H. unfold jsonBlock. rewrite H. split; [reflexivity|].
    apply matchBraces_none. exact H.
  - intros members s h e src c P L1 L2 L3 L4 N1 N2 N3 N4 C.
    assert (T : forall x, Js.trim x <> EmptyString -> x <> EmptyString)
      by (intros x Hx ->; apply Hx; reflexivity).
    unfold parseAIResponse.
    rewrite (parseJsonFormat_accepts _ _ _ _ _ _ _ P L1 L2 L3 L4
               (T _ N1) (T _ N2) (T _ N3) (T _ N4) C).
    reflexivity.
  - intros q H. split; [unfold parseAIResponse; rewrite H; reflexivity|].
    destruct (parseJsonFormat_ok _ _ H)
      as (ms & s & h & e & src & H1 & H2 & H3 & H4 & H5 & H6 & H7 & H8 & H9 & H10 & H11 & H12 & H13 & _).
    exists ms, s, h, e, src. repeat split; assumption.
  - intros err H. unfold parseAIResponse. rewrite H. reflexivity.
  - intros q. apply parseTextFormatResponse_ok.
  - apply parseAIResponse_trimmed.
  - vm_compute. reflexivity.
  - intros label. apply labelled_absent.
  - intros label v. apply labelLine_value.
  - intros x y z s Vx Vy Vz Vs ->.
    pose proof (legacyFormat_parsed x y z s Vx Vy Vz Vs) as P.
    split; [exact P|]. intros N. unfold parseAIResponse.
    pose proof (parseJsonFormat_S _ N) as J.
    change (parseJsonFormat (legacyFormat x y z s)
            = Throw (mkError "SyntaxError")) in J.
    rewrite J, P. reflexivity.
  - reflexivity.
  - vm_compute. reflexivity.
  - vm_compute. reflexivity.
  - vm_compute. reflexivity.
  - vm_compute. reflexivity.
Qed.

(** The legacy answer goes through the label scan and comes out trimmed. *)
Lemma parseAIResponse_semantics_witness :
  parseAIResponse legacyAnswer = parseTextFormatResponse legacyAnswer
  /\ trimmedQuote {| shlok := "X"; meaning_hindi := "Y"; meaning_english := "Z";
                     source := "S"; category := None |}.
Proof.
  destruct (parseAIResponse_semantics legacyAnswer)
    as (_ & _ & _ & _ & H3 & _ & H5 & H6 & _).
  split.
  - rewrite (H3 (mkError "SyntaxError")); [reflexivity|vm_compute; reflexivity].
  - apply H5. exact H6.
Defined.

(** C8 as stated fails on the code.  A well-formed structured block that
    parses on its own is not extracted when the prose behind it contains
    a brace: the pattern runs to the last closing brace and parsing fails.
    And the label form does not require a source: without a source line
    the parser returns a record, with a default source. *)
Lemma parseAIResponse_counterexample :
  parseAIResponse (jsonQuote "A" "B" "C" "D")
  = Ok {| shlok := "A"; meaning_hindi := "B"; meaning_english := "C";
          source := "D"; category := None |}
  /\ blockThenProse = (jsonQuote "A" "B" "C" "D" ++ " (category: {any})")%string
  /\ parseAIResponse blockThenProse
     = Throw (mkError "Failed to parse AI response as JSON or text format")
  /\ Regex.capture "Source:" legacyNoSource = None
  /\ parseAIResponse legacyNoSource
     = Ok {| shlok := "X"; meaning_hindi := "Y"; meaning_english := "Z";
             source := "Unknown Scripture"; category := None |}.
Proof. repeat split; vm_compute; reflexivity. Qed.

(** ** Coordinator: the steps *)

Lemma storeCall_run {A : Type} (req : StoreRequest)
    (run : Store -> (JsError + A) * Store) (w : World) :
  storeCall req run w
  = (match fault (fst (nextStep w)) with
     | NoFault => Ok (fst (run (storeAtNextRequest w)))
     | ReturnsError e => Ok (inl e)
     | Throws e => Throw e
     end,
     afterWrite req (fun st => snd (run st)) w).
Proof.
  unfold storeCall, afterWrite, storeAtNextRequest.
  destruct (nextStep w) as [step env']. cbn [fst snd].
  destruct (fault step); try reflexivity.
  destruct (run _). reflexivity.
Qed.

Lemma gt_irrefl (s : string) : Js.gt s s = false.
Proof.
  unfold Js.gt. pose proof (String.compare_antisym s s) as H.
  destruct (String.compare s s); try reflexivity. discriminate H.
Qed.

Lemma getQuoteByDate_run (d : string) (w : World) :
  getQuoteByDate d w
  = if Js.gt d (todayOf w) then (Ok None, w)
    else (match fault (fst (nextStep w)) with
          | NoFault => Ok (match db_logsByDate d (storeAtNextRequest w) with
                           | dailyLog :: _ => dailyLog
                           | [] => None
                           end)
          | ReturnsError _ => Ok None
          | Throws e => Throw e
          end,
          afterRead (SelectLogsByDate d) w).
Proof.
  unfold getQuoteByDate, bind, todayString, todayOf.
  destruct (Js.gt d _); [reflexivity|].
  rewrite storeCall_read. unfold readAnswer.
  destruct (fault (fst (nextStep w))); try reflexivity.
  destruct (db_logsByDate d (storeAtNextRequest w)); reflexivity.
Qed.

Lemma getTodayQuote_run (w : World) :
  getTodayQuote w
  = (match fault (fst (nextStep w)) with
     | NoFault => Ok (match db_logsByDate (todayOf w) (storeAtNextRequest w) with
                      | dailyLog :: _ => dailyLog
                      | [] => None
                      end)
     | ReturnsError _ => Ok None
     | Throws e => Throw e
     end,
     afterRead (SelectLogsByDate (todayOf w)) w).
Proof.
  unfold getTodayQuote, bind, todayString.
  change (Cal.isoDate (utc_date (clock w))) with (todayOf w).
  rewrite getQuoteByDate_run, gt_irrefl. reflexivity.
Qed.

(** The trigger's test never throws and asks for a generation whenever
    the fetch of today's publication fails. *)
Lemma shouldGenerateQuoteForToday_run (w : World) :
  shouldGenerateQuoteForToday w
  = (Ok (match fault (fst (nextStep w)) with
         | NoFault =>
             match db_logsByDate (todayOf w) (storeAtNextRequest w) with
             | Some _ :: _ => false
             | _ => true
             end
         | _ => true
         end),
     afterRead (SelectLogsByDate (todayOf w)) w).
Proof.
  unfold shouldGenerateQuoteForToday, try_catch, bind. rewrite getTodayQuote_run.
  destruct (fault (fst (nextStep w))); try reflexivity.
  destruct (db_logsByDate (todayOf w) (storeAtNextRequest w)) as [|[q|] rest];
    reflexivity.
Qed.

Lemma insertQuote_run (a : AIGeneratedQuote) (ts : Z) (w : World) :
  insertQuote a ts w
  = (match fault (fst (nextStep w)) with
     | NoFault => Ok (fst (db_insertQuote a ts (storeAtNextRequest w)))
     | ReturnsError e => Ok (inl e)
     | Throws e => Throw e
     end,
     afterWrite (InsertQuote a ts) (fun st => snd (db_insertQuote a ts st)) w).
Proof. unfold insertQuote. rewrite storeCall_run. reflexivity. Qed.

(** What the table refuses changes nothing. *)
Lemma db_insertQuote_rejected (a : AIGeneratedQuote) (ts : Z) (st : Store) (e : JsError) :
  fst (db_insertQuote a ts st) = inl e ->
  rejection a = Some e /\ snd (db_insertQuote a ts st) = st.
Proof.
  unfold db_insertQuote. destruct (rejection a); cbn; [|discriminate].
  intros [= ->]. auto.
Qed.

Lemma db_insertQuote_accepted (a : AIGeneratedQuote) (ts : Z) (st : Store) (q : Quote) :
  fst (db_insertQuote a ts st) = inr q ->
  rejection a = None
  /\ q = {| id := next_id st; quote_shlok := shlok a;
            quote_meaning_hindi := meaning_hindi a;
            quote_meaning_english := meaning_english a;
            quote_source := source a; quote_category := category a;
            created_at := ts |}
  /\ snd (db_insertQuote a ts st)
     = {| quotes := quotes st ++ [q]; daily_logs := daily_logs st;
          next_id := S (next_id st) |}.
Proof.
  unfold db_insertQuote. destruct (rejection a); cbn; [discriminate|].
  intros [= <-]. auto.
Qed.

Lemma logQuoteForToday_run (qid : nat) (ts : Z) (w : World) :
  logQuoteForToday qid (Some ts) w
  = (match fault (fst (nextStep w)) with
     | NoFault =>
         match fst (db_upsertLog qid (todayOf w) ts (storeAtNextRequest w)) with
         | Some e => Throw e
         | None => Ok tt
         end
     | ReturnsError e => Throw e
     | Throws e => Throw e
     end,
     afterWrite (UpsertLog qid (todayOf w) ts)
       (fun st => snd (db_upsertLog qid (todayOf w) ts st)) w).
Proof.
  unfold logQuoteForToday, bind, todayString, ret.
  change (Cal.isoDate (utc_date (clock w))) with (todayOf w).
  rewrite storeCall_run.
  assert (E : forall st,
            snd (let '(e, st') := db_upsertLog qid (todayOf w) ts st in
                 (match e with Some err => inl err | None => inr tt end, st'))
            = snd (db_upsertLog qid (todayOf w) ts st)).
  { intros st. destruct (db_upsertLog qid (todayOf w) ts st). reflexivity. }
  unfold afterWrite.
  destruct (fault (fst (nextStep w))); try reflexivity.
  rewrite E.
  destruct (db_upsertLog qid (todayOf w) ts (storeAtNextRequest w)) as [[e|] st'];
    reflexivity.
Qed.

Lemma deleteQuote_run (qid : nat) (w : World) :
  deleteQuote qid w
  = (match fault (fst (nextStep w)) with
     | Throws e => Throw e
     | _ => Ok tt
     end,
     afterWrite (DeleteQuote qid) (db_deleteQuote qid) w).
Proof.
  unfold deleteQuote, bind. rewrite storeCall_run.
  destruct (fault (fst (nextStep w))); reflexivity.
Qed.

Lemma afterRead_quiet (req : StoreRequest) (w : World) :
  noRaces w -> noRaces (afterRead req w) /\ store (afterRead req w) = store w.
Proof.
  intros H. destruct (noRaces_next w H) as [H1 H2]. split; [exact H2|].
  cbn. unfold storeAtNextRequest. rewrite H1. reflexivity.
Qed.

(** A request the store does not carry out leaves the world as a read
    does. *)
Lemma afterWrite_failed (req : StoreRequest) (change : Store -> Store) (w : World) :
  fault (fst (nextStep w)) <> NoFault -> afterWrite req change w = afterRead req w.
Proof.
  intros H. unfold afterWrite, afterRead.
  destruct (fault (fst (nextStep w))); [congruence|reflexivity|reflexivity].
Qed.

Lemma insertQuote_failed (a : AIGeneratedQuote) (ts : Z) (w w' : World)
    (r : Res (JsError + Quote)) :
  insertQuote a ts w = (r, w') -> insertFailed r ->
  w' = afterRead (InsertQuote a ts) w.
Proof.
  rewrite insertQuote_run. intros [= <- <-] F.
  destruct (fault (fst (nextStep w))) eqn:E.
  - destruct (fst (db_insertQuote a ts (storeAtNextRequest w))) as [e|q] eqn:R;
      [|destruct F].
    apply db_insertQuote_rejected in R as [_ R].
    unfold afterWrite, afterRead. rewrite E, R. reflexivity.
  - apply afterWrite_failed. rewrite E. discriminate.
  - apply afterWrite_failed. rewrite E. discriminate.
Qed.

Lemma insertQuote_rejected (a : AIGeneratedQuote) (ts : Z) (w w' : World) (e : JsError) :
  insertQuote a ts w = (Ok (inl e), w') -> w' = afterRead (InsertQuote a ts) w.
Proof. intros H. apply (insertQuote_failed _ _ _ _ _ H). exact I. Qed.

(** C9.  When the insert of the generated record fails with code 23505
    and a message that names unique_shlok, the coordinator generates one
    replacement and inserts once more; when this second insert fails too
    (an error object, or a thrown error), the call throws.  Between the
    first read and the throw the store has received reads and the two
    inserts only: no publication is written, nothing is deleted, no
    further record is generated. *)
Theorem insert_conflict_retries_once
    (w w1 w2 w3 w4 w5 : World) (a1 a2 : AIGeneratedQuote) (ts : Z) (e1 : JsError)
    (r2 : Res (JsError + Quote)) :
  getTodayQuote w = (Ok None, w1) ->
  generateQuoteWithAI w1 = (Ok a1, w2) ->
  sixAM (todayOf w) w2 = (Ok ts, w2) ->
  insertQuote a1 ts w2 = (Ok (inl e1), w3) ->
  isDuplicateShlok e1 = true ->
  generateQuoteWithAI w3 = (Ok a2, w4) ->
  insertQuote a2 ts w4 = (r2, w5) ->
  insertFailed r2 ->
  (exists e,
     generateAndStoreQuote w = (Throw e, w5)
     /\ match r2 with
        | Ok (inl e2) =>
            e = mkError ("Failed to insert quote after retry: " ++ messageText e2)%string
        | Throw e2 => e = e2
        | Ok (inr _) => False
        end)
  /\ (exists reads1 reads2,
        store_log w5
        = store_log w ++ [SelectLogsByDate (todayOf w)] ++ reads1
          ++ [InsertQuote a1 ts] ++ reads2 ++ [InsertQuote a2 ts]
        /\ forallb isRead reads1 = true /\ forallb isRead reads2 = true)
  /\ (noRaces w -> store w5 = store w).
Proof.
  intros H1 H2 H3 H4 Hd H5 H6 F.
  split; [|split].
  - assert (G : generateAndStoreQuote w
                = match r2 with
                  | Ok (inl retryError) =>
                      (Throw (mkError ("Failed to insert quote after retry: "
                                       ++ messageText retryError)%string), w5)
                  | Ok (inr retryQuote) => logOrResolve retryQuote ts w5
                  | Throw e => (Throw e, w5)
                  end).
    { unfold generateAndStoreQuote, bind, todayString.
      change (Cal.isoDate (utc_date (clock w))) with (todayOf w).
      rewrite H1, H2, H3, H4, Hd, H5, H6. destruct r2 as [[e|q]|e]; reflexivity. }
    rewrite G. destruct r2 as [[e2|q]|e2]; [eauto|destruct F|eauto].
  - rewrite getTodayQuote_run in H1. injection H1 as _ <-.
    destruct (generateQuoteWithAI_effects (afterRead (SelectLogsByDate (todayOf w)) w))
      as (s1 & E1 & _).
    rewrite H2 in E1. cbn [snd] in E1.
    apply insertQuote_rejected in H4. subst w3.
    destruct (generateQuoteWithAI_effects (afterRead (InsertQuote a1 ts) w2))
      as (s2 & E2 & _).
    rewrite H5 in E2. cbn [snd] in E2.
    apply insertQuote_failed in H6; [|exact F]. subst w5.
    destruct (eff_store_log _ _ _ E1) as (r1 & L1 & F1).
    destruct (eff_store_log _ _ _ E2) as (r2' & L2 & F2).
    exists r1, r2'. split; [|auto].
    cbn [afterRead store_log] in *. rewrite L2, L1.
    rewrite <- !app_assoc. reflexivity.
  - intros Q.
    rewrite getTodayQuote_run in H1. injection H1 as _ <-.
    destruct (afterRead_quiet (SelectLogsByDate (todayOf w)) w Q) as [Q1 S1].
    destruct (generateQuoteWithAI_effects (afterRead (SelectLogsByDate (todayOf w)) w))
      as (s1 & E1 & _).
    rewrite H2 in E1. cbn [snd] in E1.
    destruct (eff_quiet _ _ _ E1 Q1) as [Q2 S2].
    apply insertQuote_rejected in H4. subst w3.
    destruct (afterRead_quiet (InsertQuote a1 ts) w2 Q2) as [Q3 S3].
    destruct (generateQuoteWithAI_effects (afterRead (InsertQuote a1 ts) w2))
      as (s2 & E2 & _).
    rewrite H5 in E2. cbn [snd] in E2.
    destruct (eff_quiet _ _ _ E2 Q3) as [Q4 S4].
    apply insertQuote_failed in H6; [|exact F]. subst w5.
    destruct (afterRead_quiet (InsertQuote a2 ts) w4 Q4) as [Q5 S5].
    congruence.
Qed.

(** Both inserts are rejected for a repeated primary text: the call
    throws and the store is as it was. *)
Lemma insert_conflict_retries_once_witness :
  exists e w', generateAndStoreQuote shlokClashTwice = (Throw e, w')
               /\ store w' = store shlokClashTwice.
Proof.
  destruct (insert_conflict_retries_once shlokClashTwice _ _ _ _ _ _ _ _ _ _
              ltac:(vm_compute; reflexivity) ltac:(vm_compute; reflexivity)
              ltac:(vm_compute; reflexivity) ltac:(vm_compute; reflexivity)
              ltac:(vm_compute; reflexivity) ltac:(vm_compute; reflexivity)
              ltac:(vm_compute; reflexivity) I)
    as ((e & H & _) & _ & S).
  exists e. eexists. split; [exact H|]. apply S. vm_compute. repeat constructor.
Defined.

(** ** Coordinator: conflict on the date *)





Lemma isConflict_23505 (e : JsError) : hasCode "23505" e = true -> isConflict e = true.
Proof. unfold isConflict. intros ->. apply orb_true_r. Qed.

Lemma logOrResolve_cases (stored : Quote) (ts : Z) (w3 : World) :
  (forall w4,
     logQuoteForToday (id stored) (Some ts) w3 = (Ok tt, w4) ->
     logOrResolve stored ts w3 = (Ok stored, w4))
  /\ (forall e w4,
        logQuoteForToday (id stored) (Some ts) w3 = (Throw e, w4) ->
        isConflict e = false ->
        logOrResolve stored ts w3 = (Throw e, w4))
  /\ (forall e w4 w5,
        logQuoteForToday (id stored) (Some ts) w3 = (Throw e, w4) ->
        isConflict e = true ->
        getTodayQuote w4 = (Ok None, w5) ->
        logOrResolve stored ts w3 = (Throw e, w5))
  /\ (forall e w4 w5 existing,
        logQuoteForToday (id stored) (Some ts) w3 = (Throw e, w4) ->
        isConflict e = true ->
        getTodayQuote w4 = (Ok (Some existing), w5) ->
        logOrResolve stored ts w3
        = (match fault (fst (nextStep w5)) with
           | Throws e' => Throw e'
           | _ => Ok existing
           end,
           afterWrite (DeleteQuote (id stored)) (db_deleteQuote (id stored)) w5)).
Proof.
  unfold logOrResolve, try_catch, bind. repeat split.
  - intros w4 ->. reflexivity.
  - intros e w4 -> ->. reflexivity.
  - intros e w4 w5 -> -> ->. reflexivity.
  - intros e w4 w5 existing -> -> ->. rewrite deleteQuote_run.
    destruct (fault (fst (nextStep w5))); reflexivity.
Qed.



(** Two more persistence failures that do not reach the caller: a
    clean-up delete answered with an error (the answer is never looked
    at), and an insert rejected for a repeated primary text, which is
    retried, after which the call returns normally. *)
Lemma link_conflict_counterexample :
  (exists existing w',
     generateAndStoreQuote readFailsThenDeleteFails = (Ok existing, w')
     /\ id existing = 1
     /\ fault (rejects (mkError "fetch failed")) <> NoFault
     /\ store_log w' = removelast (store_log w') ++ [DeleteQuote 3]
     /\ (exists orphan, findQuote (store w') 3 = Some orphan)
     /\ forallb (fun l => negb (Nat.eqb (quote_id l) 3)) (daily_logs (store w')) = true)
  /\ (exists q w',
        generateAndStoreQuote shlokClashOnce = (Ok q, w')
        /\ fault (rejects shlokClash) <> NoFault
        /\ nth_error (store_env shlokClashOnce) 3 = Some (rejects shlokClash)).
Proof.
  split.
  - eexists. eexists. split; [vm_compute; reflexivity|].
    split; [reflexivity|]. split; [discriminate|].
    split; [vm_compute; reflexivity|].
    split; [eexists; vm_compute; reflexivity|vm_compute; reflexivity].
  - eexists. eexists. split; [vm_compute; reflexivity|].
    split; [discriminate|reflexivity].
Qed.

(** ** Coordinator: idempotence *)

Lemma insertBy_In {A : Type} (le : A -> A -> bool) (x y : A) (l : list A) :
  In y (insertBy le x l) <-> y = x \/ In y l.
Proof.
  induction l as [|a l IH]; simpl; [intuition|].
  destruct (le x a); simpl; [intuition|]. rewrite IH. intuition.
Qed.

Lemma sortBy_In {A : Type} (le : A -> A -> bool) (y : A) (l : list A) :
  In y (sortBy le l) <-> In y l.
Proof.
  unfold sortBy. induction l as [|a l IH]; simpl; [tauto|].
  rewrite insertBy_In, IH. intuition.
Qed.

Lemma filter_hasDate_unique (d : string) (logs : list DailyLog) (l : DailyLog) :
  List.NoDup (map date logs) -> In l logs -> date l = d ->
  List.filter (hasDate d) logs = [l].
Proof.
  induction logs as [|a logs IH]; intros Hn Hin Hd; [destruct Hin|].
  cbn in Hn. inversion Hn as [|? ? Hna Hn']; subst.
  assert (Hnone : forall logs', ~ In (date l) (map date logs') ->
                                List.filter (hasDate (date l)) logs' = []).
  { intros logs' H. induction logs' as [|b logs' IH']; [reflexivity|].
    cbn. unfold hasDate at 1. destruct (String.eqb (date b) (date l)) eqn:E.
    - apply String.eqb_eq in E. exfalso. apply H. left. exact E.
    - apply IH'. intros H'. apply H. right. exact H'. }
  destruct Hin as [->|Hin].
  - cbn. unfold hasDate at 1. rewrite String.eqb_refl. f_equal.
    apply Hnone. exact Hna.
  - cbn. unfold hasDate at 1. destruct (String.eqb (date a) (date l)) eqn:E.
    + apply String.eqb_eq in E. exfalso. apply Hna. rewrite E.
      apply in_map. exact Hin.
    + apply IH; auto.
Qed.

Lemma db_logsByDate_published (st : Store) (d : string) (q : Quote) :
  wfStore st -> published st d q -> db_logsByDate d st = [Some q].
Proof.
  intros (Hn & _ & _) (l & Hin & Hd & Hq). unfold db_logsByDate.
  rewrite (filter_hasDate_unique d _ l Hn Hin Hd). cbn. unfold joined.
  rewrite Hq. reflexivity.
Qed.

Lemma db_logsByDate_found (st : Store) (d : string) (q : Quote) (rest : list (option Quote)) :
  db_logsByDate d st = Some q :: rest -> published st d q.
Proof.
  unfold db_logsByDate. intros H.
  destruct (sortBy byCreatedDesc (List.filter (hasDate d) (daily_logs st)))
    as [|l ls] eqn:E; [discriminate|].
  cbn in H. injection H as Hq _.
  assert (Hin : In l (List.filter (hasDate d) (daily_logs st))).
  { apply (sortBy_In byCreatedDesc). rewrite E. left. reflexivity. }
  apply filter_In in Hin as [Hin Hd]. exists l. split; [exact Hin|]. split; [|exact Hq].
  unfold hasDate in Hd. apply String.eqb_eq. exact Hd.
Qed.

Lemma published_once (st : Store) (d : string) (q : Quote) :
  wfStore st -> published st d q -> publicationsOn st d = 1.
Proof.
  intros (Hn & _ & _) (l & Hin & Hd & _). unfold publicationsOn.
  rewrite (filter_hasDate_unique d _ l Hn Hin Hd). reflexivity.
Qed.

Lemma publish_short_circuit (w : World) (q : Quote) :
  wfStore (store w) -> answered w ->
  published (storeAtNextRequest w) (todayOf w) q ->
  generateAndStoreQuote w = (Ok q, afterRead (SelectLogsByDate (todayOf w)) w).
Proof.
  intros Hwf Ha Hp. unfold generateAndStoreQuote, bind at 1 2, todayString.
  rewrite getTodayQuote_run. unfold answered in Ha. rewrite Ha.
  rewrite (db_logsByDate_published _ _ q); [reflexivity| |exact Hp].
  apply wf_applyWrites. exact Hwf.
Qed.

Lemma find_app_none {A : Type} (p : A -> bool) (l l' : list A) :
  (forall x, In x l -> p x = false) -> find p (l ++ l') = find p l'.
Proof.
  induction l as [|a l IH]; intros H; [reflexivity|].
  cbn. rewrite (H a (or_introl eq_refl)). apply IH. intros x Hx. apply H. right. exact Hx.
Qed.

Lemma insert_fresh (a : AIGeneratedQuote) (ts : Z) (st : Store) (q : Quote) :
  wfStore st ->
  fst (db_insertQuote a ts st) = inr q ->
  findQuote (snd (db_insertQuote a ts st)) (id q) = Some q
  /\ forall l, In l (daily_logs (snd (db_insertQuote a ts st))) -> quote_id l <> id q.
Proof.
  intros (_ & Hfk & Hid) R.
  apply db_insertQuote_accepted in R as (_ & -> & ->). cbn. split.
  - unfold findQuote. cbn. rewrite find_app_none.
    + cbn. rewrite Nat.eqb_refl. reflexivity.
    + intros x Hx. specialize (Hid x Hx). apply Nat.eqb_neq. lia.
  - intros l Hl. destruct (Hfk l Hl) as [q Hq].
    apply findQuote_id in Hq as [Hq1 Hq2]. specialize (Hid q Hq2). lia.
Qed.

Lemma upsert_published (qid : nat) (d : string) (ts : Z) (st : Store) (q : Quote) :
  findQuote st qid = Some q ->
  fst (db_upsertLog qid d ts st) = None
  /\ published (snd (db_upsertLog qid d ts st)) d q.
Proof.
  intros Hq. unfold db_upsertLog. rewrite Hq.
  destruct (existsb (hasDate d) (daily_logs st)) eqn:E; cbn; (split; [reflexivity|]).
  - apply existsb_exists in E as (l & Hin & Hd).
    exists {| log_id := log_id l; quote_id := qid; date := d; log_created_at := ts |}.
    cbn. split; [|split; [reflexivity|exact Hq]].
    apply in_map_iff. exists l. rewrite Hd. auto.
  - exists {| log_id := next_id st; quote_id := qid; date := d; log_created_at := ts |}.
    cbn. split; [|split; [reflexivity|exact Hq]].
    apply in_or_app. right. left. reflexivity.
Qed.

Lemma delete_published (k : nat) (st : Store) (d : string) (q : Quote) :
  published st d q -> published (db_deleteQuote k st) d q.
Proof. intros H. exact H. Qed.

Lemma afterWrite_quiet (req : StoreRequest) (change : Store -> Store) (w : World) :
  noRaces w ->
  noRaces (afterWrite req change w) /\ storeAtNextRequest w = store w.
Proof.
  intros H. destruct (noRaces_next w H) as [H1 H2]. split; [exact H2|].
  unfold storeAtNextRequest. rewrite H1. reflexivity.
Qed.

Lemma logOrResolve_publishes (stored q : Quote) (ts : Z) (w3 w' : World) :
  wfStore (store w3) -> noRaces w3 ->
  findQuote (store w3) (id stored) = Some stored ->
  (forall l, In l (daily_logs (store w3)) -> quote_id l <> id stored) ->
  logOrResolve stored ts w3 = (Ok q, w') ->
  wfStore (store w') /\ noRaces w' /\ clock w' = clock w3
  /\ published (store w') (todayOf w3) q.
Proof.
  intros Hwf Hq Hfind Hfresh.
  unfold logOrResolve, try_catch, bind. rewrite logQuoteForToday_run.
  set (up := fun st => snd (db_upsertLog (id stored) (todayOf w3) ts st)).
  destruct (afterWrite_quiet (UpsertLog (id stored) (todayOf w3) ts) up w3 Hq) as [Q4 S3].
  destruct (upsert_published (id stored) (todayOf w3) ts (store w3) stored Hfind) as [U1 U2].
  assert (Failed : forall e,
            fault (fst (nextStep w3)) <> NoFault ->
            (if isConflict e
             then (existingQuote <- getTodayQuote ;;
                   match existingQuote with
                   | Some existing => _ <- deleteQuote (id stored) ;; ret existing
                   | None => throw e
                   end)
             else throw e)
              (afterWrite (UpsertLog (id stored) (todayOf w3) ts) up w3) = (Ok q, w') ->
            wfStore (store w') /\ noRaces w' /\ clock w' = clock w3
            /\ published (store w') (todayOf w3) q).
  { intros e F. rewrite (afterWrite_failed _ _ _ F).
    set (w4 := afterRead (UpsertLog (id stored) (todayOf w3) ts) w3).
    destruct (afterRead_quiet (UpsertLog (id stored) (todayOf w3) ts) w3 Hq) as [Q4' S4].
    fold w4 in Q4', S4.
    destruct (isConflict e); [|discriminate].
    unfold bind. rewrite getTodayQuote_run.
    set (w5 := afterRead (SelectLogsByDate (todayOf w4)) w4).
    destruct (afterRead_quiet (SelectLogsByDate (todayOf w4)) w4 Q4') as [Q5 S5].
    fold w5 in Q5, S5.
    assert (S4' : storeAtNextRequest w4 = store w3).
    { transitivity (store w5); [reflexivity|congruence]. }
    destruct (fault (fst (nextStep w4))); try discriminate.
    destruct (db_logsByDate (todayOf w4) (storeAtNextRequest w4)) as [|[existing|] rest] eqn:D;
      try discriminate.
    rewrite S4' in D. apply db_logsByDate_found in D.
    change (todayOf w4) with (todayOf w3) in D.
    rewrite deleteQuote_run.
    destruct (afterWrite_quiet (DeleteQuote (id stored)) (db_deleteQuote (id stored)) w5 Q5)
      as [Q6 S6].
    assert (S5' : storeAtNextRequest w5 = store w3) by congruence.
    unfold ret.
    destruct (fault (fst (nextStep w5))) eqn:F5; intros [= <- <-];
      (split; [|split; [exact Q6|split; [reflexivity|]]]);
      cbn [afterWrite store]; rewrite F5, S5'.
    - apply wf_deleteQuote. exact Hwf.
    - apply delete_published; assumption.
    - exact Hwf.
    - exact D. }
  destruct (fault (fst (nextStep w3))) eqn:F.
  - rewrite S3, U1. unfold ret. intros [= <- <-].
    split; [|split; [exact Q4|split; [reflexivity|]]];
      cbn [afterWrite store]; rewrite F, S3.
    + apply wf_upsertLog. exact Hwf.
    + exact U2.
  - apply Failed. discriminate.
  - apply Failed. discriminate.
Qed.

Lemma insert_then_resolve (a : AIGeneratedQuote) (ts : Z) (w2 w' : World) (q : Quote)
    (r : JsError + Quote) (w3 : World) :
  wfStore (store w2) -> noRaces w2 ->
  insertQuote a ts w2 = (Ok r, w3) ->
  wfStore (store w3) /\ noRaces w3 /\ clock w3 = clock w2
  /\ match r with
     | inr stored =>
         findQuote (store w3) (id stored) = Some stored
         /\ forall l, In l (daily_logs (store w3)) -> quote_id l <> id stored
     | inl _ => True
     end.
Proof.
  intros Hwf Hq. rewrite insertQuote_run.
  destruct (afterWrite_quiet (InsertQuote a ts)
              (fun st => snd (db_insertQuote a ts st)) w2 Hq) as [Q3 S2].
  destruct (fault (fst (nextStep w2))) eqn:F; intros [= <- <-];
    (split; [|split; [exact Q3|split; [reflexivity|]]]);
    cbn [afterWrite store]; rewrite ?F, ?S2.
  - apply wf_insertQuote. exact Hwf.
  - destruct (fst (db_insertQuote a ts (store w2))) as [e|stored] eqn:R; [exact I|].
    apply insert_fresh; assumption.
  - exact Hwf.
  - exact I.
Qed.

Lemma generateQuoteWithAI_calm (w1 w2 : World) (r : Res AIGeneratedQuote) :
  wfStore (store w1) -> noRaces w1 ->
  generateQuoteWithAI w1 = (r, w2) ->
  wfStore (store w2) /\ noRaces w2 /\ clock w2 = clock w1.
Proof.
  intros Hwf Hq H. destruct (generateQuoteWithAI_effects w1) as (sent & E & _).
  rewrite H in E. cbn [snd] in E.
  destruct (eff_quiet _ _ _ E Hq) as [Q S].
  split; [apply (eff_wf _ _ _ E Hwf)|]. split; [exact Q|apply (eff_clock _ _ _ E)].
Qed.

(** A call that returns leaves today published with the record it
    returns. *)
Lemma generateAndStoreQuote_publishes (w w' : World) (q : Quote) :
  wfStore (store w) -> noRaces w ->
  generateAndStoreQuote w = (Ok q, w') ->
  wfStore (store w') /\ noRaces w' /\ clock w' = clock w
  /\ published (store w') (todayOf w) q.
Proof.
  intros Hwf Hq. unfold generateAndStoreQuote, bind at 1 2, todayString.
  change (Cal.isoDate (utc_date (clock w))) with (todayOf w).
  rewrite getTodayQuote_run.
  set (w1 := afterRead (SelectLogsByDate (todayOf w)) w).
  destruct (afterRead_quiet (SelectLogsByDate (todayOf w)) w Hq) as [Q1 S1].
  fold w1 in Q1, S1.
  assert (Hwf1 : wfStore (store w1)) by (rewrite S1; exact Hwf).
  assert (C1 : clock w1 = clock w) by reflexivity.
  assert (Generate :
            (aiQuote <- generateQuoteWithAI ;;
             sixAMIST <- sixAM (todayOf w) ;;
             r <- insertQuote aiQuote sixAMIST ;;
             match r with
             | inl insertError =>
                 if isDuplicateShlok insertError then
                   newAiQuote <- generateQuoteWithAI ;;
                   r' <- insertQuote newAiQuote sixAMIST ;;
                   match r' with
                   | inl retryError =>
                       throw (mkError ("Failed to insert quote after retry: "
                                       ++ messageText retryError)%string)
                   | inr retryQuote => logOrResolve retryQuote sixAMIST
                   end
                 else throw (mkError ("Failed to insert quote: "
                                      ++ messageText insertError)%string)
             | inr newQuote => logOrResolve newQuote sixAMIST
             end) w1 = (Ok q, w') ->
            wfStore (store w') /\ noRaces w' /\ clock w' = clock w
            /\ published (store w') (todayOf w) q).
  { unfold bind at 1.
    destruct (generateQuoteWithAI w1) as [[a|e] w2] eqn:G; [|discriminate].
    destruct (generateQuoteWithAI_calm _ _ _ Hwf1 Q1 G) as (Hwf2 & Q2 & C2).
    unfold bind at 1. unfold sixAM at 1.
    destruct (get6AMISTTimestamp (tz_offset (clock w2)) (todayOf w)) as [ts|e];
      [|discriminate].
    unfold bind at 1.
    destruct (insertQuote a ts w2) as [[r|e] w3] eqn:I1; [|discriminate].
    destruct (insert_then_resolve _ _ _ w' q _ _ Hwf2 Q2 I1) as (Hwf3 & Q3 & C3 & Hr).
    assert (T3 : todayOf w3 = todayOf w) by (unfold todayOf; congruence).
    destruct r as [e1|stored].
    - destruct (isDuplicateShlok e1); [|discriminate].
      unfold bind at 1.
      destruct (generateQuoteWithAI w3) as [[a2|e] w4] eqn:G2; [|discriminate].
      destruct (generateQuoteWithAI_calm _ _ _ Hwf3 Q3 G2) as (Hwf4 & Q4 & C4).
      unfold bind at 1.
      destruct (insertQuote a2 ts w4) as [[r2|e] w5] eqn:I2; [|discriminate].
      destruct (insert_then_resolve _ _ _ w' q _ _ Hwf4 Q4 I2) as (Hwf5 & Q5 & C5 & Hr2).
      assert (T5 : todayOf w5 = todayOf w) by (unfold todayOf; congruence).
      destruct r2 as [e2|stored]; [discriminate|].
      destruct Hr2 as [Hf Hfresh]. intros L.
      destruct (logOrResolve_publishes _ _ _ _ _ Hwf5 Q5 Hf Hfresh L) as (A & B & C & D).
      rewrite T5 in D.
      split; [exact A|split; [exact B|split; [congruence|exact D]]].
    - destruct Hr as [Hf Hfresh]. intros L.
      destruct (logOrResolve_publishes _ _ _ _ _ Hwf3 Q3 Hf Hfresh L) as (A & B & C & D).
      rewrite T3 in D.
      split; [exact A|split; [exact B|split; [congruence|exact D]]]. }
  assert (S0 : storeAtNextRequest w = store w) by (transitivity (store w1); [reflexivity|exact S1]).
  destruct (fault (fst (nextStep w))); [| exact Generate | discriminate].
  destruct (db_logsByDate (todayOf w) (storeAtNextRequest w)) as [|[existing|] rest] eqn:D;
    try exact Generate.
  unfold ret. intros [= <- <-].
  split; [exact Hwf1|]. split; [exact Q1|]. split; [reflexivity|].
  rewrite S1. rewrite S0 in D. apply db_logsByDate_found in D. exact D.
Qed.

(** C1, as the code has it.  When the fetch of today's publication is
    answered and finds a record, [generateAndStoreQuote] returns that
    record and does nothing else: one read of the store, no completion
    request, no write.  With no concurrent writer, a call that returns a
    record leaves today published with it exactly once, and a second call
    whose fetch is answered returns the same record and leaves the store
    as it found it. *)
Theorem generateAndStoreQuote_idempotent (w : World) :
  wfStore (store w) ->
  (forall q,
     answered w ->
     published (storeAtNextRequest w) (todayOf w) q ->
     exists w',
       generateAndStoreQuote w = (Ok q, w')
       /\ store w' = storeAtNextRequest w
       /\ ai_log w' = ai_log w
       /\ store_log w' = store_log w ++ [SelectLogsByDate (todayOf w)]
       /\ publicationsOn (store w') (todayOf w) = 1)
  /\ (forall q w1,
        noRaces w ->
        generateAndStoreQuote w = (Ok q, w1) ->
        answered w1 ->
        exists w2,
          generateAndStoreQuote w1 = (Ok q, w2)
          /\ store w2 = store w1
          /\ ai_log w2 = ai_log w1
          /\ store_log w2 = store_log w1 ++ [SelectLogsByDate (todayOf w)]
          /\ publicationsOn (store w2) (todayOf w) = 1).
Proof.
  intros Hwf. split.
  - intros q Ha Hp. eexists. split; [apply publish_short_circuit; assumption|].
    split; [reflexivity|]. split; [reflexivity|]. split; [reflexivity|].
    cbn [afterRead store]. eapply published_once; [|exact Hp].
    apply wf_applyWrites. exact Hwf.
  - intros q w1 Hq H Ha.
    destruct (generateAndStoreQuote_publishes _ _ _ Hwf Hq H) as (Hwf1 & Q1 & C1 & P1).
    assert (T1 : todayOf w1 = todayOf w) by (unfold todayOf; congruence).
    destruct (afterRead_quiet (SelectLogsByDate (todayOf w1)) w1 Q1) as [Q2 S2].
    assert (S1 : storeAtNextRequest w1 = store w1) by exact S2.
    eexists. split; [apply publish_short_circuit; try assumption|].
    + rewrite S1, T1. exact P1.
    + split; [exact S2|]. split; [reflexivity|]. split; [rewrite T1; reflexivity|].
      rewrite S2. eapply published_once; eassumption.
Qed.

(** Today is published with quote 1: the call returns it.  On a fresh
    day, the second of two calls returns what the first returned. *)
Lemma generateAndStoreQuote_idempotent_witness :
  (exists q w', generateAndStoreQuote alreadyPublished = (Ok q, w') /\ id q = 1
                /\ store w' = store alreadyPublished)
  /\ (exists q w1 w2, generateAndStoreQuote freshDay = (Ok q, w1)
                      /\ generateAndStoreQuote w1 = (Ok q, w2)
                      /\ publicationsOn (store w2) "2025-06-01" = 1).
Proof.
  split.
  - assert (Hwf : wfStore (store alreadyPublished)).
    { vm_compute. split; [|split].
      - repeat constructor. intros [].
      - intros l [<-|[]]. eexists. reflexivity.
      - intros q [<-|[]]. cbn. lia. }
    destruct (proj1 (generateAndStoreQuote_idempotent alreadyPublished Hwf)
                (quoteRow 1 "abc" (Some "karma")))
      as (w' & H & S & _).
    + reflexivity.
    + exists (logRow 2 1 "2025-06-01"). vm_compute. auto.
    + exists (quoteRow 1 "abc" (Some "karma")), w'. auto.
  - assert (Hwf : wfStore (store freshDay)).
    { vm_compute. split; [|split].
      - constructor.
      - intros l [].
      - intros q []. }
    destruct (generateAndStoreQuote freshDay) as [r w1] eqn:E.
    assert (E' : exists q, r = Ok q) by (vm_compute in E; injection E as <- _; eauto).
    destruct E' as [q ->].
    destruct (proj2 (generateAndStoreQuote_idempotent freshDay Hwf) q w1)
      as (w2 & H & _ & _ & _ & P).
    + constructor.
    + exact E.
    + vm_compute in E. injection E as _ <-. reflexivity.
    + exists q, w1, w2. auto.
Defined.

(** C1 as stated fails on the code.  Today is published with quote 1,
    yet when the fetch of today's publication is answered with an error
    the call generates, stores a new record and links it: it returns
    identifier 3 and today now points to the new record. *)
Lemma generateAndStoreQuote_counterexample :
  published (store readFailsOnce) (todayOf readFailsOnce) (quoteRow 1 "abc" (Some "karma"))
  /\ exists q w',
       generateAndStoreQuote readFailsOnce = (Ok q, w')
       /\ id q = 3
       /\ map isRead (store_log w') = [true; true; true; false; false]
       /\ map quote_id (daily_logs (store w')) = [3].
Proof.
  split.
  - exists (logRow 2 1 "2025-06-01"). vm_compute. auto.
  - eexists. eexists. split; [vm_compute; reflexivity|].
    split; [reflexivity|]. split; reflexivity.
Qed.

(** ** Calendar *)

Section Calendar.

Local Open Scope Z_scope.

Lemma dayFromYear_succ (y : Z) :
  Cal.dayFromYear (y + 1)
  = Cal.dayFromYear y + 365 + (if Cal.inLeapYear y then 1 else 0).
Proof.
  unfold Cal.dayFromYear, Cal.inLeapYear.
  destruct (y mod 4 =? 0) eqn:E4; destruct (y mod 100 =? 0) eqn:E100;
    destruct (y mod 400 =? 0) eqn:E400; cbn [andb orb negb];
    rewrite ?Z.eqb_eq, ?Z.eqb_neq in *;
    Z.div_mod_to_equations; lia.
Qed.

Lemma dayFromYear_mono (y1 y2 : Z) :
  y1 <= y2 -> Cal.dayFromYear y1 <= Cal.dayFromYear y2.
Proof.
  intros H. unfold Cal.dayFromYear. Z.div_mod_to_equations. lia.
Qed.

Lemma month_cases (m : Z) :
  1 <= m <= 12 ->
  m = 1 \/ m = 2 \/ m = 3 \/ m = 4 \/ m = 5 \/ m = 6
  \/ m = 7 \/ m = 8 \/ m = 9 \/ m = 10 \/ m = 11 \/ m = 12.
Proof. lia. Qed.

(** The day of the year of a valid date. *)
Lemma dayInYear_bounds (d : Cal.CivilDate) :
  Cal.validDate d ->
  0 <= Cal.dayNumber d - Cal.dayFromYear (Cal.year d)
    <= 364 + (if Cal.inLeapYear (Cal.year d) then 1 else 0).
Proof.
  intros (_ & Hm & Hd). unfold Cal.dayNumber.
  destruct (month_cases _ Hm) as [E|[E|[E|[E|[E|[E|[E|[E|[E|[E|[E|E]]]]]]]]]]];
    rewrite E in *; unfold Cal.daysInMonth in Hd; cbn in Hd |- *;
    destruct (Cal.inLeapYear (Cal.year d)); cbn in *; lia.
Qed.

Lemma dayNumber_before (a b : Cal.CivilDate) :
  Cal.validDate a -> Cal.validDate b -> Cal.before a b ->
  Cal.dayNumber a < Cal.dayNumber b.
Proof.
  intros Ha Hb [Hy|[[Hy Hm]|(Hy & Hm & Hd)]].
  - pose proof (dayInYear_bounds a Ha) as Ba.
    pose proof (dayInYear_bounds b Hb) as Bb.
    pose proof (dayFromYear_succ (Cal.year a)) as S.
    pose proof (dayFromYear_mono (Cal.year a + 1) (Cal.year b) ltac:(lia)) as M.
    lia.
  - destruct Ha as (_ & Hma & Hda). destruct Hb as (_ & Hmb & Hdb).
    unfold Cal.dayNumber. rewrite <- Hy in *.
    destruct (month_cases _ Hma) as [E|[E|[E|[E|[E|[E|[E|[E|[E|[E|[E|E]]]]]]]]]]];
      rewrite E in *;
      destruct (month_cases _ Hmb) as [F|[F|[F|[F|[F|[F|[F|[F|[F|[F|[F|F]]]]]]]]]]];
      rewrite F in *; try lia;
      unfold Cal.daysInMonth in Hda, Hdb; cbn in Hda, Hdb |- *;
      destruct (Cal.inLeapYear (Cal.year a)); cbn in *; lia.
  - unfold Cal.dayNumber. rewrite Hy, Hm. lia.
Qed.

End Calendar.

Section IsoDates.

Local Open Scope Z_scope.

Lemma digit_cases (x : Z) :
  0 <= x <= 9 ->
  x = 0 \/ x = 1 \/ x = 2 \/ x = 3 \/ x = 4 \/ x = 5 \/ x = 6 \/ x = 7 \/ x = 8 \/ x = 9.
Proof. lia. Qed.

Lemma compare_digit (x y : Z) :
  0 <= x <= 9 -> 0 <= y <= 9 ->
  Ascii.compare (Cal.digit x) (Cal.digit y) = (x ?= y).
Proof.
  intros Hx Hy.
  destruct (digit_cases x Hx) as [E|[E|[E|[E|[E|[E|[E|[E|[E|E]]]]]]]]]; subst x;
    destruct (digit_cases y Hy) as [F|[F|[F|[F|[F|[F|[F|[F|[F|F]]]]]]]]]; subst y;
    reflexivity.
Qed.

Lemma digitVal_digit (x : Z) : 0 <= x <= 9 -> Cal.digitVal (Cal.digit x) = Some x.
Proof.
  intros Hx.
  destruct (digit_cases x Hx) as [E|[E|[E|[E|[E|[E|[E|[E|[E|E]]]]]]]]]; subst x;
    reflexivity.
Qed.

Lemma compare_digit_cons (x y : Z) (s t : string) :
  0 <= x <= 9 -> 0 <= y <= 9 ->
  String.compare (String (Cal.digit x) s) (String (Cal.digit y) t)
  = match x ?= y with
    | Eq => String.compare s t
    | c => c
    end.
Proof.
  intros Hx Hy. cbn [String.compare]. rewrite compare_digit by assumption.
  destruct (x ?= y); reflexivity.
Qed.

Lemma compare_dash_cons (s t : string) :
  String.compare (String "-" s) (String "-" t) = String.compare s t.
Proof. reflexivity. Qed.

(** The digits of a number below 10000 and of a number below 100. *)
Lemma digits4 (n : Z) :
  0 <= n <= 9999 ->
  0 <= n / 1000 <= 9 /\ 0 <= (n / 100) mod 10 <= 9
  /\ 0 <= (n / 10) mod 10 <= 9 /\ 0 <= n mod 10 <= 9
  /\ n = (((n / 1000) * 10 + (n / 100) mod 10) * 10 + (n / 10) mod 10) * 10 + n mod 10.
Proof. intros H. Z.div_mod_to_equations. lia. Qed.

Lemma digits2 (n : Z) :
  0 <= n <= 99 ->
  0 <= n / 10 <= 9 /\ 0 <= n mod 10 <= 9 /\ n = (n / 10) * 10 + n mod 10.
Proof. intros H. Z.div_mod_to_equations. lia. Qed.

Lemma validDate_ranges (d : Cal.CivilDate) :
  Cal.validDate d ->
  0 <= Cal.year d <= 9999 /\ 1 <= Cal.month d <= 12 /\ 1 <= Cal.day d <= 31.
Proof.
  intros (Hy & Hm & Hd). split; [exact Hy|]. split; [exact Hm|].
  unfold Cal.daysInMonth in Hd.
  destruct (Cal.month d =? 2); [destruct (Cal.inLeapYear _); lia|].
  destruct ((Cal.month d =? 4) || (Cal.month d =? 6) || (Cal.month d =? 9)
            || (Cal.month d =? 11))%bool; lia.
Qed.

Lemma isoDate_compare (a b : Cal.CivilDate) :
  Cal.validDate a -> Cal.validDate b ->
  String.compare (Cal.isoDate a) (Cal.isoDate b)
  = match Cal.year a ?= Cal.year b with
    | Eq => match Cal.month a ?= Cal.month b with
            | Eq => Cal.day a ?= Cal.day b
            | c => c
            end
    | c => c
    end.
Proof.
  intros Ha Hb.
  destruct (validDate_ranges a Ha) as (Hya & Hma & Hda).
  destruct (validDate_ranges b Hb) as (Hyb & Hmb & Hdb).
  destruct (digits4 _ Hya) as (A1 & A2 & A3 & A4 & EA).
  destruct (digits4 _ Hyb) as (B1 & B2 & B3 & B4 & EB).
  destruct (digits2 (Cal.month a) ltac:(lia)) as (A5 & A6 & EMA).
  destruct (digits2 (Cal.month b) ltac:(lia)) as (B5 & B6 & EMB).
  destruct (digits2 (Cal.day a) ltac:(lia)) as (A7 & A8 & EDA).
  destruct (digits2 (Cal.day b) ltac:(lia)) as (B7 & B8 & EDB).
  unfold Cal.isoDate, Cal.pad4, Cal.pad2.
  change (String.compare
            (String (Cal.digit (Cal.year a / 1000))
               (String (Cal.digit ((Cal.year a / 100) mod 10))
                  (String (Cal.digit ((Cal.year a / 10) mod 10))
                     (String (Cal.digit (Cal.year a mod 10))
                        (String "-"
                           (String (Cal.digit (Cal.month a / 10))
                              (String (Cal.digit (Cal.month a mod 10))
                                 (String "-"
                                    (String (Cal.digit (Cal.day a / 10))
                                       (String (Cal.digit (Cal.day a mod 10))
                                          EmptyString))))))))))
            (String (Cal.digit (Cal.year b / 1000))
               (String (Cal.digit ((Cal.year b / 100) mod 10))
                  (String (Cal.digit ((Cal.year b / 10) mod 10))
                     (String (Cal.digit (Cal.year b mod 10))
                        (String "-"
                           (String (Cal.digit (Cal.month b / 10))
                              (String (Cal.digit (Cal.month b mod 10))
                                 (String "-"
                                    (String (Cal.digit (Cal.day b / 10))
                                       (String (Cal.digit (Cal.day b mod 10))
                                          EmptyString))))))))))
          = match Cal.year a ?= Cal.year b with
            | Eq => match Cal.month a ?= Cal.month b with
                    | Eq => Cal.day a ?= Cal.day b
                    | c => c
                    end
            | c => c
            end).
  rewrite !compare_digit_cons, compare_dash_cons, !compare_digit_cons,
    compare_dash_cons, !compare_digit_cons by assumption.
  cbn [String.compare].
  repeat match goal with
         | |- context [?x ?= ?y] => destruct (Z.compare_spec x y)
         end; try reflexivity; exfalso; lia.
Qed.

Lemma gt_isoDate_after (today d : Cal.CivilDate) :
  Cal.validDate today -> Cal.validDate d -> Cal.before today d ->
  Js.gt (Cal.isoDate d) (Cal.isoDate today) = true.
Proof.
  intros Ht Hd Hb. unfold Js.gt. rewrite isoDate_compare by assumption.
  unfold Cal.before in Hb.
  repeat match goal with
         | |- context [?x ?= ?y] => destruct (Z.compare_spec x y)
         end; try reflexivity; exfalso; lia.
Qed.

Lemma gt_isoDate_not_after (today d : Cal.CivilDate) :
  Cal.validDate today -> Cal.validDate d -> ~ Cal.before today d ->
  Js.gt (Cal.isoDate d) (Cal.isoDate today) = false.
Proof.
  intros Ht Hd Hb. unfold Js.gt. rewrite isoDate_compare by assumption.
  unfold Cal.before in Hb.
  repeat match goal with
         | |- context [?x ?= ?y] => destruct (Z.compare_spec x y)
         end; try reflexivity; exfalso; apply Hb; lia.
Qed.

Lemma parseDate_isoDate (d : Cal.CivilDate) :
  Cal.validDate d ->
  Cal.parseDate (Cal.isoDate d) = Some (Cal.dayNumber d * Cal.msPerDay).
Proof.
  intros Hv. destruct (validDate_ranges d Hv) as (Hy & Hm & Hd).
  destruct (digits4 _ Hy) as (A1 & A2 & A3 & A4 & EA).
  destruct (digits2 (Cal.month d) ltac:(lia)) as (A5 & A6 & EM).
  destruct (digits2 (Cal.day d) ltac:(lia)) as (A7 & A8 & ED).
  unfold Cal.isoDate, Cal.pad4, Cal.pad2.
  change (match Cal.digitVal (Cal.digit (Cal.year d / 1000)),
                Cal.digitVal (Cal.digit ((Cal.year d / 100) mod 10)),
                Cal.digitVal (Cal.digit ((Cal.year d / 10) mod 10)),
                Cal.digitVal (Cal.digit (Cal.year d mod 10)),
                Cal.digitVal (Cal.digit (Cal.month d / 10)),
                Cal.digitVal (Cal.digit (Cal.month d mod 10)),
                Cal.digitVal (Cal.digit (Cal.day d / 10)),
                Cal.digitVal (Cal.digit (Cal.day d mod 10)) with
          | Some a, Some b, Some c, Some d0, Some e, Some f, Some g, Some h =>
              let y := ((a * 10 + b) * 10 + c) * 10 + d0 in
              let m := e * 10 + f in
              let dd := g * 10 + h in
              if (Ascii.eqb "-" "-" && Ascii.eqb "-" "-"
                  && (1 <=? m) && (m <=? 12) && (1 <=? dd) && (dd <=? 31))%bool
              then Some (Cal.dayNumber {| Cal.year := y; Cal.month := m; Cal.day := dd |}
                         * Cal.msPerDay)
              else None
          | _, _, _, _, _, _, _, _ => None
          end = Some (Cal.dayNumber d * Cal.msPerDay)).
  rewrite !digitVal_digit by assumption. cbv zeta.
  rewrite <- EA, <- EM, <- ED.
  replace (Ascii.eqb "-" "-") with true by reflexivity. cbn [andb].
  destruct (Z.leb_spec 1 (Cal.month d)); [|lia].
  destruct (Z.leb_spec (Cal.month d) 12); [|lia].
  destruct (Z.leb_spec 1 (Cal.day d)); [|lia].
  destruct (Z.leb_spec (Cal.day d) 31); [|lia].
  cbn [andb]. destruct d. reflexivity.
Qed.

End IsoDates.

(** ** Date gating *)

Lemma getQuoteById_run (qid : nat) (w : World) :
  getQuoteById qid w
  = (match fault (fst (nextStep w)) with
     | NoFault =>
         match db_logByQuoteId qid (storeAtNextRequest w) with
         | inl _ => Ok None
         | inr (d, quote) =>
             match Cal.parseDate d with
             | Some quoteDate =>
                 if (Cal.localMidnight (tz_offset (clock w)) (nowMs (clock w))
                     <=? quoteDate)%Z
                 then Ok None else Ok quote
             | None => Ok quote
             end
         end
     | ReturnsError _ => Ok None
     | Throws e => Throw e
     end,
     afterRead (SelectLogByQuoteId qid) w).
Proof.
  unfold getQuoteById, bind. rewrite storeCall_run.
  assert (E : afterWrite (SelectLogByQuoteId qid)
                (fun st => snd (db_logByQuoteId qid st, st)) w
              = afterRead (SelectLogByQuoteId qid) w).
  { unfold afterWrite, afterRead. cbn [snd].
    destruct (fault (fst (nextStep w))); reflexivity. }
  rewrite E. cbn [fst].
  destruct (fault (fst (nextStep w))); try reflexivity.
  destruct (db_logByQuoteId qid (storeAtNextRequest w)) as [e|[d quote]]; [reflexivity|].
  cbn [afterRead clock].
  destruct (Cal.parseDate d) as [t|]; [|reflexivity].
  destruct (Cal.localMidnight _ _ <=? t)%Z; reflexivity.
Qed.

Section Gating.

Local Open Scope Z_scope.

Lemma localMidnight_le_now (offset now : Z) : Cal.localMidnight offset now <= now.
Proof.
  unfold Cal.localMidnight, Cal.msPerDay. Z.div_mod_to_equations. lia.
Qed.

Lemma localMidnight_utc (d ms : Z) :
  0 <= ms < Cal.msPerDay ->
  Cal.localMidnight 0 (d * Cal.msPerDay + ms) = d * Cal.msPerDay.
Proof.
  unfold Cal.localMidnight, Cal.msPerDay. intros H. Z.div_mod_to_equations. lia.
Qed.

(** A future date is at or after the server's local midnight, whatever
    the server's time zone is. *)
Lemma future_after_midnight (c : Clock) (D : Cal.CivilDate) :
  validClock c -> Cal.validDate D -> Cal.before (utc_date c) D ->
  (Cal.localMidnight (tz_offset c) (nowMs c) <=? Cal.dayNumber D * Cal.msPerDay) = true.
Proof.
  intros [Hv Hms] HD Hb. apply Z.leb_le.
  pose proof (localMidnight_le_now (tz_offset c) (nowMs c)) as L.
  pose proof (dayNumber_before _ _ Hv HD Hb) as M.
  unfold nowMs in *. unfold Cal.msPerDay in *. nia.
Qed.

End Gating.

Lemma In_firstn {A : Type} (n : nat) (l : list A) (x : A) :
  In x (firstn n l) -> In x l.
Proof.
  revert l. induction n as [|n IH]; intros [|a l]; cbn; try tauto.
  intros [->|H]; auto.
Qed.

Lemma db_upTo_dates (today : string) (limit : nat) (st : Store) (l : DailyLog) :
  In l (db_upTo today limit st) -> Js.gt (date l) today = false.
Proof.
  unfold db_upTo. intros H. apply In_firstn in H.
  rewrite sortBy_In in H. apply filter_In in H as [_ H].
  apply negb_true_iff in H. exact H.
Qed.

Lemma getQuoteForDate_run (d : string) (w : World) :
  getQuoteForDate d w = getQuoteByDate d w.
Proof.
  unfold getQuoteForDate, bind, todayString.
  destruct (Js.gt d (Cal.isoDate (utc_date (clock w)))) eqn:G; [|reflexivity].
  rewrite getQuoteByDate_run. unfold todayOf. rewrite G. reflexivity.
Qed.

(** C3, as the code has it.  For a date after today no read path
    returns a publication: the by-date paths answer null without asking
    the store, the by-identifier path answers null for a record published
    on such a date, and the listings hold no such date.  For a date up to
    today that is published, the by-date paths return its record when the
    store answers the query.  The by-identifier path returns a published
    record exactly when midnight UTC of its date comes before the server's
    local midnight: on a server in UTC it returns the records of past days
    and never the record of today. *)
Theorem date_gating (w : World) (D : Cal.CivilDate) :
  validClock (clock w) -> Cal.validDate D ->
  (Cal.before (utc_date (clock w)) D ->
     getQuoteByDate (Cal.isoDate D) w = (Ok None, w)
     /\ getQuoteForDate (Cal.isoDate D) w = (Ok None, w)
     /\ (forall qid quote,
           db_logByQuoteId qid (storeAtNextRequest w) = inr (Cal.isoDate D, quote) ->
           forall q, fst (getQuoteById qid w) <> Ok (Some q))
     /\ (forall limit dates w',
           getAvailableDates limit w = (Ok dates, w') -> ~ In (Cal.isoDate D) dates)
     /\ (forall limit rows w',
           getRecentQuotes limit w = (Ok rows, w') -> ~ In (Cal.isoDate D) (map snd rows)))
  /\ (~ Cal.before (utc_date (clock w)) D ->
      wfStore (store w) -> answered w ->
      forall q,
        published (storeAtNextRequest w) (Cal.isoDate D) q ->
        getQuoteByDate (Cal.isoDate D) w
        = (Ok (Some q), afterRead (SelectLogsByDate (Cal.isoDate D)) w)
        /\ getQuoteForDate (Cal.isoDate D) w
           = (Ok (Some q), afterRead (SelectLogsByDate (Cal.isoDate D)) w))
  /\ (forall qid quote,
        answered w ->
        db_logByQuoteId qid (storeAtNextRequest w) = inr (Cal.isoDate D, quote) ->
        getQuoteById qid w
        = (Ok (if (Cal.localMidnight (tz_offset (clock w)) (nowMs (clock w))
                   <=? Cal.dayNumber D * Cal.msPerDay)%Z
               then None else quote),
           afterRead (SelectLogByQuoteId qid) w)
        /\ (tz_offset (clock w) = 0%Z ->
            (Cal.before D (utc_date (clock w)) ->
             getQuoteById qid w = (Ok quote, afterRead (SelectLogByQuoteId qid) w))
            /\ (~ Cal.before D (utc_date (clock w)) ->
                getQuoteById qid w = (Ok None, afterRead (SelectLogByQuoteId qid) w)))).
Proof.
  intros Hc HD. pose proof Hc as [Hv Hms]. split; [|split].
  - intros Hb.
    assert (G : Js.gt (Cal.isoDate D) (todayOf w) = true)
      by (apply gt_isoDate_after; assumption).
    split; [rewrite getQuoteByDate_run, G; reflexivity|].
    split; [rewrite getQuoteForDate_run, getQuoteByDate_run, G; reflexivity|].
    split; [|split].
    + intros qid quote H q. rewrite getQuoteById_run. cbn [fst].
      destruct (fault (fst (nextStep w))); try discriminate.
      rewrite H, parseDate_isoDate by assumption.
      rewrite future_after_midnight by assumption. discriminate.
    + intros limit dates w'. unfold getAvailableDates, bind, todayString.
      rewrite storeCall_read. unfold readAnswer.
      destruct (fault (fst (nextStep w))); try discriminate.
      intros [= <- _] Hin. apply in_map_iff in Hin as (l & Hl & Hin).
      apply db_upTo_dates in Hin. rewrite Hl in Hin.
      change (Cal.isoDate (utc_date (clock w))) with (todayOf w) in Hin. congruence.
    + intros limit rows w'. unfold getRecentQuotes, bind, todayString.
      rewrite storeCall_read. unfold readAnswer.
      destruct (fault (fst (nextStep w))); try discriminate.
      intros [= <- _] Hin. rewrite map_map in Hin. cbn [snd] in Hin.
      apply in_map_iff in Hin as (l & Hl & Hin).
      apply db_upTo_dates in Hin. rewrite Hl in Hin.
      change (Cal.isoDate (utc_date (clock w))) with (todayOf w) in Hin. congruence.
  - intros Hb Hwf Ha q Hp.
    assert (G : Js.gt (Cal.isoDate D) (todayOf w) = false)
      by (apply gt_isoDate_not_after; assumption).
    rewrite getQuoteForDate_run, getQuoteByDate_run, G.
    unfold answered in Ha. rewrite Ha.
    rewrite (db_logsByDate_published _ _ q); [auto| |exact Hp].
    apply wf_applyWrites. exact Hwf.
  - intros qid quote Ha H.
    assert (R : getQuoteById qid w
                = (Ok (if (Cal.localMidnight (tz_offset (clock w)) (nowMs (clock w))
                           <=? Cal.dayNumber D * Cal.msPerDay)%Z
                       then None else quote),
                   afterRead (SelectLogByQuoteId qid) w)).
    { rewrite getQuoteById_run. unfold answered in Ha. rewrite Ha, H.
      rewrite parseDate_isoDate by assumption.
      destruct (Cal.localMidnight _ _ <=? _)%Z; reflexivity. }
    split; [exact R|]. intros Htz. rewrite R, Htz. unfold nowMs.
    rewrite localMidnight_utc by exact Hms.
    split.
    + intros Hb. pose proof (dayNumber_before _ _ HD Hv Hb) as M.
      destruct (Z.leb_spec (Cal.dayNumber (utc_date (clock w)) * Cal.msPerDay)
                  (Cal.dayNumber D * Cal.msPerDay)) as [L|L]; [|reflexivity].
      unfold Cal.msPerDay in L. lia.
    + intros Hb.
      destruct (Z.leb_spec (Cal.dayNumber (utc_date (clock w)) * Cal.msPerDay)
                  (Cal.dayNumber D * Cal.msPerDay)) as [L|L]; [reflexivity|].
      exfalso. unfold Cal.msPerDay in L.
      assert (M : (Cal.dayNumber D < Cal.dayNumber (utc_date (clock w)))%Z) by lia.
      apply Hb.
      destruct HD as (HyD & HmD & HdD). destruct Hv as (HyT & HmT & HdT).
      unfold Cal.before.
      destruct (Z.lt_trichotomy (Cal.year D) (Cal.year (utc_date (clock w))))
        as [Y|[Y|Y]]; [auto| |].
      * destruct (Z.lt_trichotomy (Cal.month D) (Cal.month (utc_date (clock w))))
          as [Mo|[Mo|Mo]]; [auto| |].
        -- destruct (Z.lt_trichotomy (Cal.day D) (Cal.day (utc_date (clock w))))
             as [Da|[Da|Da]]; [auto 6| |].
           ++ exfalso. unfold Cal.dayNumber in M. rewrite Y, Mo, Da in M. lia.
           ++ exfalso. unfold Cal.dayNumber in M. rewrite Y, Mo in M. lia.
        -- exfalso.
           assert (B : Cal.before (utc_date (clock w)) D) by (unfold Cal.before; auto).
           pose proof (dayNumber_before _ _ (conj HyT (conj HmT HdT))
                         (conj HyD (conj HmD HdD)) B). lia.
      * exfalso.
        assert (B : Cal.before (utc_date (clock w)) D) by (unfold Cal.before; auto).
        pose proof (dayNumber_before _ _ (conj HyT (conj HmT HdT))
                      (conj HyD (conj HmD HdD)) B). lia.
Qed.

Lemma june1_valid : validClock june1 /\ Cal.validDate (day 2025 6 1).
Proof.
  unfold validClock, Cal.validDate, Cal.msPerDay. cbn. lia.
Qed.

(** Today, 2025-06-01, is published with quote 1: the by-date path
    returns it. *)
Lemma date_gating_witness :
  exists w',
    getQuoteByDate "2025-06-01" alreadyPublished
    = (Ok (Some (quoteRow 1 "abc" (Some "karma"))), w').
Proof.
  destruct june1_valid as [Hc Hd].
  destruct (date_gating alreadyPublished (day 2025 6 1) Hc Hd) as (_ & H & _).
  eexists. apply H.
  - unfold Cal.before. cbn. lia.
  - vm_compute. split; [|split].
    + repeat constructor. intros [].
    + intros l [<-|[]]. eexists. reflexivity.
    + intros q [<-|[]]. cbn. lia.
  - reflexivity.
  - exists (logRow 2 1 "2025-06-01"). vm_compute. auto.
Defined.

(** C3 as stated fails on the code.  Today's date is published (quote 1
    on 2025-06-01, a server in UTC), the by-date path returns the record,
    and the by-identifier path answers null for it. *)
Lemma date_gating_counterexample :
  published (store alreadyPublished) (todayOf alreadyPublished)
    (quoteRow 1 "abc" (Some "karma"))
  /\ todayOf alreadyPublished = "2025-06-01"
  /\ fst (getQuoteByDate "2025-06-01" alreadyPublished)
     = Ok (Some (quoteRow 1 "abc" (Some "karma")))
  /\ fst (getQuoteById 1 alreadyPublished) = Ok None.
Proof.
  split; [exists (logRow 2 1 "2025-06-01"); vm_compute; auto|].
  repeat split; vm_compute; reflexivity.
Qed.

(** * Further properties of the code *)

(** ** Rules for computations *)

Lemma triple_ret {A : Type} (a : A) (Q : A -> World -> Prop)
    (E : JsError -> World -> Prop) :
  triple (Q a) (ret a) Q E.
Proof. intros w H. exact H. Qed.

Lemma triple_throw {A : Type} (e : JsError) (Q : A -> World -> Prop)
    (E : JsError -> World -> Prop) :
  triple (E e) (throw e) Q E.
Proof. intros w H. exact H. Qed.

Lemma triple_bind {A B : Type} (P : World -> Prop) (R : A -> World -> Prop)
    (Q : B -> World -> Prop) (E : JsError -> World -> Prop)
    (m : M A) (k : A -> M B) :
  triple P m R E -> (forall a, triple (R a) (k a) Q E) ->
  triple P (bind m k) Q E.
Proof.
  intros Hm Hk w H. unfold bind. specialize (Hm w H).
  destruct (m w) as [[a|e] w1]; [apply (Hk a w1 Hm)|exact Hm].
Qed.

Lemma triple_try_catch {A : Type} (P : World -> Prop) (Q : A -> World -> Prop)
    (E' E : JsError -> World -> Prop) (m : M A) (h : JsError -> M A) :
  triple P m Q E' -> (forall e, triple (E' e) (h e) Q E) ->
  triple P (try_catch m h) Q E.
Proof.
  intros Hm Hh w H. unfold try_catch. specialize (Hm w H).
  destruct (m w) as [[a|e] w1]; [exact Hm|apply (Hh e w1 Hm)].
Qed.

Lemma triple_conseq {A : Type} (P P' : World -> Prop) (Q Q' : A -> World -> Prop)
    (E E' : JsError -> World -> Prop) (m : M A) :
  triple P' m Q' E' ->
  (forall w, P w -> P' w) -> (forall a w, Q' a w -> Q a w) ->
  (forall e w, E' e w -> E e w) ->
  triple P m Q E.
Proof.
  intros Hm HP HQ HE w H. specialize (Hm w (HP w H)).
  destruct (m w) as [[a|e] w1]; auto.
Qed.

Lemma keeps_ret {A : Type} (I : World -> Prop) (a : A) : keeps I (ret a).
Proof. intros w H. exact H. Qed.

Lemma keeps_throw {A : Type} (I : World -> Prop) (e : JsError) :
  keeps I (@throw A e).
Proof. intros w H. exact H. Qed.

Lemma keeps_lift {A : Type} (I : World -> Prop) (r : Res A) : keeps I (lift r).
Proof. intros w H. unfold lift. destruct r; exact H. Qed.

Lemma keeps_bind {A B : Type} (I : World -> Prop) (m : M A) (k : A -> M B) :
  keeps I m -> (forall a, keeps I (k a)) -> keeps I (bind m k).
Proof. intros Hm Hk. eapply triple_bind; [exact Hm|exact Hk]. Qed.

Lemma keeps_try_catch {A : Type} (I : World -> Prop) (m : M A) (h : JsError -> M A) :
  keeps I m -> (forall e, keeps I (h e)) -> keeps I (try_catch m h).
Proof. intros Hm Hh. eapply triple_try_catch; [exact Hm|exact Hh]. Qed.

Lemma keeps_snd {A : Type} (I : World -> Prop) (m : M A) (w : World) :
  keeps I m -> I w -> I (snd (m w)).
Proof.
  intros Hm H. specialize (Hm w H). destruct (m w) as [[a|e] w1]; exact Hm.
Qed.

(** ** Invariants of the computations that only read the store *)

Section ReadOnly.

Variable I : World -> Prop.
Hypothesis I_read : forall req w, I w -> I (afterRead req w).
Hypothesis I_draw : forall w, I w -> I (afterDraw w).
Hypothesis I_completion : forall req w, I w -> I (snd (createCompletion req w)).

Lemma keeps_read {A : Type} (req : StoreRequest) (data : Store -> A) :
  keeps I (storeCall req (fun st => (inr (data st), st))).
Proof.
  intros w H. rewrite storeCall_read. specialize (I_read req w H).
  unfold readAnswer. destruct (fault (fst (nextStep w))); exact I_read.
Qed.

Lemma keeps_createCompletion (req : AiRequest) : keeps I (createCompletion req).
Proof.
  intros w H. specialize (I_completion req w H).
  destruct (createCompletion req w) as [[a|e] w1]; exact I_completion.
Qed.

Lemma keeps_randomIndex (n : nat) : keeps I (randomIndex n).
Proof. intros w H. rewrite randomIndex_run. apply I_draw. exact H. Qed.

Lemma keeps_getOpenAIClient : keeps I getOpenAIClient.
Proof. intros w H. unfold getOpenAIClient. destruct (api_key w); exact H. Qed.

Lemma keeps_todayString : keeps I todayString.
Proof. intros w H. exact H. Qed.

Ltac keeps_rules :=
  repeat first
    [ apply keeps_ret | apply keeps_throw | apply keeps_lift
    | apply keeps_read | apply keeps_createCompletion | apply keeps_randomIndex
    | apply keeps_getOpenAIClient | apply keeps_todayString
    | assumption
    | apply keeps_bind | apply keeps_try_catch
    | match goal with
      | |- forall _, _ => intro
      | |- keeps _ (if ?b then _ else _) => destruct b
      | |- keeps _ (match ?x with _ => _ end) => destruct x
      end ].

Lemma keeps_getRecentlyUsedQuotes (limit : nat) : keeps I (getRecentlyUsedQuotes limit).
Proof. unfold getRecentlyUsedQuotes. keeps_rules. Qed.

Lemma keeps_getQuoteUsageStats : keeps I getQuoteUsageStats.
Proof. unfold getQuoteUsageStats. keeps_rules. Qed.

Lemma keeps_getRandomCategory : keeps I getRandomCategory.
Proof. unfold getRandomCategory. keeps_rules. Qed.

Lemma keeps_getLeastUsedCategory : keeps I getLeastUsedCategory.
Proof.
  pose proof keeps_getQuoteUsageStats. pose proof keeps_getRandomCategory.
  unfold getLeastUsedCategory. keeps_rules.
Qed.

Lemma keeps_getFallbackQuote : keeps I getFallbackQuote.
Proof.
  pose proof keeps_getLeastUsedCategory. pose proof (keeps_getRecentlyUsedQuotes 20).
  unfold getFallbackQuote. keeps_rules.
Qed.

Lemma keeps_getQuoteGenerationPrompt : keeps I getQuoteGenerationPrompt.
Proof.
  pose proof keeps_getLeastUsedCategory. pose proof (keeps_getRecentlyUsedQuotes 15).
  unfold getQuoteGenerationPrompt. keeps_rules.
Qed.

Lemma keeps_checkQuoteUniqueness (shlok : string) : keeps I (checkQuoteUniqueness shlok).
Proof.
  pose proof (keeps_getRecentlyUsedQuotes 30).
  unfold checkQuoteUniqueness. keeps_rules.
Qed.

Lemma keeps_generateQuoteWithAIRetry : keeps I generateQuoteWithAIRetry.
Proof.
  pose proof keeps_getLeastUsedCategory. pose proof keeps_getFallbackQuote.
  pose proof keeps_checkQuoteUniqueness.
  unfold generateQuoteWithAIRetry. keeps_rules.
Qed.

Lemma keeps_generateQuoteWithAI : keeps I generateQuoteWithAI.
Proof.
  pose proof keeps_getQuoteGenerationPrompt. pose proof keeps_getFallbackQuote.
  pose proof keeps_checkQuoteUniqueness. pose proof keeps_generateQuoteWithAIRetry.
  unfold generateQuoteWithAI. keeps_rules.
Qed.

Lemma keeps_firstCandidate : keeps I firstCandidate.
Proof.
  pose proof keeps_getQuoteGenerationPrompt. pose proof keeps_checkQuoteUniqueness.
  unfold firstCandidate. keeps_rules.
Qed.

Lemma keeps_retryCandidate : keeps I retryCandidate.
Proof.
  pose proof keeps_getLeastUsedCategory. pose proof keeps_checkQuoteUniqueness.
  unfold retryCandidate. keeps_rules.
Qed.

Lemma keeps_getQuoteByDate (d : string) : keeps I (getQuoteByDate d).
Proof. unfold getQuoteByDate. keeps_rules. Qed.

Lemma keeps_getTodayQuote : keeps I getTodayQuote.
Proof. pose proof keeps_getQuoteByDate. unfold getTodayQuote. keeps_rules. Qed.

End ReadOnly.

(** ** The timestamp of a publication *)

Section SixAM.

Local Open Scope Z_scope.

Lemma digit_not_dash (x : Z) : 0 <= x <= 9 -> Ascii.eqb (Cal.digit x) "-" = false.
Proof.
  intros Hx.
  destruct (digit_cases x Hx) as [E|[E|[E|[E|[E|[E|[E|[E|[E|E]]]]]]]]]; subst x;
    reflexivity.
Qed.

Lemma splitOn_digit (x : Z) (r : string) :
  0 <= x <= 9 ->
  Cal.splitOn "-" (String (Cal.digit x) r)
  = match Cal.splitOn "-" r with
    | p :: ps => String (Cal.digit x) p :: ps
    | [] => [String (Cal.digit x) EmptyString]
    end.
Proof. intros Hx. cbn [Cal.splitOn]. rewrite digit_not_dash by exact Hx. reflexivity. Qed.

Lemma splitOn_dash (r : string) :
  Cal.splitOn "-" (String "-" r) = EmptyString :: Cal.splitOn "-" r.
Proof. reflexivity. Qed.

(** The three numbers [get6AMISTTimestamp] reads off today's date. *)
Lemma dateParts (d : Cal.CivilDate) :
  Cal.validDate d ->
  map Cal.toNumber (Cal.splitOn "-" (Cal.isoDate d))
  = [Some (Cal.year d); Some (Cal.month d); Some (Cal.day d)].
Proof.
  intros Hv. destruct (validDate_ranges d Hv) as (Hy & Hm & Hd).
  destruct (digits4 _ Hy) as (A1 & A2 & A3 & A4 & EA).
  destruct (digits2 (Cal.month d) ltac:(lia)) as (A5 & A6 & EM).
  destruct (digits2 (Cal.day d) ltac:(lia)) as (A7 & A8 & ED).
  unfold Cal.isoDate, Cal.pad4, Cal.pad2.
  change (map Cal.toNumber
            (Cal.splitOn "-"
               (String (Cal.digit (Cal.year d / 1000))
                  (String (Cal.digit ((Cal.year d / 100) mod 10))
                     (String (Cal.digit ((Cal.year d / 10) mod 10))
                        (String (Cal.digit (Cal.year d mod 10))
                           (String "-"
                              (String (Cal.digit (Cal.month d / 10))
                                 (String (Cal.digit (Cal.month d mod 10))
                                    (String "-"
                                       (String (Cal.digit (Cal.day d / 10))
                                          (String (Cal.digit (Cal.day d mod 10))
                                             EmptyString)))))))))))
          = [Some (Cal.year d); Some (Cal.month d); Some (Cal.day d)]).
  repeat first [rewrite splitOn_digit by assumption | rewrite splitOn_dash].
  cbn [Cal.splitOn map]. unfold Cal.toNumber. cbn [Cal.readDigits].
  rewrite !digitVal_digit by assumption.
  repeat f_equal; lia.
Qed.

Lemma get6AMISTTimestamp_today (offset : Z) (d : Cal.CivilDate) :
  Cal.validDate d ->
  get6AMISTTimestamp offset (Cal.isoDate d)
  = if Cal.year d =? 0 then Throw invalidDate
    else Ok (localTime offset (Cal.year d) (Cal.month d - 1) (Cal.day d) 6 - 19800000).
Proof.
  intros Hv. destruct (validDate_ranges d Hv) as (Hy & Hm & Hd).
  unfold get6AMISTTimestamp. rewrite (dateParts d Hv).
  destruct (Z.eqb_spec (Cal.year d) 0) as [E|E]; [reflexivity|].
  destruct (Z.eqb_spec (Cal.month d) 0); [lia|].
  destruct (Z.eqb_spec (Cal.day d) 0); [lia|].
  reflexivity.
Qed.

(** X1.  What [get6AMISTTimestamp] returns for today's date, the only
    argument the code passes to it: the start of that day in UTC plus
    thirty minutes, minus the offset of the server's clock from UTC.
    This is 06:00 IST of the date exactly when the server runs in UTC.
    Only year 0000 makes it throw. *)
Theorem get6AMISTTimestamp_isoDate (offset : Z) (d : Cal.CivilDate) :
  Cal.validDate d ->
  (100 <= Cal.year d ->
   get6AMISTTimestamp offset (Cal.isoDate d)
   = Ok (Cal.dayNumber d * Cal.msPerDay + 1800000 - offset))
  /\ (1 <= Cal.year d -> exists ts, get6AMISTTimestamp offset (Cal.isoDate d) = Ok ts)
  /\ (Cal.year d = 0 -> get6AMISTTimestamp offset (Cal.isoDate d) = Throw invalidDate).
Proof.
  intros Hv. destruct (validDate_ranges d Hv) as (Hy & Hm & Hd).
  rewrite (get6AMISTTimestamp_today offset d Hv).
  split; [|split].
  - intros H. destruct (Z.eqb_spec (Cal.year d) 0); [lia|].
    unfold localTime.
    destruct (Z.leb_spec (Cal.year d) 99); [lia|].
    rewrite andb_false_r.
    replace ((Cal.month d - 1) / 12) with 0 by (Z.div_mod_to_equations; lia).
    replace ((Cal.month d - 1) mod 12 + 1) with (Cal.month d)
      by (Z.div_mod_to_equations; lia).
    rewrite Z.add_0_r. destruct d; cbn [Cal.year Cal.month Cal.day]. f_equal. lia.
  - intros H. destruct (Z.eqb_spec (Cal.year d) 0); [lia|]. eauto.
  - intros ->. reflexivity.
Qed.

(** 2025-06-01 on a server in UTC: 00:30 UTC, which is 06:00 IST; on a
    server in IST the same call gives 19:00 UTC of the day before. *)
Lemma get6AMISTTimestamp_isoDate_witness :
  get6AMISTTimestamp 0 "2025-06-01" = Ok (20240 * Cal.msPerDay + 1800000)
  /\ get6AMISTTimestamp 19800000 "2025-06-01" = Ok (20239 * Cal.msPerDay + 68400000).
Proof.
  assert (V : Cal.validDate (day 2025 6 1)) by (vm_compute; intuition discriminate).
  split.
  - apply (proj1 (get6AMISTTimestamp_isoDate 0 (day 2025 6 1) V)). vm_compute. discriminate.
  - apply (proj1 (get6AMISTTimestamp_isoDate 19800000 (day 2025 6 1) V)).
    vm_compute. discriminate.
Defined.

End SixAM.

(** ** A calm environment *)

Lemma calm_next (w : World) :
  calm w -> fault (fst (nextStep w)) = NoFault /\ storeAtNextRequest w = store w.
Proof.
  unfold calm, storeAtNextRequest, nextStep. intros ->. split; reflexivity.
Qed.

Lemma calm_noRaces (w : World) : calm w -> noRaces w.
Proof. unfold calm, noRaces. intros ->. constructor. Qed.

Lemma calm_afterWrite (req : StoreRequest) (change : Store -> Store) (w : World) :
  calm w ->
  calm (afterWrite req change w) /\ store (afterWrite req change w) = change (store w).
Proof.
  intros H. destruct (calm_next w H) as [F S]. split.
  - unfold calm in *. cbn. unfold nextStep. rewrite H. reflexivity.
  - cbn. rewrite F, S. reflexivity.
Qed.

Section Calm.

Variables (st : Store) (c : Clock).

Lemma calmAt_read (req : StoreRequest) (w : World) :
  calmAt st c w -> calmAt st c (afterRead req w).
Proof.
  intros (H & S & C). destruct (calm_next w H) as [F S']. split; [|split].
  - unfold calm in *. cbn. unfold nextStep. rewrite H. reflexivity.
  - cbn. congruence.
  - exact C.
Qed.

Lemma calmAt_draw (w : World) : calmAt st c w -> calmAt st c (afterDraw w).
Proof. intros H. exact H. Qed.

Lemma calmAt_completion (req : AiRequest) (w : World) :
  calmAt st c w -> calmAt st c (snd (createCompletion req w)).
Proof.
  intros H. unfold createCompletion.
  destruct (ai_env w) as [|o r]; [|destruct o]; exact H.
Qed.

Lemma calmAt_generateQuoteWithAI : keeps (calmAt st c) generateQuoteWithAI.
Proof.
  apply keeps_generateQuoteWithAI;
    [apply calmAt_read|apply calmAt_draw|apply calmAt_completion].
Qed.

(** In a calm world the verdict of the uniqueness check is about the
    recent sample of the store as it is. *)
Lemma calmAt_checkQuoteUniqueness (shlok : string) :
  triple (calmAt st c) (checkQuoteUniqueness shlok)
    (fun unique w' =>
       calmAt st c w'
       /\ (unique = true ->
           forall entry, In entry (recentSample st) -> ~ nearDuplicate shlok entry))
    (fun _ => calmAt st c).
Proof.
  intros w H. rewrite checkQuoteUniqueness_run.
  split; [apply calmAt_read; exact H|].
  destruct H as (H & S & _). destruct (calm_next w H) as [F S'].
  rewrite F, S', S. intros U entry Hin Hdup.
  apply negb_true_iff in U.
  assert (X : existsb (similar shlok) (recentSample st) = true)
    by (apply existsb_similar; eauto).
  unfold recentSample in X. congruence.
Qed.

Lemma calmAt_firstCandidate :
  triple (calmAt st c) firstCandidate (passedCheck st c) (fun _ => calmAt st c).
Proof.
  unfold firstCandidate.
  eapply triple_bind; [apply keeps_getOpenAIClient|intros client].
  eapply triple_bind;
    [apply keeps_getQuoteGenerationPrompt;
       [apply calmAt_read|apply calmAt_draw]|intros prompt].
  eapply triple_bind; [apply keeps_createCompletion; apply calmAt_completion|intros completion].
  eapply triple_bind; [apply keeps_lift|intros response].
  eapply triple_bind; [apply keeps_lift|intros parsedQuote].
  eapply triple_bind; [apply calmAt_checkQuoteUniqueness|intros isUnique].
  intros w H. exact H.
Qed.

Lemma calmAt_retryCandidate :
  triple (calmAt st c) retryCandidate (passedCheck st c) (fun _ => calmAt st c).
Proof.
  unfold retryCandidate.
  eapply triple_bind; [apply keeps_getOpenAIClient|intros client].
  eapply triple_bind;
    [apply keeps_getLeastUsedCategory; [apply calmAt_read|apply calmAt_draw]|intros category].
  eapply triple_bind; [apply keeps_createCompletion; apply calmAt_completion|intros completion].
  eapply triple_bind; [apply keeps_lift|intros response].
  eapply triple_bind; [apply keeps_lift|intros parsedQuote].
  eapply triple_bind; [apply calmAt_checkQuoteUniqueness|intros isUnique].
  intros w H. exact H.
Qed.

End Calm.

(** ** What the generator returns *)

Lemma getFallbackQuote_fromTable (w w' : World) (q : AIGeneratedQuote) :
  getFallbackQuote w = (Ok q, w') -> fromFallbackTable q.
Proof.
  destruct (getFallbackQuote_entry w) as (c & entry & _ & Hin & ->).
  intros [= <- _]. exists entry, c. split; [exact Hin|reflexivity].
Qed.

(** X2.  In a calm environment a record returned by [generateQuoteWithAI] is
    an entry of the fallback table, or a candidate of the completion
    endpoint that repeats none of the thirty most recent publications:
    a candidate that failed the uniqueness check is never returned.  The
    generator leaves the store as it found it. *)
Theorem generateQuoteWithAI_unique_or_fallback (w w' : World) (q : AIGeneratedQuote) :
  calm w ->
  generateQuoteWithAI w = (Ok q, w') ->
  (fromFallbackTable q
   \/ forall entry, In entry (recentSample (store w)) -> ~ nearDuplicate (shlok q) entry)
  /\ calm w' /\ store w' = store w.
Proof.
  intros H G.
  assert (H0 : calmAt (store w) (clock w) w) by (split; [exact H|split; reflexivity]).
  assert (K : calmAt (store w) (clock w) w').
  { pose proof (calmAt_generateQuoteWithAI (store w) (clock w) w H0) as K.
    rewrite G in K. exact K. }
  split; [|destruct K as (K1 & K2 & _); auto].
  rewrite generateQuoteWithAI_cases in G.
  pose proof (calmAt_firstCandidate (store w) (clock w) w H0) as F.
  destruct (firstCandidate w) as [[[q1 [|]]|e] w1].
  - injection G as <- <-. right. apply (proj2 F). reflexivity.
  - rewrite generateQuoteWithAIRetry_cases in G.
    pose proof (calmAt_retryCandidate (store w) (clock w) w1 (proj1 F)) as R.
    destruct (retryCandidate w1) as [[[q2 [|]]|e] w2].
    + injection G as <- <-. right. apply (proj2 R). reflexivity.
    + left. eapply getFallbackQuote_fromTable. exact G.
    + left. eapply getFallbackQuote_fromTable. exact G.
  - left. eapply getFallbackQuote_fromTable. exact G.
Qed.

(** With abc published yesterday and abcd proposed twice, the record is
    one of the table; with nothing published, the proposed record is
    returned. *)
Lemma generateQuoteWithAI_unique_or_fallback_witness :
  (exists q w', generateQuoteWithAI abcPublished = (Ok q, w')
                /\ fromFallbackTable q /\ store w' = store abcPublished)
  /\ (exists q w', generateQuoteWithAI blankMeaning = (Ok q, w')
                   /\ shlok q = "x" /\ store w' = store blankMeaning).
Proof.
  split.
  - eexists. eexists. split; [vm_compute; reflexivity|].
    split.
    { eexists {| shlok := _; meaning_hindi := _; meaning_english := _;
                 source := _; category := Some "peace" |}, "peace".
      split; [|reflexivity]. cbn. repeat first [left; reflexivity|right]. }
    eapply (generateQuoteWithAI_unique_or_fallback abcPublished);
      [reflexivity|vm_compute; reflexivity].
  - eexists. eexists. split; [vm_compute; reflexivity|].
    split; [reflexivity|].
    eapply (generateQuoteWithAI_unique_or_fallback blankMeaning);
      [reflexivity|vm_compute; reflexivity].
Defined.

(** ** The coordinator in a calm environment *)

Lemma bind_run {A B : Type} (m : M A) (k : A -> M B) (w w1 : World) (a : A) :
  m w = (Ok a, w1) -> bind m k w = k a w1.
Proof. intros H. unfold bind. rewrite H. reflexivity. Qed.

Lemma bind_throws {A B : Type} (m : M A) (k : A -> M B) (w w1 : World) (e : JsError) :
  m w = (Throw e, w1) -> bind m k w = (Throw e, w1).
Proof. intros H. unfold bind. rewrite H. reflexivity. Qed.

Lemma sixAM_today (w w2 : World) :
  clock w2 = clock w ->
  Cal.validDate (utc_date (clock w)) -> (1 <= Cal.year (utc_date (clock w)))%Z ->
  exists ts, sixAM (todayOf w) w2 = (Ok ts, w2).
Proof.
  intros C Hv Hy. unfold sixAM, todayOf.
  rewrite (get6AMISTTimestamp_today _ _ Hv).
  destruct (Z.eqb_spec (Cal.year (utc_date (clock w))) 0); [lia|]. eauto.
Qed.

Lemma rejection_not_duplicate (a : AIGeneratedQuote) (e : JsError) :
  rejection a = Some e -> isDuplicateShlok e = false.
Proof.
  unfold rejection, textError.
  generalize (Js.decode (shlok a) ++ Js.decode (meaning_hindi a)
              ++ Js.decode (meaning_english a) ++ Js.decode (source a)
              ++ match category a with Some c => Js.decode c | None => [] end).
  intros l.
  assert (T : forall e', notTextAt l = Some e' -> isDuplicateShlok e' = false).
  { induction l as [|c r IH]; intros e'; cbn [notTextAt]; [discriminate|].
    destruct (c =? 0)%N; [intros [= <-]; reflexivity|].
    destruct ((0xD800 <=? c) && (c <=? 0xDFFF))%N; [intros [= <-]; reflexivity|].
    apply IH. }
  destruct (notTextAt l) as [e'|]; [intros [= <-]; apply T; reflexivity|].
  destruct (categoryCheck (category a)); [discriminate|intros [= <-]; reflexivity].
Qed.

(** Storing and linking a generated record succeeds when the store
    answers, nobody else writes and the table accepts the record; a
    record the table refuses makes the call throw. *)
Lemma store_and_link (a : AIGeneratedQuote) (ts : Z) (w2 : World) :
  calm w2 -> wfStore (store w2) ->
  let rest :=
    (r <- insertQuote a ts ;;
     match r with
     | inl insertError =>
         if isDuplicateShlok insertError then
           newAiQuote <- generateQuoteWithAI ;;
           r' <- insertQuote newAiQuote ts ;;
           match r' with
           | inl retryError =>
               throw (mkError ("Failed to insert quote after retry: "
                               ++ messageText retryError)%string)
           | inr retryQuote => logOrResolve retryQuote ts
           end
         else throw (mkError ("Failed to insert quote: " ++ messageText insertError)%string)
     | inr newQuote => logOrResolve newQuote ts
     end) in
  match rejection a with
  | None => exists stored w4, rest w2 = (Ok stored, w4) /\ calm w4
  | Some e =>
      exists w3,
        rest w2 = (Throw (mkError ("Failed to insert quote: " ++ messageText e)%string), w3)
        /\ store w3 = store w2
  end.
Proof.
  intros H Hwf rest. destruct (calm_next w2 H) as [F S].
  set (w3 := afterWrite (InsertQuote a ts) (fun st => snd (db_insertQuote a ts st)) w2).
  destruct (calm_afterWrite (InsertQuote a ts)
              (fun st => snd (db_insertQuote a ts st)) w2 H) as [H3 S3].
  fold w3 in H3, S3.
  assert (I1 : insertQuote a ts w2 = (Ok (fst (db_insertQuote a ts (store w2))), w3)).
  { rewrite insertQuote_run, F, S. reflexivity. }
  destruct (rejection a) as [e|] eqn:R.
  - exists w3. subst rest. rewrite (bind_run _ _ _ _ _ I1).
    unfold db_insertQuote in *. rewrite R in *. cbn [fst snd] in *.
    rewrite (rejection_not_duplicate a e R). split; [reflexivity|exact S3].
  - destruct (fst (db_insertQuote a ts (store w2))) as [e|stored] eqn:E.
    { apply db_insertQuote_rejected in E as [E _]. congruence. }
    destruct (calm_next w3 H3) as [F3 S3'].
    destruct (insert_fresh a ts (store w2) stored Hwf E) as [Hf _].
    rewrite <- S3 in Hf.
    destruct (upsert_published (id stored) (todayOf w3) ts (store w3) stored Hf) as [U _].
    set (w4 := afterWrite (UpsertLog (id stored) (todayOf w3) ts)
                 (fun st => snd (db_upsertLog (id stored) (todayOf w3) ts st)) w3).
    assert (L : logQuoteForToday (id stored) (Some ts) w3 = (Ok tt, w4)).
    { rewrite logQuoteForToday_run, F3, S3', U. reflexivity. }
    exists stored, w4. split.
    + subst rest. rewrite (bind_run _ _ _ _ _ I1).
      apply (proj1 (logOrResolve_cases stored ts w3) w4 L).
    + apply calm_afterWrite. exact H3.
Qed.

(** In an intact store a date has its publication or none. *)
Lemma db_logsByDate_cases (d : string) (st : Store) :
  wfStore st ->
  (exists q, db_logsByDate d st = [Some q])
  \/ (db_logsByDate d st = [] /\ publicationsOn st d = 0).
Proof.
  intros Hwf. unfold publicationsOn.
  destruct (List.filter (hasDate d) (daily_logs st)) as [|l ls] eqn:E.
  - right. unfold db_logsByDate. rewrite E. split; reflexivity.
  - left. assert (Hin : In l (List.filter (hasDate d) (daily_logs st)))
      by (rewrite E; left; reflexivity).
    apply filter_In in Hin as [Hin Hd].
    destruct Hwf as (Hn & Hfk & Hid). destruct (Hfk l Hin) as [q Hq].
    exists q. apply db_logsByDate_published; [split; [exact Hn|split; assumption]|].
    exists l. split; [exact Hin|]. split; [|exact Hq].
    apply String.eqb_eq. exact Hd.
Qed.

Lemma generateAndStoreQuote_calm (w : World) :
  calm w -> wfStore (store w) ->
  Cal.validDate (utc_date (clock w)) -> (1 <= Cal.year (utc_date (clock w)))%Z ->
  (exists q w', generateAndStoreQuote w = (Ok q, w') /\ calm w')
  \/ (exists a, refused w a).
Proof.
  intros H Hwf Hv Hy. destruct (calm_next w H) as [F S].
  assert (H0 : calmAt (store w) (clock w) w) by (split; [exact H|split; reflexivity]).
  set (w1 := afterRead (SelectLogsByDate (todayOf w)) w).
  assert (H1 : calmAt (store w) (clock w) w1) by (apply calmAt_read; exact H0).
  destruct (db_logsByDate_cases (todayOf w) (store w) Hwf) as [[existing D]|[D N]].
  { left. exists existing, w1. split; [|apply H1].
    unfold generateAndStoreQuote.
    rewrite (bind_run todayString _ w w (todayOf w) eq_refl).
    rewrite (bind_run getTodayQuote _ w w1 (Some existing)); [reflexivity|].
    rewrite getTodayQuote_run, F, S, D. reflexivity. }
  assert (E : generateAndStoreQuote w
              = (aiQuote <- generateQuoteWithAI ;;
                 sixAMIST <- sixAM (todayOf w) ;;
                 r <- insertQuote aiQuote sixAMIST ;;
                 match r with
                 | inl insertError =>
                     if isDuplicateShlok insertError then
                       newAiQuote <- generateQuoteWithAI ;;
                       r' <- insertQuote newAiQuote sixAMIST ;;
                       match r' with
                       | inl retryError =>
                           throw (mkError ("Failed to insert quote after retry: "
                                           ++ messageText retryError)%string)
                       | inr retryQuote => logOrResolve retryQuote sixAMIST
                       end
                     else throw (mkError ("Failed to insert quote: "
                                          ++ messageText insertError)%string)
                 | inr newQuote => logOrResolve newQuote sixAMIST
                 end) w1).
  { unfold generateAndStoreQuote.
    rewrite (bind_run todayString _ w w (todayOf w) eq_refl).
    rewrite (bind_run getTodayQuote _ w w1 None); [reflexivity|].
    rewrite getTodayQuote_run, F, S, D. reflexivity. }
  destruct (generateQuoteWithAI_ok w1) as (a & w2 & G).
  pose proof (calmAt_generateQuoteWithAI (store w) (clock w) w1 H1) as H2.
  rewrite G in H2. destruct H2 as (H2 & S2 & C2).
  destruct (sixAM_today w w2 C2 Hv Hy) as [ts T].
  rewrite (bind_run _ _ _ _ _ G), (bind_run _ _ _ _ _ T) in E.
  pose proof (store_and_link a ts w2 H2 ltac:(rewrite S2; exact Hwf)) as L.
  cbv zeta in L. destruct (rejection a) as [e|] eqn:R.
  - right. destruct L as (w3 & L & S3). exists a, w2, e, w3.
    split; [exact G|]. split; [exact R|]. split; [rewrite E; exact L|].
    split; [congruence|exact N].
  - left. destruct L as (stored & w4 & L & H4). exists stored, w4.
    split; [rewrite E; exact L|exact H4].
Qed.

Lemma publishes_of_returns (w w' : World) (q : Quote) :
  calm w -> wfStore (store w) ->
  generateAndStoreQuote w = (Ok q, w') -> calm w' -> publishes w.
Proof.
  intros H Hwf G H'.
  destruct (generateAndStoreQuote_publishes w w' q Hwf (calm_noRaces w H) G)
    as (Hwf' & _ & _ & P).
  exists q, w'. split; [exact G|]. split; [exact H'|]. split; [exact Hwf'|].
  split; [exact P|]. split; [apply (published_once _ _ q Hwf' P)|].
  intros q0 P0. destruct (calm_next w H) as [F S].
  assert (A : answered w) by exact F.
  rewrite <- S in P0.
  rewrite (publish_short_circuit w q0 Hwf A P0) in G.
  injection G as <- <-. split; [reflexivity|]. cbn. exact S.
Qed.

Lemma leastUsed_declared (counts : gmap string nat) : In (leastUsed counts) QUOTE_CATEGORIES.
Proof.
  destruct (leastUsed_firstMinimal counts) as (i & Hi & _).
  apply nth_error_In in Hi. exact Hi.
Qed.

(** The table accepts every entry of the fallback table under every
    declared category. *)
Lemma fallback_accepted (entry : AIGeneratedQuote) (c : string) :
  In entry fallbackQuotes -> In c QUOTE_CATEGORIES ->
  rejection (withCategory entry c) = None.
Proof.
  intros He Hc.
  assert (T : forallb (fun c' =>
                forallb (fun q => match rejection (withCategory q c') with
                                  | None => true
                                  | Some _ => false
                                  end) fallbackQuotes) QUOTE_CATEGORIES = true)
    by (vm_compute; reflexivity).
  rewrite forallb_forall in T. specialize (T c Hc).
  rewrite forallb_forall in T. specialize (T entry He).
  destruct (rejection (withCategory entry c)); [discriminate|reflexivity].
Qed.

Lemma generateQuoteWithAI_down (w : World) :
  capabilityDown w ->
  exists a w', generateQuoteWithAI w = (Ok a, w') /\ rejection a = None.
Proof.
  intros H. destruct (firstCandidate_down w H) as (e & w1 & E).
  rewrite generateQuoteWithAI_cases, E.
  destruct (getFallbackQuote_entry w1) as (c & entry & L & Hin & ->).
  eexists. eexists. split; [reflexivity|].
  apply fallback_accepted; [exact Hin|].
  rewrite getLeastUsedCategory_run in L. injection L as <-. apply leastUsed_declared.
Qed.

(** X3.  Progress of the coordinator.  When the store answers every
    request, nobody else writes and the clock shows a valid date of year
    1 or later, [generateAndStoreQuote] either returns a record, with
    today published afterwards exactly once and with that record, or it
    has generated a record that table [quotes] refuses (a category that
    is not one of the eight, which the constraint of the column rejects,
    or a value that is no text) and throws the error of the insert,
    leaving today unpublished.  It returns whenever today is already
    published, and whenever the completion endpoint is unavailable: the
    fallback records are always accepted. *)
Theorem generateAndStoreQuote_progress (w : World) :
  calm w -> wfStore (store w) ->
  Cal.validDate (utc_date (clock w)) -> (1 <= Cal.year (utc_date (clock w)))%Z ->
  (publishes w \/ exists a, refused w a)
  /\ ((exists q0, published (store w) (todayOf w) q0) -> publishes w)
  /\ (capabilityDown w -> publishes w)
  /\ (forall a w2,
        generateQuoteWithAI (afterRead (SelectLogsByDate (todayOf w)) w) = (Ok a, w2) ->
        rejection a = None -> publishes w).
Proof.
  intros H Hwf Hv Hy.
  assert (D : publishes w \/ exists a, refused w a).
  { destruct (generateAndStoreQuote_calm w H Hwf Hv Hy) as [(q & w' & G & H')|R];
      [left; exact (publishes_of_returns w w' q H Hwf G H')|right; exact R]. }
  assert (K : forall a w2,
            generateQuoteWithAI (afterRead (SelectLogsByDate (todayOf w)) w) = (Ok a, w2) ->
            rejection a = None -> publishes w).
  { intros a w2 G R. destruct D as [D|(a' & w2' & e & w' & G' & R' & _)]; [exact D|].
    rewrite G in G'. injection G' as <- _. congruence. }
  split; [exact D|]. split; [|split; [|exact K]].
  - intros [q0 P0]. destruct D as [D|(a & w2 & e & w' & _ & _ & _ & _ & N)]; [exact D|].
    rewrite (published_once _ _ q0 Hwf P0) in N. discriminate.
  - intros Down.
    assert (Down1 : capabilityDown (afterRead (SelectLogsByDate (todayOf w)) w)) by exact Down.
    destruct (generateQuoteWithAI_down _ Down1) as (a & w2 & G & R).
    exact (K a w2 G R).
Qed.

Lemma generateAndStoreQuote_progress_witness :
  (exists q w',
     generateAndStoreQuote freshDay = (Ok q, w')
     /\ publicationsOn (store w') "2025-06-01" = 1)
  /\ (exists e w',
        generateAndStoreQuote bhaktiDay = (Throw e, w')
        /\ store w' = store bhaktiDay).
Proof.
  split.
  - destruct (generateAndStoreQuote_progress freshDay) as (_ & _ & P & _).
    + reflexivity.
    + vm_compute. split; [constructor|]. split; intros ? [].
    + vm_compute. intuition discriminate.
    + vm_compute. discriminate.
    + destruct P as (q & w' & G & _ & _ & _ & P & _).
      * left. reflexivity.
      * exists q, w'. split; [exact G|exact P].
  - destruct (generateAndStoreQuote_progress bhaktiDay) as ([P|R] & _).
    + reflexivity.
    + vm_compute. split; [constructor|]. split; intros ? [].
    + vm_compute. intuition discriminate.
    + vm_compute. discriminate.
    + destruct P as (q & w' & G & _). vm_compute in G. discriminate G.
    + destruct R as (a & w2 & e & w' & _ & _ & G & S & _). eauto.
Defined.

(** ** The scheduler *)

Lemma generateDailyQuote_cases (w : World) :
  generateDailyQuote w
  = match shouldGenerateQuoteForToday w with
    | (Ok true, w1) => (Ok tt, snd (generateAndStoreQuote w1))
    | (_, w1) => (Ok tt, w1)
    end.
Proof.
  unfold generateDailyQuote, try_catch, bind.
  destruct (shouldGenerateQuoteForToday w) as [[[|]|e] w1]; try reflexivity.
  destruct (generateAndStoreQuote w1) as [[q|e] w2]; reflexivity.
Qed.

(** X4.  A tick of the scheduler in a calm environment: it returns, and
    afterwards today has exactly one publication, unless the coordinator
    generated a record that table [quotes] refuses; then the error is
    swallowed and today stays unpublished, the store being as it was.
    With the completion endpoint unavailable the tick always publishes.
    When today was already published the tick is one read of the store,
    with no completion request and no change of the store. *)
Theorem generateDailyQuote_publishes (w : World) :
  calm w -> wfStore (store w) ->
  Cal.validDate (utc_date (clock w)) -> (1 <= Cal.year (utc_date (clock w)))%Z ->
  exists w',
    generateDailyQuote w = (Ok tt, w')
    /\ (((exists q, published (store w') (todayOf w) q)
         /\ publicationsOn (store w') (todayOf w) = 1)
        \/ ((exists a, refused (afterRead (SelectLogsByDate (todayOf w)) w) a)
            /\ store w' = store w
            /\ publicationsOn (store w') (todayOf w) = 0))
    /\ (capabilityDown w -> publicationsOn (store w') (todayOf w) = 1)
    /\ (forall q0, published (store w) (todayOf w) q0 ->
          store w' = store w /\ ai_log w' = ai_log w
          /\ store_log w' = store_log w ++ [SelectLogsByDate (todayOf w)]).
Proof.
  intros H Hwf Hv Hy. destruct (calm_next w H) as [F S].
  rewrite generateDailyQuote_cases, shouldGenerateQuoteForToday_run, F, S.
  set (w1 := afterRead (SelectLogsByDate (todayOf w)) w).
  assert (H1 : calmAt (store w) (clock w) w1)
    by (apply calmAt_read; split; [exact H|split; reflexivity]).
  destruct H1 as (H1 & S1 & C1).
  destruct (db_logsByDate_cases (todayOf w) (store w) Hwf) as [[existing D]|[D N]];
    rewrite D.
  { exists w1. split; [reflexivity|].
    pose proof (db_logsByDate_found _ _ _ _ D) as P.
    assert (O : publicationsOn (store w1) (todayOf w) = 1)
      by (rewrite S1; apply (published_once _ _ existing Hwf P)).
    split; [left; split; [exists existing; rewrite S1; exact P|exact O]|].
    split; [intros _; exact O|].
    intros q0 _. split; [exact S1|]. split; reflexivity. }
  assert (Hwf1 : wfStore (store w1)) by (rewrite S1; exact Hwf).
  assert (Hv1 : Cal.validDate (utc_date (clock w1))) by (rewrite C1; exact Hv).
  assert (Hy1 : (1 <= Cal.year (utc_date (clock w1)))%Z) by (rewrite C1; exact Hy).
  destruct (generateAndStoreQuote_calm w1 H1 Hwf1 Hv1 Hy1) as [(q & w' & G & H')|R].
  - destruct (publishes_of_returns w1 w' q H1 Hwf1 G H')
      as (q' & w'' & G' & _ & _ & P & O & _).
    rewrite G in G'. injection G' as <- <-.
    exists w'. rewrite G. split; [reflexivity|].
    split; [left; split; [exists q; exact P|exact O]|].
    split; [intros _; exact O|].
    intros q0 P0. rewrite (published_once _ _ q0 Hwf P0) in N. discriminate.
  - destruct R as (a & R). pose proof R as (w2 & e & w' & G & Rj & T & S' & N').
    exists w'. rewrite T. split; [reflexivity|].
    assert (Sw : store w' = store w) by congruence.
    split; [right; split; [exists a; exact R|split; [exact Sw|]]|].
    { rewrite Sw. exact N. }
    split.
    + intros Down.
      assert (Down2 : capabilityDown
                        (afterRead (SelectLogsByDate (todayOf w1)) w1)) by exact Down.
      destruct (generateQuoteWithAI_down _ Down2) as (a' & w2' & G' & R').
      rewrite G in G'. injection G' as <- _. congruence.
    + intros q0 P0. rewrite (published_once _ _ q0 Hwf P0) in N. discriminate.
Qed.

Lemma generateDailyQuote_publishes_witness :
  (exists w', generateDailyQuote freshDay = (Ok tt, w')
              /\ publicationsOn (store w') "2025-06-01" = 1)
  /\ (exists w', generateDailyQuote alreadyPublished = (Ok tt, w')
                 /\ store w' = store alreadyPublished)
  /\ (exists w', generateDailyQuote bhaktiDay = (Ok tt, w')
                 /\ publicationsOn (store w') "2025-06-01" = 0).
Proof.
  split; [|split].
  - destruct (generateDailyQuote_publishes freshDay) as (w' & G & _ & N & _).
    + reflexivity.
    + vm_compute. split; [constructor|]. split; intros ? [].
    + vm_compute. intuition discriminate.
    + vm_compute. discriminate.
    + exists w'. split; [exact G|]. apply N. left. reflexivity.
  - destruct (generateDailyQuote_publishes alreadyPublished) as (w' & G & _ & _ & K).
    + reflexivity.
    + vm_compute. split; [repeat constructor; intros []|].
      split; [intros l [<-|[]]; eexists; reflexivity|intros q [<-|[]]; lia].
    + vm_compute. intuition discriminate.
    + vm_compute. discriminate.
    + exists w'. split; [exact G|]. apply (K (quoteRow 1 "abc" (Some "karma"))).
      exists (logRow 2 1 "2025-06-01"). vm_compute. auto.
  - destruct (generateDailyQuote_publishes bhaktiDay) as (w' & G & _ & _ & _).
    + reflexivity.
    + vm_compute. split; [constructor|]. split; intros ? [].
    + vm_compute. intuition discriminate.
    + vm_compute. discriminate.
    + exists w'. split; [exact G|]. vm_compute in G. injection G as <-.
      vm_compute. reflexivity.
Defined.

(** X5.  Failures and the scheduler.  The cron job and the start-up check
    return normally in every world: whatever the store and the
    completion endpoint do, no error leaves them.  They call the
    coordinator only when the check of today's publication says so; when
    the fetch is answered and finds today's record they issue that one
    read and nothing else.  Manual generation, in contrast, throws
    whatever the coordinator throws. *)
Theorem scheduler_contains_failures (w : World) :
  fst (generateDailyQuote w) = Ok tt
  /\ checkAndGenerateTodayQuote w = generateDailyQuote w
  /\ (forall q, answered w ->
        db_logsByDate (todayOf w) (storeAtNextRequest w) = [Some q] ->
        generateDailyQuote w = (Ok tt, afterRead (SelectLogsByDate (todayOf w)) w))
  /\ (forall e w', generateAndStoreQuote w = (Throw e, w') ->
        generateQuoteManually w = (Throw e, w'))
  /\ (forall q w', generateAndStoreQuote w = (Ok q, w') ->
        generateQuoteManually w = (Ok tt, w')).
Proof.
  split; [|split; [reflexivity|split; [|split]]].
  - rewrite generateDailyQuote_cases.
    destruct (shouldGenerateQuoteForToday w) as [[[|]|e] w1]; reflexivity.
  - intros q A D. rewrite generateDailyQuote_cases, shouldGenerateQuoteForToday_run.
    unfold answered in A. rewrite A, D. reflexivity.
  - intros e w' G. unfold generateQuoteManually, try_catch, bind. rewrite G. reflexivity.
  - intros q w' G. unfold generateQuoteManually, try_catch, bind. rewrite G. reflexivity.
Qed.

(** ** What the coordinator leaves alone *)

Section Frame.

Variables (st0 : Store) (today : string).
Hypothesis wf0 : wfStore st0.

Lemma old_log_old_quote (st : Store) (l : DailyLog) :
  untouched st0 today st -> In l (daily_logs st) -> date l <> today ->
  quote_id l < next_id st0.
Proof.
  intros (_ & _ & _ & _ & Hl) Hin Hd. apply (Hl l Hd) in Hin.
  destruct wf0 as (_ & Hfk & Hid). destruct (Hfk l Hin) as [q Hq].
  apply findQuote_id in Hq. destruct Hq as [<- Hq]. apply Hid. exact Hq.
Qed.

Lemma untouched_refl : untouched st0 today st0.
Proof. split; [exact wf0|]. split; [lia|]. split; [auto|]. split; [auto|tauto]. Qed.

Lemma untouched_insert (a : AIGeneratedQuote) (ts : Z) (st : Store) :
  untouched st0 today st -> untouched st0 today (snd (db_insertQuote a ts st)).
Proof.
  intros U. pose proof U as (Hwf & Hn & Hq & Hf & Hl).
  split; [apply wf_insertQuote; exact Hwf|].
  unfold db_insertQuote. destruct (rejection a); [destruct U; tauto|].
  cbn. split; [lia|]. split; [|split; [|exact Hl]].
  - intros q Hin. apply in_or_app. left. apply Hq. exact Hin.
  - intros k Hk. rewrite <- (Hf k Hk). unfold findQuote. cbn [quotes].
    destruct (find (fun q => id q =? k) (quotes st)) as [q|] eqn:E.
    + apply find_app_some. exact E.
    + rewrite find_app_none.
      * cbn. destruct (Nat.eqb_spec (next_id st) k); [lia|reflexivity].
      * intros x Hx. apply (find_none _ _ E x Hx).
Qed.

Lemma untouched_upsert (k : nat) (ts : Z) (st : Store) :
  untouched st0 today st -> untouched st0 today (snd (db_upsertLog k today ts st)).
Proof.
  intros U. pose proof U as (Hwf & Hn & Hq & Hf & Hl).
  split; [apply wf_upsertLog; exact Hwf|].
  unfold db_upsertLog. destruct (findQuote st k) as [q|]; [|destruct U; tauto].
  destruct (existsb (hasDate today) (daily_logs st)); cbn [snd quotes daily_logs next_id].
  - split; [exact Hn|]. split; [exact Hq|]. split; [exact Hf|].
    intros l Hd. rewrite <- (Hl l Hd). rewrite in_map_iff. split.
    + intros (l0 & E & Hin). unfold hasDate in E.
      destruct (String.eqb_spec (date l0) today) as [E0|E0].
      * subst l. cbn in Hd. congruence.
      * subst l. exact Hin.
    + intros Hin. exists l. split; [|exact Hin]. unfold hasDate.
      destruct (String.eqb_spec (date l) today); [contradiction|reflexivity].
  - split; [lia|]. split; [exact Hq|]. split; [exact Hf|].
    intros l Hd. rewrite <- (Hl l Hd). rewrite in_app_iff. cbn. split; [|auto].
    intros [Hin|[E|[]]]; [exact Hin|]. subst l. cbn in Hd. congruence.
Qed.

Lemma untouched_delete (k : nat) (st : Store) :
  untouched st0 today st -> untouched st0 today (db_deleteQuote k st).
Proof. intros U. exact U. Qed.

Lemma frame_read (req : StoreRequest) (w : World) :
  frameInv st0 today w -> frameInv st0 today (afterRead req w).
Proof.
  intros (Hq & Ht & U). destruct (afterRead_quiet req w Hq) as [Hq' S].
  split; [exact Hq'|]. split; [exact Ht|]. rewrite S. exact U.
Qed.

Lemma frame_draw (w : World) : frameInv st0 today w -> frameInv st0 today (afterDraw w).
Proof. intros H. exact H. Qed.

Lemma frame_completion (req : AiRequest) (w : World) :
  frameInv st0 today w -> frameInv st0 today (snd (createCompletion req w)).
Proof.
  intros H. unfold createCompletion.
  destruct (ai_env w) as [|o r]; [|destruct o]; exact H.
Qed.

Lemma frame_write (req : StoreRequest) (change : Store -> Store) (w : World) :
  (untouched st0 today (store w) -> untouched st0 today (change (store w))) ->
  frameInv st0 today w -> frameInv st0 today (afterWrite req change w).
Proof.
  intros Hc (Hq & Ht & U). destruct (afterWrite_quiet req change w Hq) as [Hq' S].
  split; [exact Hq'|]. split; [exact Ht|]. cbn [store afterWrite]. rewrite S.
  destruct (fault (fst (nextStep w))); auto.
Qed.

Lemma frame_insertQuote (a : AIGeneratedQuote) (ts : Z) :
  keeps (frameInv st0 today) (insertQuote a ts).
Proof.
  intros w H. rewrite insertQuote_run.
  pose proof (frame_write (InsertQuote a ts) (fun st => snd (db_insertQuote a ts st)) w
                (untouched_insert a ts (store w)) H) as H'.
  destruct (fault (fst (nextStep w))); exact H'.
Qed.

Lemma frame_logQuoteForToday (k : nat) (ts : Z) :
  keeps (frameInv st0 today) (logQuoteForToday k (Some ts)).
Proof.
  intros w H. rewrite logQuoteForToday_run.
  assert (T : todayOf w = today) by apply H.
  pose proof (frame_write (UpsertLog k (todayOf w) ts)
                (fun st => snd (db_upsertLog k (todayOf w) ts st)) w
                ltac:(rewrite T; apply untouched_upsert) H) as H'.
  destruct (fault (fst (nextStep w))); try exact H'.
  destruct (fst (db_upsertLog k (todayOf w) ts (storeAtNextRequest w))); exact H'.
Qed.

Lemma frame_deleteQuote (k : nat) : keeps (frameInv st0 today) (deleteQuote k).
Proof.
  intros w H. rewrite deleteQuote_run.
  pose proof (frame_write (DeleteQuote k) (db_deleteQuote k) w
                (untouched_delete k (store w)) H) as H'.
  destruct (fault (fst (nextStep w))); exact H'.
Qed.

Lemma frame_getTodayQuote : keeps (frameInv st0 today) getTodayQuote.
Proof. apply keeps_getTodayQuote. apply frame_read. Qed.

Lemma frame_generateQuoteWithAI : keeps (frameInv st0 today) generateQuoteWithAI.
Proof.
  apply keeps_generateQuoteWithAI;
    [apply frame_read|apply frame_draw|apply frame_completion].
Qed.

Lemma frame_sixAM (d : string) : keeps (frameInv st0 today) (sixAM d).
Proof.
  intros w H. unfold sixAM. destruct (get6AMISTTimestamp _ _); exact H.
Qed.

Lemma frame_logOrResolve (stored : Quote) (ts : Z) :
  keeps (frameInv st0 today) (logOrResolve stored ts).
Proof.
  unfold logOrResolve. apply keeps_try_catch.
  - apply keeps_bind; [apply frame_logQuoteForToday|intros u; apply keeps_ret].
  - intros logError. destruct (isConflict logError); [|apply keeps_throw].
    apply keeps_bind; [apply frame_getTodayQuote|].
    intros [existing|]; [|apply keeps_throw].
    apply keeps_bind; [apply frame_deleteQuote|intros u; apply keeps_ret].
Qed.

Lemma frame_generateAndStoreQuote : keeps (frameInv st0 today) generateAndStoreQuote.
Proof.
  unfold generateAndStoreQuote.
  apply keeps_bind; [apply keeps_todayString|intros d].
  apply keeps_bind; [apply frame_getTodayQuote|].
  intros [existing|]; [apply keeps_ret|].
  apply keeps_bind; [apply frame_generateQuoteWithAI|intros aiQuote].
  apply keeps_bind; [apply frame_sixAM|intros ts].
  apply keeps_bind; [apply frame_insertQuote|].
  intros [insertError|newQuote]; [|apply frame_logOrResolve].
  destruct (isDuplicateShlok insertError); [|apply keeps_throw].
  apply keeps_bind; [apply frame_generateQuoteWithAI|intros newAiQuote].
  apply keeps_bind; [apply frame_insertQuote|].
  intros [retryError|retryQuote]; [apply keeps_throw|apply frame_logOrResolve].
Qed.

End Frame.

(** X6.  The coordinator touches today only.  Whatever the store answers and
    whether the call returns or throws, as long as nobody else writes:
    every other date is published after the call exactly as it was
    before, every quote of the store is still there (the clean-up delete
    removes only the record this call created), and the store stays
    intact. *)
Theorem generateAndStoreQuote_frame (w : World) :
  wfStore (store w) -> noRaces w ->
  (forall d q, d <> todayOf w ->
     (published (store (snd (generateAndStoreQuote w))) d q <-> published (store w) d q))
  /\ (forall q, In q (quotes (store w)) -> In q (quotes (store (snd (generateAndStoreQuote w)))))
  /\ wfStore (store (snd (generateAndStoreQuote w))).
Proof.
  intros Hwf Hq.
  assert (H : frameInv (store w) (todayOf w) w).
  { split; [exact Hq|]. split; [reflexivity|]. apply untouched_refl. exact Hwf. }
  pose proof (keeps_snd _ _ w (frame_generateAndStoreQuote (store w) (todayOf w)) H)
    as (_ & _ & U).
  remember (store (snd (generateAndStoreQuote w))) as st' eqn:Est. clear Est.
  pose proof (old_log_old_quote (store w) (todayOf w) Hwf st') as Old.
  destruct U as (Hwf' & Hn & Hquotes & Hf & Hl).
  split; [|split; [exact Hquotes|exact Hwf']].
  intros d q Hd. split.
  - intros (l & Hin & E & Hfind). subst d.
    assert (K : quote_id l < next_id (store w)).
    { apply Old; [|exact Hin|exact Hd].
      split; [exact Hwf'|]. split; [exact Hn|]. split; [exact Hquotes|].
      split; [exact Hf|exact Hl]. }
    exists l. split; [apply (Hl l Hd); exact Hin|]. split; [reflexivity|].
    rewrite <- (Hf _ K). exact Hfind.
  - intros (l & Hin & E & Hfind). subst d.
    exists l. split; [apply (Hl l Hd); exact Hin|]. split; [reflexivity|].
    assert (K : quote_id l < next_id (store w)).
    { apply findQuote_id in Hfind. destruct Hfind as [<- Hfind].
      destruct Hwf as (_ & _ & Hid). apply Hid. exact Hfind. }
    rewrite (Hf _ K). exact Hfind.
Qed.

Lemma generateAndStoreQuote_frame_witness :
  published (store (snd (generateAndStoreQuote abcPublished))) "2025-05-31"
    (quoteRow 1 "abc" (Some "karma")).
Proof.
  apply (proj1 (generateAndStoreQuote_frame abcPublished
                  ltac:(vm_compute; split; [repeat constructor; intros []|];
                        split; [intros l [<-|[]]; eexists; reflexivity
                               |intros q [<-|[]]; lia])
                  ltac:(constructor))
           "2025-05-31" (quoteRow 1 "abc" (Some "karma")) ltac:(discriminate)).
  exists (logRow 2 1 "2025-05-31"). vm_compute. auto.
Defined.

(** ** The recent history and the category pickers *)

Lemma truthyShloks_In (rows : list (option Quote)) (s : string) :
  In s (truthyShloks rows) ->
  s <> EmptyString /\ exists q, In (Some q) rows /\ quote_shlok q = s.
Proof.
  induction rows as [|[q|] rows IH]; cbn; [tauto| |].
  - destruct (quote_shlok q) as [|ch r] eqn:E; cbn.
    + intros H. destruct (IH H) as (N & q' & Hin & Hq). eauto.
    + intros [<-|H].
      * split; [discriminate|]. exists q. auto.
      * destruct (IH H) as (N & q' & Hin & Hq). eauto.
  - intros H. destruct (IH H) as (N & q' & Hin & Hq). eauto.
Qed.

Lemma truthyShloks_length (rows : list (option Quote)) :
  length (truthyShloks rows) <= length rows.
Proof.
  induction rows as [|[q|] rows IH]; cbn; [lia| |lia].
  destruct (Js.truthy (quote_shlok q)); cbn; lia.
Qed.

Lemma db_recent_length (limit : nat) (st : Store) : length (db_recent limit st) <= limit.
Proof.
  unfold db_recent. rewrite length_map, length_firstn. lia.
Qed.

Lemma db_recent_In (limit : nat) (st : Store) (q : Quote) :
  In (Some q) (db_recent limit st) ->
  exists l, In l (daily_logs st) /\ findQuote st (quote_id l) = Some q.
Proof.
  unfold db_recent. rewrite in_map_iff. intros (l & E & Hin).
  apply In_firstn in Hin. rewrite sortBy_In in Hin. exists l. auto.
Qed.

(** X7.  The recent history is read defensively: [getRecentlyUsedQuotes]
    never throws and issues one read; its sample holds at most [limit]
    texts, each of them non-empty and the text of a published quote; a
    query that fails gives the empty sample. *)
Theorem getRecentlyUsedQuotes_bounds (limit : nat) (w : World) :
  exists sample : list string,
    getRecentlyUsedQuotes limit w = (Ok sample, afterRead (SelectRecent limit) w)
    /\ length sample <= limit
    /\ (forall s, In s sample ->
          s <> EmptyString
          /\ exists d q, published (store (afterRead (SelectRecent limit) w)) d q
                         /\ quote_shlok q = s)
    /\ (~ answered w -> sample = []).
Proof.
  rewrite getRecentlyUsedQuotes_run. eexists. split; [reflexivity|].
  unfold answered. destruct (fault (fst (nextStep w))) eqn:F.
  - split; [|split; [|congruence]].
    + etransitivity; [apply truthyShloks_length|apply db_recent_length].
    + intros s Hs. apply truthyShloks_In in Hs. destruct Hs as (N & q & Hin & Hq).
      split; [exact N|]. apply db_recent_In in Hin. destruct Hin as (l & Hl & Hf).
      exists (date l), q. split; [|exact Hq]. exists l. auto.
  - split; [cbn; lia|]. split; [intros s []|reflexivity].
  - split; [cbn; lia|]. split; [intros s []|reflexivity].
Qed.

(** X8.  A category chosen by the code is always one of the eight declared
    ones, the values the CHECK constraint of column [category] accepts:
    this holds for the least used category (also when the usage query
    fails), for a random category, and for the label of a fallback
    quote. *)
Theorem category_always_declared (w : World) :
  (exists c, getLeastUsedCategory w = (Ok c, afterRead SelectUsage w)
             /\ In c QUOTE_CATEGORIES)
  /\ (exists c, getRandomCategory w = (Ok c, afterDraw w) /\ In c QUOTE_CATEGORIES)
  /\ (exists q w' c, getFallbackQuote w = (Ok q, w')
                     /\ category q = Some c /\ In c QUOTE_CATEGORIES).
Proof.
  split; [|split].
  - rewrite getLeastUsedCategory_run. eexists. split; [reflexivity|].
    apply leastUsed_declared.
  - unfold getRandomCategory, bind. rewrite randomIndex_run. eexists.
    split; [reflexivity|]. apply nth_In. apply Nat.mod_upper_bound. discriminate.
  - destruct (getFallbackQuote_entry w) as (c & entry & L & _ & ->).
    exists (withCategory entry c). eexists. exists c. split; [reflexivity|].
    split; [reflexivity|]. rewrite getLeastUsedCategory_run in L.
    injection L as <-. apply leastUsed_declared.
Qed.

Lemma isEmpty_true {A : Type} (l : list A) : isEmpty l = true -> l = [].
Proof. destruct l; [reflexivity|discriminate]. Qed.

Section Choice.

Variables (table : list AIGeneratedQuote) (c : string) (recent : list string).

Let avail : list AIGeneratedQuote :=
  List.filter (fun quote => negb (recentlyUsed recent quote)) table.
Let cat : list AIGeneratedQuote := List.filter (hasCategory c) avail.

Lemma choice_from (q : AIGeneratedQuote) :
  In q (if isEmpty (if isEmpty cat then avail else cat) then table
        else (if isEmpty cat then avail else cat)) ->
  ((exists e, In e table /\ recentlyUsed recent e = false) ->
   recentlyUsed recent q = false)
  /\ ((exists e, In e table /\ recentlyUsed recent e = false
                 /\ hasCategory c e = true) ->
      hasCategory c q = true).
Proof.
  assert (A : forall e, In e table -> recentlyUsed recent e = false -> In e avail).
  { intros e He Hu. apply filter_In. rewrite Hu. auto. }
  assert (C : forall e, In e table -> recentlyUsed recent e = false ->
                        hasCategory c e = true -> In e cat).
  { intros e He Hu Hc. apply filter_In. auto. }
  assert (U : forall e, In e avail -> recentlyUsed recent e = false).
  { intros e He. apply filter_In in He. destruct He as [_ Hu].
    apply negb_true_iff in Hu. exact Hu. }
  assert (K : forall e, In e cat -> In e avail /\ hasCategory c e = true).
  { intros e He. apply filter_In in He. exact He. }
  clearbody cat. clearbody avail.
  destruct cat as [|x cat']; cbn [isEmpty].
  - destruct avail as [|y avail']; cbn [isEmpty]; intros Hin.
    + split.
      * intros (e & He & Hu). destruct (A e He Hu).
      * intros (e & He & Hu & Hc). destruct (C e He Hu Hc).
    + split; [intros _; apply U; exact Hin|].
      intros (e & He & Hu & Hc). destruct (C e He Hu Hc).
  - intros Hin. destruct (K q Hin) as [Ha Hc].
    split; intros _; [apply U; exact Ha|exact Hc].
Qed.

End Choice.

Lemma finalQuotes_choice (c : string) (recent : list string) (q : AIGeneratedQuote) :
  In q (finalQuotes c recent) ->
  In q fallbackQuotes
  /\ ((exists e, In e fallbackQuotes /\ recentlyUsed recent e = false) ->
      recentlyUsed recent q = false)
  /\ ((exists e, In e fallbackQuotes /\ recentlyUsed recent e = false
                 /\ hasCategory c e = true) ->
      hasCategory c q = true).
Proof.
  intros Hin. split; [apply (finalQuotes_incl c recent q Hin)|].
  revert Hin. unfold finalQuotes. generalize fallbackQuotes as table.
  intros table. apply choice_from.
Qed.

(** X9.  The choice of [getFallbackQuote].  The quote is an entry of the
    table relabelled with the least used category, its four mandatory
    fields are non-empty, and the function never throws.  As long as the
    table holds an entry that no recent publication repeats, the chosen
    entry is such an entry; as long as it holds such an entry of the
    least used category, the chosen entry is of that category. *)
Theorem getFallbackQuote_selection (w : World) :
  exists (c : string) (recent : list string) (entry : AIGeneratedQuote) (w' : World),
    getLeastUsedCategory w = (Ok c, afterRead SelectUsage w)
    /\ getRecentlyUsedQuotes 20 (afterRead SelectUsage w)
       = (Ok recent, afterRead (SelectRecent 20) (afterRead SelectUsage w))
    /\ getFallbackQuote w = (Ok (withCategory entry c), w')
    /\ In entry fallbackQuotes
    /\ wellFormed (withCategory entry c)
    /\ ((exists e, In e fallbackQuotes /\ recentlyUsed recent e = false) ->
        recentlyUsed recent entry = false)
    /\ ((exists e, In e fallbackQuotes /\ recentlyUsed recent e = false
                   /\ hasCategory c e = true) ->
        hasCategory c entry = true).
Proof.
  destruct (getFallbackQuote_run w) as (c & recent & i & L & R & Hi & G).
  exists c, recent, (nth i (finalQuotes c recent) noQuote). eexists.
  split; [exact L|]. split; [exact R|]. split; [exact G|].
  assert (Hin : In (nth i (finalQuotes c recent) noQuote) (finalQuotes c recent)).
  { apply nth_In. rewrite Hi. apply Nat.mod_upper_bound.
    pose proof (finalQuotes_nonempty c recent). lia. }
  destruct (finalQuotes_choice c recent _ Hin) as (H1 & H2 & H3).
  split; [exact H1|]. split; [|split; assumption].
  apply wellFormed_withCategory. apply fallbackQuotes_wellFormed. exact H1.
Qed.

(** ** Reads return what is published *)

Lemma db_logsByDate_rows (d : string) (st : Store) :
  wfStore st ->
  db_logsByDate d st = []
  \/ exists q, db_logsByDate d st = [Some q] /\ published st d q.
Proof.
  intros Hwf. unfold db_logsByDate.
  destruct (List.filter (hasDate d) (daily_logs st)) as [|l rest] eqn:F; [left; reflexivity|].
  right.
  assert (Hl : In l (List.filter (hasDate d) (daily_logs st))) by (rewrite F; left; reflexivity).
  apply filter_In in Hl. destruct Hl as [Hin Hd].
  apply String.eqb_eq in Hd.
  destruct Hwf as (Hnd & Hfk & Hid). destruct (Hfk l Hin) as [q Hq].
  exists q.
  assert (P : published st d q) by (exists l; auto).
  split; [|exact P].
  rewrite <- F. apply (db_logsByDate_published st d q); [|exact P].
  split; [exact Hnd|split; assumption].
Qed.

(** X10.  The check of the scheduler.  [shouldGenerateQuoteForToday] never
    throws and issues one read.  When the fetch fails, by an error
    answer or a thrown error, it says true (generate).  When the fetch
    is answered by an intact store, it says false exactly when today is
    published. *)
Theorem shouldGenerateQuoteForToday_decides (w : World) :
  exists b : bool,
    shouldGenerateQuoteForToday w = (Ok b, afterRead (SelectLogsByDate (todayOf w)) w)
    /\ (~ answered w -> b = true)
    /\ (answered w -> wfStore (storeAtNextRequest w) ->
        (b = false <-> exists q, published (storeAtNextRequest w) (todayOf w) q)).
Proof.
  rewrite shouldGenerateQuoteForToday_run. eexists. split; [reflexivity|].
  unfold answered. destruct (fault (fst (nextStep w))) eqn:F.
  - split; [congruence|]. intros _ Hwf.
    destruct (db_logsByDate_rows (todayOf w) _ Hwf) as [E|(q & E & P)]; rewrite E.
    + split; [discriminate|]. intros (q & P).
      rewrite (db_logsByDate_published _ _ q Hwf P) in E. discriminate.
    + split; [eauto|reflexivity].
  - split; [reflexivity|discriminate].
  - split; [reflexivity|discriminate].
Qed.

(** X11.  Soundness of the read paths: a record they return is published.
    Whatever the environment does, a record returned for a date is
    published for that date in the store the call leaves behind, and the
    date is not after today; a record returned for an identifier carries
    that identifier and is published for some date. *)
Theorem reads_return_published (w : World) :
  (forall d q w', getQuoteByDate d w = (Ok (Some q), w') ->
     published (store w') d q /\ Js.gt d (todayOf w) = false)
  /\ (forall d q w', getQuoteForDate d w = (Ok (Some q), w') ->
        published (store w') d q /\ Js.gt d (todayOf w) = false)
  /\ (forall q w', getTodayQuote w = (Ok (Some q), w') ->
        published (store w') (todayOf w) q)
  /\ (forall k q w', getQuoteById k w = (Ok (Some q), w') ->
        id q = k /\ exists d, published (store w') d q).
Proof.
  assert (A : forall d q w', getQuoteByDate d w = (Ok (Some q), w') ->
                published (store w') d q /\ Js.gt d (todayOf w) = false).
  { intros d q w'. rewrite getQuoteByDate_run.
    destruct (Js.gt d (todayOf w)); [discriminate|].
    destruct (fault (fst (nextStep w))); try discriminate.
    destruct (db_logsByDate d (storeAtNextRequest w)) as [|[q0|] rest] eqn:D;
      try discriminate.
    intros [= <- <-]. split; [|reflexivity].
    apply db_logsByDate_found in D. exact D. }
  split; [exact A|]. split; [|split].
  - intros d q w'. rewrite getQuoteForDate_run. apply A.
  - intros q w' H. refine (proj1 (A (todayOf w) q w' _)).
    unfold getTodayQuote, bind, todayString in H. exact H.
  - intros k q w'. rewrite getQuoteById_run.
    destruct (fault (fst (nextStep w))); try discriminate.
    unfold db_logByQuoteId.
    destruct (List.filter (fun l => quote_id l =? k) (daily_logs (storeAtNextRequest w)))
      as [|l [|l' rest]] eqn:F; try discriminate.
    assert (Hl : In l (List.filter (fun l => quote_id l =? k)
                         (daily_logs (storeAtNextRequest w))))
      by (rewrite F; left; reflexivity).
    apply filter_In in Hl. destruct Hl as [Hin Hk]. apply Nat.eqb_eq in Hk.
    assert (R : forall r w0, (r, afterRead (SelectLogByQuoteId k) w)
                             = (Ok (Some q), w0) ->
                             r = Ok (joined (storeAtNextRequest w) l) ->
                             id q = k /\ exists d, published (store w0) d q).
    { intros r w0 [= -> <-] [= J]. unfold joined in J. symmetry in J.
      pose proof (findQuote_id _ _ _ J) as [Hid _].
      split; [congruence|]. exists (date l), l. auto. }
    destruct (Cal.parseDate (date l)) as [quoteDate|].
    + destruct (_ <=? _)%Z; [discriminate|]. intros H. apply (R _ _ H eq_refl).
    + intros H. apply (R _ _ H eq_refl).
Qed.

(** ** The listings *)

Section Sorting.

Context {A : Type} (le : A -> A -> bool).
Hypothesis le_total : forall a b, le a b = false -> le b a = true.
Hypothesis le_trans : forall a b c, le a b = true -> le b c = true -> le a c = true.

Lemma insertBy_sorted (x : A) (l : list A) :
  sortedBy le l -> sortedBy le (insertBy le x l).
Proof.
  induction l as [|y r IH]; cbn [insertBy sortedBy].
  - intros _. split; [constructor|exact I].
  - intros [Hy Hr]. destruct (le x y) eqn:E.
    + cbn [sortedBy]. split; [|split; assumption].
      constructor; [exact E|].
      rewrite !List.Forall_forall in *. intros b Hb. apply (le_trans x y b E (Hy b Hb)).
    + cbn [sortedBy]. split; [|apply IH; exact Hr].
      rewrite !List.Forall_forall in *. intros b Hb. apply insertBy_In in Hb.
      destruct Hb as [->|Hb]; [apply le_total; exact E|apply Hy; exact Hb].
Qed.

Lemma sortBy_sorted (l : list A) : sortedBy le (sortBy le l).
Proof.
  induction l as [|x l IH]; [exact I|].
  change (sortBy le (x :: l)) with (insertBy le x (sortBy le l)).
  apply insertBy_sorted. exact IH.
Qed.

Lemma firstn_sorted (n : nat) (l : list A) : sortedBy le l -> sortedBy le (firstn n l).
Proof.
  revert n. induction l as [|a r IH]; intros [|n]; cbn; auto.
  intros [Ha Hr]. split; [|apply IH; exact Hr].
  rewrite !List.Forall_forall in *. intros b Hb. apply Ha. apply (In_firstn n r b Hb).
Qed.

End Sorting.

Lemma sortedBy_map {A B : Type} (g : A -> B) (le : B -> B -> bool) (l : list A) :
  sortedBy (fun a b => le (g a) (g b)) l -> sortedBy le (map g l).
Proof.
  induction l as [|a r IH]; cbn; [auto|]. intros [Ha Hr]. split; [|apply IH; exact Hr].
  rewrite !List.Forall_forall in *. intros b Hb. apply in_map_iff in Hb.
  destruct Hb as (x & <- & Hx). apply Ha. exact Hx.
Qed.

Lemma compare_lt_trans (a b c : string) :
  String.compare a b = Lt -> String.compare b c = Lt -> String.compare a c = Lt.
Proof.
  revert b c. induction a as [|x a IH]; intros [|y b] [|z c]; cbn;
    try discriminate; try reflexivity.
  unfold Ascii.compare.
  destruct (N.compare_spec (N_of_ascii x) (N_of_ascii y)) as [E1|L1|G1];
    destruct (N.compare_spec (N_of_ascii y) (N_of_ascii z)) as [E2|L2|G2];
    try discriminate; intros H1 H2.
  - rewrite E1, E2, N.compare_refl. apply (IH b c H1 H2).
  - rewrite E1. apply N.compare_lt_iff in L2. rewrite L2. reflexivity.
  - rewrite <- E2. apply N.compare_lt_iff in L1. rewrite L1. reflexivity.
  - assert (L : (N_of_ascii x < N_of_ascii z)%N) by lia.
    apply N.compare_lt_iff in L. rewrite L. reflexivity.
Qed.

Lemma gt_flip (a b : string) : Js.gt a b = true -> Js.gt b a = false.
Proof.
  unfold Js.gt. rewrite (String.compare_antisym b a).
  destruct (String.compare a b); cbn; congruence.
Qed.

Lemma not_gt_trans (a b c : string) :
  Js.gt b a = false -> Js.gt c b = false -> Js.gt c a = false.
Proof.
  unfold Js.gt. intros H1 H2.
  destruct (String.compare c b) eqn:E2; [| |discriminate].
  - apply String.compare_eq_iff in E2. subst c. exact H1.
  - destruct (String.compare b a) eqn:E1; [| |discriminate].
    + apply String.compare_eq_iff in E1. subst b. rewrite E2. reflexivity.
    + rewrite (compare_lt_trans c b a E2 E1). reflexivity.
Qed.

Lemma byDateDesc_total (a b : DailyLog) : byDateDesc a b = false -> byDateDesc b a = true.
Proof.
  unfold byDateDesc. intros H. apply negb_false_iff in H.
  rewrite (gt_flip _ _ H). reflexivity.
Qed.

Lemma byDateDesc_trans (a b c : DailyLog) :
  byDateDesc a b = true -> byDateDesc b c = true -> byDateDesc a c = true.
Proof.
  unfold byDateDesc. intros H1 H2. apply negb_true_iff in H1, H2.
  rewrite (not_gt_trans _ _ _ H1 H2). reflexivity.
Qed.

Lemma NoDup_map_insertBy {A B : Type} (g : A -> B) (le : A -> A -> bool) (x : A) (l : list A) :
  List.NoDup (map g (x :: l)) -> List.NoDup (map g (insertBy le x l)).
Proof.
  induction l as [|y r IH]; cbn [insertBy]; [auto|].
  destruct (le x y); [auto|]. cbn [map]. intros H.
  inversion H as [|? ? Hx Hrest]; subst. inversion Hrest as [|? ? Hy Hr]; subst.
  constructor.
  - intros Hin. apply in_map_iff in Hin. destruct Hin as (z & Ez & Hz).
    apply insertBy_In in Hz. destruct Hz as [->|Hz].
    + apply Hx. left. symmetry. exact Ez.
    + apply Hy. apply in_map_iff. eauto.
  - apply IH. cbn [map]. constructor; [|exact Hr].
    intros Hin. apply Hx. right. exact Hin.
Qed.

Lemma NoDup_map_sortBy {A B : Type} (g : A -> B) (le : A -> A -> bool) (l : list A) :
  List.NoDup (map g l) -> List.NoDup (map g (sortBy le l)).
Proof.
  induction l as [|x l IH]; [auto|]. intros H.
  change (sortBy le (x :: l)) with (insertBy le x (sortBy le l)).
  apply NoDup_map_insertBy. cbn [map] in *. inversion H as [|? ? Hx Hr]; subst.
  constructor; [|apply IH; exact Hr].
  intros Hin. apply Hx. apply in_map_iff in Hin. destruct Hin as (z & Ez & Hz).
  rewrite sortBy_In in Hz. apply in_map_iff. eauto.
Qed.

Lemma NoDup_map_firstn {A B : Type} (g : A -> B) (n : nat) (l : list A) :
  List.NoDup (map g l) -> List.NoDup (map g (firstn n l)).
Proof.
  revert n. induction l as [|x l IH]; intros [|n]; cbn; auto; [constructor|].
  intros H. inversion H as [|? ? Hx Hr]; subst. constructor; [|apply IH; exact Hr].
  intros Hin. apply Hx. apply in_map_iff in Hin. destruct Hin as (z & Ez & Hz).
  apply In_firstn in Hz. apply in_map_iff. eauto.
Qed.

Lemma db_upTo_facts (today : string) (limit : nat) (st : Store) :
  length (db_upTo today limit st) <= limit
  /\ newestFirst (map date (db_upTo today limit st))
  /\ (wfStore st -> List.NoDup (map date (db_upTo today limit st)))
  /\ (forall l, In l (db_upTo today limit st) -> In l (daily_logs st)).
Proof.
  unfold db_upTo. split; [rewrite length_firstn; lia|]. split; [|split].
  - apply sortedBy_map. apply firstn_sorted. apply sortBy_sorted.
    + exact byDateDesc_total.
    + exact byDateDesc_trans.
  - intros (Hnd & _). apply NoDup_map_firstn, NoDup_map_sortBy, NoDup_map_filter. exact Hnd.
  - intros l Hin. apply In_firstn in Hin. rewrite sortBy_In in Hin.
    apply filter_In in Hin. tauto.
Qed.

(** X12.  The two listings.  A listing that returns holds at most [limit]
    entries, from the newest date to the oldest, and every entry is read
    off a publication of the store; with an intact store no date is
    listed twice, and a listed record is the one published for the date
    it is listed under.  An error answer of the store is thrown to the
    caller. *)
Theorem listings_newest_first (limit : nat) (w : World) :
  (forall dates w', getAvailableDates limit w = (Ok dates, w') ->
     length dates <= limit /\ newestFirst dates
     /\ (wfStore (store w) -> List.NoDup dates)
     /\ forall d, In d dates -> 0 < publicationsOn (store w') d)
  /\ (forall rows w', getRecentQuotes limit w = (Ok rows, w') ->
        length rows <= limit /\ newestFirst (map snd rows)
        /\ (wfStore (store w) -> List.NoDup (map snd rows))
        /\ forall q d, In (Some q, d) rows -> published (store w') d q)
  /\ (forall e, fault (fst (nextStep w)) = ReturnsError e ->
        fst (getAvailableDates limit w) = Throw e
        /\ fst (getRecentQuotes limit w) = Throw e).
Proof.
  pose proof (db_upTo_facts (todayOf w) limit (storeAtNextRequest w)) as (L & S & N & P).
  split; [|split].
  - intros dates w'. unfold getAvailableDates, bind, todayString.
    rewrite storeCall_read. unfold readAnswer.
    destruct (fault (fst (nextStep w))); try discriminate.
    intros [= <- <-]. split; [rewrite length_map; exact L|]. split; [exact S|].
    split; [intros Hwf; apply N, wf_applyWrites, Hwf|].
    intros d Hd. apply in_map_iff in Hd. destruct Hd as (l & <- & Hl).
    unfold publicationsOn. cbn [store afterRead].
    assert (X : In l (List.filter (hasDate (date l)) (daily_logs (storeAtNextRequest w)))).
    { apply filter_In. split; [apply P; exact Hl|]. apply String.eqb_refl. }
    destruct (List.filter _ _); [destruct X|cbn; lia].
  - intros rows w'. unfold getRecentQuotes, bind, todayString.
    rewrite storeCall_read. unfold readAnswer.
    destruct (fault (fst (nextStep w))); try discriminate.
    intros [= <- <-]. rewrite map_map. cbn [snd].
    split; [rewrite length_map; exact L|]. split; [exact S|].
    split; [intros Hwf; apply N, wf_applyWrites, Hwf|].
    intros q d Hin. apply in_map_iff in Hin. destruct Hin as (l & [= J <-] & Hl).
    exists l. split; [apply P; exact Hl|]. split; [reflexivity|exact J].
  - intros e F. unfold getAvailableDates, getRecentQuotes, bind, todayString.
    rewrite !storeCall_read. unfold readAnswer. rewrite F. split; reflexivity.
Qed.


(** ** The routes *)

Lemma isDigit_digit (x : Z) : (0 <= x <= 9)%Z -> Js.isDigit (Cal.digit x) = true.
Proof.
  intros Hx.
  destruct (digit_cases x Hx) as [E|[E|[E|[E|[E|[E|[E|[E|[E|E]]]]]]]]]; subst x;
    reflexivity.
Qed.

Lemma isDateFormat_isoDate (d : Cal.CivilDate) :
  Cal.validDate d -> isDateFormat (Cal.isoDate d) = true.
Proof.
  intros Hv. destruct (validDate_ranges d Hv) as (Hy & Hm & Hd).
  destruct (digits4 _ Hy) as (A1 & A2 & A3 & A4 & _).
  destruct (digits2 (Cal.month d) ltac:(lia)) as (A5 & A6 & _).
  destruct (digits2 (Cal.day d) ltac:(lia)) as (A7 & A8 & _).
  unfold Cal.isoDate, Cal.pad4, Cal.pad2.
  change (Js.isDigit (Cal.digit (Cal.year d / 1000))
          && Js.isDigit (Cal.digit ((Cal.year d / 100) mod 10))
          && Js.isDigit (Cal.digit ((Cal.year d / 10) mod 10))
          && Js.isDigit (Cal.digit (Cal.year d mod 10))
          && Ascii.eqb "-" "-"
          && Js.isDigit (Cal.digit (Cal.month d / 10))
          && Js.isDigit (Cal.digit (Cal.month d mod 10))
          && Ascii.eqb "-" "-"
          && Js.isDigit (Cal.digit (Cal.day d / 10))
          && Js.isDigit (Cal.digit (Cal.day d mod 10)) = true).
  rewrite !isDigit_digit by assumption. reflexivity.
Qed.

Lemma isDateFormat_truthy (s : string) : isDateFormat s = true -> Js.truthy s = true.
Proof. destruct s; [discriminate|reflexivity]. Qed.

(** The response to an error made by [createError]. *)
Lemma errorHandler_createError (development : bool) (s : Z) (m : string) :
  s <> 0%Z ->
  errorHandler development (createError s m)
  = {| status := s; body := ErrorBody m s (if development then Some m else None) |}.
Proof.
  intros Hs. unfold errorHandler, createError, hasErrorCode. cbn.
  destruct (Z.eqb_spec s 0); [contradiction|]. reflexivity.
Qed.

Lemma route_run (development : bool) (handler : M Reply) (w w' : World) (reply : Reply) :
  handler w = (Ok reply, w') ->
  route development handler w = (Ok (respond development reply), w').
Proof. intros H. unfold route, bind. rewrite H. reflexivity. Qed.

Lemma getTodayQuote_reply (w : World) :
  quoteController.getTodayQuote w
  = (Ok (match fst (getTodayQuote w) with
         | Ok (Some quote) =>
             Json (QuotePayload quote) "Today's quote retrieved successfully"
         | Ok None =>
             Next (createError 404
                     "No quote available for today yet. Check back after 6:00 AM IST.")
         | Throw _ => Next (createError 500 "Failed to get today's quote")
         end),
     snd (getTodayQuote w)).
Proof.
  unfold quoteController.getTodayQuote, try_catch, bind.
  destruct (getTodayQuote w) as [[[q|]|e] w1]; reflexivity.
Qed.

Lemma getQuoteForDate_reply (date : string) (w : World) :
  quoteController.getQuoteForDate date w
  = if isDateFormat date then
      (Ok (match fst (getQuoteForDate date w) with
           | Ok (Some q) =>
               Json (QuotePayload q) ("Quote for " ++ date ++ " retrieved successfully")
           | Ok None =>
               Next (createError 404 "No quote found for this date or date is in the future")
           | Throw _ => Next (createError 500 "Failed to get quote for date")
           end),
       snd (getQuoteForDate date w))
    else (Ok (Next (createError 400 "Invalid date format. Use YYYY-MM-DD")), w).
Proof.
  unfold quoteController.getQuoteForDate, try_catch.
  destruct (isDateFormat date) eqn:F.
  - rewrite (isDateFormat_truthy date F). cbn [negb orb]. unfold bind.
    destruct (getQuoteForDate date w) as [[[q|]|e] w1]; reflexivity.
  - rewrite orb_true_r. reflexivity.
Qed.

Lemma getQuoteById_reply (k : nat) (w : World) :
  quoteController.getQuoteById k w
  = (Ok (match fst (getQuoteById k w) with
         | Ok (Some q) => Json (QuotePayload q) "Quote retrieved successfully"
         | Ok None => Next (createError 404 "Quote not found or not accessible")
         | Throw _ => Next (createError 500 "Failed to get quote")
         end),
     snd (getQuoteById k w)).
Proof.
  unfold quoteController.getQuoteById, try_catch, bind.
  destruct (getQuoteById k w) as [[[q|]|e] w1]; reflexivity.
Qed.

Lemma getAvailableDates_reply (limit : option string) (w : World) :
  quoteController.getAvailableDates limit w
  = if ((orDefault (parseInt limit) 30 <? 1) || (100 <? orDefault (parseInt limit) 30))%Z
    then (Ok (Next (createError 400 "Limit must be between 1 and 100")), w)
    else
      (Ok (match fst (getAvailableDates (Z.to_nat (orDefault (parseInt limit) 30)) w) with
           | Ok dates =>
               Json (DatesPayload dates (length dates)) "Available dates retrieved successfully"
           | Throw _ => Next (createError 500 "Failed to get available dates")
           end),
       snd (getAvailableDates (Z.to_nat (orDefault (parseInt limit) 30)) w)).
Proof.
  unfold quoteController.getAvailableDates, try_catch. cbv zeta.
  destruct (_ || _)%bool; [reflexivity|]. unfold bind.
  destruct (getAvailableDates _ w) as [[dates|e] w1]; reflexivity.
Qed.

Lemma getRecentQuotes_reply (limit : option string) (w : World) :
  quoteController.getRecentQuotes limit w
  = if ((orDefault (parseInt limit) 10 <? 1) || (50 <? orDefault (parseInt limit) 10))%Z
    then (Ok (Next (createError 400 "Limit must be between 1 and 50")), w)
    else
      (Ok (match fst (getRecentQuotes (Z.to_nat (orDefault (parseInt limit) 10)) w) with
           | Ok quotes =>
               Json (QuotesPayload quotes (length quotes)) "Recent quotes retrieved successfully"
           | Throw _ => Next (createError 500 "Failed to get recent quotes")
           end),
       snd (getRecentQuotes (Z.to_nat (orDefault (parseInt limit) 10)) w)).
Proof.
  unfold quoteController.getRecentQuotes, try_catch. cbv zeta.
  destruct (_ || _)%bool; [reflexivity|]. unfold bind.
  destruct (getRecentQuotes _ w) as [[quotes|e] w1]; reflexivity.
Qed.

Lemma getAvailableDates_run (limit : nat) (w : World) :
  getAvailableDates limit w
  = (match fault (fst (nextStep w)) with
     | NoFault => Ok (map date (db_upTo (todayOf w) limit (storeAtNextRequest w)))
     | ReturnsError e => Throw e
     | Throws e => Throw e
     end,
     afterRead (SelectDatesUpTo (todayOf w) limit) w).
Proof.
  unfold getAvailableDates, bind, todayString. rewrite storeCall_read.
  unfold readAnswer. destruct (fault (fst (nextStep w))); reflexivity.
Qed.

Lemma getRecentQuotes_run (limit : nat) (w : World) :
  getRecentQuotes limit w
  = (match fault (fst (nextStep w)) with
     | NoFault =>
         Ok (map (fun l => (joined (storeAtNextRequest w) l, date l))
               (db_upTo (todayOf w) limit (storeAtNextRequest w)))
     | ReturnsError e => Throw e
     | Throws e => Throw e
     end,
     afterRead (SelectQuotesUpTo (todayOf w) limit) w).
Proof.
  unfold getRecentQuotes, bind, todayString. rewrite storeCall_read.
  unfold readAnswer. destruct (fault (fst (nextStep w))); reflexivity.
Qed.

(** X13.  The route of a date, end to end.  The handler never throws.  A date
    that is not ten characters of the form YYYY-MM-DD is answered 400
    before the store is asked; a well-formed date after today is
    answered 404, again without a request to the store.  Otherwise the
    answer follows the service: 200 with the record, which is published
    for that date; 404 when there is none, also when the store answers
    the query with an error; 500 with a fixed message when the query
    throws.  A published date up to today is answered 200 with its
    record when the store answers. *)
Theorem getQuoteForDate_route (development : bool) (date : string) (w : World) :
  exists r w',
    route development (quoteController.getQuoteForDate date) w = (Ok r, w')
    /\ (isDateFormat date = false ->
        w' = w
        /\ r = {| status := 400;
                  body := ErrorBody "Invalid date format. Use YYYY-MM-DD" 400
                            (if development
                             then Some "Invalid date format. Use YYYY-MM-DD" else None) |})
    /\ (isDateFormat date = true -> Js.gt date (todayOf w) = true ->
        w' = w /\ status r = 404%Z)
    /\ (isDateFormat date = true ->
        match getQuoteForDate date w with
        | (Ok (Some q), _) =>
            status r = 200%Z
            /\ body r = SuccessBody (QuotePayload q)
                          ("Quote for " ++ date ++ " retrieved successfully")
            /\ published (store w') date q
        | (Ok None, _) => status r = 404%Z
        | (Throw _, _) =>
            r = {| status := 500;
                   body := ErrorBody "Failed to get quote for date" 500
                             (if development
                              then Some "Failed to get quote for date" else None) |}
        end)
    /\ (isDateFormat date = true -> forall e,
          fault (fst (nextStep w)) = ReturnsError e -> status r = 404%Z)
    /\ (forall D q,
          Cal.validDate D -> Cal.validDate (utc_date (clock w)) ->
          date = Cal.isoDate D -> ~ Cal.before (utc_date (clock w)) D ->
          wfStore (store w) -> answered w ->
          published (storeAtNextRequest w) date q ->
          status r = 200%Z
          /\ body r = SuccessBody (QuotePayload q)
                        ("Quote for " ++ date ++ " retrieved successfully")).
Proof.
  pose proof (getQuoteForDate_reply date w) as R.
  destruct (isDateFormat date) eqn:F.
  - exists (respond development
              (match fst (getQuoteForDate date w) with
               | Ok (Some q) =>
                   Json (QuotePayload q) ("Quote for " ++ date ++ " retrieved successfully")
               | Ok None =>
                   Next (createError 404
                           "No quote found for this date or date is in the future")
               | Throw _ => Next (createError 500 "Failed to get quote for date")
               end)), (snd (getQuoteForDate date w)).
    split; [apply route_run; exact R|]. split; [discriminate|].
    assert (G : forall q w1, getQuoteForDate date w = (Ok (Some q), w1) ->
                             published (store w1) date q).
    { intros q w1 H. rewrite getQuoteForDate_run in H. revert H.
      rewrite getQuoteByDate_run. destruct (Js.gt date (todayOf w)); [discriminate|].
      destruct (fault (fst (nextStep w))); try discriminate.
      destruct (db_logsByDate date (storeAtNextRequest w)) as [|[q0|] rest] eqn:D;
        try discriminate.
      intros [= <- <-]. apply db_logsByDate_found in D. exact D. }
    split; [|split; [|split]].
    + intros _ Gt. rewrite getQuoteForDate_run, getQuoteByDate_run, Gt. cbn [fst snd].
      split; reflexivity.
    + intros _. destruct (getQuoteForDate date w) as [[[q|]|e] w1] eqn:E; cbn [fst snd].
      * split; [reflexivity|]. split; [reflexivity|]. apply G. reflexivity.
      * reflexivity.
      * cbn [respond]. apply errorHandler_createError. discriminate.
    + intros _ e Fe. rewrite getQuoteForDate_run, getQuoteByDate_run, Fe.
      destruct (Js.gt date (todayOf w)); reflexivity.
    + intros D q HD Ht -> Hb Hwf Ha Hp.
      rewrite getQuoteForDate_run, getQuoteByDate_run.
      unfold todayOf. rewrite (gt_isoDate_not_after _ _ Ht HD Hb).
      unfold answered in Ha. rewrite Ha.
      rewrite (db_logsByDate_published (storeAtNextRequest w) _ q
               (wf_applyWrites _ _ Hwf) Hp).
      cbn [fst]. split; reflexivity.
  - exists (respond development
              (Next (createError 400 "Invalid date format. Use YYYY-MM-DD"))), w.
    split; [apply route_run; exact R|].
    split; [intros _; split; [reflexivity|]; cbn [respond];
            apply errorHandler_createError; discriminate|].
    split; [discriminate|]. split; [discriminate|]. split; [discriminate|].
    intros D q HD Ht -> _ _ _ _. rewrite (isDateFormat_isoDate D HD) in F. discriminate.
Qed.

(** X14.  The limit of the two listing routes.  The store is never asked for
    more than 100 dates or 50 quotes: a limit parameter below 1 or above
    the bound is answered 400 before any request to the store, and
    otherwise the one request carries the parsed limit and the listing
    sent holds at most that many entries, with [count] their number.  A
    parameter that is absent, not a number, or zero stands for the
    default, 30 dates or 10 quotes.  The parameter is read as [parseInt]
    reads it: white space of any kind in front is skipped (a no-break
    space as well), then a sign, a hexadecimal prefix and the longest
    run of digits are taken, and what follows is ignored. *)
Theorem list_routes_limit (development : bool) (limit : option string) (w : World) :
  (exists r w',
     route development (quoteController.getAvailableDates limit) w = (Ok r, w')
     /\ (((orDefault (parseInt limit) 30 < 1 \/ 100 < orDefault (parseInt limit) 30)%Z
          /\ w' = w /\ status r = 400%Z)
         \/ exists n,
              1 <= n <= 100 /\ Z.of_nat n = orDefault (parseInt limit) 30
              /\ store_log w' = store_log w ++ [SelectDatesUpTo (todayOf w) n]
              /\ (status r = 500%Z
                  \/ exists dates,
                       length dates <= n
                       /\ r = {| status := 200;
                                 body := SuccessBody (DatesPayload dates (length dates))
                                           "Available dates retrieved successfully" |})))
  /\ (exists r w',
        route development (quoteController.getRecentQuotes limit) w = (Ok r, w')
        /\ (((orDefault (parseInt limit) 10 < 1 \/ 50 < orDefault (parseInt limit) 10)%Z
             /\ w' = w /\ status r = 400%Z)
            \/ exists n,
                 1 <= n <= 50 /\ Z.of_nat n = orDefault (parseInt limit) 10
                 /\ store_log w' = store_log w ++ [SelectQuotesUpTo (todayOf w) n]
                 /\ (status r = 500%Z
                     \/ exists quotes,
                          length quotes <= n
                          /\ r = {| status := 200;
                                    body := SuccessBody (QuotesPayload quotes (length quotes))
                                              "Recent quotes retrieved successfully" |})))
  /\ (parseInt limit = None \/ parseInt limit = Some 0%Z ->
      orDefault (parseInt limit) 30 = 30%Z /\ orDefault (parseInt limit) 10 = 10%Z)
  /\ parseInt (Some (nbsp ++ "2")%string) = Some 2%Z
  /\ parseInt (Some (nl ++ " 0x1F rows")%string) = Some 31%Z
  /\ parseInt (Some "-5") = Some (-5)%Z
  /\ parseInt (Some "12abc") = Some 12%Z
  /\ parseInt (Some "abc") = None
  /\ parseInt (Some "2 ") = Some 2%Z.
Proof.
  split; [|split; [|split; [|repeat split]]].
  - pose proof (getAvailableDates_reply limit w) as R.
    set (v := orDefault (parseInt limit) 30) in *.
    destruct (Z.ltb_spec v 1) as [L|L]; [|destruct (Z.ltb_spec 100 v) as [U|U]];
      cbn [orb] in R.
    1, 2: eexists; eexists; split; [apply route_run; exact R|]; left;
          (split; [lia|]); split; [reflexivity|reflexivity].
    eexists. eexists. split; [apply route_run; exact R|]. right.
    exists (Z.to_nat v). split; [lia|]. split; [lia|].
    rewrite getAvailableDates_run. cbn [fst snd].
    split; [reflexivity|].
    destruct (fault (fst (nextStep w))); [right|left; reflexivity|left; reflexivity].
    eexists. split; [|reflexivity]. rewrite length_map.
    apply (db_upTo_facts (todayOf w) (Z.to_nat v) (storeAtNextRequest w)).
  - pose proof (getRecentQuotes_reply limit w) as R.
    set (v := orDefault (parseInt limit) 10) in *.
    destruct (Z.ltb_spec v 1) as [L|L]; [|destruct (Z.ltb_spec 50 v) as [U|U]];
      cbn [orb] in R.
    1, 2: eexists; eexists; split; [apply route_run; exact R|]; left;
          (split; [lia|]); split; [reflexivity|reflexivity].
    eexists. eexists. split; [apply route_run; exact R|]. right.
    exists (Z.to_nat v). split; [lia|]. split; [lia|].
    rewrite getRecentQuotes_run. cbn [fst snd].
    split; [reflexivity|].
    destruct (fault (fst (nextStep w))); [right|left; reflexivity|left; reflexivity].
    eexists. split; [|reflexivity]. rewrite length_map.
    apply (db_upTo_facts (todayOf w) (Z.to_nat v) (storeAtNextRequest w)).
  - intros [-> | ->]; split; reflexivity.
Qed.

Lemma respond_plain (development : bool) (reply : Reply) :
  match reply with
  | Json _ _ => True
  | Next error => exists s m, error = createError s m /\ In s [400; 404; 500]%Z
  end ->
  plainResponse development (respond development reply).
Proof.
  destruct reply as [d m|error]; [intros _; reflexivity|].
  intros (s & m & -> & Hs). cbn [respond].
  rewrite errorHandler_createError
    by (cbn in Hs; destruct Hs as [<-|[<-|[<-|[]]]]; discriminate).
  cbn. auto.
Qed.

(** X15.  The five quote routes answer with status 200, 400, 404 or 500 and
    nothing else, and their handlers never throw: a success body goes
    with 200, an error body with one of the other three, and the
    conflict answer 409 of the error handler is never sent, because the
    error of the store is replaced by a new one before the handler sees
    it.  When the store answers the query with an error, the routes of
    today and of an identifier say 404 (not found) while the two
    listings say 500; when the query throws, all four say 500. *)
Theorem routes_status (development : bool) (date : string) (limit : option string)
    (k : nat) (w : World) :
  (exists r w', route development quoteController.getTodayQuote w = (Ok r, w')
                /\ plainResponse development r)
  /\ (exists r w', route development (quoteController.getQuoteForDate date) w = (Ok r, w')
                   /\ plainResponse development r)
  /\ (exists r w', route development (quoteController.getAvailableDates limit) w = (Ok r, w')
                   /\ plainResponse development r)
  /\ (exists r w', route development (quoteController.getRecentQuotes limit) w = (Ok r, w')
                   /\ plainResponse development r)
  /\ (exists r w', route development (quoteController.getQuoteById k) w = (Ok r, w')
                   /\ plainResponse development r)
  /\ (forall e, fault (fst (nextStep w)) = ReturnsError e ->
        (forall r w', route development quoteController.getTodayQuote w = (Ok r, w') ->
           status r = 404%Z)
        /\ (forall r w', route development (quoteController.getQuoteById k) w = (Ok r, w') ->
              status r = 404%Z)
        /\ (forall r w', route development (quoteController.getAvailableDates None) w
                         = (Ok r, w') -> status r = 500%Z)
        /\ (forall r w', route development (quoteController.getRecentQuotes None) w
                         = (Ok r, w') -> status r = 500%Z))
  /\ (forall e, fault (fst (nextStep w)) = Throws e ->
        (forall r w', route development quoteController.getTodayQuote w = (Ok r, w') ->
           status r = 500%Z)
        /\ (forall r w', route development (quoteController.getQuoteById k) w = (Ok r, w') ->
              status r = 500%Z)
        /\ (forall r w', route development (quoteController.getAvailableDates None) w
                         = (Ok r, w') -> status r = 500%Z)
        /\ (forall r w', route development (quoteController.getRecentQuotes None) w
                         = (Ok r, w') -> status r = 500%Z)).
Proof.
  assert (P : forall s m, In s [400; 404; 500]%Z ->
                exists s' m', createError s m = createError s' m' /\ In s' [400; 404; 500]%Z)
    by (intros s m H; exists s, m; auto).
  split; [|split; [|split; [|split; [|split; [|split]]]]].
  - eexists. eexists. split; [apply route_run, getTodayQuote_reply|].
    apply respond_plain. destruct (fst (getTodayQuote w)) as [[q|]|e];
      [exact I|apply P; cbn; auto|apply P; cbn; auto].
  - pose proof (getQuoteForDate_reply date w) as R.
    destruct (isDateFormat date); eexists; eexists;
      (split; [apply route_run; exact R|]); apply respond_plain.
    + destruct (fst (getQuoteForDate date w)) as [[q|]|e];
        [exact I|apply P; cbn; auto|apply P; cbn; auto].
    + apply P; cbn; auto.
  - pose proof (getAvailableDates_reply limit w) as R.
    destruct (_ || _)%bool; eexists; eexists;
      (split; [apply route_run; exact R|]); apply respond_plain.
    + apply P; cbn; auto.
    + destruct (fst (getAvailableDates _ w)) as [dates|e]; [exact I|apply P; cbn; auto].
  - pose proof (getRecentQuotes_reply limit w) as R.
    destruct (_ || _)%bool; eexists; eexists;
      (split; [apply route_run; exact R|]); apply respond_plain.
    + apply P; cbn; auto.
    + destruct (fst (getRecentQuotes _ w)) as [quotes|e]; [exact I|apply P; cbn; auto].
  - eexists. eexists. split; [apply route_run, getQuoteById_reply|].
    apply respond_plain. destruct (fst (getQuoteById k w)) as [[q|]|e];
      [exact I|apply P; cbn; auto|apply P; cbn; auto].
  - intros e F. split; [|split; [|split]]; intros r w'.
    + rewrite (route_run _ _ _ _ _ (getTodayQuote_reply w)), getTodayQuote_run, F.
      intros [= <- _]. reflexivity.
    + rewrite (route_run _ _ _ _ _ (getQuoteById_reply k w)), getQuoteById_run, F.
      intros [= <- _]. reflexivity.
    + rewrite (route_run _ _ _ _ _ (getAvailableDates_reply None w)).
      cbn [parseInt orDefault Z.ltb Z.compare orb]. rewrite getAvailableDates_run, F.
      intros [= <- _]. reflexivity.
    + rewrite (route_run _ _ _ _ _ (getRecentQuotes_reply None w)).
      cbn [parseInt orDefault Z.ltb Z.compare orb]. rewrite getRecentQuotes_run, F.
      intros [= <- _]. reflexivity.
  - intros e F. split; [|split; [|split]]; intros r w'.
    + rewrite (route_run _ _ _ _ _ (getTodayQuote_reply w)), getTodayQuote_run, F.
      intros [= <- _]. reflexivity.
    + rewrite (route_run _ _ _ _ _ (getQuoteById_reply k w)), getQuoteById_run, F.
      intros [= <- _]. reflexivity.
    + rewrite (route_run _ _ _ _ _ (getAvailableDates_reply None w)).
      cbn [parseInt orDefault Z.ltb Z.compare orb]. rewrite getAvailableDates_run, F.
      intros [= <- _]. reflexivity.
    + rewrite (route_run _ _ _ _ _ (getRecentQuotes_reply None w)).
      cbn [parseInt orDefault Z.ltb Z.compare orb]. rewrite getRecentQuotes_run, F.
      intros [= <- _]. reflexivity.
Qed.

(** ** The structured answer *)

Lemma trimStart_before_brace (pre r : string) :
  exists pre',
    Js.trimStart (pre ++ String "{" r) = (pre' ++ String "{" r)%string
    /\ (~ occurs "{" pre -> ~ occurs "{" pre').
Proof.
  destruct (trimStart_suffix (pre ++ String "{" r)) as (p & E & Hp).
  destruct (prefix_before "{" pre r p _ E) as (pre' & E1 & E2).
  - intros O. specialize (Hp _ O). discriminate Hp.
  - exists pre'. split; [exact E2|]. intros N O. apply N. rewrite E1.
    apply occurs_app, O.
Qed.

Lemma fromFirst_skips (c : ascii) (pre r : string) :
  ~ occurs c pre -> Regex.fromFirst c (pre ++ String c r) = Some (String c r).
Proof.
  induction pre as [|a pre IH]; intros N.
  - rewrite append_nil. cbn [Regex.fromFirst]. rewrite Ascii.eqb_refl. reflexivity.
  - rewrite append_cons. cbn [Regex.fromFirst]. cbn [occurs] in N.
    destruct (Ascii.eqb_spec a c) as [E|E]; [tauto|]. apply IH. tauto.
Qed.

Lemma throughLast_absent (c : ascii) (s : string) :
  ~ occurs c s -> Regex.throughLast c s = None.
Proof.
  induction s as [|a s IH]; [reflexivity|]. cbn [occurs Regex.throughLast]. intros N.
  rewrite IH by tauto. destruct (Ascii.eqb_spec a c); [tauto|reflexivity].
Qed.

Lemma throughLast_keeps (c : ascii) (body post : string) :
  ~ occurs c post ->
  Regex.throughLast c (body ++ String c post)
  = Some (body ++ String c EmptyString)%string.
Proof.
  intros N. induction body as [|a body IH].
  - rewrite !append_nil. cbn [Regex.throughLast].
    rewrite (throughLast_absent c post N), Ascii.eqb_refl. reflexivity.
  - rewrite !append_cons. cbn [Regex.throughLast]. rewrite IH. reflexivity.
Qed.

(** The text handed to [JSON.parse] when the answer holds one block in
    braces, with no opening brace before it and no closing brace behind
    it. *)
Lemma jsonBlock_of_block (pre mid post : string) :
  ~ occurs "{" pre -> ~ occurs "}" post ->
  jsonBlock (pre ++ String "{" (mid ++ String "}" post))
  = String "{" (mid ++ String "}" EmptyString).
Proof.
  intros Npre Npost. unfold jsonBlock, Js.trim.
  destruct (trimStart_before_brace pre (mid ++ String "}" post)) as (pre' & E & H).
  rewrite E. specialize (H Npre).
  replace (pre' ++ String "{" (mid ++ String "}" post))%string
    with ((pre' ++ String "{" mid) ++ String "}" post)%string
    by (rewrite append_assoc, append_cons; reflexivity).
  rewrite (trimEnd_nonspace _ post "}") by reflexivity.
  rewrite append_assoc, append_cons.
  unfold Regex.matchBraces. rewrite (fromFirst_skips "{" pre' _ H).
  change (String "{" (mid ++ String "}" (Js.trimEnd post)))
    with (String "{" mid ++ String "}" (Js.trimEnd post))%string.
  rewrite (throughLast_keeps "}" (String "{" mid) (Js.trimEnd post)
             (trimEnd_occurs "}" post Npost)).
  reflexivity.
Qed.

(** X16.  Prose around the block is ignored.  When the answer holds one block
    in braces, with no opening brace in the text before it and no
    closing brace in the text behind it, [JSON.parse] is handed exactly
    the block; the structured attempt then gives what it gives on the
    block alone, and an answer whose block is accepted parses to the
    record of the block. *)
Theorem parseAIResponse_ignores_prose (pre mid post : string) :
  ~ occurs "{" pre -> ~ occurs "}" post ->
  jsonBlock (pre ++ "{" ++ mid ++ "}" ++ post) = ("{" ++ mid ++ "}")%string
  /\ parseJsonFormat (pre ++ "{" ++ mid ++ "}" ++ post)
     = parseJsonFormat ("{" ++ mid ++ "}")
  /\ (forall q, parseJsonFormat ("{" ++ mid ++ "}") = Ok q ->
        parseAIResponse (pre ++ "{" ++ mid ++ "}" ++ post) = Ok q).
Proof.
  intros Npre Npost.
  assert (B : forall pre' post', ~ occurs "{" pre' -> ~ occurs "}" post' ->
                jsonBlock (pre' ++ "{" ++ mid ++ "}" ++ post') = ("{" ++ mid ++ "}")%string).
  { intros pre' post' H1 H2. apply (jsonBlock_of_block pre' mid post' H1 H2). }
  assert (B0 : jsonBlock ("{" ++ mid ++ "}") = ("{" ++ mid ++ "}")%string).
  { apply (jsonBlock_of_block EmptyString mid EmptyString); intros []. }
  assert (P : parseJsonFormat (pre ++ "{" ++ mid ++ "}" ++ post)
              = parseJsonFormat ("{" ++ mid ++ "}")).
  { unfold parseJsonFormat. rewrite (B pre post Npre Npost), B0. reflexivity. }
  split; [apply B; assumption|]. split; [exact P|].
  intros q H. unfold parseAIResponse. rewrite P, H. reflexivity.
Qed.

Lemma parseAIResponse_ignores_prose_witness :
  parseAIResponse
    ("Sure: " ++ "{"
     ++ (jsonField "shlok" "A" ++ ", " ++ jsonField "meaning_hindi" "B" ++ ", "
         ++ jsonField "meaning_english" "C" ++ ", " ++ jsonField "source" "D")
     ++ "}" ++ " Hope it helps.")
  = Ok {| shlok := "A"; meaning_hindi := "B"; meaning_english := "C";
          source := "D"; category := None |}.
Proof.
  refine (proj2 (proj2 (parseAIResponse_ignores_prose
                          "Sure: "
                          (jsonField "shlok" "A" ++ ", " ++ jsonField "meaning_hindi" "B"
                           ++ ", " ++ jsonField "meaning_english" "C" ++ ", "
                           ++ jsonField "source" "D")
                          " Hope it helps." _ _)) _ _).
  - cbn. intuition discriminate.
  - cbn. intuition discriminate.
  - vm_compute. reflexivity.
Defined.

Lemma joined_fixed (t : string) : Json.pairAhead t = false -> Json.joined t = t.
Proof.
  unfold Json.pairAhead, Json.joined.
  destruct (Json.highSurrogate t) as [[h r]|]; [|reflexivity].
  destruct (Json.lowSurrogate r) as [[l r']|]; [discriminate|reflexivity].
Qed.

Lemma parseChars_plain (s rest : string) :
  plain s = true -> Json.parseChars (s ++ String "034" rest) = Some (s, rest).
Proof.
  induction s as [|c s IH]; [reflexivity|].
  cbn [plain]. intros H. apply andb_true_iff in H as [H Hs].
  apply andb_true_iff in H as [H HP].
  apply andb_true_iff in H as [H H92]. apply andb_true_iff in H as [H32 H34].
  apply negb_true_iff in H34, H92, HP. apply Nat.leb_le in H32.
  rewrite append_cons. cbn [Json.parseChars]. rewrite H34, H92.
  destruct (Nat.ltb_spec (Js.code c) 32) as [L|L]; [lia|].
  rewrite (IH Hs), (joined_fixed _ HP). reflexivity.
Qed.

(** One member of an object whose key and value are plain string
    literals, written [key: value] with one space behind the colon. *)
Lemma parseMembers_field (f : nat) (s0 k v tail : string) :
  plain k = true -> plain v = true ->
  Json.skipWs s0
  = String "034" (k ++ String "034" (String ":" (String " "
      (String "034" (v ++ String "034" tail))))) ->
  Json.parseMembers (S (S f)) s0
  = match Json.skipWs tail with
    | String d r4 =>
        if Json.isChar 44 d then
          match Json.parseMembers (S f) r4 with
          | Some (ms, r5) => Some ((k, Json.Str v) :: ms, r5)
          | None => None
          end
        else if Json.isChar 125 d then Some ([(k, Json.Str v)], r4)
        else None
    | EmptyString => None
    end.
Proof.
  intros Hk Hv E.
  cbn [Json.parseMembers]. rewrite E.
  replace (Json.isChar 34 "034") with true by reflexivity.
  rewrite (parseChars_plain k _ Hk).
  cbn [Json.skipWs]. replace (Json.isWs ":") with false by reflexivity.
  replace (Json.isChar 58 ":") with true by reflexivity.
  cbn [Json.parseValue Json.skipWs].
  replace (Json.isWs " ") with true by reflexivity.
  replace (Json.isWs "034") with false by reflexivity.
  replace (Json.isChar 123 "034") with false by reflexivity.
  replace (Json.isChar 91 "034") with false by reflexivity.
  replace (Json.isChar 34 "034") with true by reflexivity.
  rewrite (parseChars_plain v _ Hv). reflexivity.
Qed.

Lemma skipWs_idempotent (s : string) : Json.skipWs (Json.skipWs s) = Json.skipWs s.
Proof.
  induction s as [|c s IH]; [reflexivity|]. cbn [Json.skipWs].
  destruct (Json.isWs c) eqn:E; [exact IH|]. cbn [Json.skipWs]. rewrite E. reflexivity.
Qed.

Lemma parseMembers_skipWs (f : nat) (s : string) :
  Json.parseMembers f (Json.skipWs s) = Json.parseMembers f s.
Proof.
  destruct f as [|f]; [reflexivity|]. cbn [Json.parseMembers].
  rewrite skipWs_idempotent. reflexivity.
Qed.

Lemma parseMembers_field_more (f : nat) (s0 k v tail r4 r5 : string)
    (ms : list (string * Json.value)) :
  plain k = true -> plain v = true ->
  Json.skipWs s0
  = String "034" (k ++ String "034" (String ":" (String " "
      (String "034" (v ++ String "034" tail))))) ->
  Json.skipWs tail = String "," r4 ->
  Json.parseMembers (S f) r4 = Some (ms, r5) ->
  Json.parseMembers (S (S f)) s0 = Some ((k, Json.Str v) :: ms, r5).
Proof.
  intros Hk Hv E T M. rewrite (parseMembers_field f s0 k v tail Hk Hv E), T.
  replace (Json.isChar 44 ",") with true by reflexivity. rewrite M. reflexivity.
Qed.

Lemma parseMembers_field_last (f : nat) (s0 k v tail r4 : string) :
  plain k = true -> plain v = true ->
  Json.skipWs s0
  = String "034" (k ++ String "034" (String ":" (String " "
      (String "034" (v ++ String "034" tail))))) ->
  Json.skipWs tail = String "}" r4 ->
  Json.parseMembers (S (S f)) s0 = Some ([(k, Json.Str v)], r4).
Proof.
  intros Hk Hv E T. rewrite (parseMembers_field f s0 k v tail Hk Hv E), T. reflexivity.
Qed.

Lemma parseValue_object (f : nat) (body rest : string) (c1 : ascii) (r1 : string)
    (ms : list (string * Json.value)) :
  Json.skipWs body = String c1 r1 -> Json.isChar 125 c1 = false ->
  Json.parseMembers f body = Some (ms, rest) ->
  Json.parseValue (S f) (String "{" body) = Some (Json.Obj ms, rest).
Proof.
  intros E N H. cbn [Json.parseValue Json.skipWs].
  replace (Json.isWs "{") with false by reflexivity.
  replace (Json.isChar 123 "{") with true by reflexivity.
  rewrite E, N, <- E, parseMembers_skipWs, H. reflexivity.
Qed.

Lemma parse_requestedFormat (s h e src c : string) :
  plain s = true -> plain h = true -> plain e = true -> plain src = true ->
  plain c = true ->
  Json.parse (requestedFormat s h e src c)
  = Some (Json.Obj [("shlok", Json.Str s); ("meaning_hindi", Json.Str h);
                    ("meaning_english", Json.Str e); ("source", Json.Str src);
                    ("category", Json.Str c)]).
Proof.
  intros Hs Hh He Hsrc Hc. unfold Json.parse.
  assert (F : exists f, 2 * String.length (requestedFormat s h e src c) + 2
                        = S (S (S (S (S (S (S (S f)))))))).
  { assert (R : exists rest, requestedFormat s h e src c
                             = String "{" (String "010" (String " " rest)))
      by (eexists; reflexivity).
    destruct R as [rest ->]. cbn [String.length]. exists (2 * String.length rest). lia. }
  destruct F as [f ->].
  unfold requestedFormat, jsonField, dq, nl. rewrite !append_assoc.
  rewrite append_cons, append_nil.
  match goal with
  | |- context [Json.parseValue _ (String "{" ?body)] =>
      assert (M : Json.parseMembers (S (S (S (S (S (S (S f))))))) body
                  = Some ([("shlok", Json.Str s); ("meaning_hindi", Json.Str h);
                           ("meaning_english", Json.Str e); ("source", Json.Str src);
                           ("category", Json.Str c)], EmptyString));
      [|rewrite (parseValue_object _ body EmptyString "034" _ _ eq_refl eq_refl M);
        reflexivity]
  end.
  eapply (parseMembers_field_more _ _ "shlok" s);
    [reflexivity|exact Hs|reflexivity|reflexivity|].
  eapply (parseMembers_field_more _ _ "meaning_hindi" h);
    [reflexivity|exact Hh|reflexivity|reflexivity|].
  eapply (parseMembers_field_more _ _ "meaning_english" e);
    [reflexivity|exact He|reflexivity|reflexivity|].
  eapply (parseMembers_field_more _ _ "source" src);
    [reflexivity|exact Hsrc|reflexivity|reflexivity|].
  eapply (parseMembers_field_last _ _ "category" c);
    [reflexivity|exact Hc|reflexivity|reflexivity].
Qed.

Lemma trim_nonblank (s : string) : Js.trim s <> EmptyString -> s <> EmptyString.
Proof. intros N ->. apply N. reflexivity. Qed.

Lemma requestedFormat_block (s h e src c : string) :
  exists mid, requestedFormat s h e src c = String "{" (mid ++ String "}" EmptyString).
Proof.
  exists (nl ++ "  " ++ jsonField "shlok" s ++ "," ++ nl
          ++ "  " ++ jsonField "meaning_hindi" h ++ "," ++ nl
          ++ "  " ++ jsonField "meaning_english" e ++ "," ++ nl
          ++ "  " ++ jsonField "source" src ++ "," ++ nl
          ++ "  " ++ jsonField "category" c ++ nl)%string.
  unfold requestedFormat.
  change (String "{" ?x) with ("{" ++ x)%string.
  rewrite !append_assoc. reflexivity.
Qed.

(** X17.  The parser accepts what the prompt asks for.  An answer in the JSON
    layout of the prompt, whose five values are plain text (no quote, no
    backslash, no control character) and whose four mandatory values are
    not blank, parses to the record of its trimmed values, category
    included; prose before and behind the block does not matter as long
    as it has no opening brace before and no closing brace behind. *)
Theorem parseAIResponse_requestedFormat (pre post s h e src c : string) :
  plain s = true -> plain h = true -> plain e = true -> plain src = true ->
  plain c = true ->
  Js.trim s <> EmptyString -> Js.trim h <> EmptyString ->
  Js.trim e <> EmptyString -> Js.trim src <> EmptyString ->
  ~ occurs "{" pre -> ~ occurs "}" post ->
  parseAIResponse (pre ++ requestedFormat s h e src c ++ post)
  = Ok {| shlok := Js.trim s; meaning_hindi := Js.trim h;
          meaning_english := Js.trim e; source := Js.trim src;
          category := Some (Js.trim c) |}.
Proof.
  intros Hs Hh He Hsrc Hc Ns Nh Ne Nsrc Npre Npost.
  pose proof (parse_requestedFormat s h e src c Hs Hh He Hsrc Hc) as P.
  destruct (requestedFormat_block s h e src c) as [mid E]. rewrite E in *.
  assert (B : jsonBlock (pre ++ String "{" (mid ++ String "}" EmptyString) ++ post)
              = String "{" (mid ++ String "}" EmptyString)).
  { replace (String "{" (mid ++ String "}" EmptyString) ++ post)%string
      with (String "{" (mid ++ String "}" post))
      by (rewrite append_cons, append_assoc; reflexivity).
    apply (jsonBlock_of_block pre mid post Npre Npost). }
  unfold parseAIResponse.
  rewrite (parseJsonFormat_accepts _
             [("shlok", Json.Str s); ("meaning_hindi", Json.Str h);
              ("meaning_english", Json.Str e); ("source", Json.Str src);
              ("category", Json.Str c)] s h e src (Some (Js.trim c)));
    try reflexivity; try (apply trim_nonblank; assumption).
  rewrite B. exact P.
Qed.

Lemma parseAIResponse_requestedFormat_witness :
  parseAIResponse ("Answer: " ++ requestedFormat " A" "B" "C" "D " "karma" ++ EmptyString)
  = Ok {| shlok := "A"; meaning_hindi := "B"; meaning_english := "C";
          source := "D"; category := Some "karma" |}
  /\ parseAIResponse
       (EmptyString ++ requestedFormat (nbsp ++ "A") ("B" ++ nbsp) "C" "D" "karma"
        ++ " (done)")
     = Ok {| shlok := "A"; meaning_hindi := "B"; meaning_english := "C";
             source := "D"; category := Some "karma" |}.
Proof.
  split.
  - apply (parseAIResponse_requestedFormat "Answer: " EmptyString " A" "B" "C" "D " "karma");
      try reflexivity; try discriminate.
    + cbn. intuition discriminate.
    + intros [].
  - apply (parseAIResponse_requestedFormat EmptyString " (done)"
             (nbsp ++ "A") ("B" ++ nbsp) "C" "D" "karma");
      try reflexivity; try discriminate.
    + intros [].
    + cbn. intuition discriminate.
Defined.

(** ** The prompt *)

Lemma Substring_refl (t : string) : Substring t t.
Proof. exists EmptyString, EmptyString. induction t as [|a t IH]; [reflexivity|].
  rewrite append_nil in *. rewrite append_cons, <- IH. reflexivity.
Qed.

Lemma Substring_app_r (t a x : string) : Substring t x -> Substring t (a ++ x).
Proof.
  intros (pre & post & ->). exists (a ++ pre)%string, post.
  rewrite append_assoc. reflexivity.
Qed.

Lemma Substring_app_l (t x b : string) : Substring t x -> Substring t (x ++ b).
Proof.
  intros (pre & post & ->). exists pre, (post ++ b)%string.
  rewrite !append_assoc. reflexivity.
Qed.

Lemma Substring_concat (sep x : string) (l : list string) :
  In x l -> Substring x (String.concat sep l).
Proof.
  induction l as [|a l IH]; [intros []|].
  intros [->|Hin].
  - destruct l as [|b l]; [apply Substring_refl|].
    cbn [String.concat]. apply Substring_app_l, Substring_refl.
  - destruct l as [|b l]; [destruct Hin|].
    change (String.concat sep (a :: b :: l))
      with (a ++ sep ++ String.concat sep (b :: l))%string.
    apply Substring_app_r, Substring_app_r, IH, Hin.
Qed.

Lemma promptText_contents (category : string) (recent : list string) :
  Substring ("for category: " ++ category)
    (promptText category
       (match recent with [] => EmptyString | _ => uniquenessNoteText recent end))
  /\ Substring (jsonField "category" category)
       (promptText category
          (match recent with [] => EmptyString | _ => uniquenessNoteText recent end))
  /\ (forall shlok, In shlok recent ->
        Substring ("- " ++ shlok)
          (promptText category
             (match recent with [] => EmptyString | _ => uniquenessNoteText recent end))).
Proof.
  set (note := match recent with [] => EmptyString | _ => uniquenessNoteText recent end).
  split; [|split].
  - exists (nl ++ "Generate one completely unique Shlok from Indian scriptures ")%string.
    eexists. unfold promptText, nl. rewrite !append_assoc. reflexivity.
  - unfold promptText, jsonField.
    repeat lazymatch goal with
           | |- Substring _ (dq ++ "category" ++ _)%string => fail
           | |- _ => apply Substring_app_r
           end.
    exists EmptyString. eexists. rewrite !append_assoc. reflexivity.
  - intros shlok Hin.
    assert (N : note = uniquenessNoteText recent)
      by (subst note; destruct recent; [destruct Hin|reflexivity]).
    rewrite N. unfold promptText.
    do 3 apply Substring_app_r. apply Substring_app_l.
    unfold uniquenessNoteText. apply Substring_app_r, Substring_app_l.
    apply Substring_concat. apply in_map_iff. exists shlok. auto.
Qed.

(** X18.  What the prompt tells the model.  [getQuoteGenerationPrompt] never
    throws and issues two reads.  The prompt names the least used
    category, in its instruction and in the JSON layout it asks for, and
    lists each of the recent texts, of which there are at most fifteen,
    as an entry to avoid; without recent texts it is the bare
    template. *)
Theorem getQuoteGenerationPrompt_contents (w : World) :
  exists (category : string) (recent : list string) (prompt : string),
    getLeastUsedCategory w = (Ok category, afterRead SelectUsage w)
    /\ getRecentlyUsedQuotes 15 (afterRead SelectUsage w)
       = (Ok recent, afterRead (SelectRecent 15) (afterRead SelectUsage w))
    /\ getQuoteGenerationPrompt w
       = (Ok prompt, afterRead (SelectRecent 15) (afterRead SelectUsage w))
    /\ length recent <= 15
    /\ Substring ("for category: " ++ category) prompt
    /\ Substring (jsonField "category" category) prompt
    /\ (forall shlok, In shlok recent -> Substring ("- " ++ shlok) prompt)
    /\ (recent = [] -> prompt = promptText category EmptyString).
Proof.
  unfold getQuoteGenerationPrompt, bind.
  rewrite getLeastUsedCategory_run, getRecentlyUsedQuotes_run. cbn [ret].
  eexists. eexists. eexists.
  split; [reflexivity|]. split; [reflexivity|]. split; [reflexivity|].
  split.
  { destruct (fault (fst (nextStep (afterRead SelectUsage w)))); cbn [length]; try lia.
    etransitivity; [apply truthyShloks_length|apply db_recent_length]. }
  split; [apply promptText_contents|]. split; [apply promptText_contents|].
  split; [apply promptText_contents|].
  intros E. rewrite E. reflexivity.
Qed.

(** ** The revision before the uniqueness checks *)

Lemma getRandomCategory_run (w : World) :
  getRandomCategory w
  = (Ok (nth (hd 0 (random_env w) mod 8) QUOTE_CATEGORIES EmptyString), afterDraw w).
Proof. unfold getRandomCategory, bind. rewrite randomIndex_run. reflexivity. Qed.

Lemma QUOTE_CATEGORIES_nth (i : nat) :
  i < 8 -> In (nth i QUOTE_CATEGORIES EmptyString) QUOTE_CATEGORIES.
Proof. intros H. apply nth_In. exact H. Qed.

(** Every category has exactly one entry in the table of the earlier
    revision. *)
Lemma earlier_table (i : nat) :
  i < 8 ->
  exists k,
    k < 8
    /\ List.filter (hasCategory (nth i QUOTE_CATEGORIES EmptyString)) Earlier.fallbackQuotes
       = [nth k Earlier.fallbackQuotes noQuote]
    /\ category (nth k Earlier.fallbackQuotes noQuote)
       = Some (nth i QUOTE_CATEGORIES EmptyString)
    /\ wellFormedb (nth k Earlier.fallbackQuotes noQuote) = true.
Proof.
  intros H.
  destruct i as [|i]; [exists 0; vm_compute; repeat split; lia|].
  destruct i as [|i]; [exists 3; vm_compute; repeat split; lia|].
  destruct i as [|i]; [exists 5; vm_compute; repeat split; lia|].
  destruct i as [|i]; [exists 6; vm_compute; repeat split; lia|].
  destruct i as [|i]; [exists 1; vm_compute; repeat split; lia|].
  destruct i as [|i]; [exists 2; vm_compute; repeat split; lia|].
  destruct i as [|i]; [exists 4; vm_compute; repeat split; lia|].
  destruct i as [|i]; [exists 7; vm_compute; repeat split; lia|].
  lia.
Qed.

Lemma wellFormedb_wellFormed (q : AIGeneratedQuote) :
  wellFormedb q = true -> wellFormed q.
Proof.
  unfold wellFormedb, wellFormed. intros H.
  repeat (apply andb_true_iff in H as [H ?]).
  rewrite <- !truthy_nonempty. auto.
Qed.

Lemma withCategory_same (q : AIGeneratedQuote) (c : string) :
  category q = Some c -> withCategory q c = q.
Proof. destruct q. cbn. intros ->. reflexivity. Qed.

Lemma earlier_getFallbackQuote_run (w : World) :
  exists entry,
    Earlier.getFallbackQuote w = (Ok entry, afterDraw (afterDraw w))
    /\ List.filter (hasCategory (nth (hd 0 (random_env w) mod 8) QUOTE_CATEGORIES EmptyString))
         Earlier.fallbackQuotes = [entry]
    /\ category entry = Some (nth (hd 0 (random_env w) mod 8) QUOTE_CATEGORIES EmptyString)
    /\ In entry Earlier.fallbackQuotes
    /\ wellFormed entry.
Proof.
  assert (B : hd 0 (random_env w) mod 8 < 8) by (apply Nat.mod_upper_bound; lia).
  destruct (earlier_table _ B) as (k & Hk & F & C & W).
  exists (nth k Earlier.fallbackQuotes noQuote).
  split; [|split; [exact F|split; [exact C|split]]].
  - unfold Earlier.getFallbackQuote, bind.
    rewrite getRandomCategory_run. rewrite F. cbn [isEmpty length].
    rewrite randomIndex_run. rewrite Nat.mod_1_r. cbn [nth].
    unfold ret. rewrite (withCategory_same _ _ C). reflexivity.
  - apply nth_In. exact Hk.
  - apply wellFormedb_wellFormed, W.
Qed.

(** X19.  The fallback of the earlier revision returns an entry of its
    table as it stands there: the category drawn first selects the one
    entry the table has for it, so the second draw decides nothing and
    the label put on the result is the entry's own. *)
Theorem earlier_getFallbackQuote_entry (w : World) :
  exists entry,
    Earlier.getFallbackQuote w = (Ok entry, afterDraw (afterDraw w))
    /\ In entry Earlier.fallbackQuotes
    /\ In (nth (hd 0 (random_env w) mod 8) QUOTE_CATEGORIES EmptyString) QUOTE_CATEGORIES
    /\ category entry = Some (nth (hd 0 (random_env w) mod 8) QUOTE_CATEGORIES EmptyString)
    /\ (forall other, In other Earlier.fallbackQuotes ->
          category other = category entry -> other = entry)
    /\ wellFormed entry.
Proof.
  destruct (earlier_getFallbackQuote_run w) as (entry & R & F & C & I & W).
  exists entry. repeat split; try assumption; try apply W.
  - apply QUOTE_CATEGORIES_nth, Nat.mod_upper_bound. lia.
  - intros other Hin Hc.
    assert (Hf : In other (List.filter
              (hasCategory (nth (hd 0 (random_env w) mod 8) QUOTE_CATEGORIES EmptyString))
              Earlier.fallbackQuotes)).
    { apply filter_In. split; [exact Hin|].
      unfold hasCategory. rewrite Hc, C. apply String.eqb_refl. }
    rewrite F in Hf. destruct Hf as [E|[]]. symmetry. exact E.
Qed.

Lemma earlier_parseAIResponse_cases (response : string) (w : World) :
  Earlier.parseAIResponse response w
  = match parseTextFormatResponse response with
    | Ok q => (Ok q, w)
    | Throw _ => Earlier.getFallbackQuote w
    end.
Proof.
  unfold Earlier.parseAIResponse, parseTextFormatResponse, try_catch.
  cbv zeta.
  destruct (negb (Js.truthy (labelled response "Shlok:"))
            || negb (Js.truthy (labelled response "Meaning Hindi:"))
            || negb (Js.truthy (labelled response "Meaning English:"))
            || negb (Js.truthy (if Js.truthy (labelled response "Source:")
                                then labelled response "Source:"
                                else "Unknown Scripture")));
    reflexivity.
Qed.

Lemma earlierTrace_draw (w0 w : World) :
  earlierTrace w0 w -> earlierTrace w0 (afterDraw w).
Proof. intros H. exact H. Qed.

Lemma earlier_getFallbackQuote_trace (w0 w : World) :
  earlierTrace w0 w ->
  exists q w', Earlier.getFallbackQuote w = (Ok q, w')
               /\ wellFormed q /\ earlierTrace w0 w'.
Proof.
  intros T. destruct (earlier_getFallbackQuote_run w) as (entry & R & _ & _ & _ & W).
  exists entry, (afterDraw (afterDraw w)). split; [exact R|]. split; [exact W|].
  apply earlierTrace_draw, earlierTrace_draw, T.
Qed.

Lemma earlierTrace_refl (w : World) : earlierTrace w w.
Proof. unfold earlierTrace. auto. Qed.

Lemma parseTextFormatResponse_wellFormed (response : string) (q : AIGeneratedQuote) :
  parseTextFormatResponse response = Ok q -> wellFormed q.
Proof.
  intros H. apply parseTextFormatResponse_ok in H as (S & H & E & ->).
  unfold wellFormed. cbn. repeat split; try assumption.
  destruct (Js.truthy (labelled response "Source:")) eqn:T.
  - apply truthy_nonempty, T.
  - discriminate.
Qed.

(** X20.  The earlier generator always returns a record, and the record is
    complete: whatever the endpoint answers, the four mandatory fields
    are non-empty.  It never turns to the store, and it sends at most one
    request, whose prompt names one of the eight categories. *)
Theorem earlier_generateQuoteWithAI_complete (w : World) :
  exists q w',
    Earlier.generateQuoteWithAI w = (Ok q, w')
    /\ wellFormed q
    /\ earlierTrace w w'.
Proof.
  unfold Earlier.generateQuoteWithAI, try_catch, bind, getOpenAIClient.
  destruct (api_key w) eqn:K.
  2:{ apply earlier_getFallbackQuote_trace, earlierTrace_refl. }
  unfold Earlier.getQuoteGenerationPrompt, bind. rewrite getRandomCategory_run.
  unfold ret at 1.
  set (c := nth (hd 0 (random_env w) mod 8) QUOTE_CATEGORIES EmptyString).
  assert (Hc : In c QUOTE_CATEGORIES)
    by (apply QUOTE_CATEGORIES_nth, Nat.mod_upper_bound; lia).
  assert (T : forall r,
             earlierTrace w
               {| store := store (afterDraw w); store_env := store_env (afterDraw w);
                  ai_env := r; random_env := random_env (afterDraw w);
                  api_key := api_key (afterDraw w); clock := clock (afterDraw w);
                  store_log := store_log (afterDraw w);
                  ai_log := ai_log (afterDraw w) ++ [Earlier.request (Earlier.promptText c)] |}).
  { intros r. unfold earlierTrace. cbn. repeat split. right. exists c. auto. }
  unfold createCompletion.
  destruct (ai_env (afterDraw w)) as [|[content|e] r] eqn:A.
  - cbn [lift responseText]. apply earlier_getFallbackQuote_trace, (T _).
  - destruct content as [s|].
    + unfold lift, responseText. destruct (Js.truthy s).
      * rewrite earlier_parseAIResponse_cases.
        destruct (parseTextFormatResponse s) as [q|e] eqn:P.
        -- unfold ret. eexists. eexists. split; [reflexivity|].
           split; [exact (parseTextFormatResponse_wellFormed _ _ P)|apply (T _)].
        -- destruct (earlier_getFallbackQuote_trace w _ (T r))
             as (q & w' & R & W & T').
           rewrite R. unfold ret. eauto.
      * apply earlier_getFallbackQuote_trace, (T _).
    + cbn [lift responseText]. apply earlier_getFallbackQuote_trace, (T _).
  - apply earlier_getFallbackQuote_trace, (T _).
Qed.

(** ** The label format *)

Lemma exampleFormat_fields (s h e src c : string) :
  lineValue s = true -> lineValue h = true -> lineValue e = true ->
  lineValue src = true -> lineValue c = true ->
  labelled (exampleFormat s h e src c) "Shlok:" = Js.trim s
  /\ labelled (exampleFormat s h e src c) "Meaning Hindi:" = Js.trim h
  /\ labelled (exampleFormat s h e src c) "Meaning English:" = Js.trim e
  /\ labelled (exampleFormat s h e src c) "Source:" = Js.trim src
  /\ Regex.capture "Category:" (exampleFormat s h e src c) = Some (Js.trimStart c).
Proof.
  intros Vs Vh Ve Vsrc Vc.
  destruct (lineValue_labels _ Vs) as (S1 & S2 & S3 & S4 & S5).
  destruct (lineValue_labels _ Vh) as (H1 & H2 & H3 & H4 & H5).
  destruct (lineValue_labels _ Ve) as (E1 & E2 & E3 & E4 & E5).
  destruct (lineValue_labels _ Vsrc) as (R1 & R2 & R3 & R4 & R5).
  repeat split.
  - eapply capture_field; [|exact Vs|right; eexists; reflexivity].
    unfold exampleFormat. exact (afterFirst_here "Shlok:" _).
  - eapply capture_field; [|exact Vh|right; eexists; reflexivity].
    unfold exampleFormat. skip_lines. exact (afterFirst_here "Meaning Hindi:" _).
  - eapply capture_field; [|exact Ve|right; eexists; reflexivity].
    unfold exampleFormat. skip_lines. exact (afterFirst_here "Meaning English:" _).
  - eapply capture_field; [|exact Vsrc|right; eexists; reflexivity].
    unfold exampleFormat. skip_lines. exact (afterFirst_here "Source:" _).
  - eapply (capture_field "Category:" _ c EmptyString); [|exact Vc|left; reflexivity].
    unfold exampleFormat. skip_lines. rewrite append_nil_r.
    exact (afterFirst_here "Category:" _).
Qed.

Lemma parseJsonFormat_labels (s h e src c : string) :
  ~ occurs "{" (exampleFormat s h e src c) ->
  parseJsonFormat (exampleFormat s h e src c) = Throw (mkError "SyntaxError").
Proof. exact (parseJsonFormat_S _). Qed.

(** X21.  An answer in the label format is accepted by every parser of
    both revisions.  When it has the layout of the example in the earlier
    prompt and each of its five values fits on its line (no line feed,
    not blank, none of the five labels inside), the text parser of the
    current revision and the parser of the earlier revision return the
    record of the trimmed values, with the category of the answer; so
    does the current parser, which tries JSON first, when the answer has
    no opening brace. *)
Theorem labelFormat_accepted (s h e src c : string) :
  lineValue s = true -> lineValue h = true -> lineValue e = true ->
  lineValue src = true -> lineValue c = true ->
  parseTextFormatResponse (exampleFormat s h e src c) = Ok (trimmedRecord s h e src c)
  /\ (forall w : World,
        Earlier.parseAIResponse (exampleFormat s h e src c) w
        = (Ok (trimmedRecord s h e src c), w))
  /\ (~ occurs "{" (exampleFormat s h e src c) ->
      parseAIResponse (exampleFormat s h e src c) = Ok (trimmedRecord s h e src c)).
Proof.
  intros Vs Vh Ve Vsrc Vc.
  destruct (exampleFormat_fields s h e src c Vs Vh Ve Vsrc Vc) as (F1 & F2 & F3 & F4 & F5).
  destruct (lineValue_facts _ Vs) as (_ & Ts & _ & _).
  destruct (lineValue_facts _ Vh) as (_ & Th & _ & _).
  destruct (lineValue_facts _ Ve) as (_ & Te & _ & _).
  destruct (lineValue_facts _ Vsrc) as (_ & Tsrc & _ & _).
  assert (P : parseTextFormatResponse (exampleFormat s h e src c)
              = Ok (trimmedRecord s h e src c)).
  { apply parseTextFormatResponse_ok. rewrite F1, F2, F3, F4, F5.
    assert (Tsrc' : Js.truthy (Js.trim src) = true)
      by (apply truthy_nonempty; exact Tsrc).
    rewrite Tsrc'.
    rewrite trim_trimStart. repeat split; assumption. }
  split; [exact P|]. split.
  - intros w. rewrite earlier_parseAIResponse_cases, P. reflexivity.
  - intros N. unfold parseAIResponse.
    rewrite (parseJsonFormat_labels s h e src c N), P. reflexivity.
Qed.

Lemma labelFormat_accepted_witness :
  parseTextFormatResponse
    (exampleFormat "कर्मण्येवाधिकारस्ते मा फलेषु कदाचन"
       "तुम्हारा अधिकार केवल कर्म करने में है, फल में नहीं।"
       "You have the right to perform your actions, but never to the fruits of those actions."
       " Bhagavad Gita " "karma")
  = Ok {| shlok := "कर्मण्येवाधिकारस्ते मा फलेषु कदाचन";
          meaning_hindi := "तुम्हारा अधिकार केवल कर्म करने में है, फल में नहीं।";
          meaning_english := "You have the right to perform your actions, but never to the fruits of those actions.";
          source := "Bhagavad Gita";
          category := Some "karma" |}
  /\ parseAIResponse (exampleFormat (nbsp ++ "X") ("Y" ++ nbsp) "Z" "S" "karma")
     = Ok {| shlok := "X"; meaning_hindi := "Y"; meaning_english := "Z";
             source := "S"; category := Some "karma" |}.
Proof.
  split.
  - refine (proj1 (labelFormat_accepted
                     "कर्मण्येवाधिकारस्ते मा फलेषु कदाचन"
                     "तुम्हारा अधिकार केवल कर्म करने में है, फल में नहीं।"
                     "You have the right to perform your actions, but never to the fruits of those actions."
                     " Bhagavad Gita " "karma" _ _ _ _ _));
      vm_compute; reflexivity.
  - refine (proj2 (proj2 (labelFormat_accepted (nbsp ++ "X") ("Y" ++ nbsp) "Z" "S" "karma"
                            _ _ _ _ _)) _);
      try (vm_compute; reflexivity).
    vm_compute. intuition discriminate.
Defined.
